(* ===== verification/_CoqProject ===== *)
-Q . S2P
Prelude.v
Checked.v
BN.v
Types.v
Amm.v
Position.v
Trade.v
Funding.v
User.v
Liquidation.v
Vaults.v
JsMap.v
Slots.v
Loader.v
LoaderSpec.v
LoadSystem.v
WebSocket.v
Polling.v
PollingSpec.v
Bulk.v
History.v
ChainAmm.v
ChainOracle.v
ChainPosition.v
Idl.v
ChainFunding.v
ChainTrade.v
ChainAgreement.v
ChainMargin.v
ChainBooks.v
ChainExchange.v
ChainRepeg.v
ChainAdmin.v
ChainMigration.v
ChainProtocol.v
ChainLedger.v
ChainSafety.v
ChainHistories.v
ChainGuarantees.v
Client.v
Admin.v
ClientSpec.v
WsClearingHouse.v
WsListeners.v
WsFields.v
WsClearingHouseSpec.v
WsUser.v
Bytes.v
Pyth.v
PythSpec.v
Token.v
Session.v
ClientSession.v
AccountTypes.v
Faucet.v
FaucetSpec.v
FaucetProgram.v
Config.v
Cli.v
CliSpec.v
Stress.v
StressSpec.v
Example.v
Witnesses.v
ToolWitnesses.v
ChainWitnesses.v
