(* ===== verification/Prelude.v ===== *)
(** * Drift protocol v1, TypeScript SDK: verification development

    The repository holds a perpetual-futures exchange on Solana: an on-chain
    program in Rust and the TypeScript SDK clients use to read its accounts,
    price trades, watch risk and send instructions.  This development models the
    SDK's own logic under src/sdk/src: the arithmetic of the virtual AMM and of
    users' risk, the account layer that keeps local copies of accounts current,
    and the requests the clients send; the programs written on top of it, the
    command line (src/cli), the stress test and the price feeds of the tests
    (src/stress); and the exchange itself, the whole of programs/clearing_house,
    so that the two can be compared and runs of the exchange can be reasoned
    about.

    ** Parts and files

    - Prelude.v: exceptions ([JsError]), the error monad [result], array access
      and [reduce], the bounded loop [iter_until], truncated division, tactics.
    - BN.v: bn.js.  Its integers are [Z] (they do not overflow); its division,
      conversions and error are the interface [BNLib] with the laws [BNLaws] it
      documents (truncated division, an exception on zero, on unsafe integers
      and on NaN).  JavaScript numbers where the code computes with them are
      IEEE doubles ([spec_float]).  Object identity, which [===] observes, is
      the address of a [BNObj].  [BN_reference] is one implementation.
    - Types.v: constants/numericConstants.ts, the account types of types.ts,
      assert/assert.ts.
    - Amm.v: math/amm.ts (prices, swaps, terminal price), math/market.ts,
      math/conversion.ts.  Position.v: math/position.ts, and the cost functions
      of math/amm.ts that value the users' net position.  Trade.v:
      math/trade.ts and the square root of math/utils.ts.  Funding.v:
      math/funding.ts.  Vaults.v: math/insuranceFund.ts.
    - User.v, Liquidation.v: clearingHouseUser.ts.  The object's four account
      getters are the fields of the record [ClearingHouseUser]; each is a
      [result], since they throw before a subscription.
    - JsMap.v: insertion-ordered maps.  Slots.v: the rule by which an account's
      stored slot and buffer give way to an answer ([absorb]), with its
      consequences; it is the contract of the two files below.
    - Loader.v, LoaderSpec.v: accounts/bulkAccountLoader.ts, definitions and
      theorems.  [AccountToLoad] objects are shared between the map and a load
      in flight, so they live in a store ([l_heap]).  Callbacks are values whose
      effect is to complete or throw (class [Callbacks]); their calls are a log.
    - LoadSystem.v: concurrent calls of [load].  A step is one turn of the event
      loop (a client call, the start of a load, an answer, the end of a load)
      and [run] executes any interleaving.
    - WebSocket.v: accounts/webSocketAccountSubscriber.ts, as a system whose
      steps split [subscribe] at its await.
    - Polling.v, PollingSpec.v: accounts/pollingClearingHouseAccountSubscriber.ts
      and accounts/pollingUserAccountSubscriber.ts, clients of Loader.v proved
      against its registry lemmas; their closures instantiate [Callbacks].
    - Bulk.v: accounts/bulkUserSubscription.ts, many polling users over one
      loader; the calls of a [Promise.all] settle in any order.
    - WsClearingHouse.v: accounts/webSocketClearingHouseAccountSubscriber.ts. The
      websocket account subscribers it makes live in a heap and its fields point
      into it; [subscribe], [fetch] and [unsubscribe] are cut at their awaits
      ([Phase], [Teardown]) and [wchRun] executes any interleaving.
      WsListeners.v: who owns the listeners; WsFields.v: which fields point to
      an object; WsClearingHouseSpec.v: the theorems.  WsUser.v:
      accounts/webSocketUserAccountSubscriber.ts in the same way.
    - Token.v: token/index.ts and accounts/pollingTokenAccountSubscriber.ts.
    - Bytes.v, Pyth.v, PythSpec.v: Node's buffers and the hand-written word
      readers, the two parsers of stress/mockPythUtils.ts, and the layout of the
      price account in programs/pyth/src/pc.rs, as an encoder, with the two
      instructions on it.
    - Idl.v: the instructions of idl/clearing_house.json, what it means for a
      request to conform to them, and how the program reads a request's optional
      accounts (programs/clearing_house/src/optional_accounts.rs).
    - Client.v, Admin.v: clearingHouse.ts with addresses.ts, and admin.ts.  The
      object's caches are the record [Client]; a method is a function of it that
      may throw ([Method]) and gives the transactions it sends.  What a call
      reads of the chain and of the account subscriber is a [Chain].
    - ClientSpec.v: the theorems on both, proved with one triple ([spec]).
    - Session.v: what a client uses of its account subscriber, as the class
      [AccountSource] with laws, and the four subscribers as its instances.
      ClientSession.v: factory/, the subscription flag, and the clients proved
      against the interface.
    - AccountTypes.v: the account types of types.ts and the layouts of the IDL, as tables,
      what anchor decodes by a layout, and a checked comparison of the two.
    - Faucet.v, FaucetSpec.v: mockUSDCFaucet.ts with idl/mock_usdc_faucet.json,
      and [initializeUserAccountForDevnet] of clearingHouse.ts, whose one
      transaction mixes instructions of three programs.  FaucetProgram.v:
      programs/mock_usdc_faucet, running the requests of the SDK.
    - Config.v: config.ts and constants/markets.ts.  Cli.v, CliSpec.v: cli.ts. A
      command is a function of the client that writes a log of what it does
      ([CliEvent]) and may throw; the answers to its questions, the subscriptions
      and the network are a [CliEnv].
    - Stress.v, StressSpec.v: stress/stress.ts, stressUtils.ts and mockAccounts.ts: the
      events, the set-up, the CSV files and the run.
    - Example.v: examples/makeTradeExample.ts as a script of the client, and the statistics of
      util/.

    The on-chain program is modelled in its own files; its integers are [Z] with the
    width of each checked operation, and its accounts are the records of Types.v:

    - Checked.v: error.rs, the result type and the checked operations of Rust.  A
      panic and an error code both undo the instruction.
    - History.v: state/history, the rings of records, generic in the record.
    - ChainAmm.v: math/amm.rs, math/quote_asset.rs, controller/amm.rs.  ChainOracle.v:
      the oracle and its guards (state/market.rs, math/oracle.rs, math/amm.rs).
      ChainPosition.v: math/position.rs, pnl.rs, collateral.rs, margin.rs, repeg.rs,
      withdrawal.rs and controller/position.rs.  ChainFunding.v: math/fees.rs,
      math/funding.rs, controller/funding.rs.
    - ChainTrade.v: the handlers of lib.rs a user calls (open_position, close_position,
      deposit_collateral, withdraw_collateral, liquidate, settle_funding_payment), each
      a function of the accounts it may change ([Accounts]).
    - ChainAgreement.v, ChainMargin.v: the program against the SDK.
    - ChainBooks.v: the operations on one position and the totals of its market, the
      round trip; ChainExchange.v: the abstract exchange, a step relation over all users'
      positions and all markets, whose steps keep the books.
    - ChainRepeg.v: controller/repeg.rs and the handlers of lib.rs that move a curve
      (repeg_amm_curve, update_k, move_amm_price, the two on the oracle's TWAP).
    - ChainAdmin.v: the remaining handlers of lib.rs: initialisation of the exchange, the
      histories, markets and users (user_initialization.rs), the deletion of a user,
      fee and insurance withdrawals, the administrator's setters, one function
      [update_state].  ChainMigration.v: what update_curve_history keeps.
    - ChainProtocol.v: the program as one machine.  [Protocol] holds every account,
      [Context] is what a transaction brings, [exec] checks what context.rs asks of an
      instruction's accounts and runs its handler, [run_protocol] runs transactions, of
      which those that fail change nothing.
    - ChainLedger.v: the class [Typed] (integers fit their declared types) and a lemma per
      function and handler: what it does to the types, to a market in use, to the
      fees.  ChainSafety.v: the invariant [wf] of every [exec], and [view], by which runs of
      the machine are runs of the abstract exchange.  ChainHistories.v: the types of the
      records of the six histories, and that every instruction writes records that fit
      them.  ChainGuarantees.v: the theorems on runs from a new exchange, who may change
      what, and runs that go wrong.

    - Witnesses.v, ToolWitnesses.v, ChainWitnesses.v: the theorems applied to concrete
      data.

    ** What is shown

    Curve: swaps never create value, are path independent and move the price
    their way; every outcome of a base withdrawal.  Positions: the code's value
    is the curve's, opening and valuing makes no profit, funding has the right
    sign, repegging costs the change in value.  Trades: the square root is
    right and ends, slippage is completely determined, a returned target trade has
    the size and the entry price of the curve's reserves at its target and passes it by
    less than 100000 units.  Funding: the capped estimate, its failures, the drift of the
    oracle TWAP.  Users: the liquidation threshold, the liquidation price, the
    sizing of trades, PnL by market.  Accounts: answers implement the slot rule
    in both subscribers, slots never go back, the loader's registry is a set,
    the timer runs exactly when needed, a removed callback stays silent, loads
    end in calm runs, and subscriptions, their error callbacks included, are taken back
    whole whatever loads ran meanwhile; with the runs in
    which promises, listeners or callbacks are lost.  Requests: they conform to
    the IDL and carry the signatures it wants, their arguments and optional
    accounts arrive as meant, addresses follow the wallet; with the copy of the
    user account that is never refreshed.  Composed subscribers: while no
    subscription fails, listeners belong to accounts the object still holds and none
    is left after a complete unsubscribe (after one that fails, none is ever taken
    back), the getters answer by what was asked for, a subscription whose
    fetches are answered ends; with the failures that last for ever.  Sessions: a
    client that says it is subscribed can read, one whose subscriber is not
    throws before it builds a transaction, whichever subscriber it has, but in
    deleteUser, which reads no subscribed account.  Token
    accounts are well formed; many users subscribe with one request.  Feeds: the
    parser reads back the layout of the program but for negative prices and for what
    follows a component without publisher, the word readers are the signed
    and unsigned words, the loops end.  Tools: a command unsubscribes whatever
    happens, sends only well-formed requests, changes k only within its guards
    and pauses only when it is confirmed; the devnet set-up; what a simulated
    event sends, that a timeline is replayed with its markets' indices multiplied by
    ten, and that the stress test never ends well.

    The SDK and the program: the preview of a trade, the value and the profit of a
    position, the cost of a re-peg, the margin ratio and the threshold of
    liquidation are the program's, exactly; the funding estimate differs by less
    than a unit per position; the fee shown is the one before discounts; and the
    types the SDK declares are those decoded, but for five fields that do not exist.
    The program: after any run, from its initialisation, of any instructions of anybody,
    every integer of the accounts and of the histories fits its type, at most half of a market's fees was withdrawn, and
    the markets' totals are the sums over the users' positions, as long as the curves
    are fine enough and nobody is deleted with an open position; the state changes
    only by the administrator, a user only by their own authority, a settlement or a
    liquidation that is due, and every transfer is signed for; a pause stops what it
    should, and price control given up stays so.  A round trip makes no profit; a
    withdrawal and a funding update stay within what there is; changes of peg and of
    k stay within their guards; the histories keep the last records in order.  And
    where the program falls short: exactly when a change of k inverts small trades, when a
    re-peg nobody pays for is accepted, fees spent twice, a user deleted with a position
    open, histories that can be initialised again, and the numbers of the curve's history,
    which start again after 1023 updates and are used twice after a migration of more than
    32 updates, unless these are a multiple of 32.

    ** Bounds and fuel

    [squareRootBN] loops at most [Number.MAX_SAFE_INTEGER] times;
    [iter_until] counts that bound in binary and [squareRootBN_correct] shows
    that arguments of up to 2^52 bits stop before it.  The loops of the two feed
    parsers get one more turn than the buffer has bytes, and
    [pyth_parsers_terminate] shows that they never use it up.  Nothing else needs
    fuel: the other recursions are structural.

    ** Assumptions and omissions

    The rings of History.v have any number of slots (1024 in the program).  The
    theorem on the books asks that a run is [careful]: the curves in use are [good] when
    an instruction runs, that is, rounded by less than the smallest trade, which
    update_k can undo, as k_update_inverts_small_trades says; a partial liquidation closes a
    part; and a user who is deleted has no open position, which delete_user_breaks_books
    shows to be needed.  In [Protocol] a transaction that names another account than the
    one the state holds is one that fails, and is left out; the balances of the
    vaults are given to an instruction and its transfers are its answer, since the
    token program keeps them.

    Callbacks do not call the loader back while it runs them.  Derived
    addresses, RPC answers, timers, uuids, decoders, new key pairs and clocks
    are arguments, and so are the powers of ten the feed parsers compute in
    doubles.  The methods of the clients run one at a time; the network's answer
    to a transaction is modelled only where the command line and the stress test
    report it.  Not modelled: wallet.ts, tx/defaultTxSender.ts and pythClient.ts,
    which wrap third-party calls; in cli.ts the parsing of arguments, the
    key pair file and the texts of its messages; stress/mockCranker.ts, which imports classes the SDK does not export; the rows
    of the stress test's state timeline, which no run reaches; math/collateral.ts, which
    refers to a name it does not import.  In the program: the serialisation of accounts
    and the checks of ownership that anchor generates, and the token program itself. *)

From Stdlib Require Export ZArith Lia.
From stdpp Require Export base numbers list strings gmap.

#[global] Open Scope Z_scope.

(** ** JavaScript exceptions and the error monad

    A function of the SDK either returns a value or throws.  [JsErr] is an
    [Error] the SDK raises itself (its message kept), [NotSubscribedError] is
    the class of src/sdk/src/accounts/types.ts, [TypeError] is what reading a
    property of [undefined] raises, and [LibErr] stands for whatever error
    object code outside the repository throws or rejects with. *)
Inductive JsError :=
  | JsErr (msg : string)
  | NotSubscribedError (msg : string)
  | TypeError
  | LibErr (msg : string).

#[export] Instance JsError_eq_dec : EqDecision JsError.
Proof. solve_decision. Defined.

Inductive result (A : Type) :=
  | Ok (a : A)
  | Throw (e : JsError).
Arguments Ok {A} a.
Arguments Throw {A} e.

#[export] Instance result_ret : MRet result := fun A a => Ok a.
#[export] Instance result_bind : MBind result :=
  fun A B f r => match r with Ok a => f a | Throw e => Throw e end.
#[export] Instance result_fmap : FMap result :=
  fun A B f r => match r with Ok a => Ok (f a) | Throw e => Throw e end.

#[export] Instance result_eq_dec `{EqDecision A} : EqDecision (result A).
Proof. solve_decision. Defined.

(** Reading a property of a value that may be [undefined]. *)
Definition deref {A} (o : option A) : result A :=
  match o with Some a => Ok a | None => Throw TypeError end.

(** [xs[i]] of a JavaScript array: [undefined] outside [0 .. length - 1]. *)
Definition js_index {A} (l : list A) (i : Z) : option A :=
  if (0 <=? i)%Z then l !! Z.to_nat i else None.

(** [xs.reduce(f, init)] where the callback may throw. *)
Fixpoint reduceM {A B} (f : B -> A -> result B) (l : list A) (init : B) : result B :=
  match l with
  | [] => Ok init
  | x :: l' => acc ← f init x; reduceM f l' acc
  end.

Lemma bind_Ok {A B} (a : A) (f : A -> result B) : Ok a ≫= f = f a.
Proof. reflexivity. Qed.

Lemma bind_Throw {A B} (e : JsError) (f : A -> result B) : Throw e ≫= f = Throw e.
Proof. reflexivity. Qed.

Lemma bind_Ok_inv {A B} (r : result A) (f : A -> result B) b :
  r ≫= f = Ok b -> exists a, r = Ok a /\ f a = Ok b.
Proof. destruct r; [eauto | discriminate]. Qed.

(** A reduction by additions is the start plus the sum of the contributions. *)
Lemma reduceM_sum {A} (g : A -> result Z) (l : list A) (vs : list Z) (init : Z) :
  Forall2 (fun x v => g x = Ok v) l vs ->
  reduceM (fun acc x => v ← g x; Ok (acc + v)) l init = Ok (init + foldr Z.add 0 vs).
Proof.
  intros H. revert init. induction H as [| x v l vs Hx H IH]; intros init; cbn.
  - f_equal; lia.
  - rewrite Hx. cbn. rewrite IH. f_equal; lia.
Qed.

(** A step that throws makes the whole reduction throw. *)
Lemma reduceM_throw {A} (g : A -> result Z) (l1 l2 : list A) (x : A) (vs : list Z) e init :
  Forall2 (fun x v => g x = Ok v) l1 vs -> g x = Throw e ->
  reduceM (fun acc x => v ← g x; Ok (acc + v)) (l1 ++ x :: l2) init = Throw e.
Proof.
  intros H Hx. revert init. induction H as [| y v l vs Hy H IH]; intros init; cbn.
  - by rewrite Hx.
  - rewrite Hy. cbn. apply IH.
Qed.

Lemma Exists_skip {A} (P : A -> Prop) (x : A) (l : list A) :
  ~ P x -> Exists P (x :: l) <-> Exists P l.
Proof. rewrite Exists_cons. tauto. Qed.

(** ** Bounded loops

    [iter_until p step s] runs [step] at most [p] times, stopping at the first
    [inr].  The recursion is on the binary digits of [p], so a loop whose bound
    is [Number.MAX_SAFE_INTEGER] still evaluates. *)
Fixpoint iter_until {S R} (p : positive) (step : S -> S + R) (s : S) : S + R :=
  match p with
  | xH => step s
  | xO p' => match iter_until p' step s with
             | inl s' => iter_until p' step s'
             | inr r => inr r
             end
  | xI p' => match step s with
             | inl s1 => match iter_until p' step s1 with
                         | inl s' => iter_until p' step s'
                         | inr r => inr r
                         end
             | inr r => inr r
             end
  end.

(** The same loop with unary fuel, for proofs. *)
Fixpoint iter_nat {S R} (n : nat) (step : S -> S + R) (s : S) : S + R :=
  match n with
  | O => inl s
  | S n' => match step s with inl s' => iter_nat n' step s' | inr r => inr r end
  end.

Lemma iter_nat_add {S R} (n m : nat) (step : S -> S + R) s :
  iter_nat (n + m) step s =
  match iter_nat n step s with inl s' => iter_nat m step s' | inr r => inr r end.
Proof. revert s. induction n as [| n IH]; intros s; cbn; [done |]. destruct (step s); auto. Qed.

Lemma iter_until_nat {S R} (p : positive) (step : S -> S + R) s :
  iter_until p step s = iter_nat (Pos.to_nat p) step s.
Proof.
  revert s. induction p as [p IH | p IH |]; intros s; cbn [iter_until].
  - rewrite Pos2Nat.inj_xI. cbn [iter_nat].
    replace (2 * Pos.to_nat p)%nat with (Pos.to_nat p + Pos.to_nat p)%nat by lia.
    destruct (step s) as [s1 |]; [| done]. rewrite iter_nat_add, IH.
    destruct (iter_nat (Pos.to_nat p) step s1); [apply IH | done].
  - rewrite Pos2Nat.inj_xO.
    replace (2 * Pos.to_nat p)%nat with (Pos.to_nat p + Pos.to_nat p)%nat by lia.
    rewrite iter_nat_add, IH. destruct (iter_nat (Pos.to_nat p) step s); [apply IH | done].
  - change (Pos.to_nat 1) with 1%nat. cbn. by destruct (step s).
Qed.

(** A loop that stops within [n] steps stops with the same result under any
    larger bound. *)
Lemma iter_nat_stop {S R} (n m : nat) (step : S -> S + R) s r :
  (n <= m)%nat -> iter_nat n step s = inr r -> iter_nat m step s = inr r.
Proof.
  intros Hle H. replace m with (n + (m - n))%nat by lia. by rewrite iter_nat_add, H.
Qed.

(** ** Truncated division

    bn.js divides towards zero, as [Z.quot] does. *)
Lemma quot_div_pos a b : 0 <= a -> 0 < b -> a `quot` b = a / b.
Proof. intros. apply Z.quot_div_nonneg; lia. Qed.

Lemma quot_nonneg a b : 0 <= a -> 0 < b -> 0 <= a `quot` b.
Proof. intros. apply Z.quot_pos; lia. Qed.

Lemma quot_mono a b c : 0 < c -> a <= b -> a `quot` c <= b `quot` c.
Proof. intros. apply Z.quot_le_mono; lia. Qed.

Lemma quot_abs_le a b : 0 < b -> Z.abs (a `quot` b) <= Z.abs a.
Proof.
  intros Hb. rewrite <- (Z.quot_abs a b) by lia. rewrite (Z.abs_eq b) by lia.
  rewrite quot_div_pos by lia. apply Z.div_le_upper_bound; nia.
Qed.

Lemma quot_bounds a b : 0 <= a -> 0 < b -> b * (a `quot` b) <= a < b * (a `quot` b + 1).
Proof.
  intros. rewrite quot_div_pos by lia.
  pose proof (Z.mul_div_le a b). pose proof (Z.mul_succ_div_gt a b). lia.
Qed.

(** Ltac used throughout: evaluate the monadic plumbing around known results. *)
Ltac res_simpl :=
  repeat first
    [ rewrite bind_Ok | rewrite bind_Throw
    | progress cbn [mret result_ret fmap result_fmap] ].

(** Invert a hypothesis [m ≫= f = Ok b] step by step. *)
Ltac inv_bind H :=
  let a := fresh "v" in let Ha := fresh "Hv" in
  apply bind_Ok_inv in H as (a & Ha & H).

(** Case analysis on the boolean integer comparisons of the goal. *)
Ltac zcases :=
  repeat match goal with
  | |- context [(?a <=? ?b)%Z] => destruct (Z.leb_spec a b)
  | |- context [(?a <? ?b)%Z] => destruct (Z.ltb_spec a b)
  | |- context [(?a =? ?b)%Z] => destruct (Z.eqb_spec a b)
  end.

Create HintDb bn.
#[export] Hint Resolve quot_nonneg quot_mono : bn.
