(* ===== verification/Checked.v ===== *)
(** * Checked arithmetic of the on-chain program

    The Rust program under src/programs/clearing_house computes on fixed-width
    integers, and almost only through [checked_add] and its kin, conversions and
    the wide types of math/bn.rs.  An integer is a [Z] with the width an operation
    is done at; an operation whose exact result does not fit is the error the code
    raises.  A failed instruction changes no account, so a computation that fails
    is an error alone, without a state. *)
From S2P Require Import Prelude.

(** error.rs *)
Inductive ErrorCode :=
  | InvalidCollateralAccountAuthority | InvalidInsuranceAccountAuthority | InsufficientDeposit
  | InsufficientCollateral | SufficientCollateral | MaxNumberOfPositions
  | AdminControlsPricesDisabled | MarketIndexNotInitialized | MarketIndexAlreadyInitialized
  | UserAccountAndUserPositionsAccountMismatch | UserHasNoPositionInMarket | InvalidInitialPeg
  | InvalidRepegRedundant | InvalidRepegDirection | InvalidRepegProfitability
  | SlippageOutsideLimit | TradeSizeTooSmall | InvalidUpdateK | AdminWithdrawTooLarge | MathError
  | BnConversionError | ClockUnavailable | UnableToLoadOracle | OracleMarkSpreadLimit
  | HistoryAlreadyInitialized | ExchangePaused | InvalidWhitelistToken | WhitelistTokenNotFound
  | InvalidDiscountToken | DiscountTokenNotFound | InvalidReferrer | ReferrerNotFound
  | InvalidOracle | OracleNotFound | LiquidationsBlockedByOracle | UserMaxDeposit
  | CantDeleteUserWithCollateral | InvalidFundingProfitability | CastingFailure.

(** How an instruction fails: with an error of the program, by a panic (an
    [unwrap] of nothing, an index out of bounds, a division by zero, a failed
    [assert!]), or because an account is not the one context.rs asks for; each undoes it. *)
Inductive Fault := Code (e : ErrorCode) | Panic | Constraint.

#[export] Instance ErrorCode_eq_dec : EqDecision ErrorCode.
Proof. solve_decision. Defined.
#[export] Instance Fault_eq_dec : EqDecision Fault.
Proof. solve_decision. Defined.

(** [ClearingHouseResult] *)
Inductive ClearingHouseResult (A : Type) :=
  | ROk (a : A)
  | RErr (f : Fault).
Arguments ROk {A} a.
Arguments RErr {A} f.

#[export] Instance rust_ret : MRet ClearingHouseResult := fun A a => ROk a.
#[export] Instance rust_bind : MBind ClearingHouseResult :=
  fun A B f r => match r with ROk a => f a | RErr e => RErr e end.
#[export] Instance rust_fmap : FMap ClearingHouseResult :=
  fun A B f r => match r with ROk a => ROk (f a) | RErr e => RErr e end.

(** [return Err(e)] *)
Definition err {A} (e : ErrorCode) : ClearingHouseResult A := RErr (Code e).

Inductive width := U64 | U128 | U192 | U256 | I64 | I128.
Definition lowest (w : width) : Z :=
  match w with I64 => - 2 ^ 63 | I128 => - 2 ^ 127 | _ => 0 end.
Definition highest (w : width) : Z :=
  match w with
  | U64 => 2 ^ 64 - 1 | U128 => 2 ^ 128 - 1 | U192 => 2 ^ 192 - 1 | U256 => 2 ^ 256 - 1
  | I64 => 2 ^ 63 - 1 | I128 => 2 ^ 127 - 1
  end.
Definition fits (w : width) (z : Z) : bool := (lowest w <=? z) && (z <=? highest w).

(** [checked_op(..).ok_or_else(math_error!())?] *)
Definition checked (w : width) (z : Z) : ClearingHouseResult Z :=
  if fits w z then ROk z else err MathError.
Definition checked_add (w : width) (x y : Z) : ClearingHouseResult Z := checked w (x + y).
Definition checked_sub (w : width) (x y : Z) : ClearingHouseResult Z := checked w (x - y).
Definition checked_mul (w : width) (x y : Z) : ClearingHouseResult Z := checked w (x * y).
Definition checked_div (w : width) (x y : Z) : ClearingHouseResult Z :=
  if y =? 0 then err MathError else checked w (x `quot` y).

(** The operator [/], and [cast] of math/casting.rs and [try_to_u128] of
    math/bn.rs. *)
Definition div (x y : Z) : ClearingHouseResult Z := if y =? 0 then RErr Panic else ROk (x `quot` y).
Definition cast (w : width) (z : Z) : ClearingHouseResult Z :=
  if fits w z then ROk z else err CastingFailure.
Definition try_to_u128 (z : Z) : ClearingHouseResult Z :=
  if fits U128 z then ROk z else err BnConversionError.

(** [x.ok()] and [assert!(b)] *)
Definition ok {A} (r : ClearingHouseResult A) : option A :=
  match r with ROk a => Some a | RErr _ => None end.
Definition ensure (b : bool) (e : ErrorCode) : ClearingHouseResult unit :=
  if b then ROk tt else err e.

(** ** What a computation that succeeded says *)
Lemma rust_bind_inv {A B} (r : ClearingHouseResult A) (f : A -> ClearingHouseResult B) b :
  r ≫= f = ROk b -> exists a, r = ROk a /\ f a = ROk b.
Proof. destruct r; [eauto | discriminate]. Qed.

Lemma fits_iff w z : fits w z = true <-> lowest w <= z <= highest w.
Proof. unfold fits. rewrite andb_true_iff, !Z.leb_le. done. Qed.

Lemma checked_inv w z r : checked w z = ROk r -> r = z /\ lowest w <= z <= highest w.
Proof. unfold checked. destruct (fits w z) eqn:E; [| done]. intros [= <-]. by apply fits_iff in E. Qed.

Lemma checked_fits w z : lowest w <= z <= highest w -> checked w z = ROk z.
Proof. intros H. unfold checked. by rewrite (proj2 (fits_iff w z) H). Qed.

Lemma checked_div_inv w x y r : checked_div w x y = ROk r ->
  y <> 0 /\ r = x `quot` y /\ lowest w <= r <= highest w.
Proof.
  unfold checked_div. destruct (Z.eqb_spec y 0); [done |]. intros H.
  apply checked_inv in H as [-> ?]. done.
Qed.

Lemma div_inv x y r : div x y = ROk r -> y <> 0 /\ r = x `quot` y.
Proof. unfold div. destruct (Z.eqb_spec y 0); [done |]. by intros [= <-]. Qed.

Lemma cast_inv w z r : cast w z = ROk r -> r = z /\ lowest w <= z <= highest w.
Proof. unfold cast. destruct (fits w z) eqn:E; [| done]. intros [= <-]. by apply fits_iff in E. Qed.

Lemma try_to_u128_inv z r : try_to_u128 z = ROk r -> r = z /\ 0 <= z <= highest U128.
Proof. unfold try_to_u128. destruct (fits U128 z) eqn:E; [| done]. intros [= <-]. by apply fits_iff in E. Qed.

Lemma ensure_inv b e u : ensure b e = ROk u -> b = true.
Proof. by destruct b. Qed.

(** Take a successful computation apart, one step at a time. *)
Ltac rust_step :=
  match goal with
  | H : ROk _ = ROk _ |- _ => injection H as H
  | H : RErr _ = ROk _ |- _ => discriminate H
  | H : err _ = ROk _ |- _ => discriminate H
  | H : mret _ = ROk _ |- _ => injection H as H
  | H : (_ ≫= _) = ROk _ |- _ =>
      let v := fresh "v" in let E := fresh "E" in
      apply rust_bind_inv in H as (v & E & H)
  | H : checked_add _ _ _ = ROk _ |- _ => apply checked_inv in H as [-> H]
  | H : checked_sub _ _ _ = ROk _ |- _ => apply checked_inv in H as [-> H]
  | H : checked_mul _ _ _ = ROk _ |- _ => apply checked_inv in H as [-> H]
  | H : checked_div _ _ _ = ROk _ |- _ =>
      let E := fresh "Hnz" in apply checked_div_inv in H as (E & -> & H)
  | H : div _ _ = ROk _ |- _ => let E := fresh "Hnz" in apply div_inv in H as [E ->]
  | H : cast _ _ = ROk _ |- _ => apply cast_inv in H as [-> H]
  | H : try_to_u128 _ = ROk _ |- _ => apply try_to_u128_inv in H as [-> H]
  | H : ensure _ _ = ROk _ |- _ => apply ensure_inv in H
  | H : match ?v with pair _ _ => _ end = ROk _ |- _ => destruct v as [? ?]
  | H : (_, _) = (_, _) |- _ => injection H as H
  end.
Ltac rust_inv := repeat rust_step.

(** Bounds as numbers, for [lia]. *)
Ltac widths := cbn [lowest highest] in *.
