(* ===== verification/BN.v ===== *)
(** * Numbers: bn.js integers and JavaScript doubles

    The SDK computes with [BN] objects of the bn.js package, which is not part
    of the repository.  A [BN] is represented by the integer it denotes; its
    exact operations ([add], [sub], [mul], [neg], [abs], the comparisons,
    [BN.max] and [BN.min]) are those of [Z].  The operations that can throw or
    that leave the integers are a parameter of the development, the class
    [BNLib]; [BNLaws] states the documented behaviour the SDK relies on.
    [BN_reference] is one implementation of the interface, used by the concrete
    witnesses. *)
From Stdlib Require Import SpecFloat.
From stdpp Require Import pretty.
From S2P Require Import Prelude.

(** ** JavaScript numbers *)

(** An IEEE-754 double. *)
Definition Number := spec_float.

Definition prec53 : Z := 53.
Definition emax1024 : Z := 1024.

Definition num_of_Z (z : Z) : Number := binary_normalize prec53 emax1024 z 0 false.
Definition num_add : Number -> Number -> Number := SFadd prec53 emax1024.
Definition num_mul : Number -> Number -> Number := SFmul prec53 emax1024.
Definition num_div : Number -> Number -> Number := SFdiv prec53 emax1024.

(** [x >= 0]; false on NaN. *)
Definition num_ge0 (x : Number) : bool := SFleb (S754_zero false) x.

(** The integer part of a finite double; [None] for NaN and the infinities. *)
Definition num_trunc (x : Number) : option Z :=
  match x with
  | S754_zero _ => Some 0
  | S754_finite s m e =>
      let a := Z.shiftl (Zpos m) e in Some (if s then - a else a)
  | _ => None
  end.

Definition MAX_SAFE_INTEGER : Z := 9007199254740991.

(** A [BN] object with its identity: two objects may denote the same integer
    and still differ under [===].  [bo_addr] is [None] for an object allocated
    by the call under consideration, which is none of those the accounts hold. *)
Record BNObj := mkBNObj { bo_addr : option positive; bo_val : Z }.

(** [a === b] on objects. *)
Definition strict_eq (a b : BNObj) : bool :=
  match bo_addr a, bo_addr b with
  | Some x, Some y => Pos.eqb x y
  | _, _ => false
  end.

(** [new BN(x)]: a fresh object with the same integer. *)
Definition new_BN (z : Z) : BNObj := mkBNObj None z.

(** ** The bn.js interface *)
Class BNLib := {
  bn_div : Z -> Z -> result Z;          (** [a.div(b)] *)
  bn_mod : Z -> Z -> result Z;          (** [a.mod(b)] *)
  bn_toNumber : Z -> result Z;          (** [a.toNumber()], a safe integer *)
  bn_ofNumber : Number -> result Z;     (** [new BN(x)] of a double *)
  bn_toString : Z -> string;            (** [a.toString()] *)
  bn_error : JsError                    (** what a failed bn.js assertion throws *)
}.

(** Documented behaviour: division and remainder truncate towards zero and
    refuse a zero divisor; [toNumber] refuses more than 53 bits; the
    constructor drops the fraction and refuses NaN and what is not below 2^53
    in magnitude. *)
Class BNLaws (B : BNLib) : Prop := {
  bn_div_nonzero : forall a b, b <> 0 -> bn_div a b = Ok (a `quot` b);
  bn_div_zero : forall a, bn_div a 0 = Throw bn_error;
  bn_mod_nonzero : forall a b, b <> 0 -> bn_mod a b = Ok (a `rem` b);
  bn_mod_zero : forall a, bn_mod a 0 = Throw bn_error;
  bn_toNumber_safe : forall a, Z.abs a <= MAX_SAFE_INTEGER -> bn_toNumber a = Ok a;
  bn_toNumber_unsafe : forall a, MAX_SAFE_INTEGER < Z.abs a -> bn_toNumber a = Throw bn_error;
  bn_ofNumber_int : forall x z,
    num_trunc x = Some z -> Z.abs z <= MAX_SAFE_INTEGER -> bn_ofNumber x = Ok z;
  bn_ofNumber_big : forall x z,
    num_trunc x = Some z -> MAX_SAFE_INTEGER < Z.abs z -> bn_ofNumber x = Throw bn_error;
  bn_ofNumber_nan : forall x, num_trunc x = None -> bn_ofNumber x = Throw bn_error
}.

(** One implementation of the interface. *)
Definition BN_reference : BNLib := {|
  bn_div := fun a b => if b =? 0 then Throw (LibErr "Assertion failed") else Ok (a `quot` b);
  bn_mod := fun a b => if b =? 0 then Throw (LibErr "Assertion failed") else Ok (a `rem` b);
  bn_toNumber := fun a =>
    if Z.abs a <=? MAX_SAFE_INTEGER then Ok a else Throw (LibErr "Assertion failed");
  bn_ofNumber := fun x =>
    match num_trunc x with
    | Some z => if Z.abs z <=? MAX_SAFE_INTEGER then Ok z else Throw (LibErr "Assertion failed")
    | None => Throw (LibErr "Assertion failed")
    end;
  bn_toString := fun z => pretty z;
  bn_error := LibErr "Assertion failed"
|}.

Lemma BN_reference_laws : BNLaws BN_reference.
Proof.
  split; cbn; intros.
  - by rewrite (proj2 (Z.eqb_neq b 0)).
  - done.
  - by rewrite (proj2 (Z.eqb_neq b 0)).
  - done.
  - by rewrite (proj2 (Z.leb_le _ _)).
  - by rewrite (proj2 (Z.leb_gt _ _)).
  - rewrite H. by rewrite (proj2 (Z.leb_le _ _)).
  - rewrite H. by rewrite (proj2 (Z.leb_gt _ _)).
  - by rewrite H.
Qed.

(** ** Consequences shared by the components *)
Section BNFacts.
Context {B : BNLib} {L : BNLaws B}.

Lemma bn_div_pos a b : 0 <= a -> 0 < b -> bn_div a b = Ok (a / b).
Proof. intros. rewrite bn_div_nonzero by lia. by rewrite quot_div_pos. Qed.

(** Division succeeds exactly on nonzero divisors. *)
Lemma bn_div_Ok_inv a b q : bn_div a b = Ok q -> b <> 0 /\ q = a `quot` b.
Proof.
  intros H. destruct (decide (b = 0)) as [-> | Hb].
  - rewrite bn_div_zero in H. discriminate.
  - rewrite bn_div_nonzero in H by done. split; congruence.
Qed.

Lemma bn_toNumber_Ok_inv a n : bn_toNumber a = Ok n -> n = a /\ Z.abs a <= MAX_SAFE_INTEGER.
Proof.
  intros H. destruct (Z.le_gt_cases (Z.abs a) MAX_SAFE_INTEGER) as [Ha | Ha].
  - rewrite bn_toNumber_safe in H by done. split; congruence.
  - rewrite bn_toNumber_unsafe in H by done. discriminate.
Qed.
End BNFacts.

(** Run the divisions of the goal whose divisors are visibly nonzero. *)
Ltac bn_run :=
  repeat first
    [ rewrite bn_div_nonzero by (first [assumption | lia | nia])
    | rewrite bn_mod_nonzero by (first [assumption | lia | nia])
    | progress res_simpl ].
