(* ===== verification/Types.v ===== *)
(** * Data types and constants

    The records of src/sdk/src/types.ts the development computes with, the
    constants of src/sdk/src/constants/numericConstants.ts and the assertion
    helper of src/sdk/src/assert/assert.ts. *)
From S2P Require Import Prelude BN.

(** ** Constants (constants/numericConstants.ts) *)
Definition ZERO : Z := 0.
Definition ONE : Z := 1.
Definition TEN_THOUSAND : Z := 10000.
Definition BN_MAX : Z := MAX_SAFE_INTEGER.
Definition MAX_LEVERAGE : Z := 5.
Definition FULL_LIQUIDATION_RATIO : Z := 500.
Definition PARTIAL_LIQUIDATION_RATIO : Z := 625.
Definition QUOTE_PRECISION : Z := 10 ^ 6.
Definition MARK_PRICE_PRECISION : Z := 10 ^ 10.
Definition FUNDING_PAYMENT_PRECISION : Z := 10000.
Definition PEG_PRECISION : Z := 1000.
Definition AMM_RESERVE_PRECISION : Z := 10 ^ 13.
Definition BASE_PRECISION : Z := AMM_RESERVE_PRECISION.
(** The quotients below are computed once, when the module loads. *)
Definition AMM_TO_QUOTE_PRECISION_RATIO : Z := AMM_RESERVE_PRECISION `quot` QUOTE_PRECISION.
Definition PRICE_TO_QUOTE_PRECISION : Z := MARK_PRICE_PRECISION `quot` QUOTE_PRECISION.
Definition AMM_TIMES_PEG_TO_QUOTE_PRECISION_RATIO : Z :=
  (AMM_RESERVE_PRECISION * PEG_PRECISION) `quot` QUOTE_PRECISION.

(** Turn the named constants into literals. *)
Ltac consts :=
  change ZERO with 0 in *; change ONE with 1 in *;
  change TEN_THOUSAND with 10000 in *;
  change BN_MAX with 9007199254740991 in *;
  change MAX_SAFE_INTEGER with 9007199254740991 in *;
  change FULL_LIQUIDATION_RATIO with 500 in *;
  change PARTIAL_LIQUIDATION_RATIO with 625 in *;
  change QUOTE_PRECISION with 1000000 in *;
  change MARK_PRICE_PRECISION with 10000000000 in *;
  change FUNDING_PAYMENT_PRECISION with 10000 in *;
  change PEG_PRECISION with 1000 in *;
  change AMM_RESERVE_PRECISION with 10000000000000 in *;
  change AMM_TO_QUOTE_PRECISION_RATIO with 10000000 in *;
  change PRICE_TO_QUOTE_PRECISION with 10000 in *;
  change AMM_TIMES_PEG_TO_QUOTE_PRECISION_RATIO with 10000000000 in *.

(** ** Directions (types.ts)

    The static values of the classes; the code compares them by identity. *)
Inductive SwapDirection := ADD | REMOVE.
Inductive PositionDirection := LONG | SHORT.
(** [AssetType] of math/amm.ts. *)
Inductive AssetType := quote | base.
Inductive OracleSource := PYTH | SWITCHBOARD.

#[export] Instance SwapDirection_eq_dec : EqDecision SwapDirection.
Proof. solve_decision. Defined.
#[export] Instance PositionDirection_eq_dec : EqDecision PositionDirection.
Proof. solve_decision. Defined.
#[export] Instance AssetType_eq_dec : EqDecision AssetType.
Proof. solve_decision. Defined.

(** A public key, compared by its base-58 text. *)
Definition PublicKey := string.

(** ** Accounts (types.ts) *)
Record AMM := mkAMM {
  amm_baseAssetReserve : Z;
  amm_sqrtK : Z;
  amm_cumulativeFundingRate : Z;
  amm_lastFundingRate : Z;
  amm_lastFundingRateTs : Z;
  amm_lastMarkPriceTwap : Z;
  amm_lastMarkPriceTwapTs : Z;
  amm_lastOraclePriceTwap : Z;
  amm_lastOraclePriceTwapTs : Z;
  amm_oracle : PublicKey;
  amm_oracleSource : OracleSource;
  amm_fundingPeriod : Z;
  amm_quoteAssetReserve : Z;
  amm_pegMultiplier : Z;
  amm_cumulativeFundingRateLong : Z;
  amm_cumulativeFundingRateShort : Z;
  amm_cumulativeRepegRebateLong : Z;
  amm_cumulativeRepegRebateShort : Z;
  amm_totalFeeMinusDistributions : Z;
  amm_totalFeeWithdrawn : Z;
  amm_totalFee : Z;
  amm_minimumTradeSize : Z;
  amm_lastOraclePrice : Z
}.

Record Market := mkMarket {
  mkt_amm : AMM;
  mkt_baseAssetAmount : Z;
  mkt_baseAssetAmountLong : Z;
  mkt_baseAssetAmountShort : Z;
  mkt_initialized : bool;
  mkt_openInterest : Z
}.

Record MarketsAccount := mkMarketsAccount {
  ma_accountIndex : Z;
  ma_markets : list Market
}.

(** A position keeps its market index as an object: [getUnrealizedPNL] compares
    it by identity. *)
Record UserPosition := mkUserPosition {
  pos_baseAssetAmount : Z;
  pos_lastCumulativeFundingRate : Z;
  pos_marketIndex : BNObj;
  pos_quoteAssetAmount : Z
}.

Record UserPositionsAccount := mkUserPositionsAccount {
  upa_positions : list UserPosition;
  upa_user : PublicKey
}.

Record UserAccount := mkUserAccount {
  ua_authority : PublicKey;
  ua_collateral : Z;
  ua_cumulativeDeposits : Z;
  ua_positions : PublicKey;
  ua_totalFeePaid : Z
}.

Record DiscountTier := mkDiscountTier {
  tier_minimumBalance : Z;
  tier_discountNumerator : Z;
  tier_discountDenominator : Z
}.

Record FeeStructure := mkFeeStructure {
  fee_feeNumerator : Z;
  fee_feeDenominator : Z;
  fee_firstTier : DiscountTier;
  fee_secondTier : DiscountTier;
  fee_thirdTier : DiscountTier;
  fee_fourthTier : DiscountTier;
  fee_referrerRewardNumerator : Z;
  fee_referrerRewardDenominator : Z;
  fee_refereeDiscountNumerator : Z;
  fee_refereeDiscountDenominator : Z
}.

Record OracleGuardRails := mkOracleGuardRails {
  ogr_markOracleDivergenceNumerator : Z;
  ogr_markOracleDivergenceDenominator : Z;
  ogr_slotsBeforeStale : Z;
  ogr_confidenceIntervalMaxSize : Z;
  ogr_tooVolatileRatio : Z;
  ogr_useForLiquidations : bool
}.

Record StateAccount := mkStateAccount {
  st_admin : PublicKey;
  st_fundingPaused : bool;
  st_exchangePaused : bool;
  st_adminControlsPrices : bool;
  st_collateralMint : PublicKey;
  st_collateralVault : PublicKey;
  st_collateralVaultAuthority : PublicKey;
  st_collateralVaultNonce : Z;
  st_insuranceVault : PublicKey;
  st_insuranceVaultAuthority : PublicKey;
  st_insuranceVaultNonce : Z;
  st_marginRatioInitial : Z;
  st_marginRatioMaintenance : Z;
  st_marginRatioPartial : Z;
  st_markets : PublicKey;
  st_curveHistory : PublicKey;
  st_depositHistory : PublicKey;
  st_fundingRateHistory : PublicKey;
  st_fundingPaymentHistory : PublicKey;
  st_tradeHistory : PublicKey;
  st_liquidationHistory : PublicKey;
  st_partialLiquidationClosePercentageNumerator : Z;
  st_partialLiquidationClosePercentageDenominator : Z;
  st_partialLiquidationPenaltyPercentageNumerator : Z;
  st_partialLiquidationPenaltyPercentageDenominator : Z;
  st_fullLiquidationPenaltyPercentageNumerator : Z;
  st_fullLiquidationPenaltyPercentageDenominator : Z;
  st_partialLiquidationLiquidatorShareDenominator : Z;
  st_fullLiquidationLiquidatorShareDenominator : Z;
  st_feeStructure : FeeStructure;
  st_totalFee : Z;
  st_totalFeeWithdrawn : Z;
  st_whitelistMint : PublicKey;
  st_discountMint : PublicKey;
  st_oracleGuardRails : OracleGuardRails;
  st_maxDeposit : Z;
  st_extendedCurveHistory : PublicKey
}.

(** ** Assertions (assert/assert.ts)

    [error || 'Unspecified AssertionError']: an absent and an empty message
    both give the default one. *)
Definition assert (condition : bool) (error : option string) : result unit :=
  if condition then Ok tt
  else Throw (JsErr (match error with
                     | None | Some "" => "Unspecified AssertionError"
                     | Some m => m
                     end)).

Lemma assert_Ok c m x : assert c m = Ok x -> c = true.
Proof. by destruct c. Qed.

(** ** Copies with some fields replaced ([Object.assign({}, x)] then writes) *)
Definition with_amm (m : Market) (a : AMM) : Market :=
  {| mkt_amm := a;
     mkt_baseAssetAmount := mkt_baseAssetAmount m;
     mkt_baseAssetAmountLong := mkt_baseAssetAmountLong m;
     mkt_baseAssetAmountShort := mkt_baseAssetAmountShort m;
     mkt_initialized := mkt_initialized m;
     mkt_openInterest := mkt_openInterest m |}.

Definition with_curve (a : AMM) (b q k peg : Z) : AMM :=
  {| amm_baseAssetReserve := b;
     amm_sqrtK := k;
     amm_cumulativeFundingRate := amm_cumulativeFundingRate a;
     amm_lastFundingRate := amm_lastFundingRate a;
     amm_lastFundingRateTs := amm_lastFundingRateTs a;
     amm_lastMarkPriceTwap := amm_lastMarkPriceTwap a;
     amm_lastMarkPriceTwapTs := amm_lastMarkPriceTwapTs a;
     amm_lastOraclePriceTwap := amm_lastOraclePriceTwap a;
     amm_lastOraclePriceTwapTs := amm_lastOraclePriceTwapTs a;
     amm_oracle := amm_oracle a;
     amm_oracleSource := amm_oracleSource a;
     amm_fundingPeriod := amm_fundingPeriod a;
     amm_quoteAssetReserve := q;
     amm_pegMultiplier := peg;
     amm_cumulativeFundingRateLong := amm_cumulativeFundingRateLong a;
     amm_cumulativeFundingRateShort := amm_cumulativeFundingRateShort a;
     amm_cumulativeRepegRebateLong := amm_cumulativeRepegRebateLong a;
     amm_cumulativeRepegRebateShort := amm_cumulativeRepegRebateShort a;
     amm_totalFeeMinusDistributions := amm_totalFeeMinusDistributions a;
     amm_totalFeeWithdrawn := amm_totalFeeWithdrawn a;
     amm_totalFee := amm_totalFee a;
     amm_minimumTradeSize := amm_minimumTradeSize a;
     amm_lastOraclePrice := amm_lastOraclePrice a |}.

Lemma with_curve_same (m : Market) :
  with_amm m (with_curve (mkt_amm m)
    (amm_baseAssetReserve (mkt_amm m)) (amm_quoteAssetReserve (mkt_amm m))
    (amm_sqrtK (mkt_amm m)) (amm_pegMultiplier (mkt_amm m))) = m.
Proof. by destruct m as [[] ? ? ? ? ?]. Qed.
