(* ===== verification/Amm.v ===== *)
(** * The virtual AMM (math/amm.ts, math/market.ts, math/conversion.ts)

    Prices, the constant-product swap and its direction, and the terminal price.
    The costs of re-pegging and of changing k, which amm.ts computes through
    position values, are in [Position]. *)
From S2P Require Import Prelude BN Types.

Section Amm.
Context {B : BNLib}.

(** math/amm.ts [calculatePrice] *)
Definition calculatePrice (baseAssetAmount quoteAssetAmount peg_multiplier : Z) : result Z :=
  if Z.abs baseAssetAmount <=? ZERO then Ok 0
  else
    p ← bn_div (quoteAssetAmount * MARK_PRICE_PRECISION * peg_multiplier) PEG_PRECISION;
    bn_div p baseAssetAmount.

(** math/market.ts [calculateMarkPrice] *)
Definition calculateMarkPrice (market : Market) : result Z :=
  calculatePrice (amm_baseAssetReserve (mkt_amm market))
    (amm_quoteAssetReserve (mkt_amm market)) (amm_pegMultiplier (mkt_amm market)).

(** math/conversion.ts [convertToNumber]; an absent [bigNumber] gives 0 *)
Definition convertToNumber (bigNumber : option Z) (precision : Z) : result Number :=
  match bigNumber with
  | None => Ok (num_of_Z 0)
  | Some bigNumber =>
      d ← bn_div bigNumber precision;
      whole ← bn_toNumber d;
      m ← bn_mod bigNumber precision;
      part ← bn_toNumber m;
      p ← bn_toNumber precision;
      Ok (num_add (num_of_Z whole) (num_div (num_of_Z part) (num_of_Z p)))
  end.

(** math/conversion.ts [convertBaseAssetAmountToNumber] *)
Definition convertBaseAssetAmountToNumber (baseAssetAmount : Z) : result Number :=
  convertToNumber (Some baseAssetAmount) (MARK_PRICE_PRECISION * PEG_PRECISION).

(** math/amm.ts [calculateSwapOutput]: the new input and output reserves *)
Definition calculateSwapOutput (inputAssetReserve swapAmount : Z)
    (swapDirection : SwapDirection) (invariant : Z) : result (Z * Z) :=
  let newInputAssetReserve :=
    if decide (swapDirection = ADD) then inputAssetReserve + swapAmount
    else inputAssetReserve - swapAmount in
  newOutputAssetReserve ← bn_div invariant newInputAssetReserve;
  Ok (newInputAssetReserve, newOutputAssetReserve).

(** math/amm.ts [calculateAmmReservesAfterSwap]: the new quote and base reserves *)
Definition calculateAmmReservesAfterSwap (amm : AMM) (inputAssetType : AssetType)
    (swapAmount : Z) (swapDirection : SwapDirection) : result (Z * Z) :=
  _ ← assert (ZERO <=? swapAmount) (Some "swapAmount must be greater than 0");
  if decide (inputAssetType = quote) then
    swapAmount ← bn_div (swapAmount * AMM_TIMES_PEG_TO_QUOTE_PRECISION_RATIO)
                   (amm_pegMultiplier amm);
    '(newQuoteAssetReserve, newBaseAssetReserve) ←
      calculateSwapOutput (amm_quoteAssetReserve amm) swapAmount swapDirection
        (amm_sqrtK amm * amm_sqrtK amm);
    Ok (newQuoteAssetReserve, newBaseAssetReserve)
  else
    '(newBaseAssetReserve, newQuoteAssetReserve) ←
      calculateSwapOutput (amm_baseAssetReserve amm) swapAmount swapDirection
        (amm_sqrtK amm * amm_sqrtK amm);
    Ok (newQuoteAssetReserve, newBaseAssetReserve).

(** math/amm.ts [getSwapDirection] *)
Definition getSwapDirection (inputAssetType : AssetType)
    (positionDirection : PositionDirection) : SwapDirection :=
  if decide (positionDirection = LONG /\ inputAssetType = base) then REMOVE
  else if decide (positionDirection = SHORT /\ inputAssetType = quote) then REMOVE
  else ADD.

(** math/amm.ts [calculateTerminalPrice] *)
Definition calculateTerminalPrice (market : Market) : result Z :=
  if negb (mkt_initialized market) then Ok 0
  else
    let directionToClose := if ZERO <? mkt_baseAssetAmount market then SHORT else LONG in
    '(newQuoteAssetReserve, newBaseAssetReserve) ←
      calculateAmmReservesAfterSwap (mkt_amm market) base
        (Z.abs (mkt_baseAssetAmount market)) (getSwapDirection base directionToClose);
    p ← bn_div (newQuoteAssetReserve * MARK_PRICE_PRECISION
                  * amm_pegMultiplier (mkt_amm market)) PEG_PRECISION;
    bn_div p newBaseAssetReserve.
End Amm.

(** ** Well-formed curves

    What the program accounts hold once a market is initialised: positive
    reserves, invariant and peg.  [amm_on_curve] adds that the quote reserve is
    the one the invariant gives for the base reserve, as after any base swap. *)
Record amm_wf (a : AMM) : Prop := {
  wf_base : 0 < amm_baseAssetReserve a;
  wf_quote : 0 < amm_quoteAssetReserve a;
  wf_sqrtK : 0 < amm_sqrtK a;
  wf_peg : 0 < amm_pegMultiplier a
}.

Definition amm_on_curve (a : AMM) : Prop :=
  amm_quoteAssetReserve a = (amm_sqrtK a * amm_sqrtK a) `quot` amm_baseAssetReserve a.

(** The base reserve after a base-asset trade in direction [d]. *)
Definition base_after (a : AMM) (d : PositionDirection) (amount : Z) : Z :=
  match d with
  | LONG => amm_baseAssetReserve a - amount
  | SHORT => amm_baseAssetReserve a + amount
  end.

(** The quote reserve the invariant gives for a base reserve. *)
Definition quote_at (a : AMM) (b : Z) : Z := (amm_sqrtK a * amm_sqrtK a) `quot` b.

(** ** Lemmas *)
Section AmmFacts.
Context {B : BNLib} {L : BNLaws B}.

Lemma calculatePrice_zero q p : calculatePrice 0 q p = Ok 0.
Proof. reflexivity. Qed.

Lemma calculatePrice_nonzero b q p :
  b <> 0 ->
  calculatePrice b q p = Ok (((q * MARK_PRICE_PRECISION * p) `quot` PEG_PRECISION) `quot` b).
Proof.
  intros Hb. unfold calculatePrice. consts.
  destruct (Z.leb_spec (Z.abs b) 0); [lia |]. by bn_run.
Qed.

(** Two successive divisions are one. *)
Lemma calculatePrice_pos b q p :
  0 < b -> 0 <= q -> 0 <= p ->
  calculatePrice b q p = Ok ((q * p * 10000000) / b).
Proof.
  intros. rewrite calculatePrice_nonzero by lia. consts. f_equal.
  replace (q * 10000000000 * p) with (q * p * 10000000 * 1000) by lia.
  rewrite Z.quot_mul by lia. apply quot_div_pos; nia.
Qed.

(** Prices grow with the quote reserve and shrink with the base reserve. *)
Lemma calculatePrice_mono b b' q q' p :
  0 < b' <= b -> 0 <= q <= q' -> 0 <= p ->
  exists x x', calculatePrice b q p = Ok x /\ calculatePrice b' q' p = Ok x' /\ 0 <= x <= x'.
Proof.
  intros Hb Hq Hp.
  do 2 eexists. rewrite !calculatePrice_pos by lia. split; [reflexivity |].
  split; [reflexivity |]. split.
  - apply Z.div_pos; nia.
  - transitivity ((q' * p * 10000000) / b).
    + apply Z.div_le_mono; nia.
    + apply Z.div_le_compat_l; nia.
Qed.

Lemma calculateSwapOutput_ADD r s k :
  r + s <> 0 -> calculateSwapOutput r s ADD k = Ok (r + s, k `quot` (r + s)).
Proof. intros. unfold calculateSwapOutput. cbn. by bn_run. Qed.

Lemma calculateSwapOutput_REMOVE r s k :
  r - s <> 0 -> calculateSwapOutput r s REMOVE k = Ok (r - s, k `quot` (r - s)).
Proof. intros. unfold calculateSwapOutput. cbn. by bn_run. Qed.

(** A base-asset trade: the base reserve moves by the amount, the quote
    reserve follows the invariant. *)
Lemma reserves_after_base a d amount :
  0 <= amount -> base_after a d amount <> 0 ->
  calculateAmmReservesAfterSwap a base amount (getSwapDirection base d) =
  Ok (quote_at a (base_after a d amount), base_after a d amount).
Proof.
  intros Ha Hb. unfold calculateAmmReservesAfterSwap. consts.
  rewrite (proj2 (Z.leb_le 0 amount) Ha). unfold quote_at.
  destruct d; cbn in *.
  - rewrite calculateSwapOutput_REMOVE by done. done.
  - rewrite calculateSwapOutput_ADD by done. done.
Qed.

Lemma reserves_after_negative a t amount sd :
  amount < 0 ->
  calculateAmmReservesAfterSwap a t amount sd =
  Throw (JsErr "swapAmount must be greater than 0").
Proof.
  intros. unfold calculateAmmReservesAfterSwap. consts.
  by rewrite (proj2 (Z.leb_gt 0 amount)).
Qed.

Lemma reserves_after_all_base a :
  0 <= amm_baseAssetReserve a ->
  calculateAmmReservesAfterSwap a base (amm_baseAssetReserve a) REMOVE = Throw bn_error.
Proof.
  intros. unfold calculateAmmReservesAfterSwap. consts.
  rewrite (proj2 (Z.leb_le 0 _)) by done. cbn. unfold calculateSwapOutput. cbn.
  rewrite Z.sub_diag, bn_div_zero. done.
Qed.

Lemma quote_at_nonneg a b : 0 <= amm_sqrtK a -> 0 < b -> 0 <= quote_at a b.
Proof. intros. apply Z.quot_pos; nia. Qed.

(** The invariant's quote reserve shrinks when the base reserve grows. *)
Lemma quote_at_antitone a b b' : 0 < b <= b' -> quote_at a b' <= quote_at a b.
Proof.
  intros. unfold quote_at. rewrite !quot_div_pos by nia.
  apply Z.div_le_compat_l; nia.
Qed.

Lemma quote_at_product a b :
  0 < b -> b * quote_at a b <= amm_sqrtK a * amm_sqrtK a < b * (quote_at a b + 1).
Proof. intros. apply quot_bounds; nia. Qed.

Lemma base_after_pos a d amount :
  0 < amm_baseAssetReserve a -> 0 <= amount ->
  (d = LONG -> amount < amm_baseAssetReserve a) -> 0 < base_after a d amount.
Proof. intros ? ? H. destruct d; cbn; [specialize (H eq_refl) |]; lia. Qed.
End AmmFacts.

#[export] Hint Resolve quote_at_nonneg quote_at_antitone base_after_pos : bn.

(** ** Properties *)
Section AmmProperties.
Context {B : BNLib} {L : BNLaws B}.

(** C1: A swap never creates value: from any non-negative invariant, moving the input
    reserve to a positive value yields the largest output reserve whose
    product with it does not exceed the invariant. *)
Theorem swap_constant_product (r s k : Z) (sd : SwapDirection) :
  0 <= k -> (sd = REMOVE -> s < r) -> 0 <= s -> 0 < r ->
  exists newIn newOut,
    calculateSwapOutput r s sd k = Ok (newIn, newOut) /\
    newIn = (if decide (sd = ADD) then r + s else r - s) /\
    newIn * newOut <= k < newIn * (newOut + 1).
Proof.
  intros Hk Hr Hs Hr0. destruct sd.
  - rewrite calculateSwapOutput_ADD by lia. do 2 eexists. split; [done |].
    cbn. split; [done |]. apply quot_bounds; lia.
  - specialize (Hr eq_refl). rewrite calculateSwapOutput_REMOVE by lia.
    do 2 eexists. split; [done |]. cbn. split; [done |]. apply quot_bounds; lia.
Qed.

(** Path independence: splitting a trade of the same side into two swaps ends in
    the same reserves as one swap of the total. *)
Theorem swap_path_independent (r s1 s2 k : Z) (sd : SwapDirection) (r1 o1 : Z) :
  0 < r -> 0 <= s1 -> 0 <= s2 -> (sd = REMOVE -> s1 + s2 < r) ->
  calculateSwapOutput r s1 sd k = Ok (r1, o1) ->
  calculateSwapOutput r1 s2 sd k = calculateSwapOutput r (s1 + s2) sd k.
Proof.
  intros Hr H1 H2 Hrem. destruct sd.
  - rewrite !calculateSwapOutput_ADD by lia. intros [= <- <-].
    rewrite !calculateSwapOutput_ADD by lia. by rewrite Z.add_assoc.
  - specialize (Hrem eq_refl). rewrite !calculateSwapOutput_REMOVE by lia.
    intros [= <- <-]. rewrite !calculateSwapOutput_REMOVE by lia.
    by rewrite Z.sub_add_distr.
Qed.

(** Every outcome of a base-asset withdrawal: a negative amount fails the
    assertion, draining the whole reserve divides by zero, a smaller amount
    leaves a positive reserve on the curve, and a larger one is not refused:
    it returns a negative base reserve with a non-positive quote reserve. *)
Theorem base_removal_outcomes (a : AMM) (s : Z) :
  0 < amm_baseAssetReserve a ->
  calculateAmmReservesAfterSwap a base s REMOVE =
    (if decide (s < 0) then Throw (JsErr "swapAmount must be greater than 0")
     else if decide (s = amm_baseAssetReserve a) then Throw bn_error
     else Ok (quote_at a (amm_baseAssetReserve a - s), amm_baseAssetReserve a - s)) /\
  (amm_baseAssetReserve a < s -> quote_at a (amm_baseAssetReserve a - s) <= 0) /\
  (0 <= s < amm_baseAssetReserve a -> 0 <= quote_at a (amm_baseAssetReserve a - s)).
Proof.
  intros Hb. split; [| split].
  - repeat case_decide.
    + by apply reserves_after_negative.
    + subst. apply reserves_after_all_base. lia.
    + apply (reserves_after_base a LONG); cbn; lia.
  - intros Hs. unfold quote_at.
    replace (amm_baseAssetReserve a - s) with (- (s - amm_baseAssetReserve a)) by lia.
    rewrite Z.quot_opp_r by lia.
    pose proof (quot_nonneg (amm_sqrtK a * amm_sqrtK a) (s - amm_baseAssetReserve a)). nia.
  - intros Hs. apply Z.quot_pos; nia.
Qed.

(** Price impact: on a curve, buying base never lowers the mark price and
    selling base never raises it. *)
Theorem price_impact_sign (m : Market) (d : PositionDirection) (s q b : Z) :
  amm_wf (mkt_amm m) -> amm_on_curve (mkt_amm m) -> 0 <= s ->
  (d = LONG -> s < amm_baseAssetReserve (mkt_amm m)) ->
  calculateAmmReservesAfterSwap (mkt_amm m) base s (getSwapDirection base d) = Ok (q, b) ->
  exists before after,
    calculateMarkPrice m = Ok before /\
    calculatePrice b q (amm_pegMultiplier (mkt_amm m)) = Ok after /\
    match d with LONG => before <= after | SHORT => after <= before end.
Proof.
  intros [Hb Hq Hk Hp] Hc Hs Hlim. unfold amm_on_curve in Hc.
  assert (0 < base_after (mkt_amm m) d s) as Hpos by auto with bn.
  rewrite reserves_after_base by lia. intros [= <- <-].
  unfold calculateMarkPrice. rewrite Hc.
  change (_ `quot` amm_baseAssetReserve _)
    with (quote_at (mkt_amm m) (amm_baseAssetReserve (mkt_amm m))).
  set (a := mkt_amm m) in *. destruct d; cbn in Hpos |- *.
  - destruct (calculatePrice_mono (amm_baseAssetReserve a) (amm_baseAssetReserve a - s)
      (quote_at a (amm_baseAssetReserve a)) (quote_at a (amm_baseAssetReserve a - s))
      (amm_pegMultiplier a)) as (x & x' & ? & ? & ?); [lia | | lia |];
      [| exists x, x'; split_and!; [done | done | lia]].
    split; [apply quote_at_nonneg | apply quote_at_antitone]; lia.
  - destruct (calculatePrice_mono (amm_baseAssetReserve a + s) (amm_baseAssetReserve a)
      (quote_at a (amm_baseAssetReserve a + s)) (quote_at a (amm_baseAssetReserve a))
      (amm_pegMultiplier a)) as (x & x' & ? & ? & ?); [lia | | lia |];
      [| exists x', x; split_and!; [done | done | lia]].
    split; [apply quote_at_nonneg | apply quote_at_antitone]; lia.
Qed.

(** The terminal price is 0 for an uninitialised market, the mark price when
    the users' net position is flat and the market is on its curve, and with
    longs outstanding it never exceeds the mark price. *)
Theorem terminal_price_spec (m : Market) :
  amm_wf (mkt_amm m) -> amm_on_curve (mkt_amm m) ->
  (mkt_initialized m = false -> calculateTerminalPrice m = Ok 0) /\
  (mkt_initialized m = true -> mkt_baseAssetAmount m = 0 ->
   calculateTerminalPrice m = calculateMarkPrice m) /\
  (mkt_initialized m = true -> 0 < mkt_baseAssetAmount m ->
   exists t p, calculateTerminalPrice m = Ok t /\ calculateMarkPrice m = Ok p /\ 0 <= t <= p).
Proof.
  intros [Hb Hq Hk Hp] Hc. unfold amm_on_curve in Hc. unfold calculateTerminalPrice.
  split; [intros ->; done | split; intros -> Hn; cbn [negb]].
  - rewrite Hn. cbn [Z.ltb Z.compare Z.abs].
    change (ZERO <? 0) with false. cbn [negb].
    rewrite reserves_after_base by (cbn; lia). cbn.
    unfold calculateMarkPrice. rewrite calculatePrice_nonzero by lia.
    rewrite Z.sub_0_r. unfold quote_at. rewrite <- Hc. consts. by bn_run.
  - rewrite (proj2 (Z.ltb_lt ZERO _)) by (consts; lia).
    rewrite (Z.abs_eq (mkt_baseAssetAmount m)) by lia.
    rewrite reserves_after_base by (cbn; lia). cbn.
    set (a := mkt_amm m) in *. set (n := mkt_baseAssetAmount m) in *.
    destruct (calculatePrice_mono (amm_baseAssetReserve a + n) (amm_baseAssetReserve a)
      (quote_at a (amm_baseAssetReserve a + n)) (quote_at a (amm_baseAssetReserve a))
      (amm_pegMultiplier a)) as (x & x' & Hx & Hx' & Hle); [lia | | lia |].
    { split; [apply quote_at_nonneg | apply quote_at_antitone]; lia. }
    exists x, x'. split; [| split; [| done]].
    + rewrite <- Hx. rewrite calculatePrice_nonzero by lia. consts. by bn_run.
    + unfold calculateMarkPrice. fold a. rewrite Hc. done.
Qed.
End AmmProperties.
