(* ===== verification/Position.v ===== *)
(** * Positions (math/position.ts) and curve-adjustment costs (math/amm.ts)

    The value of closing a position against the AMM, its profit and loss with
    and without funding, its entry price, and what re-pegging or re-scaling the
    curve costs given the users' net position. *)
From S2P Require Import Prelude BN Types Amm.

Section Position.
Context {B : BNLib}.

(** math/position.ts [calculateBaseAssetValue] *)
Definition calculateBaseAssetValue (market : Market) (userPosition : UserPosition) : result Z :=
  if pos_baseAssetAmount userPosition =? ZERO then Ok ZERO
  else
    let directionToClose := if ZERO <? pos_baseAssetAmount userPosition then SHORT else LONG in
    '(newQuoteAssetReserve, _) ←
      calculateAmmReservesAfterSwap (mkt_amm market) base
        (Z.abs (pos_baseAssetAmount userPosition)) (getSwapDirection base directionToClose);
    match directionToClose with
    | SHORT =>
        bn_div ((amm_quoteAssetReserve (mkt_amm market) - newQuoteAssetReserve)
                  * amm_pegMultiplier (mkt_amm market)) AMM_TIMES_PEG_TO_QUOTE_PRECISION_RATIO
    | LONG =>
        bn_div ((newQuoteAssetReserve - amm_quoteAssetReserve (mkt_amm market))
                  * amm_pegMultiplier (mkt_amm market)) AMM_TIMES_PEG_TO_QUOTE_PRECISION_RATIO
    end.

(** math/position.ts [calculatePositionFundingPNL] *)
Definition calculatePositionFundingPNL (market : Market) (marketPosition : UserPosition)
    : result Z :=
  if pos_baseAssetAmount marketPosition =? ZERO then Ok ZERO
  else
    let ammCumulativeFundingRate :=
      if ZERO <? pos_baseAssetAmount marketPosition
      then amm_cumulativeFundingRateLong (mkt_amm market)
      else amm_cumulativeFundingRateShort (mkt_amm market) in
    x ← bn_div ((ammCumulativeFundingRate - pos_lastCumulativeFundingRate marketPosition)
                  * pos_baseAssetAmount marketPosition) AMM_RESERVE_PRECISION;
    y ← bn_div x FUNDING_PAYMENT_PRECISION;
    Ok (y * -1).

(** math/position.ts [calculatePositionPNL] *)
Definition calculatePositionPNL (market : Market) (marketPosition : UserPosition)
    (withFunding : bool) : result Z :=
  if pos_baseAssetAmount marketPosition =? ZERO then Ok ZERO
  else
    baseAssetValue ← calculateBaseAssetValue market marketPosition;
    let pnl :=
      if ZERO <? pos_baseAssetAmount marketPosition
      then baseAssetValue - pos_quoteAssetAmount marketPosition
      else pos_quoteAssetAmount marketPosition - baseAssetValue - ONE in
    if withFunding then
      f ← calculatePositionFundingPNL market marketPosition;
      fundingRatePnL ← bn_div f PRICE_TO_QUOTE_PRECISION;
      Ok (pnl + fundingRatePnL)
    else Ok pnl.

(** math/position.ts [calculateEntryPrice] *)
Definition calculateEntryPrice (userPosition : UserPosition) : result Z :=
  if pos_baseAssetAmount userPosition =? ZERO then Ok ZERO
  else
    p ← bn_div (pos_quoteAssetAmount userPosition * MARK_PRICE_PRECISION
                  * AMM_TO_QUOTE_PRECISION_RATIO) (pos_baseAssetAmount userPosition);
    Ok (Z.abs p).

(** The users' net position the two cost functions of math/amm.ts value. *)
Definition netUserPosition (market : Market) (marketIndex quoteAssetAmount : Z) : UserPosition :=
  {| pos_baseAssetAmount := mkt_baseAssetAmount market;
     pos_lastCumulativeFundingRate := amm_cumulativeFundingRate (mkt_amm market);
     pos_marketIndex := new_BN marketIndex;
     pos_quoteAssetAmount := quoteAssetAmount |}.

(** math/amm.ts [calculateAdjustKCost] *)
Definition calculateAdjustKCost (market : Market) (marketIndex numerator denomenator : Z)
    : result Z :=
  let amm := mkt_amm market in
  currentValue ← calculateBaseAssetValue market (netUserPosition market marketIndex 0);
  newBase ← bn_div (amm_baseAssetReserve amm * numerator) denomenator;
  newQuote ← bn_div (amm_quoteAssetReserve amm * numerator) denomenator;
  newSqrtK ← bn_div (amm_sqrtK amm * numerator) denomenator;
  let marketNewK :=
    with_amm market (with_curve amm newBase newQuote newSqrtK (amm_pegMultiplier amm)) in
  calculatePositionPNL marketNewK (netUserPosition market marketIndex currentValue) false.

(** The market with another peg multiplier. *)
Definition with_peg (market : Market) (newPeg : Z) : Market :=
  let amm := mkt_amm market in
  with_amm market (with_curve amm (amm_baseAssetReserve amm) (amm_quoteAssetReserve amm)
                     (amm_sqrtK amm) newPeg).

(** math/amm.ts [calculateRepegCost]; the two prices it logs are converted to
    numbers, which may throw *)
Definition calculateRepegCost (market : Market) (marketIndex newPeg : Z) : result Z :=
  currentValue ← calculateBaseAssetValue market (netUserPosition market marketIndex 0);
  prevMarketPrice ← calculateMarkPrice market;
  let marketNewPeg := with_peg market newPeg in
  _ ← convertToNumber (Some prevMarketPrice) MARK_PRICE_PRECISION;
  newMarketPrice ← calculateMarkPrice marketNewPeg;
  _ ← convertToNumber (Some newMarketPrice) MARK_PRICE_PRECISION;
  calculatePositionPNL marketNewPeg (netUserPosition market marketIndex currentValue) false.
End Position.

(** ** Reference value of a position

    The quote a position of [n] base is worth against curve [a]. *)
Definition closing_quote (a : AMM) (n : Z) : Z :=
  if 0 <? n then amm_quoteAssetReserve a - quote_at a (amm_baseAssetReserve a + n)
  else quote_at a (amm_baseAssetReserve a + n) - amm_quoteAssetReserve a.

Definition value_of (a : AMM) (n : Z) : Z :=
  if n =? 0 then 0 else (closing_quote a n * amm_pegMultiplier a) `quot` 10000000000.

Section PositionFacts.
Context {B : BNLib} {L : BNLaws B}.

Lemma calculateBaseAssetValue_spec m p :
  amm_baseAssetReserve (mkt_amm m) + pos_baseAssetAmount p <> 0 ->
  calculateBaseAssetValue m p = Ok (value_of (mkt_amm m) (pos_baseAssetAmount p)).
Proof.
  intros Hb. unfold calculateBaseAssetValue, value_of, closing_quote. consts.
  set (n := pos_baseAssetAmount p) in *. destruct (Z.eqb_spec n 0) as [Hn | Hn]; [done |].
  destruct (Z.ltb_spec 0 n) as [Hp | Hp].
  - rewrite reserves_after_base by (cbn; lia). cbn. rewrite Z.abs_eq by lia. by bn_run.
  - rewrite reserves_after_base by (cbn; lia). cbn.
    rewrite Z.abs_neq by lia. rewrite Z.sub_opp_r. by bn_run.
Qed.

Lemma calculateBaseAssetValue_flat m p :
  pos_baseAssetAmount p = 0 -> calculateBaseAssetValue m p = Ok 0.
Proof. intros H. unfold calculateBaseAssetValue. by rewrite H. Qed.

(** Buying back a short as large as the base reserve divides by zero. *)
Lemma calculateBaseAssetValue_drained m p :
  0 < amm_baseAssetReserve (mkt_amm m) ->
  pos_baseAssetAmount p = - amm_baseAssetReserve (mkt_amm m) ->
  calculateBaseAssetValue m p = Throw bn_error.
Proof.
  intros Hb H. unfold calculateBaseAssetValue. rewrite H. consts.
  rewrite (proj2 (Z.eqb_neq _ _)), (proj2 (Z.ltb_ge _ _)) by lia.
  rewrite Z.abs_opp, Z.abs_eq by lia. cbn.
  by rewrite reserves_after_all_base by lia.
Qed.

Lemma closing_quote_nonneg a n :
  amm_wf a -> amm_on_curve a -> - amm_baseAssetReserve a < n -> 0 <= closing_quote a n.
Proof.
  intros [Hb _ Hk Hp] Hc Hn. unfold closing_quote. rewrite Hc.
  change (_ `quot` amm_baseAssetReserve a) with (quote_at a (amm_baseAssetReserve a)).
  destruct (Z.ltb_spec 0 n) as [H | H].
  - pose proof (quote_at_antitone a (amm_baseAssetReserve a) (amm_baseAssetReserve a + n)). lia.
  - pose proof (quote_at_antitone a (amm_baseAssetReserve a + n) (amm_baseAssetReserve a)). lia.
Qed.

Lemma value_of_nonneg a n :
  amm_wf a -> amm_on_curve a -> - amm_baseAssetReserve a < n -> 0 <= value_of a n.
Proof.
  intros Hw Hc Hn. unfold value_of. destruct (n =? 0); [done |].
  pose proof (closing_quote_nonneg a n Hw Hc Hn). destruct Hw. apply quot_nonneg; nia.
Qed.

Lemma calculatePositionFundingPNL_spec m p :
  pos_baseAssetAmount p <> 0 ->
  calculatePositionFundingPNL m p =
  Ok (- (((((if 0 <? pos_baseAssetAmount p then amm_cumulativeFundingRateLong (mkt_amm m)
             else amm_cumulativeFundingRateShort (mkt_amm m))
            - pos_lastCumulativeFundingRate p) * pos_baseAssetAmount p)
          `quot` 10000000000000) `quot` 10000)).
Proof.
  intros Hn. unfold calculatePositionFundingPNL. consts.
  rewrite (proj2 (Z.eqb_neq _ _) Hn). bn_run. f_equal. lia.
Qed.

Lemma calculatePositionPNL_price m p v :
  pos_baseAssetAmount p <> 0 ->
  calculateBaseAssetValue m p = Ok v ->
  calculatePositionPNL m p false =
  Ok (if 0 <? pos_baseAssetAmount p then v - pos_quoteAssetAmount p
      else pos_quoteAssetAmount p - v - 1).
Proof.
  intros Hn Hv. unfold calculatePositionPNL. consts.
  rewrite (proj2 (Z.eqb_neq _ _) Hn), Hv. done.
Qed.

Lemma calculatePositionPNL_flat m p w :
  pos_baseAssetAmount p = 0 -> calculatePositionPNL m p w = Ok 0.
Proof. intros H. unfold calculatePositionPNL. by rewrite H. Qed.

Lemma convertToNumber_safe z p :
  0 < p <= MAX_SAFE_INTEGER -> 0 <= z -> z / p <= MAX_SAFE_INTEGER ->
  exists x, convertToNumber (Some z) p = Ok x.
Proof.
  intros Hp Hz Hd. unfold convertToNumber.
  rewrite bn_div_pos by lia. res_simpl.
  pose proof (Z.div_pos z p). pose proof (Z.rem_bound_pos z p).
  rewrite (bn_toNumber_safe (z / p)) by lia. res_simpl.
  rewrite bn_mod_nonzero by lia. res_simpl.
  rewrite (bn_toNumber_safe (z `rem` p)), (bn_toNumber_safe p) by lia. res_simpl. eauto.
Qed.
End PositionFacts.

#[export] Hint Resolve closing_quote_nonneg value_of_nonneg : bn.

(** ** Properties *)
Section PositionProperties.
Context {B : BNLib} {L : BNLaws B}.

(** C3: The value of a position is that of the reference curve, on every branch: zero for
    an empty position whatever the market, the reference value otherwise
    (never negative on a curve, and never smaller for a larger long), except a
    short of the whole base reserve, which divides by zero. *)
Theorem base_asset_value_refines (m : Market) (p : UserPosition) :
  amm_wf (mkt_amm m) -> amm_on_curve (mkt_amm m) ->
  (pos_baseAssetAmount p = - amm_baseAssetReserve (mkt_amm m) ->
   calculateBaseAssetValue m p = Throw bn_error) /\
  (pos_baseAssetAmount p <> - amm_baseAssetReserve (mkt_amm m) ->
   calculateBaseAssetValue m p = Ok (value_of (mkt_amm m) (pos_baseAssetAmount p))) /\
  (- amm_baseAssetReserve (mkt_amm m) < pos_baseAssetAmount p ->
   0 <= value_of (mkt_amm m) (pos_baseAssetAmount p)) /\
  (forall n, 0 <= pos_baseAssetAmount p <= n ->
   value_of (mkt_amm m) (pos_baseAssetAmount p) <= value_of (mkt_amm m) n).
Proof.
  intros Hw Hc. pose proof (wf_base _ Hw). pose proof (wf_peg _ Hw).
  split_and!.
  - intros. by apply calculateBaseAssetValue_drained.
  - intros. apply calculateBaseAssetValue_spec. lia.
  - intros. by apply value_of_nonneg.
  - intros n Hn. set (b := pos_baseAssetAmount p) in *.
    destruct (Z.eqb_spec b 0) as [-> | Hb0].
    { change (value_of (mkt_amm m) 0) with 0. apply value_of_nonneg; [done | done | lia]. }
    unfold value_of, closing_quote.
    rewrite !(proj2 (Z.eqb_neq _ 0)), !(proj2 (Z.ltb_lt 0 _)) by lia.
    apply quot_mono; [lia |].
    pose proof (quote_at_antitone (mkt_amm m) (amm_baseAssetReserve (mkt_amm m) + b)
      (amm_baseAssetReserve (mkt_amm m) + n)). nia.
Qed.

(** No free money: a user who opens a position of [s] base on a curve (paying or
    receiving the quote of the swap) and values it right after has made
    exactly 0 on a long and lost exactly one unit on a short. *)
Theorem open_close_no_profit (m : Market) (d : PositionDirection) (s lcf : Z) (i : BNObj) (q b : Z) :
  amm_wf (mkt_amm m) -> amm_on_curve (mkt_amm m) -> 0 < s ->
  (d = LONG -> s < amm_baseAssetReserve (mkt_amm m)) ->
  calculateAmmReservesAfterSwap (mkt_amm m) base s (getSwapDirection base d) = Ok (q, b) ->
  let a := mkt_amm m in
  let m' := with_amm m (with_curve a b q (amm_sqrtK a) (amm_pegMultiplier a)) in
  let cost := (match d with LONG => q - amm_quoteAssetReserve a
                          | SHORT => amm_quoteAssetReserve a - q end
               * amm_pegMultiplier a) `quot` 10000000000 in
  calculatePositionPNL m'
    {| pos_baseAssetAmount := match d with LONG => s | SHORT => - s end;
       pos_lastCumulativeFundingRate := lcf;
       pos_marketIndex := i;
       pos_quoteAssetAmount := cost |} false
  = Ok (match d with LONG => 0 | SHORT => -1 end).
Proof.
  intros [Hb _ Hk Hp] Hc Hs Hlim. unfold amm_on_curve in Hc.
  assert (0 < base_after (mkt_amm m) d s) as Hpos by (apply base_after_pos; auto; lia).
  rewrite reserves_after_base by lia. intros [= <- <-] a m' cost.
  set (p := {| pos_baseAssetAmount := _ |}).
  assert (amm_baseAssetReserve (mkt_amm m') + pos_baseAssetAmount p = amm_baseAssetReserve a)
    as Hback by (destruct d; cbn; fold a; lia).
  assert (pos_baseAssetAmount p <> 0) as Hn by (destruct d; cbn; lia).
  erewrite calculatePositionPNL_price; [| done | apply calculateBaseAssetValue_spec; rewrite Hback; unfold a; lia].
  unfold value_of, closing_quote. rewrite Hback. rewrite (proj2 (Z.eqb_neq _ _) Hn).
  assert (quote_at (mkt_amm m') (amm_baseAssetReserve a) = amm_quoteAssetReserve a) as ->
    by (unfold a; rewrite Hc; done).
  destruct d; cbn.
  - rewrite (proj2 (Z.ltb_lt 0 s) Hs). f_equal. unfold cost. fold a. cbn. lia.
  - rewrite (proj2 (Z.ltb_ge 0 (- s))) by lia. f_equal. unfold cost. fold a. cbn. lia.
Qed.

(** Funding: a position whose reference rate equals the market's has no funding
    PnL; when the rate of its side has risen a long never gains and a short
    never loses; and the amount is the truncated rate difference times the
    size. *)
Theorem funding_pnl_sign (m : Market) (p : UserPosition) (rate : Z) :
  rate = (if 0 <? pos_baseAssetAmount p then amm_cumulativeFundingRateLong (mkt_amm m)
          else amm_cumulativeFundingRateShort (mkt_amm m)) ->
  exists f, calculatePositionFundingPNL m p = Ok f /\
    (rate = pos_lastCumulativeFundingRate p -> f = 0) /\
    (pos_lastCumulativeFundingRate p <= rate -> 0 < pos_baseAssetAmount p -> f <= 0) /\
    (pos_lastCumulativeFundingRate p <= rate -> pos_baseAssetAmount p < 0 -> 0 <= f) /\
    Z.abs f <= Z.abs (rate - pos_lastCumulativeFundingRate p) * Z.abs (pos_baseAssetAmount p).
Proof.
  intros Hr. destruct (Z.eqb_spec (pos_baseAssetAmount p) 0) as [Hz | Hn].
  - exists 0. unfold calculatePositionFundingPNL. rewrite Hz. cbn. split_and!; first [done | lia | nia].
  - rewrite calculatePositionFundingPNL_spec by done. rewrite <- Hr.
    set (x := (rate - pos_lastCumulativeFundingRate p) * pos_baseAssetAmount p).
    eexists. split; [reflexivity |]. split_and!.
    + intros ->. unfold x. by rewrite Z.sub_diag.
    + intros. assert (0 <= x) by (unfold x; nia).
      pose proof (quot_nonneg (x `quot` 10000000000000) 10000).
      pose proof (quot_nonneg x 10000000000000). lia.
    + intros. assert (0 <= - x) by (unfold x; nia).
      rewrite <- !Z.quot_opp_l by lia.
      pose proof (quot_nonneg ((- x) `quot` 10000000000000) 10000).
      pose proof (quot_nonneg (- x) 10000000000000). lia.
    + rewrite Z.abs_opp, <- Z.abs_mul. fold x.
      pose proof (quot_abs_le x 10000000000000).
      pose proof (quot_abs_le (x `quot` 10000000000000) 10000). lia.
Qed.

(** The entry price is never negative and brackets the quote per base: multiplied back
    by the size it gives the quote amount up to one unit of price. *)
Theorem entry_price_brackets (p : UserPosition) :
  pos_baseAssetAmount p <> 0 ->
  exists e, calculateEntryPrice p = Ok e /\ 0 <= e /\
    Z.abs (pos_baseAssetAmount p) * e <= Z.abs (pos_quoteAssetAmount p) * 10 ^ 17
      < Z.abs (pos_baseAssetAmount p) * (e + 1).
Proof.
  intros Hn. unfold calculateEntryPrice. consts. rewrite (proj2 (Z.eqb_neq _ _) Hn).
  bn_run. eexists. split; [reflexivity |]. split; [lia |].
  rewrite <- Z.quot_abs by done. rewrite !Z.abs_mul.
  replace (Z.abs (pos_quoteAssetAmount p) * Z.abs 10000000000 * Z.abs 10000000)
    with (Z.abs (pos_quoteAssetAmount p) * 10 ^ 17) by lia.
  apply quot_bounds; lia.
Qed.

(** Re-scaling k by 1 costs nothing when the users are flat or net long, and minus the
    one-unit rounding a short always pays when they are net short; a zero
    denominator throws. *)
Theorem adjust_k_identity (m : Market) (i c : Z) :
  amm_baseAssetReserve (mkt_amm m) + mkt_baseAssetAmount m <> 0 ->
  calculateAdjustKCost m i c 0 = Throw bn_error /\
  (c <> 0 ->
   calculateAdjustKCost m i c c = Ok (if mkt_baseAssetAmount m <? 0 then -1 else 0)).
Proof.
  intros Hb. unfold calculateAdjustKCost.
  rewrite calculateBaseAssetValue_spec by done. res_simpl. split.
  - by rewrite !bn_div_zero.
  - intros Hc. bn_run. rewrite !Z.quot_mul by done. rewrite with_curve_same.
    set (p := netUserPosition m i _).
    destruct (Z.eqb_spec (mkt_baseAssetAmount m) 0) as [Hz | Hn].
    + rewrite calculatePositionPNL_flat by done. by rewrite Hz.
    + erewrite calculatePositionPNL_price; [| done | by apply calculateBaseAssetValue_spec].
      cbn. destruct (Z.ltb_spec 0 (mkt_baseAssetAmount m)).
      * rewrite (proj2 (Z.ltb_ge _ _)) by lia. f_equal. lia.
      * rewrite (proj2 (Z.ltb_lt _ _)) by lia. f_equal. lia.
Qed.

(** Re-pegging returns a cost whenever both prices are printable: nothing for flat users,
    for net longs the gain in the value of their position (never negative when
    the peg rises), for net shorts its opposite less the one-unit rounding. *)
Theorem repeg_cost_spec (m : Market) (i newPeg : Z) :
  let a := mkt_amm m in
  let n := mkt_baseAssetAmount m in
  amm_wf a -> amm_on_curve a -> - amm_baseAssetReserve a < n -> 0 < newPeg ->
  amm_quoteAssetReserve a * Z.max newPeg (amm_pegMultiplier a)
    <= 1000 * MAX_SAFE_INTEGER * amm_baseAssetReserve a ->
  let a' := mkt_amm (with_peg m newPeg) in
  calculateRepegCost m i newPeg =
    Ok (if n =? 0 then 0
        else if 0 <? n then value_of a' n - value_of a n
        else value_of a n - value_of a' n - 1) /\
  (amm_pegMultiplier a <= newPeg -> value_of a n <= value_of a' n).
Proof.
  intros a n Hw Hc Hn Hnew Hmax a'. destruct Hw as [Hb Hq Hk Hp] eqn:E. clear E. split.
  - assert (forall x, 0 < x <= Z.max newPeg (amm_pegMultiplier a) -> exists y,
      calculatePrice (amm_baseAssetReserve a) (amm_quoteAssetReserve a) x = Ok y /\
      exists z, convertToNumber (Some y) MARK_PRICE_PRECISION = Ok z) as Hprice.
    { intros x Hx. eexists. split; [apply calculatePrice_pos; lia |].
      apply convertToNumber_safe.
      - consts; lia.
      - apply Z.div_pos; nia.
      - consts. rewrite Z.div_div by lia. apply Z.div_le_upper_bound; nia. }
    destruct (Hprice (amm_pegMultiplier a)) as (y & Hy & z & Hz); [lia |].
    destruct (Hprice newPeg) as (y' & Hy' & z' & Hz'); [lia |].
    unfold calculateRepegCost, calculateMarkPrice.
    rewrite calculateBaseAssetValue_spec by (cbn; unfold a, n in *; lia). res_simpl.
    fold a. rewrite Hy. res_simpl. rewrite Hz. res_simpl.
    change (calculatePrice _ _ _) with
      (calculatePrice (amm_baseAssetReserve a) (amm_quoteAssetReserve a) newPeg).
    rewrite Hy'. res_simpl. rewrite Hz'. res_simpl. fold n.
    destruct (Z.eqb_spec n 0) as [Hz0 | Hn0].
    + by apply calculatePositionPNL_flat.
    + erewrite calculatePositionPNL_price; [| done | apply calculateBaseAssetValue_spec];
        [done | cbn; unfold a, n in *; lia].
  - intros Hle. unfold value_of. destruct (n =? 0); [lia |].
    change (closing_quote a' n) with (closing_quote a n).
    change (amm_pegMultiplier a') with newPeg.
    pose proof (closing_quote_nonneg a n Hw Hc Hn). apply quot_mono; nia.
Qed.
End PositionProperties.
