(* ===== verification/Trade.v ===== *)
(** * Trade estimation (math/trade.ts, math/utils.ts)

    The Newton square root, the amounts a trade acquires, its slippage, and the
    trade that moves the mark price to a target. *)
From S2P Require Import Prelude BN Types Amm.

Section Trade.
Context {B : BNLib}.

(** One turn of the loop of math/utils.ts [squareRootBN]: [inl] is the next
    guess, [inr] the value (or the exception) the function ends with. *)
Definition sqrt_step (n closeness x : Z) : Z + result Z :=
  match bn_div n x with
  | Throw e => inr (Throw e)
  | Ok d =>
      match bn_div (x + d) 2 with
      | Throw e => inr (Throw e)
      | Ok root => if Z.abs (x - root) <=? closeness then inr (Ok root) else inl root
      end
  end.

(** math/utils.ts [squareRootBN]: at most [Number.MAX_SAFE_INTEGER] turns; when
    they are exhausted the last root is also the current guess. *)
Definition squareRootBN (n closeness : Z) : result Z :=
  match iter_until 9007199254740991 (sqrt_step n closeness) n with
  | inl root => Ok root
  | inr r => r
  end.

(** math/trade.ts [MAXPCT] *)
Definition MAXPCT : Z := 1000.

(** math/trade.ts [calculateTradeAcquiredAmounts] *)
Definition calculateTradeAcquiredAmounts (direction : PositionDirection) (amount : Z)
    (market : Market) (inputAssetType : AssetType) : result (Z * Z) :=
  if amount =? ZERO then Ok (ZERO, ZERO)
  else
    '(newQuoteAssetReserve, newBaseAssetReserve) ←
      calculateAmmReservesAfterSwap (mkt_amm market) inputAssetType amount
        (getSwapDirection inputAssetType direction);
    let acquiredBase := amm_baseAssetReserve (mkt_amm market) - newBaseAssetReserve in
    let acquiredQuote := amm_quoteAssetReserve (mkt_amm market) - newQuoteAssetReserve in
    Ok (acquiredBase, acquiredQuote).

(** What [calculateTradeSlippage] returns, in the order of its array. *)
Record Slippage := mkSlippage {
  pctAvgSlippage : Z; pctMaxSlippage : Z; slip_entryPrice : Z; slip_newPrice : Z
}.

(** math/trade.ts [calculateTradeSlippage] *)
Definition calculateTradeSlippage (direction : PositionDirection) (amount : Z)
    (market : Market) (inputAssetType : AssetType) : result Slippage :=
  oldPrice ← calculateMarkPrice market;
  if amount =? ZERO then Ok (mkSlippage ZERO ZERO oldPrice oldPrice)
  else
    '(acquiredBase, acquiredQuote) ←
      calculateTradeAcquiredAmounts direction amount market inputAssetType;
    e ← calculatePrice acquiredBase acquiredQuote (amm_pegMultiplier (mkt_amm market));
    let entryPrice := e * -1 in
    newPrice ← calculatePrice
      (amm_baseAssetReserve (mkt_amm market) - acquiredBase)
      (amm_quoteAssetReserve (mkt_amm market) - acquiredQuote)
      (amm_pegMultiplier (mkt_amm market));
    _ ← (if decide (direction = SHORT) then assert (newPrice <? oldPrice) None
         else assert (oldPrice <? newPrice) None);
    mx ← bn_div ((newPrice - oldPrice) * MARK_PRICE_PRECISION) oldPrice;
    av ← bn_div ((entryPrice - oldPrice) * MARK_PRICE_PRECISION) oldPrice;
    Ok (mkSlippage (Z.abs av) (Z.abs mx) entryPrice newPrice).

(** What [calculateTargetPriceTrade] returns, in the order of its array. *)
Record TargetTrade := mkTargetTrade {
  tt_direction : PositionDirection; tt_tradeSize : Z; tt_entryPrice : Z; tt_targetPrice : Z
}.

(** The target price after closing only [pct] thousandths of the gap. *)
Definition scaleTargetPrice (markPriceBefore targetPrice pct : Z) : result Z :=
  if markPriceBefore <? targetPrice then
    priceGapScaled ← bn_div ((targetPrice - markPriceBefore) * pct) MAXPCT;
    Ok (markPriceBefore + priceGapScaled)
  else
    priceGapScaled ← bn_div ((markPriceBefore - targetPrice) * pct) MAXPCT;
    Ok (markPriceBefore - priceGapScaled).

(** The base and quote reserves at which the curve has price [targetPrice],
    the square root being taken of a value moved by [bias] and the result
    moved by [bias] again (-1 for a short, 1 for a long). *)
Definition targetReserves (k peg targetPrice bias : Z) : result (Z * Z) :=
  x ← bn_div k targetPrice;
  y ← bn_div (x * peg) PEG_PRECISION;
  root ← squareRootBN (y + bias) 1;
  let baseAssetReserveAfter := root + bias in
  z ← bn_div k MARK_PRICE_PRECISION;
  quoteAssetReserveAfter ← bn_div z baseAssetReserveAfter;
  Ok (baseAssetReserveAfter, quoteAssetReserveAfter).

(** Quote reserves difference as a trade size in quote precision. *)
Definition quoteTradeSize (quoteDelta peg : Z) : result Z :=
  x ← bn_div (quoteDelta * peg) PEG_PRECISION;
  bn_div x AMM_TO_QUOTE_PRECISION_RATIO.

(** The closing checks and the returned tuple. *)
Definition finishTargetTrade (direction : PositionDirection) (tradeSize baseSize
    markPriceBefore markPriceAfter targetPrice : Z) (outputAssetType : AssetType)
    : result TargetTrade :=
  let '(tp1, tp2, originalDiff) :=
    if decide (direction = SHORT)
    then (markPriceAfter, targetPrice, markPriceBefore - targetPrice)
    else (targetPrice, markPriceAfter, targetPrice - markPriceBefore) in
  entryPrice ← bn_div (tradeSize * AMM_TO_QUOTE_PRECISION_RATIO * MARK_PRICE_PRECISION)
                 (Z.abs baseSize);
  _ ← assert (tp1 - tp2 <=? originalDiff) (Some "Target Price Calculation incorrect");
  _ ← assert ((tp2 <=? tp1) || (Z.abs (tp2 - tp1) <? 100000))
        (Some ("Target Price Calculation incorrect" ++ bn_toString tp2 ++ ">="
                 ++ bn_toString tp1 ++ "err: " ++ bn_toString (Z.abs (tp2 - tp1)))%string);
  if decide (outputAssetType = quote)
  then Ok (mkTargetTrade direction tradeSize entryPrice targetPrice)
  else Ok (mkTargetTrade direction baseSize entryPrice targetPrice).

(** math/trade.ts [calculateTargetPriceTrade] *)
Definition calculateTargetPriceTrade (market : Market) (targetPrice pct : Z)
    (outputAssetType : AssetType) : result TargetTrade :=
  let amm := mkt_amm market in
  _ ← assert (ZERO <? amm_baseAssetReserve amm) None;
  _ ← assert (ZERO <? targetPrice) None;
  _ ← assert ((pct <=? MAXPCT) && (ZERO <? pct)) None;
  markPriceBefore ← calculateMarkPrice market;
  targetPrice ← scaleTargetPrice markPriceBefore targetPrice pct;
  let peg := amm_pegMultiplier amm in
  let invariant := amm_sqrtK amm * amm_sqrtK amm in
  let k := invariant * MARK_PRICE_PRECISION in
  if targetPrice <? markPriceBefore then
    '(baseAssetReserveAfter, quoteAssetReserveAfter) ← targetReserves k peg targetPrice (-1);
    markPriceAfter ← calculatePrice baseAssetReserveAfter quoteAssetReserveAfter peg;
    tradeSize ← quoteTradeSize (amm_quoteAssetReserve amm - quoteAssetReserveAfter) peg;
    finishTargetTrade SHORT tradeSize (baseAssetReserveAfter - amm_baseAssetReserve amm)
      markPriceBefore markPriceAfter targetPrice outputAssetType
  else if markPriceBefore <? targetPrice then
    '(baseAssetReserveAfter, quoteAssetReserveAfter) ← targetReserves k peg targetPrice 1;
    markPriceAfter ← calculatePrice baseAssetReserveAfter quoteAssetReserveAfter peg;
    tradeSize ← quoteTradeSize (quoteAssetReserveAfter - amm_quoteAssetReserve amm) peg;
    finishTargetTrade LONG tradeSize (amm_baseAssetReserve amm - baseAssetReserveAfter)
      markPriceBefore markPriceAfter targetPrice outputAssetType
  else Ok (mkTargetTrade LONG ZERO targetPrice targetPrice).
End Trade.

(** ** Newton's iteration *)

(** One Newton step on the integers. *)
Definition newton (n x : Z) : Z := (x + n / x) / 2.

Lemma newton_above n x : 0 <= n -> 0 < x -> Z.sqrt n <= newton n x.
Proof.
  intros Hn Hx. unfold newton. pose proof (Z.sqrt_spec n Hn) as [Hs Hs'].
  set (s := Z.sqrt n) in *. pose proof (Z.sqrt_nonneg n : 0 <= s).
  apply Z.div_le_lower_bound; [lia |].
  destruct (Z.le_gt_cases (2 * s) (x + n / x)) as [H1 | H1]; [done |].
  pose proof (Z.mul_succ_div_gt n x Hx).
  assert (x * Z.succ (n / x) <= x * (2 * s - x)) by (apply Z.mul_le_mono_nonneg_l; lia).
  pose proof (Z.square_nonneg (x - s)). lia.
Qed.

(** The root itself moves by at most one. *)
Lemma newton_root n : 0 < n -> newton n (Z.sqrt n) <= Z.sqrt n + 1.
Proof.
  intros Hn. unfold newton. pose proof (Z.sqrt_spec n ltac:(lia)) as [Hs Hs'].
  pose proof (proj2 (Z.sqrt_pos n) Hn) as Hpos. set (s := Z.sqrt n) in *.
  assert (n / s <= s + 2) by (apply Z.lt_succ_r, Z.div_lt_upper_bound; lia).
  apply Z.lt_succ_r, Z.div_lt_upper_bound; lia.
Qed.

Lemma newton_halves n x :
  0 <= n -> Z.sqrt n < x -> newton n x - Z.sqrt n <= (x - Z.sqrt n) / 2.
Proof.
  intros Hn Hx. unfold newton. pose proof (Z.sqrt_spec n Hn) as [Hs Hs'].
  set (s := Z.sqrt n) in *. pose proof (Z.sqrt_nonneg n : 0 <= s).
  assert (n / x <= s) by (apply Z.lt_succ_r, Z.div_lt_upper_bound; nia).
  assert ((x + n / x) / 2 <= (x - s + s * 2) / 2) by (apply Z.div_le_mono; lia).
  rewrite Z.div_add in * by lia. lia.
Qed.

(** When the step moves by at most one, it has reached the root, or one more
    than it just below a perfect square. *)
Lemma newton_close n x :
  0 < n -> Z.sqrt n <= x -> Z.abs (x - newton n x) <= 1 ->
  newton n x = Z.sqrt n \/
  (newton n x = Z.sqrt n + 1 /\ n + 1 = newton n x * newton n x).
Proof.
  intros Hn Hx Hc. pose proof (Z.sqrt_spec n ltac:(lia)) as [Hs Hs'].
  pose proof (proj2 (Z.sqrt_pos n) Hn) as Hpos.
  assert (0 < x) as Hx0 by lia.
  pose proof (newton_above n x ltac:(lia) Hx0) as Hab.
  set (s := Z.sqrt n) in *. unfold newton in *.
  pose proof (Z.mul_div_le n x Hx0). pose proof (Z.mul_succ_div_gt n x Hx0).
  set (q := n / x) in *.
  pose proof (Z.mul_div_le (x + q) 2 ltac:(lia)).
  pose proof (Z.mul_succ_div_gt (x + q) 2 ltac:(lia)).
  set (r := (x + q) / 2) in *.
  assert (x - 2 <= q) by lia.
  assert (x <= s + 2) by nia.
  destruct (Z.eq_dec x s) as [-> | ?]; [| destruct (Z.eq_dec x (s + 1)) as [-> | ?]].
  - assert (q <= s + 2) by nia. destruct (Z.eq_dec q (s + 2)) as [Hq | Hq].
    + right. assert (r = s + 1) by lia. split; [done |]. nia.
    + left. lia.
  - assert (q <= s) by nia. left. lia.
  - assert (x = s + 2) as -> by lia. assert (q = s) by nia.
    right. assert (r = s + 1) by lia. split; [done |]. nia.
Qed.

Section TradeFacts.
Context {B : BNLib} {L : BNLaws B}.

Lemma sqrt_step_pos n c x :
  0 <= n -> 0 < x ->
  sqrt_step n c x =
  if Z.abs (x - newton n x) <=? c then inr (Ok (newton n x)) else inl (newton n x).
Proof.
  intros. unfold sqrt_step, newton. rewrite (bn_div_pos n x) by lia.
  rewrite bn_div_pos; [done | | lia]. pose proof (Z.div_pos n x). lia.
Qed.

(** From a guess within [2 ^ k] of the root the loop stops in [k + 1] turns. *)
Lemma sqrt_loop_stops n k x :
  0 < n -> Z.sqrt n <= x -> x - Z.sqrt n < 2 ^ Z.of_nat k ->
  exists r, iter_nat (Datatypes.S k) (sqrt_step n 1) x = inr (Ok r) /\
    (r = Z.sqrt n \/ (r = Z.sqrt n + 1 /\ n + 1 = r * r)).
Proof.
  intros Hn. revert x. pose proof (proj2 (Z.sqrt_pos n) Hn) as Hpos.
  induction k as [| k IH]; intros x Hx Hd;
    cbn [iter_nat]; rewrite sqrt_step_pos by lia;
    (destruct (Z.leb_spec (Z.abs (x - newton n x)) 1) as [Hc | Hc];
     [ exists (newton n x); split; [done | by apply newton_close] |]).
  - exfalso. change (2 ^ Z.of_nat 0) with 1 in Hd. assert (x = Z.sqrt n) as -> by lia.
    pose proof (newton_root n Hn). pose proof (newton_above n (Z.sqrt n)). lia.
  - assert (Z.sqrt n <> x) as Hne.
    { intros <-. pose proof (newton_root n Hn). pose proof (newton_above n (Z.sqrt n)). lia. }
    apply IH; [apply newton_above; lia |].
    pose proof (newton_halves n x ltac:(lia) ltac:(lia)).
    rewrite Nat2Z.inj_succ, Z.pow_succ_r in Hd by lia.
    eapply Z.le_lt_trans; [done |]. apply Z.div_lt_upper_bound; lia.
Qed.

Lemma squareRootBN_returns n : 0 < n -> Z.log2 n < 2 ^ 52 ->
  exists r, squareRootBN n 1 = Ok r /\
    (r = Z.sqrt n \/ (r = Z.sqrt n + 1 /\ n + 1 = r * r)).
Proof.
  intros Hn Hlog. set (k := Z.to_nat (Z.succ (Z.log2 n))).
  pose proof (Z.log2_nonneg n).
  destruct (sqrt_loop_stops n k n) as (r & Hr & Hspec); [lia | | |].
  - apply Z.sqrt_le_lin; lia.
  - unfold k. rewrite Z2Nat.id by lia.
    pose proof (Z.log2_spec n ltac:(lia)). pose proof (Z.sqrt_nonneg n). lia.
  - exists r. split; [| done]. unfold squareRootBN. rewrite iter_until_nat.
    erewrite iter_nat_stop; [reflexivity | | exact Hr].
    unfold k. apply Nat2Z.inj_le. rewrite positive_nat_Z, Nat2Z.inj_succ, Z2Nat.id by lia.
    change (2 ^ 52) with 4503599627370496 in Hlog. lia.
Qed.
End TradeFacts.

(** ** Trades *)
Section TradeLemmas.
Context {B : BNLib} {L : BNLaws B}.

(** The base a trade of [s] base in direction [d] acquires. *)
Definition signed_base (d : PositionDirection) (s : Z) : Z :=
  match d with LONG => s | SHORT => - s end.

Lemma acquired_base_trade m d s :
  0 < s -> base_after (mkt_amm m) d s <> 0 ->
  calculateTradeAcquiredAmounts d s m base =
  Ok (signed_base d s,
      amm_quoteAssetReserve (mkt_amm m) - quote_at (mkt_amm m) (base_after (mkt_amm m) d s)).
Proof.
  intros Hs Hb. unfold calculateTradeAcquiredAmounts. consts.
  rewrite (proj2 (Z.eqb_neq s 0)) by lia. rewrite reserves_after_base by (done || lia).
  cbn. do 2 f_equal. destruct d; cbn; lia.
Qed.

(** Average price of [s] base against [dq] quote. *)
Definition average_price (dq peg s : Z) : Z := (dq * peg * 10000000) / s.

Lemma quot_opp_opp a b : b <> 0 -> (- a) `quot` (- b) = a `quot` b.
Proof. intros. rewrite Z.quot_opp_l, Z.quot_opp_r by lia. lia. Qed.

(** On a curve the entry price is the average of quote moved over base moved. *)
Lemma entry_price_base_trade a d s :
  amm_wf a -> amm_on_curve a -> 0 < s -> (d = LONG -> s < amm_baseAssetReserve a) ->
  exists e,
    calculatePrice (signed_base d s)
      (amm_quoteAssetReserve a - quote_at a (base_after a d s)) (amm_pegMultiplier a) = Ok e /\
    e * -1 = average_price
      (Z.abs (amm_quoteAssetReserve a - quote_at a (base_after a d s))) (amm_pegMultiplier a) s.
Proof.
  intros [Hb Hq Hk Hp] Hc Hs Hl. assert (signed_base d s <> 0) by (destruct d; cbn; lia).
  rewrite calculatePrice_nonzero by done. eexists. split; [reflexivity |]. consts.
  rewrite Hc. change (_ `quot` amm_baseAssetReserve a) with (quote_at a (amm_baseAssetReserve a)).
  unfold average_price. destruct d; cbn [signed_base base_after].
  - specialize (Hl eq_refl).
    pose proof (quote_at_antitone a (amm_baseAssetReserve a - s) (amm_baseAssetReserve a)
      ltac:(lia)).
    set (D := quote_at a (amm_baseAssetReserve a) - _) in *.
    assert (D <= 0) as HD by (unfold D; lia). rewrite (Z.abs_neq D) by done.
    replace (D * 10000000000 * amm_pegMultiplier a)
      with (- (- D * amm_pegMultiplier a * 10000000) * 1000) by lia.
    rewrite Z.quot_mul, Z.quot_opp_l by lia. rewrite quot_div_pos by nia. lia.
  - pose proof (quote_at_antitone a (amm_baseAssetReserve a) (amm_baseAssetReserve a + s)
      ltac:(lia)).
    set (D := quote_at a (amm_baseAssetReserve a) - _) in *.
    assert (0 <= D) as HD by (unfold D; lia). rewrite (Z.abs_eq D) by done.
    replace (D * 10000000000 * amm_pegMultiplier a)
      with (D * amm_pegMultiplier a * 10000000 * 1000) by lia.
    rewrite Z.quot_mul, Z.quot_opp_r by lia. rewrite quot_div_pos by nia. lia.
Qed.

Lemma scaleTargetPrice_spec p t pct :
  scaleTargetPrice p t pct =
  Ok (if p <? t then p + ((t - p) * pct) `quot` 1000 else p - ((p - t) * pct) `quot` 1000).
Proof. unfold scaleTargetPrice, MAXPCT. destruct (p <? t); by bn_run. Qed.

(** The scaled target lies between the mark price and the requested target. *)
Lemma scaled_target_between p t pct t' :
  0 < pct <= 1000 -> scaleTargetPrice p t pct = Ok t' -> Z.min p t <= t' <= Z.max p t.
Proof.
  intros Hpct. rewrite scaleTargetPrice_spec. intros [= <-]. destruct (Z.ltb_spec p t).
  - pose proof (quot_bounds ((t - p) * pct) 1000 ltac:(nia) ltac:(lia)).
    pose proof (quot_nonneg ((t - p) * pct) 1000 ltac:(nia) ltac:(lia)). nia.
  - pose proof (quot_bounds ((p - t) * pct) 1000 ltac:(nia) ltac:(lia)).
    pose proof (quot_nonneg ((p - t) * pct) 1000 ltac:(nia) ltac:(lia)). nia.
Qed.

Lemma finishTargetTrade_inv d ts bs p after t out r :
  finishTargetTrade d ts bs p after t out = Ok r ->
  tt_direction r = d /\ tt_targetPrice r = t /\ bs <> 0 /\
  tt_tradeSize r = (match out with quote => ts | base => bs end) /\
  tt_entryPrice r = (ts * 10 ^ 7 * 10 ^ 10) `quot` Z.abs bs /\
  match d with
  | SHORT => after <= p /\ t - 100000 < after
  | LONG => p <= after /\ after < t + 100000
  end.
Proof.
  unfold finishTargetTrade. intros H. destruct d; cbn in H.
  all: inv_bind H; inv_bind H; apply assert_Ok in Hv0; inv_bind H; apply assert_Ok in Hv1.
  all: apply bn_div_Ok_inv in Hv as [Hbs ->].
  all: assert (bs <> 0) by (intros ->; by apply Hbs).
  all: destruct out; cbn in H; injection H as <-; cbn; split_and!; first [done | lia].
Qed.

(** The scaled target in one formula. *)
Lemma scaleTargetPrice_target p t pct :
  scaleTargetPrice p t pct = Ok (p + ((t - p) * pct) `quot` 1000).
Proof.
  rewrite scaleTargetPrice_spec. f_equal. destruct (p <? t); [done |].
  replace ((t - p) * pct) with (- ((p - t) * pct)) by lia. rewrite Z.quot_opp_l by lia. lia.
Qed.

(** The reserves at a target price: a root of the curve's equation, moved by the bias. *)
Lemma targetReserves_inv s peg target bias b' q' :
  targetReserves (s * s * MARK_PRICE_PRECISION) peg target bias = Ok (b', q') ->
  let n := ((s * s * 10 ^ 10) `quot` target * peg) `quot` 1000 + bias in
  squareRootBN n 1 = Ok (b' - bias) /\ b' <> 0 /\ q' = (s * s) `quot` b'.
Proof.
  unfold targetReserves. intros H. do 3 inv_bind H.
  apply bn_div_Ok_inv in Hv as [_ ->]. apply bn_div_Ok_inv in Hv0 as [_ ->].
  do 2 inv_bind H. injection H as <- <-.
  apply bn_div_Ok_inv in Hv as [_ ->]. apply bn_div_Ok_inv in Hv0 as [Hb ->].
  cbn zeta. consts. change (10 ^ 10) with 10000000000. rewrite Z.add_simpl_r, Z.quot_mul by lia. done.
Qed.

Lemma quoteTradeSize_inv d peg ts : quoteTradeSize d peg = Ok ts -> ts = (d * peg) `quot` 10 ^ 10.
Proof.
  unfold quoteTradeSize. intros H. inv_bind H. apply bn_div_Ok_inv in Hv as [_ ->].
  apply bn_div_Ok_inv in H as [_ ->]. consts. by rewrite Z.quot_quot by lia.
Qed.

(** A trade towards [target]: to the reserves of the curve there, its size the quote or the base
    between them and the market's. *)
Definition target_sign (d : PositionDirection) : Z := match d with LONG => 1 | SHORT => -1 end.
Record reaches_target (a : AMM) (p target : Z) (out : AssetType) (r : TargetTrade) (b' q' after : Z)
    : Prop := {
  rt_root : let sign := target_sign (tt_direction r) in
    let n := ((amm_sqrtK a * amm_sqrtK a * 10 ^ 10) `quot` target * amm_pegMultiplier a) `quot` 1000
             + sign in
    0 < n -> Z.log2 n < 2 ^ 52 -> Z.sqrt n <= b' - sign <= Z.sqrt n + 1;
  rt_quote : b' <> 0 /\ q' = (amm_sqrtK a * amm_sqrtK a) `quot` b';
  rt_after : calculatePrice b' q' (amm_pegMultiplier a) = Ok after;
  rt_size : let sign := target_sign (tt_direction r) in
    let quoteSize := (sign * (q' - amm_quoteAssetReserve a) * amm_pegMultiplier a) `quot` 10 ^ 10 in
    let baseSize := sign * (amm_baseAssetReserve a - b') in
    baseSize <> 0 /\
    tt_tradeSize r = (match out with quote => quoteSize | base => baseSize end) /\
    tt_entryPrice r = (quoteSize * 10 ^ 17) `quot` Z.abs baseSize;
  rt_safe : match tt_direction r with
    | LONG => p < target /\ p <= after < target + 100000
    | SHORT => target < p /\ target - 100000 < after <= p
    end
}.

Lemma target_short x y : target_sign SHORT * (x - y) = y - x.
Proof. cbn. lia. Qed.

Lemma target_trade_reaches d a p target out r b' q' after ts :
  targetReserves (amm_sqrtK a * amm_sqrtK a * MARK_PRICE_PRECISION) (amm_pegMultiplier a) target
    (target_sign d) = Ok (b', q') ->
  calculatePrice b' q' (amm_pegMultiplier a) = Ok after ->
  quoteTradeSize (target_sign d * (q' - amm_quoteAssetReserve a)) (amm_pegMultiplier a) = Ok ts ->
  finishTargetTrade d ts (target_sign d * (amm_baseAssetReserve a - b')) p after target out = Ok r ->
  match d with LONG => p < target | SHORT => target < p end ->
  tt_targetPrice r = target /\ reaches_target a p target out r b' q' after.
Proof.
  intros Ht Ha Hq Hf Hd. apply targetReserves_inv in Ht as (Hroot & Hb & Hq').
  apply quoteTradeSize_inv in Hq. apply finishTargetTrade_inv in Hf as (Ed & Et & Hbs & Hts & He & Hs).
  split; [done |]. split; cbn zeta; rewrite ?Ed; [| done | done | | destruct d; lia].
  - intros Hn Hlog. destruct (squareRootBN_returns _ Hn Hlog) as (x & Hx & Hspec).
    assert (b' - target_sign d = x) as -> by congruence. lia.
  - rewrite <- Hq. split_and!; [done | done |]. rewrite He. f_equal. lia.
Qed.
End TradeLemmas.

(** ** Properties *)
Section TradeProperties.
Context {B : BNLib} {L : BNLaws B}.

(** C2: [squareRootBN] terminates within its loop bound on every positive integer
    of at most 2^52 bits and returns the integer square root, or one more exactly when the argument is
    one below that number's square; on 0 it divides by zero. *)
Theorem squareRootBN_correct (n : Z) :
  0 < n -> Z.log2 n < 2 ^ 52 ->
  (exists r, squareRootBN n 1 = Ok r /\
    (r = Z.sqrt n \/ (r = Z.sqrt n + 1 /\ n + 1 = r * r))) /\
  squareRootBN 0 1 = Throw bn_error.
Proof.
  intros Hn Hlog. split; [by apply squareRootBN_returns |].
  unfold squareRootBN. rewrite iter_until_nat.
  erewrite (iter_nat_stop 1); [reflexivity | apply Pos2Nat.is_pos |].
  cbn. unfold sqrt_step. by rewrite bn_div_zero.
Qed.

(** Slippage of a base-asset trade, completely: it is refused unless it strictly
    moves the price its way; otherwise the entry price is the
    average of the quote moved over the base moved, the new price that of
    the reserves after the swap, and the two percentages are the relative
    distances to the old price. *)
Theorem slippage_base_trade (m : Market) (d : PositionDirection) (s old : Z) :
  let a := mkt_amm m in
  amm_wf a -> amm_on_curve a -> 0 < s -> (d = LONG -> s < amm_baseAssetReserve a) ->
  calculateMarkPrice m = Ok old -> 0 < old ->
  let b' := base_after a d s in
  let new := average_price (quote_at a b') (amm_pegMultiplier a) b' in
  let entry := average_price (Z.abs (amm_quoteAssetReserve a - quote_at a b'))
                 (amm_pegMultiplier a) s in
  calculateTradeSlippage d s m base =
    if (match d with LONG => old <? new | SHORT => new <? old end)
    then Ok (mkSlippage (Z.abs (((entry - old) * 10 ^ 10) `quot` old))
                        (Z.abs (((new - old) * 10 ^ 10) `quot` old)) entry new)
    else Throw (JsErr "Unspecified AssertionError").
Proof.
  intros a Hw Hc Hs Hl Hold Hpos b' new entry.
  assert (0 < b') as Hb' by (apply base_after_pos; [apply Hw | lia | done]).
  unfold calculateTradeSlippage. rewrite Hold. res_simpl. consts.
  rewrite (proj2 (Z.eqb_neq s 0)) by lia.
  rewrite acquired_base_trade by (fold a b'; lia). res_simpl. fold a. fold b'.
  destruct (entry_price_base_trade a d s Hw Hc Hs Hl) as (e & He & Hent).
  fold b' in He, Hent. rewrite He. res_simpl. fold entry in Hent. rewrite Hent.
  replace (amm_baseAssetReserve a - signed_base d s) with b'
    by (unfold b'; destruct d; cbn; lia).
  replace (amm_quoteAssetReserve a - (amm_quoteAssetReserve a - quote_at a b'))
    with (quote_at a b') by lia.
  rewrite calculatePrice_pos;
    [| lia | apply quote_at_nonneg; [apply Z.lt_le_incl, Hw | lia] | apply Z.lt_le_incl, Hw].
  res_simpl. fold (average_price (quote_at a b') (amm_pegMultiplier a) b'). fold new.
  destruct d; cbn; [destruct (old <? new) | destruct (new <? old)]; cbn; bn_run; done.
Qed.

(** Guards of the target-price trade: a non-positive base reserve, a
    non-positive target and a percentage outside (0, 1000] are refused; a
    market already at its target, or whose scaled gap rounds to zero, needs a
    zero-size trade and reports the mark price. *)
Theorem target_trade_guards (m : Market) (t pct p : Z) (out : AssetType) :
  (amm_baseAssetReserve (mkt_amm m) <= 0 \/ t <= 0 \/ pct <= 0 \/ 1000 < pct ->
   calculateTargetPriceTrade m t pct out = Throw (JsErr "Unspecified AssertionError")) /\
  (0 < amm_baseAssetReserve (mkt_amm m) -> 0 < t -> 0 < pct <= 1000 ->
   calculateMarkPrice m = Ok p -> Z.abs (t - p) * pct < 1000 ->
   calculateTargetPriceTrade m t pct out = Ok (mkTargetTrade LONG 0 p p)).
Proof.
  unfold calculateTargetPriceTrade, MAXPCT. consts. split.
  - intros H.
    destruct (Z.ltb_spec 0 (amm_baseAssetReserve (mkt_amm m))); [| done].
    destruct (Z.ltb_spec 0 t); [| done].
    destruct (Z.leb_spec pct 1000); [| done]. destruct (Z.ltb_spec 0 pct); [| done]. lia.
  - intros Hb Ht Hpct Hp Hgap.
    rewrite !(proj2 (Z.ltb_lt 0 _)), (proj2 (Z.leb_le pct 1000)) by lia. cbn.
    rewrite Hp. res_simpl. rewrite scaleTargetPrice_spec. res_simpl.
    assert ((if p <? t then p + ((t - p) * pct) `quot` 1000
             else p - ((p - t) * pct) `quot` 1000) = p) as ->.
    { destruct (Z.ltb_spec p t); rewrite Z.quot_small by nia; lia. }
    rewrite Z.ltb_irrefl. done.
Qed.

(** C33: The target-price trade: when one is returned, the base reserve and the target are
    positive and the percentage is in (0, 1000]; the reported target closes that many
    thousandths of the gap to the requested one; and unless it is the mark price itself (then the
    trade is empty) the trade goes its way and is sized to take the market to the curve's
    reserves at the target, the integer root of the curve's equation moved by one: the
    quote between the reserves at the peg, or the base, with their quotient as the entry
    price. The price on those reserves is not past the mark price backwards and passes the
    target by less than 100000 units of the price's 10^10. *)
Theorem target_trade_safe (m : Market) (t pct p : Z) (out : AssetType) (r : TargetTrade) :
  calculateMarkPrice m = Ok p ->
  calculateTargetPriceTrade m t pct out = Ok r ->
  let target := p + ((t - p) * pct) `quot` 1000 in
  0 < amm_baseAssetReserve (mkt_amm m) /\ 0 < t /\ 0 < pct <= 1000 /\
  tt_targetPrice r = target /\ Z.min p t <= target <= Z.max p t /\
  (target = p /\ r = mkTargetTrade LONG 0 p p \/
   exists b' q' after, reaches_target (mkt_amm m) p target out r b' q' after).
Proof.
  intros Hp H target. unfold calculateTargetPriceTrade in H.
  inv_bind H. apply assert_Ok in Hv. inv_bind H. apply assert_Ok in Hv0.
  inv_bind H. apply assert_Ok in Hv1. rewrite Hp in H. cbn [mbind result_bind] in H.
  unfold MAXPCT in Hv1. assert (0 < pct <= 1000) as Hpct by (consts; lia).
  pose proof (scaled_target_between p t pct target Hpct (scaleTargetPrice_target p t pct)) as Hbt.
  rewrite scaleTargetPrice_target in H. fold target in H. cbn [mbind result_bind] in H.
  split; [consts; lia |]. split; [consts; lia |]. split; [done |].
  destruct (Z.ltb_spec target p) as [Hlt | Hge]; [| destruct (Z.ltb_spec p target) as [Hlt | Hle]].
  - inv_bind H. destruct v2 as [b' q']. do 2 inv_bind H.
    destruct (target_trade_reaches SHORT (mkt_amm m) p target out r b' q' v2 v3) as [? ?];
      [done | done | by rewrite target_short | by rewrite target_short | done |].
    split_and!; [done | lia | lia | right; by exists b', q', v2].
  - inv_bind H. destruct v2 as [b' q']. do 2 inv_bind H.
    destruct (target_trade_reaches LONG (mkt_amm m) p target out r b' q' v2 v3) as [? ?];
      [done | done | by rewrite Z.mul_1_l | by rewrite Z.mul_1_l | done |].
    split_and!; [done | lia | lia | right; by exists b', q', v2].
  - assert (target = p) as E by lia. injection H as <-. cbn.
    split_and!; [done | lia | lia | left; by rewrite E].
Qed.
End TradeProperties.
