(* ===== verification/Funding.v ===== *)
(** * Funding-rate estimation (math/funding.ts)

    The functions are [async]; a rejected promise is a [Throw].  [Date.now()]
    is an argument, in milliseconds.  [PriceData] is the record the pyth client
    returns; only the two fields the code reads are kept, each of which may be
    [undefined]. *)
From S2P Require Import Prelude BN Types Amm.

Record PriceData := mkPriceData {
  pd_price : option Number;
  pd_previousPrice : option Number
}.

(** The array the estimators return. *)
Record FundingEstimates := mkFundingEstimates {
  fe_markTwap : Z;
  fe_oracleTwap : Z;
  fe_lowerboundEst : Z;
  fe_cappedAltEst : Z;
  fe_interpEst : Z
}.

(** [estimationMethod] of [calculateEstimatedFundingRate]. *)
Inductive EstimationMethod := interpolated | lowerbound | capped.

#[export] Instance EstimationMethod_eq_dec : EqDecision EstimationMethod.
Proof. solve_decision. Defined.

Section Funding.
Context {B : BNLib}.

Definition secondsInHour : Z := 3600.
Definition hoursInDay : Z := 24.

(** [new BN((Date.now() / 1000).toFixed(0))]: rounded to the nearest second,
    halves upwards. *)
Definition nowSeconds (dateNowMs : Z) : Z := (dateNowMs + 500) / 1000.

(** [calculateFundingPool] *)
Definition calculateFundingPool (market : Market) : result Z :=
  let amm := mkt_amm market in
  totalFeeLB ← bn_div (amm_totalFee amm) 2;
  x ← bn_div ((amm_totalFeeMinusDistributions amm - totalFeeLB) * 2) 3;
  Ok (Z.max ZERO x).

(** The weight the last TWAP gets, [BN.max(secondsInHour,
    secondsInHour.sub(elapsed))]. *)
Definition twapWeight (elapsed : Z) : Z := Z.max secondsInHour (secondsInHour - elapsed).

(** The real-time mark TWAP. *)
Definition liveMarkTwap (market : Market) (now : Z) : result Z :=
  let amm := mkt_amm market in
  let timeSinceLastMarkChange := now - amm_lastMarkPriceTwapTs amm in
  let markTwapTimeSinceLastUpdate := twapWeight timeSinceLastMarkChange in
  baseAssetPriceWithMantissa ← calculateMarkPrice market;
  bn_div (markTwapTimeSinceLastUpdate * amm_lastMarkPriceTwap amm
            + timeSinceLastMarkChange * baseAssetPriceWithMantissa)
         (timeSinceLastMarkChange + markTwapTimeSinceLastUpdate).

(** Whether a price enters the average: [price >= 0], false on [undefined]. *)
Definition validPrice (p : option Number) : option Number :=
  match p with Some x => if num_ge0 x then Some x else None | None => None end.

(** The average of the valid prices as an integer of [MARK_PRICE_PRECISION];
    without any, 0 / 0. *)
Definition oracleStablePrice (d : PriceData) : result Z :=
  let '(s1, c1) := match validPrice (pd_price d) with
                   | Some x => (num_add (num_of_Z 0) x, 1)
                   | None => (num_of_Z 0, 0)
                   end in
  let '(s2, c2) := match validPrice (pd_previousPrice d) with
                   | Some x => (num_add s1 x, c1 + 1)
                   | None => (s1, c1)
                   end in
  scale ← bn_toNumber MARK_PRICE_PRECISION;
  bn_ofNumber (num_mul (num_div s2 (num_of_Z c2)) (num_of_Z scale)).

(** The predicted oracle TWAP: the last one, updated only when the live price
    is within 10% of it. *)
Definition liveOracleTwap (market : Market) (now oraclePriceStableWithMantissa : Z)
    : result Z :=
  let amm := mkt_amm market in
  let lastOracleTwapWithMantissa := amm_lastOraclePriceTwap amm in
  let timeSinceLastMarkChange := now - amm_lastMarkPriceTwapTs amm in
  let timeSinceLastOracleTwapUpdate := now - amm_lastOraclePriceTwapTs amm in
  let oracleTwapTimeSinceLastUpdate := twapWeight timeSinceLastOracleTwapUpdate in
  oracleLiveVsTwap ←
    bn_div (Z.abs (oraclePriceStableWithMantissa - lastOracleTwapWithMantissa)
              * MARK_PRICE_PRECISION * 100) lastOracleTwapWithMantissa;
  if oracleLiveVsTwap <=? MARK_PRICE_PRECISION * 10 then
    bn_div (oracleTwapTimeSinceLastUpdate * lastOracleTwapWithMantissa
              + timeSinceLastMarkChange * oraclePriceStableWithMantissa)
           (timeSinceLastOracleTwapUpdate + oracleTwapTimeSinceLastUpdate)
  else Ok lastOracleTwapWithMantissa.

(** The estimate capped by what the smaller side and the fee pool can pay. *)
Definition cappedEstimate (largerSide smallerSide twapSpread feePoolSize oracleTwapWithMantissa
    periodAdjustment interpEst : Z) : result Z :=
  if ZERO <? largerSide then
    x ← bn_div (smallerSide * twapSpread) hoursInDay;
    r ← bn_div MARK_PRICE_PRECISION QUOTE_PRECISION;
    let feePoolTopOff := feePoolSize * r * AMM_RESERVE_PRECISION in
    y ← bn_div (x + feePoolTopOff) largerSide;
    z ← bn_div (y * MARK_PRICE_PRECISION * 100) oracleTwapWithMantissa;
    let cappedAltEst := z * periodAdjustment in
    Ok (if Z.abs interpEst <=? Z.abs cappedAltEst then interpEst else cappedAltEst)
  else Ok interpEst.

(** [calculateAllEstimatedFundingRate] *)
Definition calculateAllEstimatedFundingRate (market : Market) (oraclePriceData : PriceData)
    (periodAdjustment dateNowMs : Z) : result FundingEstimates :=
  if negb (mkt_initialized market) then Ok (mkFundingEstimates ZERO ZERO ZERO ZERO ZERO)
  else
    let amm := mkt_amm market in
    let payFreq := amm_fundingPeriod amm in
    let now := nowSeconds dateNowMs in
    let timeSinceLastUpdate := now - amm_lastFundingRateTs amm in
    markTwapWithMantissa ← liveMarkTwap market now;
    oraclePriceStableWithMantissa ← oracleStablePrice oraclePriceData;
    oracleTwapWithMantissa ← liveOracleTwap market now oraclePriceStableWithMantissa;
    let twapSpread := amm_lastMarkPriceTwap amm - amm_lastOraclePriceTwap amm in
    twapSpreadPct ← bn_div (twapSpread * MARK_PRICE_PRECISION * 100) oracleTwapWithMantissa;
    l1 ← bn_div (twapSpreadPct * payFreq * Z.min secondsInHour timeSinceLastUpdate
                   * periodAdjustment) secondsInHour;
    l2 ← bn_div l1 secondsInHour;
    lowerboundEst ← bn_div l2 hoursInDay;
    interpEst ← bn_div (twapSpreadPct * periodAdjustment) hoursInDay;
    i1 ← bn_div (twapSpreadPct * periodAdjustment) hoursInDay;
    ratio ← bn_div MARK_PRICE_PRECISION QUOTE_PRECISION;
    interpRateQuote ← bn_div i1 ratio;
    pool ← calculateFundingPool market;
    let feePoolSize := if interpRateQuote <? 0 then pool * -1 else pool in
    let est c := mkFundingEstimates markTwapWithMantissa oracleTwapWithMantissa
                   lowerboundEst c interpEst in
    let long := mkt_baseAssetAmountLong market in
    let short := mkt_baseAssetAmountShort market in
    if Z.abs short <? long then
      if 0 <? twapSpread then Ok (est interpEst)
      else
        c ← cappedEstimate (Z.abs long) (Z.abs short) twapSpread feePoolSize
              oracleTwapWithMantissa periodAdjustment interpEst;
        Ok (est c)
    else if long <? Z.abs short then
      if twapSpread <? 0 then Ok (est interpEst)
      else
        c ← cappedEstimate (Z.abs short) (Z.abs long) twapSpread feePoolSize
              oracleTwapWithMantissa periodAdjustment interpEst;
        Ok (est c)
    else Ok (est interpEst).

(** [calculateEstimatedFundingRate] *)
Definition calculateEstimatedFundingRate (market : Market) (oraclePriceData : PriceData)
    (periodAdjustment : Z) (estimationMethod : EstimationMethod) (dateNowMs : Z) : result Z :=
  e ← calculateAllEstimatedFundingRate market oraclePriceData periodAdjustment dateNowMs;
  if decide (estimationMethod = lowerbound) then Ok (fe_lowerboundEst e)
  else if decide (estimationMethod = capped) then Ok (fe_cappedAltEst e)
  else Ok (fe_interpEst e).

(** [calculateLongShortFundingRate]: the long side's rate, then the short's *)
Definition calculateLongShortFundingRate (market : Market) (oraclePriceData : PriceData)
    (periodAdjustment dateNowMs : Z) : result (Z * Z) :=
  e ← calculateAllEstimatedFundingRate market oraclePriceData periodAdjustment dateNowMs;
  if mkt_baseAssetAmountShort market <? mkt_baseAssetAmountLong market
  then Ok (fe_cappedAltEst e, fe_interpEst e)
  else if mkt_baseAssetAmountLong market <? mkt_baseAssetAmountShort market
  then Ok (fe_interpEst e, fe_cappedAltEst e)
  else Ok (fe_interpEst e, fe_interpEst e).

(** [calculateLongShortFundingRateAndLiveTwaps]: the two TWAPs, then the rates
    of the long and the short side *)
Definition calculateLongShortFundingRateAndLiveTwaps (market : Market)
    (oraclePriceData : PriceData) (periodAdjustment dateNowMs : Z) : result (Z * Z * (Z * Z)) :=
  e ← calculateAllEstimatedFundingRate market oraclePriceData periodAdjustment dateNowMs;
  let twaps := (fe_markTwap e, fe_oracleTwap e) in
  if Z.abs (mkt_baseAssetAmountShort market) <? mkt_baseAssetAmountLong market
  then Ok (twaps, (fe_cappedAltEst e, fe_interpEst e))
  else if mkt_baseAssetAmountLong market <? Z.abs (mkt_baseAssetAmountShort market)
  then Ok (twaps, (fe_interpEst e, fe_cappedAltEst e))
  else Ok (twaps, (fe_interpEst e, fe_interpEst e)).
End Funding.

(** ** Lemmas *)
Section FundingFacts.
Context {B : BNLib} {L : BNLaws B}.

(** The denominators of the two TWAPs are never zero, whatever the clock. *)
Lemma twapWeight_pos t : 3600 <= t + twapWeight t.
Proof. unfold twapWeight, secondsInHour. lia. Qed.

(** Once the clock is not behind the last update the weight is one hour. *)
Lemma twapWeight_hour t : 0 <= t -> twapWeight t = 3600.
Proof. unfold twapWeight, secondsInHour. lia. Qed.

(** A weighted mean lies between its two values. *)
Lemma weighted_mean_between w t x y :
  0 < w -> 0 <= t -> 0 <= x -> 0 <= y ->
  Z.min x y <= (w * x + t * y) `quot` (t + w) <= Z.max x y.
Proof.
  intros. rewrite quot_div_pos by nia. split.
  - apply Z.div_le_lower_bound; nia.
  - apply Z.div_le_upper_bound; nia.
Qed.

Lemma calculateFundingPool_spec m :
  calculateFundingPool m =
  Ok (Z.max 0 (((amm_totalFeeMinusDistributions (mkt_amm m)
                  - amm_totalFee (mkt_amm m) `quot` 2) * 2) `quot` 3)).
Proof. unfold calculateFundingPool. by bn_run. Qed.

(** The cap never exceeds the interpolated estimate, and is always defined
    when the oracle TWAP is not zero. *)
Lemma cappedEstimate_bound lg sm sp fp ot pa i :
  ot <> 0 -> exists c, cappedEstimate lg sm sp fp ot pa i = Ok c /\ Z.abs c <= Z.abs i.
Proof.
  intros Hot. unfold cappedEstimate, hoursInDay. consts. destruct (Z.ltb_spec 0 lg).
  - bn_run. eexists. split; [reflexivity |]. zcases; lia.
  - exists i. done.
Qed.

Lemma num_trunc_nan_throw x : num_trunc x = None -> bn_ofNumber x = Throw bn_error.
Proof. apply bn_ofNumber_nan. Qed.
End FundingFacts.

Section FundingLemmas.
Context {B : BNLib} {L : BNLaws B}.

Lemma liveMarkTwap_spec m now p :
  calculateMarkPrice m = Ok p ->
  let t := now - amm_lastMarkPriceTwapTs (mkt_amm m) in
  liveMarkTwap m now =
  Ok ((twapWeight t * amm_lastMarkPriceTwap (mkt_amm m) + t * p) `quot` (t + twapWeight t)).
Proof.
  intros Hp t. unfold liveMarkTwap. rewrite Hp. res_simpl.
  pose proof (twapWeight_pos t). fold t. by rewrite bn_div_nonzero by lia.
Qed.

(** The oracle TWAP estimate, on both branches. *)
Lemma liveOracleTwap_spec m now s :
  let a := mkt_amm m in
  let last := amm_lastOraclePriceTwap a in
  let tm := now - amm_lastMarkPriceTwapTs a in
  let to := now - amm_lastOraclePriceTwapTs a in
  last <> 0 ->
  liveOracleTwap m now s =
  Ok (if (Z.abs (s - last) * 1000000000000) `quot` last <=? 100000000000
      then (twapWeight to * last + tm * s) `quot` (to + twapWeight to)
      else last).
Proof.
  intros a last tm to Hl. unfold liveOracleTwap. consts. fold a last tm to.
  rewrite (bn_div_nonzero _ last) by done. res_simpl.
  rewrite <- Z.mul_assoc. change (10000000000 * 100) with 1000000000000.
  change (10000000000 * 10) with 100000000000.
  pose proof (twapWeight_pos to). destruct (_ <=? _); [| done].
  by rewrite bn_div_nonzero by lia.
Qed.

(** With no usable price the average is 0 / 0. *)
Lemma oracleStablePrice_none d :
  validPrice (pd_price d) = None -> validPrice (pd_previousPrice d) = None ->
  oracleStablePrice d = Throw bn_error.
Proof.
  intros H1 H2. unfold oracleStablePrice. rewrite H1, H2. cbv zeta.
  rewrite bn_toNumber_safe by (consts; lia). res_simpl.
  apply bn_ofNumber_nan. vm_compute. reflexivity.
Qed.

(** Everything the estimators compute once the inputs are usable. *)
Lemma calculateAll_returns m d pa ms p s ot :
  mkt_initialized m = true -> calculateMarkPrice m = Ok p -> oracleStablePrice d = Ok s ->
  liveOracleTwap m (nowSeconds ms) s = Ok ot -> ot <> 0 ->
  exists e, calculateAllEstimatedFundingRate m d pa ms = Ok e /\
    liveMarkTwap m (nowSeconds ms) = Ok (fe_markTwap e) /\ fe_oracleTwap e = ot /\
    fe_interpEst e =
      ((((amm_lastMarkPriceTwap (mkt_amm m) - amm_lastOraclePriceTwap (mkt_amm m))
           * 10000000000 * 100) `quot` ot) * pa) `quot` 24 /\
    Z.abs (fe_cappedAltEst e) <= Z.abs (fe_interpEst e) /\
    (mkt_baseAssetAmountLong m = Z.abs (mkt_baseAssetAmountShort m) ->
     fe_cappedAltEst e = fe_interpEst e).
Proof.
  intros Hi Hp Hs Hot Hnz. unfold calculateAllEstimatedFundingRate. rewrite Hi. cbn [negb].
  rewrite (liveMarkTwap_spec m _ p Hp). rewrite bind_Ok, Hs, bind_Ok, Hot, bind_Ok.
  set (mt := _ `quot` _). unfold hoursInDay, secondsInHour. consts.
  set (spread := amm_lastMarkPriceTwap _ - _).
  bn_run. change (10000000000 `quot` 1000000) with 10000. bn_run.
  rewrite calculateFundingPool_spec, bind_Ok.
  set (pct := (spread * _ * 100) `quot` ot).
  set (interp := (pct * pa) `quot` 24). set (fp := if _ <? 0 then _ else _).
  set (lower := ((_ `quot` 3600) `quot` 3600) `quot` 24).
  destruct (cappedEstimate_bound (Z.abs (mkt_baseAssetAmountLong m))
    (Z.abs (mkt_baseAssetAmountShort m)) spread fp ot pa interp Hnz) as (c1 & Hc1 & Hb1).
  destruct (cappedEstimate_bound (Z.abs (mkt_baseAssetAmountShort m))
    (Z.abs (mkt_baseAssetAmountLong m)) spread fp ot pa interp Hnz) as (c2 & Hc2 & Hb2).
  rewrite Hc1, Hc2, !bind_Ok.
  zcases; eexists; (split; [reflexivity |]); cbn; split_and!; first [done | lia].
Qed.
End FundingLemmas.

(** ** Properties *)
Section FundingProperties.
Context {B : BNLib} {L : BNLaws B}.

(** The estimate is returned whenever the oracle prices are usable and the
    oracle TWAP is not zero, and the capped rate never exceeds the
    interpolated one in magnitude (they agree when both sides are equal);
    an uninitialised market gives zeros. *)
Theorem funding_estimates_capped (m : Market) (d : PriceData) (pa ms p s ot : Z) :
  (mkt_initialized m = false ->
   calculateAllEstimatedFundingRate m d pa ms = Ok (mkFundingEstimates 0 0 0 0 0)) /\
  (mkt_initialized m = true -> calculateMarkPrice m = Ok p -> oracleStablePrice d = Ok s ->
   liveOracleTwap m (nowSeconds ms) s = Ok ot -> ot <> 0 ->
   exists e, calculateAllEstimatedFundingRate m d pa ms = Ok e /\
     Z.abs (fe_cappedAltEst e) <= Z.abs (fe_interpEst e) /\
     (mkt_baseAssetAmountLong m = Z.abs (mkt_baseAssetAmountShort m) ->
      fe_cappedAltEst e = fe_interpEst e)).
Proof.
  split.
  - intros Hi. unfold calculateAllEstimatedFundingRate. by rewrite Hi.
  - intros Hi Hp Hs Hot Hnz.
    destruct (calculateAll_returns m d pa ms p s ot Hi Hp Hs Hot Hnz)
      as (e & He & _ & _ & _ & Hc & Heq). eauto.
Qed.

(** When neither pyth price is usable (both missing, NaN or negative) the estimate
    does not fall back on the last TWAP: averaging no price gives NaN, which
    bn.js refuses, so the call rejects. *)
Theorem funding_no_price_rejects (m : Market) (d : PriceData) (pa ms p : Z) :
  mkt_initialized m = true -> calculateMarkPrice m = Ok p ->
  validPrice (pd_price d) = None -> validPrice (pd_previousPrice d) = None ->
  calculateAllEstimatedFundingRate m d pa ms = Throw bn_error.
Proof.
  intros Hi Hp H1 H2. unfold calculateAllEstimatedFundingRate. rewrite Hi. cbn [negb].
  rewrite (liveMarkTwap_spec m _ p Hp), bind_Ok.
  by rewrite oracleStablePrice_none.
Qed.

(** With a clock not behind the market the mark TWAP estimate is a weighted mean: it lies
    between the last TWAP and the current mark price, and the last TWAP keeps
    the weight of a full hour however long ago it was taken. *)
Theorem mark_twap_between (m : Market) (now p : Z) :
  calculateMarkPrice m = Ok p -> 0 <= p -> 0 <= amm_lastMarkPriceTwap (mkt_amm m) ->
  amm_lastMarkPriceTwapTs (mkt_amm m) <= now ->
  exists w, liveMarkTwap m now = Ok w /\
    Z.min (amm_lastMarkPriceTwap (mkt_amm m)) p <= w
      <= Z.max (amm_lastMarkPriceTwap (mkt_amm m)) p /\
    w = (3600 * amm_lastMarkPriceTwap (mkt_amm m)
           + (now - amm_lastMarkPriceTwapTs (mkt_amm m)) * p)
        / (now - amm_lastMarkPriceTwapTs (mkt_amm m) + 3600).
Proof.
  intros Hp Hp0 Hl Ht. rewrite (liveMarkTwap_spec m now p Hp).
  rewrite twapWeight_hour by lia. eexists. split; [reflexivity |]. split.
  - apply weighted_mean_between; lia.
  - apply quot_div_pos; nia.
Qed.

(** The oracle TWAP estimate weighs the live price by the time since the last
    mark update but divides by the time since the last oracle update: with a
    live price equal to the last TWAP it returns that price scaled by the
    ratio of the two, so a constant price is kept when both clocks agree
    and overshot as soon as the mark update is the older by an hour or more. *)
Theorem oracle_twap_drift (m : Market) (now P : Z) :
  let tm := now - amm_lastMarkPriceTwapTs (mkt_amm m) in
  let to := now - amm_lastOraclePriceTwapTs (mkt_amm m) in
  amm_lastOraclePriceTwap (mkt_amm m) = P -> 0 < P -> 0 <= to -> 0 <= tm ->
  liveOracleTwap m now P = Ok ((P * (3600 + tm)) / (3600 + to)) /\
  (tm = to -> liveOracleTwap m now P = Ok P) /\
  (to + 3600 <= tm -> to <= 3600 -> exists w, liveOracleTwap m now P = Ok w /\ P + P / 2 <= w).
Proof.
  intros tm to HP HP0 Hto Htm.
  assert (liveOracleTwap m now P = Ok ((P * (3600 + tm)) / (3600 + to))) as E.
  { rewrite liveOracleTwap_spec by lia. rewrite HP, Z.sub_diag, Z.quot_0_l by lia.
    change (0 <=? 100000000000) with true. fold tm to.
    rewrite twapWeight_hour, quot_div_pos by nia. do 2 f_equal; lia. }
  rewrite E. split; [done | split].
  - intros ->. rewrite Z.div_mul by lia. done.
  - intros H1 H2. eexists. split; [reflexivity |]. apply Z.div_le_lower_bound; [lia |].
    pose proof (Z.mul_div_le P 2 ltac:(lia)). nia.
Qed.

(** The two long/short estimators disagree: shorts are stored as negative amounts, and
    [calculateLongShortFundingRate] compares without [abs], so for any market
    with a position it gives the capped rate to the longs, whereas
    [calculateLongShortFundingRateAndLiveTwaps] gives it to the larger side. *)
Theorem long_short_estimators_disagree (m : Market) (d : PriceData) (pa ms : Z)
    (e : FundingEstimates) :
  calculateAllEstimatedFundingRate m d pa ms = Ok e ->
  0 <= mkt_baseAssetAmountLong m -> mkt_baseAssetAmountShort m < 0 ->
  calculateLongShortFundingRate m d pa ms = Ok (fe_cappedAltEst e, fe_interpEst e) /\
  (mkt_baseAssetAmountLong m < Z.abs (mkt_baseAssetAmountShort m) ->
   calculateLongShortFundingRateAndLiveTwaps m d pa ms =
   Ok ((fe_markTwap e, fe_oracleTwap e), (fe_interpEst e, fe_cappedAltEst e))).
Proof.
  intros He Hl Hs. unfold calculateLongShortFundingRate, calculateLongShortFundingRateAndLiveTwaps.
  rewrite He. res_simpl. rewrite (proj2 (Z.ltb_lt _ _)) by lia. split; [done |].
  intros Hlt. by rewrite (proj2 (Z.ltb_ge _ _)), (proj2 (Z.ltb_lt _ _)) by lia.
Qed.

(** The fee pool offered to funding is never negative and never exceeds two
    thirds of what the market keeps above half its total fees. *)
Theorem funding_pool_bounds (m : Market) :
  exists x, calculateFundingPool m = Ok x /\ 0 <= x /\
    (0 <= amm_totalFee (mkt_amm m) ->
     3 * x <= 2 * Z.max 0 (amm_totalFeeMinusDistributions (mkt_amm m)
                             - amm_totalFee (mkt_amm m) / 2)).
Proof.
  rewrite calculateFundingPool_spec. eexists. split; [reflexivity |]. split; [lia |].
  intros Hf. rewrite (quot_div_pos (amm_totalFee _)) by lia.
  set (y := amm_totalFeeMinusDistributions _ - _). destruct (Z.le_gt_cases 0 y).
  - pose proof (quot_bounds (y * 2) 3). lia.
  - assert ((y * 2) `quot` 3 <= 0); [| lia].
    replace (y * 2) with (- (- y * 2)) by lia. rewrite Z.quot_opp_l by lia.
    pose proof (quot_nonneg (- y * 2) 3). lia.
Qed.
End FundingProperties.
