(* ===== verification/User.v ===== *)
(** * The user's risk calculations (clearingHouseUser.ts)

    Collateral, profit and loss, leverage, margin ratio, liquidation price and
    trade size of one user over all their positions. *)
From S2P Require Import Prelude BN Types Amm Position Trade.

(** ** What the account subscribers serve

    The getters of the clearing house's and of the user's account subscriber
    (accounts/types.ts).  They throw when the subscriber is not subscribed, and
    the callers read a property of the account at once, so an account that is
    still [undefined] is a [Throw TypeError] here. *)
Record ClearingHouseUser := mkClearingHouseUser {
  chu_stateAccount : result StateAccount;
  chu_marketsAccount : result MarketsAccount;
  chu_userAccount : result UserAccount;
  chu_userPositionsAccount : result UserPositionsAccount
}.

(** The category [getMaxLeverage] takes; [None] is the omitted argument. *)
Inductive MarginCategory := Initial | Partial | Maintenance.

(** Calls of the position functions on a market that may be [undefined]: they
    return zero for an empty position before touching the market. *)
Definition on_market (f : Market -> UserPosition -> result Z) (m : option Market)
    (p : UserPosition) : result Z :=
  match m with
  | Some m => f m p
  | None => if pos_baseAssetAmount p =? ZERO then Ok ZERO else Throw TypeError
  end.

Section User.
Context {B : BNLib}.
Variable u : ClearingHouseUser.

(** clearingHouse.ts [getMarket] with a [BN] index *)
Definition getMarket (marketIndex : Z) : result (option Market) :=
  i ← bn_toNumber marketIndex;
  ma ← chu_marketsAccount u;
  Ok (js_index (ma_markets ma) i).

(** The user's positions. *)
Definition positions : result (list UserPosition) :=
  upa ← chu_userPositionsAccount u; Ok (upa_positions upa).

(** [getUserPosition]: the first position of the market, by value *)
Definition getUserPosition (marketIndex : Z) : result (option UserPosition) :=
  ps ← positions;
  Ok (snd <$> list_find (fun p => bo_val (pos_marketIndex p) = marketIndex) ps).

(** [getEmptyPosition] *)
Definition getEmptyPosition (marketIndex : BNObj) : UserPosition :=
  {| pos_baseAssetAmount := ZERO;
     pos_lastCumulativeFundingRate := ZERO;
     pos_marketIndex := marketIndex;
     pos_quoteAssetAmount := ZERO |}.

(** [this.getUserPosition(i) || this.getEmptyPosition(i)] *)
Definition getUserPositionOrEmpty (marketIndex : BNObj) : result UserPosition :=
  p ← getUserPosition (bo_val marketIndex);
  Ok (default (getEmptyPosition marketIndex) p).

(** [getMaxLeverage] *)
Definition getMaxLeverage (category : option MarginCategory) : result Z :=
  chState ← chu_stateAccount u;
  let marginRatioCategory :=
    match category with
    | Some Initial => st_marginRatioInitial chState
    | Some Maintenance => st_marginRatioMaintenance chState
    | Some Partial => st_marginRatioPartial chState
    | None => st_marginRatioInitial chState
    end in
  bn_div (TEN_THOUSAND * TEN_THOUSAND) marginRatioCategory.

(** The filter of the two PnL sums: by object identity. *)
Definition selected (marketIndex : option BNObj) (p : UserPosition) : bool :=
  match marketIndex with
  | Some i => strict_eq (pos_marketIndex p) i
  | None => true
  end.

(** [getUnrealizedPNL] *)
Definition getUnrealizedPNL (withFunding : bool) (marketIndex : option BNObj) : result Z :=
  ps ← positions;
  reduceM (fun pnl marketPosition =>
    v ← (market ← getMarket (bo_val (pos_marketIndex marketPosition));
         on_market (fun m p => calculatePositionPNL m p withFunding) market marketPosition);
    Ok (pnl + v)) (List.filter (selected marketIndex) ps) ZERO.

(** [getUnrealizedFundingPNL] *)
Definition getUnrealizedFundingPNL (marketIndex : option BNObj) : result Z :=
  ps ← positions;
  reduceM (fun pnl marketPosition =>
    v ← (market ← getMarket (bo_val (pos_marketIndex marketPosition));
         on_market calculatePositionFundingPNL market marketPosition);
    Ok (pnl + v)) (List.filter (selected marketIndex) ps) ZERO.

(** [getTotalCollateral] *)
Definition getTotalCollateral : result Z :=
  user ← chu_userAccount u;
  pnl ← getUnrealizedPNL true None;
  Ok (ua_collateral user + pnl).

(** The value of one position, as the reducer of [getTotalPositionValue]
    computes it. *)
Definition positionValue (marketPosition : UserPosition) : result Z :=
  market ← getMarket (bo_val (pos_marketIndex marketPosition));
  on_market calculateBaseAssetValue market marketPosition.

(** [getTotalPositionValue] *)
Definition getTotalPositionValue : result Z :=
  ps ← positions;
  reduceM (fun positionValue' marketPosition =>
    v ← positionValue marketPosition; Ok (positionValue' + v)) ps ZERO.

(** [getPositionValue] *)
Definition getPositionValue (marketIndex : BNObj) : result Z :=
  userPosition ← getUserPositionOrEmpty marketIndex;
  positionValue userPosition.

(** [getPositionSide] *)
Definition getPositionSide (baseAssetAmount : Z) : option PositionDirection :=
  if ZERO <? baseAssetAmount then Some LONG
  else if baseAssetAmount <? ZERO then Some SHORT
  else None.

(** [getFreeCollateral] *)
Definition getFreeCollateral : result Z :=
  tc ← getTotalCollateral;
  tpv ← getTotalPositionValue;
  lev ← getMaxLeverage (Some Initial);
  used ← bn_div (tpv * TEN_THOUSAND) lev;
  Ok (tc - used).

(** [getBuyingPower] *)
Definition getBuyingPower : result Z :=
  fc ← getFreeCollateral;
  lev ← getMaxLeverage (Some Initial);
  bn_div (fc * lev) TEN_THOUSAND.

(** [getPositionEstimatedExitPriceAndPnl] *)
Definition getPositionEstimatedExitPriceAndPnl (position : UserPosition)
    (amountToClose : option Z) : result (Z * Z) :=
  market ← getMarket (bo_val (pos_marketIndex position));
  entryPrice ← calculateEntryPrice position;
  let go (position : UserPosition) :=
    baseAssetValue ← on_market calculateBaseAssetValue market position;
    if pos_baseAssetAmount position =? ZERO then Ok (ZERO, ZERO)
    else
      exitPrice ← bn_div (baseAssetValue * AMM_TO_QUOTE_PRECISION_RATIO * MARK_PRICE_PRECISION)
                    (Z.abs (pos_baseAssetAmount position));
      let pnlPerBase := exitPrice - entryPrice in
      x ← bn_div (pnlPerBase * pos_baseAssetAmount position) MARK_PRICE_PRECISION;
      pnl ← bn_div x AMM_TO_QUOTE_PRECISION_RATIO;
      Ok (exitPrice, pnl) in
  match amountToClose with
  | Some amountToClose =>
      if amountToClose =? ZERO then
        m ← deref market;
        mark ← calculateMarkPrice m;
        Ok (mark, ZERO)
      else
        go {| pos_baseAssetAmount := amountToClose;
              pos_lastCumulativeFundingRate := pos_lastCumulativeFundingRate position;
              pos_marketIndex := pos_marketIndex position;
              pos_quoteAssetAmount := pos_quoteAssetAmount position |}
  | None => go position
  end.

(** [getLeverage] *)
Definition getLeverage : result Z :=
  totalCollateral ← getTotalCollateral;
  totalPositionValue ← getTotalPositionValue;
  if (totalPositionValue =? ZERO) && (totalCollateral =? ZERO) then Ok ZERO
  else bn_div (totalPositionValue * TEN_THOUSAND) totalCollateral.

(** [getMarginRatio] *)
Definition getMarginRatio : result Z :=
  totalPositionValue ← getTotalPositionValue;
  if totalPositionValue =? ZERO then Ok BN_MAX
  else
    tc ← getTotalCollateral;
    bn_div (tc * TEN_THOUSAND) totalPositionValue.

(** [canBeLiquidated] *)
Definition canBeLiquidated : result (bool * Z) :=
  marginRatio ← getMarginRatio;
  Ok (marginRatio <=? PARTIAL_LIQUIDATION_RATIO, marginRatio).

(** The loop of [needsToSettleFundingPayment]. *)
Fixpoint needsToSettle (markets : list Market) (ps : list UserPosition) : result bool :=
  match ps with
  | [] => Ok false
  | userPosition :: ps' =>
      if pos_baseAssetAmount userPosition =? ZERO then needsToSettle markets ps'
      else
        i ← bn_toNumber (bo_val (pos_marketIndex userPosition));
        market ← deref (js_index markets i);
        if (amm_cumulativeFundingRateLong (mkt_amm market)
              =? pos_lastCumulativeFundingRate userPosition)
           || (amm_cumulativeFundingRateShort (mkt_amm market)
                 =? pos_lastCumulativeFundingRate userPosition)
        then needsToSettle markets ps'
        else Ok true
  end.

(** [needsToSettleFundingPayment] *)
Definition needsToSettleFundingPayment : result bool :=
  ma ← chu_marketsAccount u;
  ps ← positions;
  needsToSettle (ma_markets ma) ps.

(** [getTotalPositionValueExcludingMarket] *)
Definition getTotalPositionValueExcludingMarket (marketToIgnore : BNObj) : result Z :=
  _ ← getUserPositionOrEmpty marketToIgnore;
  currentMarketPositionValueUSDC ← getPositionValue marketToIgnore;
  tpv ← getTotalPositionValue;
  Ok (tpv - currentMarketPositionValueUSDC).

(** [calculateFeeForQuoteAmount] *)
Definition calculateFeeForQuoteAmount (quoteAmount : Z) : result Z :=
  st ← chu_stateAccount u;
  bn_div (quoteAmount * fee_feeNumerator (st_feeStructure st))
         (fee_feeDenominator (st_feeStructure st)).
End User.

(** ** Lemmas *)
Section UserFacts.
Context {B : BNLib} {L : BNLaws B}.
Variable u : ClearingHouseUser.

Lemma getMarket_spec ma i :
  chu_marketsAccount u = Ok ma -> 0 <= i <= MAX_SAFE_INTEGER ->
  getMarket u i = Ok (ma_markets ma !! Z.to_nat i).
Proof.
  intros Hma Hi. unfold getMarket, js_index. rewrite bn_toNumber_safe by lia. res_simpl.
  rewrite Hma. res_simpl. by rewrite (proj2 (Z.leb_le 0 i)) by lia.
Qed.

Lemma positions_spec upa :
  chu_userPositionsAccount u = Ok upa -> positions u = Ok (upa_positions upa).
Proof. intros H. unfold positions. by rewrite H. Qed.

(** The first position of a market is the one [getUserPosition] finds. *)
Lemma getUserPosition_first ps1 p ps2 upa i :
  chu_userPositionsAccount u = Ok upa -> upa_positions upa = ps1 ++ p :: ps2 ->
  bo_val (pos_marketIndex p) = i ->
  Forall (fun q => bo_val (pos_marketIndex q) <> i) ps1 ->
  getUserPosition u i = Ok (Some p).
Proof.
  intros Hu Hps Hi Hne. unfold getUserPosition. rewrite (positions_spec upa Hu), Hps. res_simpl.
  do 2 f_equal. apply fmap_Some. exists (length ps1, p). split; [| done].
  apply list_find_Some. split_and!.
  - by rewrite lookup_app_r, Nat.sub_diag by lia.
  - done.
  - intros j y Hy Hj. rewrite lookup_app_l in Hy by done.
    eapply Forall_lookup_1 in Hne; [| exact Hy]. done.
Qed.

Lemma getUserPosition_absent upa i :
  chu_userPositionsAccount u = Ok upa ->
  Forall (fun q => bo_val (pos_marketIndex q) <> i) (upa_positions upa) ->
  getUserPosition u i = Ok None.
Proof.
  intros Hu Hne. unfold getUserPosition. rewrite (positions_spec upa Hu). res_simpl.
  rewrite (proj2 (list_find_None _ _)); done.
Qed.

Lemma getUserPositionOrEmpty_first ps1 p ps2 upa i :
  chu_userPositionsAccount u = Ok upa -> upa_positions upa = ps1 ++ p :: ps2 ->
  bo_val (pos_marketIndex p) = bo_val i ->
  Forall (fun q => bo_val (pos_marketIndex q) <> bo_val i) ps1 ->
  getUserPositionOrEmpty u i = Ok p.
Proof.
  intros Hu Hps Hi Hne. unfold getUserPositionOrEmpty.
  by rewrite (getUserPosition_first ps1 p ps2 upa _ Hu Hps Hi Hne).
Qed.

Lemma getTotalPositionValue_sum upa vs :
  chu_userPositionsAccount u = Ok upa ->
  Forall2 (fun p v => positionValue u p = Ok v) (upa_positions upa) vs ->
  getTotalPositionValue u = Ok (foldr Z.add 0 vs).
Proof.
  intros Hu Hvs. unfold getTotalPositionValue. rewrite (positions_spec upa Hu). res_simpl.
  by rewrite (reduceM_sum _ _ vs).
Qed.

Lemma getMaxLeverage_spec st c :
  chu_stateAccount u = Ok st ->
  let r := match c with
           | Some Maintenance => st_marginRatioMaintenance st
           | Some Partial => st_marginRatioPartial st
           | _ => st_marginRatioInitial st
           end in
  getMaxLeverage u c = if r =? 0 then Throw bn_error else Ok (100000000 `quot` r).
Proof.
  intros Hst r. unfold getMaxLeverage. rewrite Hst. res_simpl. consts.
  replace (match c with Some Initial => _ | Some Partial => _ | Some Maintenance => _
           | None => _ end) with r by (unfold r; by destruct c as [[]|]).
  destruct (Z.eqb_spec r 0) as [-> | Hr]; [apply bn_div_zero | by apply bn_div_nonzero].
Qed.
End UserFacts.

Lemma foldr_add_app (l1 l2 : list Z) : foldr Z.add 0 (l1 ++ l2) = foldr Z.add 0 l1 + foldr Z.add 0 l2.
Proof. induction l1 as [| x l1 IH]; cbn; [done | rewrite IH; lia]. Qed.

Lemma filter_selected_all ps : List.filter (selected None) ps = ps.
Proof. induction ps as [| p ps IH]; cbn; [done | by rewrite IH]. Qed.

(** No position holds the index object asked for. *)
Lemma filter_selected_none ps i :
  Forall (fun p => strict_eq (pos_marketIndex p) i = false) ps ->
  List.filter (selected (Some i)) ps = [].
Proof. induction 1 as [| p ps Hp _ IH]; cbn; [done | by rewrite Hp]. Qed.

(** ** Properties *)
Section UserProperties.
Context {B : BNLib} {L : BNLaws B}.
Variable u : ClearingHouseUser.

(** The total position value is the sum over the positions, and excluding a
    market removes exactly the value of the user's first position there. *)
Theorem position_value_excluding (upa : UserPositionsAccount) (i : BNObj)
    (ps1 ps2 : list UserPosition) (p : UserPosition) (vs1 vs2 : list Z) (v : Z) :
  chu_userPositionsAccount u = Ok upa -> upa_positions upa = ps1 ++ p :: ps2 ->
  bo_val (pos_marketIndex p) = bo_val i ->
  Forall (fun q => bo_val (pos_marketIndex q) <> bo_val i) ps1 ->
  Forall2 (fun p v => positionValue u p = Ok v) ps1 vs1 ->
  positionValue u p = Ok v ->
  Forall2 (fun p v => positionValue u p = Ok v) ps2 vs2 ->
  getTotalPositionValue u = Ok (foldr Z.add 0 vs1 + v + foldr Z.add 0 vs2) /\
  getTotalPositionValueExcludingMarket u i = Ok (foldr Z.add 0 vs1 + foldr Z.add 0 vs2).
Proof.
  intros Hu Hps Hi Hne H1 Hv H2.
  assert (getTotalPositionValue u = Ok (foldr Z.add 0 vs1 + v + foldr Z.add 0 vs2)) as Ht.
  { erewrite (getTotalPositionValue_sum u upa (vs1 ++ v :: vs2)); [| done |].
    - rewrite foldr_add_app. cbn. f_equal. lia.
    - rewrite Hps. apply Forall2_app; [done | by constructor]. }
  split; [done |]. unfold getTotalPositionValueExcludingMarket, getPositionValue.
  rewrite (getUserPositionOrEmpty_first u ps1 p ps2 upa i Hu Hps Hi Hne). res_simpl.
  rewrite Hv, Ht. res_simpl. f_equal. lia.
Qed.

(** [getUnrealizedPNL] of all positions is the sum of their PnLs; asked for one
    market it compares index objects by identity, so with an index object
    that is not the very one a position holds it returns zero, whatever the
    user's positions are worth. *)
Theorem unrealized_pnl_identity (upa : UserPositionsAccount) (w : bool) (i : BNObj)
    (vs : list Z) :
  chu_userPositionsAccount u = Ok upa ->
  Forall2 (fun p v =>
    (market ← getMarket u (bo_val (pos_marketIndex p));
     on_market (fun m p => calculatePositionPNL m p w) market p) = Ok v)
    (upa_positions upa) vs ->
  getUnrealizedPNL u w None = Ok (foldr Z.add 0 vs) /\
  (Forall (fun p => strict_eq (pos_marketIndex p) i = false) (upa_positions upa) ->
   getUnrealizedPNL u w (Some i) = Ok 0).
Proof.
  intros Hu Hvs. unfold getUnrealizedPNL. rewrite (positions_spec u upa Hu). res_simpl. split.
  - rewrite filter_selected_all. by rewrite (reduceM_sum _ _ vs).
  - intros Hid. by rewrite (filter_selected_none _ i Hid).
Qed.

(** A user can be liquidated exactly when the collateral is below 6.26% of the
    position value: the 6.25% limit plus the truncation of the ratio; without
    positions never. *)
Theorem can_be_liquidated_iff (tc tpv : Z) :
  getTotalCollateral u = Ok tc -> getTotalPositionValue u = Ok tpv -> 0 <= tpv ->
  exists b r, canBeLiquidated u = Ok (b, r) /\
    (b = true <-> 0 < tpv /\ 10000 * tc < 626 * tpv).
Proof.
  intros Htc Htpv Hpos. unfold canBeLiquidated, getMarginRatio. rewrite Htpv. res_simpl. consts.
  destruct (Z.eqb_spec tpv 0) as [-> | Hn]; res_simpl.
  - do 2 eexists. split; [reflexivity |]. consts. cbn. split; [done | lia].
  - rewrite Htc. res_simpl. bn_run. do 2 eexists. split; [reflexivity |]. consts.
    rewrite Z.leb_le. pose proof (Z.quot_rem' (tc * 10000) tpv) as E.
    destruct (Z.le_gt_cases 0 tc).
    + pose proof (Z.rem_bound_pos (tc * 10000) tpv ltac:(lia) ltac:(lia)). split; nia.
    + pose proof (quot_nonneg (- (tc * 10000)) tpv ltac:(lia) ltac:(lia)) as Hq.
      rewrite Z.quot_opp_l in Hq by lia. split; lia.
Qed.

(** Leverage, on every branch: zero for a user with nothing, a division by
    zero (and so an exception) for open positions on zero collateral, the
    truncated ratio otherwise; the maximum leverage of a category throws for
    a zero margin ratio and otherwise shrinks as the ratio grows. *)
Theorem leverage_outcomes (st : StateAccount) (tc tpv : Z) :
  chu_stateAccount u = Ok st -> getTotalCollateral u = Ok tc -> getTotalPositionValue u = Ok tpv ->
  getLeverage u =
    (if tc =? 0 then if tpv =? 0 then Ok 0 else Throw bn_error
     else Ok ((tpv * 10000) `quot` tc)) /\
  (st_marginRatioInitial st = 0 -> getMaxLeverage u None = Throw bn_error) /\
  (0 < st_marginRatioMaintenance st <= st_marginRatioInitial st ->
   exists lm li, getMaxLeverage u (Some Maintenance) = Ok lm /\
     getMaxLeverage u None = Ok li /\ getMaxLeverage u (Some Initial) = Ok li /\ li <= lm /\
     li * st_marginRatioInitial st <= 100000000 < (li + 1) * st_marginRatioInitial st).
Proof.
  intros Hst Htc Htpv. split; [| split].
  - unfold getLeverage. rewrite Htc, Htpv. res_simpl. consts.
    destruct (Z.eqb_spec tc 0) as [-> | Hn]; destruct (Z.eqb_spec tpv 0) as [-> | Hn'];
      cbn; try done; [apply bn_div_zero | by rewrite bn_div_nonzero | by apply bn_div_nonzero].
  - intros Hz. rewrite (getMaxLeverage_spec u st _ Hst), Hz. done.
  - intros Hm. rewrite !(getMaxLeverage_spec u st _ Hst).
    rewrite !(proj2 (Z.eqb_neq _ 0)) by lia. do 2 eexists. split_and!; try reflexivity.
    + rewrite !quot_div_pos by lia. apply Z.div_le_compat_l; lia.
    + pose proof (quot_bounds 100000000 (st_marginRatioInitial st)). lia.
    + pose proof (quot_bounds 100000000 (st_marginRatioInitial st)). lia.
Qed.

(** Free collateral and buying power: positions within the initial leverage limit
    leave non-negative free collateral, and the buying power is that
    collateral at the maximum leverage. *)
Theorem free_collateral_nonneg (st : StateAccount) (tc tpv lev : Z) :
  chu_stateAccount u = Ok st -> getTotalCollateral u = Ok tc -> getTotalPositionValue u = Ok tpv ->
  getMaxLeverage u (Some Initial) = Ok lev -> 0 < lev -> 0 <= tpv ->
  tpv * 10000 <= tc * lev ->
  exists fc, getFreeCollateral u = Ok fc /\ 0 <= fc /\
    getBuyingPower u = Ok ((fc * lev) / 10000) /\
    fc * lev <= tc * lev - tpv * 10000 + lev.
Proof.
  intros Hst Htc Htpv Hlev Hl Hp Hle.
  assert (getFreeCollateral u = Ok (tc - (tpv * 10000) / lev)) as Hfc.
  { unfold getFreeCollateral. rewrite Htc, Htpv. res_simpl. rewrite Hlev. res_simpl. consts.
    by rewrite bn_div_pos by nia. }
  pose proof (Z.mul_div_le (tpv * 10000) lev Hl).
  pose proof (Z.mul_succ_div_gt (tpv * 10000) lev Hl).
  exists (tc - (tpv * 10000) / lev).
  assert (0 <= tc - (tpv * 10000) / lev) by nia. split_and!; [done | done | | nia].
  unfold getBuyingPower. rewrite Hfc. res_simpl. rewrite Hlev. res_simpl. consts.
  apply bn_div_pos; nia.
Qed.

(** The settlement check answers for every user whose markets exist, and asks to settle
    exactly when some open position's reference rate differs from both
    cumulative rates of its market: so a long whose reference equals the
    short side's rate is never flagged, however far the long rate has moved. *)
Theorem needs_to_settle_iff (ma : MarketsAccount) (upa : UserPositionsAccount) :
  chu_marketsAccount u = Ok ma -> chu_userPositionsAccount u = Ok upa ->
  Forall (fun p => pos_baseAssetAmount p <> 0 ->
    Z.abs (bo_val (pos_marketIndex p)) <= MAX_SAFE_INTEGER /\
    is_Some (js_index (ma_markets ma) (bo_val (pos_marketIndex p)))) (upa_positions upa) ->
  exists b, needsToSettleFundingPayment u = Ok b /\
    (b = true <-> Exists (fun p => pos_baseAssetAmount p <> 0 /\ exists m,
      js_index (ma_markets ma) (bo_val (pos_marketIndex p)) = Some m /\
      amm_cumulativeFundingRateLong (mkt_amm m) <> pos_lastCumulativeFundingRate p /\
      amm_cumulativeFundingRateShort (mkt_amm m) <> pos_lastCumulativeFundingRate p)
      (upa_positions upa)).
Proof.
  intros Hma Hu Hall. unfold needsToSettleFundingPayment.
  rewrite Hma, (positions_spec u upa Hu). res_simpl.
  induction Hall as [| p ps Hp _ (b & Hb & Hiff)]; cbn [needsToSettle].
  - exists false. split; [done |]. split; [done | intros H; inversion H].
  - consts. destruct (Z.eqb_spec (pos_baseAssetAmount p) 0) as [Hz | Hn].
    + exists b. split; [done |]. rewrite Hiff, Exists_skip; [done | by intros [Hc _]].
    + destruct (Hp Hn) as (Hsafe & m & Hm).
      rewrite (bn_toNumber_safe _ Hsafe), bind_Ok, Hm. res_simpl. cbn [deref].
      rewrite bind_Ok.
      destruct (Z.eqb_spec (amm_cumulativeFundingRateLong (mkt_amm m))
                  (pos_lastCumulativeFundingRate p)) as [Hl | Hl]; cbn [orb];
        [| destruct (Z.eqb_spec (amm_cumulativeFundingRateShort (mkt_amm m))
                  (pos_lastCumulativeFundingRate p)) as [Hs | Hs]].
      * exists b. split; [done |]. rewrite Hiff, Exists_skip; [done |].
        intros (_ & m' & Hm' & Hl' & _). congruence.
      * exists b. split; [done |]. rewrite Hiff, Exists_skip; [done |].
        intros (_ & m' & Hm' & _ & Hs'). congruence.
      * exists true. split; [done |]. split; [| done]. intros _. left. eauto.
Qed.
End UserProperties.
