(* ===== verification/Liquidation.v ===== *)
(** * Liquidation prices and trade sizing (clearingHouseUser.ts)

    The two liquidation-price formulas, the price after a partial close, the
    largest trade the leverage limit allows, and the leverage a trade leads to. *)
From S2P Require Import Prelude BN Types Amm Position Trade User.

Section Liquidation.
Context {B : BNLib}.
Variable u : ClearingHouseUser.

(** The position of the target market after changing its size. *)
Definition proposedPosition (current : UserPosition) (targetMarketIndex : BNObj)
    (lastCumulativeFundingRate positionBaseSizeChange : Z) : UserPosition :=
  {| pos_baseAssetAmount := pos_baseAssetAmount current + positionBaseSizeChange;
     pos_lastCumulativeFundingRate := lastCumulativeFundingRate;
     pos_marketIndex := targetMarketIndex;
     pos_quoteAssetAmount := 0 |}.

(** The last step of [liquidationPriceOld]: from a margin ratio to a price. *)
Definition liqPriceFromRatio (currentPrice marginRatio liqRatio : Z) (isNeg : bool) : result Z :=
  let pctChange := Z.abs marginRatio - liqRatio in
  if isNeg then bn_div (currentPrice * (pctChange + TEN_THOUSAND)) TEN_THOUSAND
  else if TEN_THOUSAND <=? pctChange then Ok (-1)
  else bn_div (currentPrice * (TEN_THOUSAND - pctChange)) TEN_THOUSAND.

(** [liquidationPriceOld] *)
Definition liquidationPriceOld (targetMarketIndex : BNObj) (positionBaseSizeChange : Z)
    (partial : bool) : result Z :=
  m0 ← getMarket u (bo_val targetMarketIndex);
  m0 ← deref m0;
  currentPrice ← calculateMarkPrice m0;
  totalCollateralUSDC ← getTotalCollateral u;
  ignoring ← getTotalPositionValueExcludingMarket u targetMarketIndex;
  current ← getUserPositionOrEmpty u targetMarketIndex;
  let proposed := proposedPosition current targetMarketIndex 0 positionBaseSizeChange in
  market ← getMarket u (bo_val (pos_marketIndex proposed));
  proposedValue ← on_market calculateBaseAssetValue market proposed;
  let targetTotal := ignoring + proposedValue in
  tc ← getTotalCollateral u;
  tpv ← getTotalPositionValue u;
  lev ← getMaxLeverage u (Some Maintenance);
  used ← bn_div (tpv * TEN_THOUSAND) lev;
  totalFree ←
    (if partial then
       tc ← getTotalCollateral u;
       tpv ← getTotalPositionValue u;
       lev ← getMaxLeverage u (Some Partial);
       used ← bn_div (tpv * TEN_THOUSAND) lev;
       Ok (tc - used)
     else Ok (tc - used));
  if (targetTotal <=? totalFree) && (ZERO <? pos_baseAssetAmount proposed) then Ok (-1)
  else
    marginRatio ← (if proposedValue =? ZERO then Ok BN_MAX
                   else bn_div (totalCollateralUSDC * TEN_THOUSAND) proposedValue);
    let liqRatio := if partial then PARTIAL_LIQUIDATION_RATIO else FULL_LIQUIDATION_RATIO in
    liqPriceFromRatio currentPrice marginRatio liqRatio (pos_baseAssetAmount proposed <? 0).

(** The price change [priceDelt] of [liquidationPrice]. *)
Definition priceDelt (tc tpv thisLev proposedBaseAssetAmount : Z) : result Z :=
  if proposedBaseAssetAmount <? ZERO
  then bn_div ((tc * thisLev - tpv) * PRICE_TO_QUOTE_PRECISION) (thisLev + 1)
  else bn_div ((tc * thisLev - tpv) * PRICE_TO_QUOTE_PRECISION) (thisLev - 1).

(** The last step of [liquidationPrice]. *)
Definition liqPriceFromMargin (currentPrice priceDelt proposedBaseAssetAmount : Z) : result Z :=
  eatMargin2 ← bn_div (priceDelt * AMM_RESERVE_PRECISION) proposedBaseAssetAmount;
  if currentPrice <? eatMargin2 then Ok (-1) else Ok (currentPrice - eatMargin2).

(** [liquidationPrice] *)
Definition liquidationPrice (targetMarketIndex : BNObj) (positionBaseSizeChange : Z)
    (partial : bool) : result Z :=
  tc ← getTotalCollateral u;
  tpv ← getTotalPositionValue u;
  let thisLev := if partial then 16 else 20 in
  ignoring ← getTotalPositionValueExcludingMarket u targetMarketIndex;
  current ← getUserPositionOrEmpty u targetMarketIndex;
  let proposed := proposedPosition current targetMarketIndex
                    (pos_lastCumulativeFundingRate current) positionBaseSizeChange in
  let proposedBaseAssetAmount := pos_baseAssetAmount proposed in
  market ← getMarket u (bo_val (pos_marketIndex proposed));
  proposedValue ← on_market calculateBaseAssetValue market proposed;
  let targetTotal := ignoring + proposedValue in
  lev ← getMaxLeverage u (Some Maintenance);
  used ← bn_div (ignoring * TEN_THOUSAND) lev;
  totalFree ←
    (if partial then
       lev ← getMaxLeverage u (Some Partial);
       used ← bn_div (ignoring * TEN_THOUSAND) lev;
       Ok (tc - used)
     else Ok (tc - used));
  delt ← priceDelt tc tpv thisLev proposedBaseAssetAmount;
  currentPrice ←
    (if positionBaseSizeChange =? ZERO then
       m ← getMarket u (bo_val targetMarketIndex);
       m ← deref m;
       calculateMarkPrice m
     else
       let direction := if ZERO <? positionBaseSizeChange then LONG else SHORT in
       m ← getMarket u (bo_val targetMarketIndex);
       m ← deref m;
       slip ← calculateTradeSlippage direction (Z.abs positionBaseSizeChange) m base;
       Ok (slip_newPrice slip));
  if (targetTotal <=? totalFree) && (ZERO <? pos_baseAssetAmount proposed) then Ok (-1)
  else if proposedBaseAssetAmount =? ZERO then Ok (-1)
  else liqPriceFromMargin currentPrice delt proposedBaseAssetAmount.

(** The base amount [liquidationPriceAfterClose] closes. *)
Definition closeBaseAmount (currentPosition : UserPosition) (closeQuoteAmount : Z) : result Z :=
  d ← bn_div (pos_baseAssetAmount currentPosition * closeQuoteAmount)
        (pos_quoteAssetAmount currentPosition);
  r ← bn_mod (pos_baseAssetAmount currentPosition * closeQuoteAmount)
        (pos_quoteAssetAmount currentPosition);
  Ok (- (d + r)).

(** [liquidationPriceAfterClose] *)
Definition liquidationPriceAfterClose (positionMarketIndex : BNObj) (closeQuoteAmount : Z)
    : result Z :=
  currentPosition ← getUserPositionOrEmpty u positionMarketIndex;
  c ← closeBaseAmount currentPosition closeQuoteAmount;
  liquidationPrice positionMarketIndex c false.

(** The position size the leverage limit allows, before the final shaving:
    the four cases of [getMaxTradeSizeUSDC]. *)
Definition maxPositionSizeFor (maxLeverage currentLeverage totalCollateral
    oppositeSizeValueUSDC : Z) (targettingSameSide : bool)
    (currentPositionQuoteSize : result Z) : result Z :=
  let remainingLeverage := Z.max (maxLeverage - currentLeverage) ZERO in
  maxPositionSize ← bn_div (remainingLeverage * totalCollateral) TEN_THOUSAND;
  if ZERO <=? maxLeverage - currentLeverage then
    if oppositeSizeValueUSDC =? ZERO then Ok maxPositionSize
    else Ok (maxPositionSize + oppositeSizeValueUSDC * 2)
  else if negb targettingSameSide then
    currentPositionQuoteSize ← currentPositionQuoteSize;
    currentTotalQuoteSize ← bn_div (currentLeverage * totalCollateral) TEN_THOUSAND;
    let otherPositionsTotalQuoteSize := currentTotalQuoteSize - currentPositionQuoteSize in
    quoteValueOfMaxLeverage ← bn_div (maxLeverage * totalCollateral) TEN_THOUSAND;
    if quoteValueOfMaxLeverage <=? otherPositionsTotalQuoteSize - currentPositionQuoteSize
    then Ok currentPositionQuoteSize
    else Ok (currentPositionQuoteSize
               + (quoteValueOfMaxLeverage - otherPositionsTotalQuoteSize))
  else Ok maxPositionSize.

(** [getMaxTradeSizeUSDC] *)
Definition getMaxTradeSizeUSDC (targetMarketIndex : BNObj) (tradeSide : PositionDirection)
    (userMaxLeverageSetting : Z) : result Z :=
  currentPosition ← getUserPositionOrEmpty u targetMarketIndex;
  let currentPositionSide := if pos_baseAssetAmount currentPosition <? 0 then SHORT else LONG in
  let targettingSameSide := bool_decide (tradeSide = currentPositionSide) in
  oppositeSizeValueUSDC ←
    (if targettingSameSide then Ok ZERO else getPositionValue u targetMarketIndex);
  currentLeverage ← getLeverage u;
  totalCollateral ← getTotalCollateral u;
  maxPositionSize ←
    maxPositionSizeFor userMaxLeverageSetting currentLeverage totalCollateral
      oppositeSizeValueUSDC targettingSameSide (getPositionValue u targetMarketIndex);
  oneMilli ← bn_div maxPositionSize QUOTE_PRECISION;
  Ok (maxPositionSize - oneMilli).

(** [accountLeverageRatioAfterTrade] *)
Definition accountLeverageRatioAfterTrade (targetMarketIndex : BNObj) (tradeQuoteAmount : Z)
    (tradeSide : PositionDirection) : result Z :=
  currentPosition ← getUserPositionOrEmpty u targetMarketIndex;
  v ← getPositionValue u targetMarketIndex;
  let currentSide := if pos_baseAssetAmount currentPosition <? 0 then SHORT else LONG in
  let currentPositionQuoteAmount := if decide (currentSide = SHORT) then - v else v in
  let tradeQuoteAmount := if decide (tradeSide = SHORT) then - tradeQuoteAmount
                          else tradeQuoteAmount in
  let after := Z.abs (currentPositionQuoteAmount + tradeQuoteAmount) in
  excluding ← getTotalPositionValueExcludingMarket u targetMarketIndex;
  totalCollateral ← getTotalCollateral u;
  if ZERO <? totalCollateral then
    bn_div (Z.abs (after + excluding) * TEN_THOUSAND) totalCollateral
  else Ok 0.
End Liquidation.

(** ** Lemmas *)
Section LiquidationFacts.
Context {B : BNLib} {L : BNLaws B}.
Variable u : ClearingHouseUser.

Lemma closeBaseAmount_spec p q :
  pos_quoteAssetAmount p <> 0 ->
  closeBaseAmount p q =
  Ok (- ((pos_baseAssetAmount p * q) `quot` pos_quoteAssetAmount p
         + (pos_baseAssetAmount p * q) `rem` pos_quoteAssetAmount p)).
Proof. intros H. unfold closeBaseAmount. by bn_run. Qed.

Lemma liqPriceFromMargin_spec c d n :
  n <> 0 ->
  liqPriceFromMargin c d n =
  Ok (if c <? (d * 10000000000000) `quot` n then -1
      else c - (d * 10000000000000) `quot` n).
Proof.
  intros H. unfold liqPriceFromMargin. consts. bn_run. by destruct (_ <? _).
Qed.
End LiquidationFacts.

(** ** Properties *)
Section LiquidationProperties.
Context {B : BNLib} {L : BNLaws B}.
Variable u : ClearingHouseUser.

(** C34: The liquidation price of a solvent long solves the margin equation of
    the code's linear model to within its roundings: with [X] the margin left
    ([tc * lev - tpv]), the move down to the returned price keeps the
    position above the maintenance line, and one tick more would use up the
    margin but for the rounding of the price change; when no
    non-negative price does, the answer is -1. *)
Theorem liquidation_price_long (tc tpv lev n cur : Z) :
  1 < lev -> 0 < n -> 0 <= cur -> 0 <= tc * lev - tpv ->
  exists d r,
    priceDelt tc tpv lev n = Ok d /\ liqPriceFromMargin cur d n = Ok r /\
    ((r = -1 /\ (lev - 1) * (n * (cur + 1)) <= (tc * lev - tpv) * 10 ^ 17) \/
     (0 <= r <= cur /\
      (lev - 1) * (n * (cur - r)) <= (tc * lev - tpv) * 10 ^ 17
        < (lev - 1) * (n * (cur - r + 1) + 10 ^ 13))).
Proof.
  intros Hlev Hn Hc HX. set (X := tc * lev - tpv) in *.
  unfold priceDelt. consts. rewrite (proj2 (Z.ltb_ge n 0)) by lia.
  fold X. rewrite bn_div_pos by nia. do 2 eexists. split; [reflexivity |].
  rewrite liqPriceFromMargin_spec by lia. split; [reflexivity |].
  set (d := (X * 10000) / (lev - 1)).
  assert (0 <= d) by (apply Z.div_pos; nia).
  pose proof (Z.mul_div_le (X * 10000) (lev - 1) ltac:(lia)) as Hd1.
  pose proof (Z.mul_succ_div_gt (X * 10000) (lev - 1) ltac:(lia)) as Hd2. fold d in Hd1, Hd2.
  rewrite quot_div_pos by nia. set (e := (d * 10000000000000) / n).
  assert (0 <= e) by (apply Z.div_pos; nia).
  pose proof (Z.mul_div_le (d * 10000000000000) n Hn) as He1.
  pose proof (Z.mul_succ_div_gt (d * 10000000000000) n Hn) as He2. fold e in He1, He2.
  destruct (Z.ltb_spec cur e).
  - left. split; [done |].
    assert (n * (cur + 1) <= d * 10000000000000) by nia. nia.
  - right. split; [lia |].
    replace (cur - (cur - e)) with e by lia. split; nia.
Qed.

(** The liquidation price of a solvent short is above the current price,
    and never -1. *)
Theorem liquidation_price_short (tc tpv lev n cur : Z) :
  0 <= lev -> n < 0 -> 0 <= cur -> 0 <= tc * lev - tpv ->
  exists d r, priceDelt tc tpv lev n = Ok d /\ liqPriceFromMargin cur d n = Ok r /\ cur <= r.
Proof.
  intros Hlev Hn Hc HX. unfold priceDelt. consts. rewrite (proj2 (Z.ltb_lt n 0)) by lia.
  rewrite bn_div_pos by nia. do 2 eexists. split; [reflexivity |].
  rewrite liqPriceFromMargin_spec by lia. split; [reflexivity |].
  set (d := _ / (lev + 1)). assert (0 <= d) by (apply Z.div_pos; nia).
  replace n with (- - n) by lia. rewrite Z.quot_opp_r by lia.
  pose proof (quot_nonneg (d * 10000000000000) (- n) ltac:(lia) ltac:(lia)).
  rewrite (proj2 (Z.ltb_ge _ _)) by lia. lia.
Qed.

(** Without a position in the market and no size change the answer is -1,
    for any well-priced market: there is nothing to liquidate. *)
Theorem liquidation_price_flat (i : BNObj) (partial : bool)
    (tc tpv p lm lp : Z) (m : Market) :
  getTotalCollateral u = Ok tc -> getTotalPositionValue u = Ok tpv ->
  getUserPosition u (bo_val i) = Ok None ->
  getMarket u (bo_val i) = Ok (Some m) -> calculateMarkPrice m = Ok p ->
  getMaxLeverage u (Some Maintenance) = Ok lm -> lm <> 0 ->
  getMaxLeverage u (Some Partial) = Ok lp -> lp <> 0 ->
  liquidationPrice u i 0 partial = Ok (-1).
Proof.
  intros Htc Htpv Hnone Hm Hp Hlm H1 Hlp H2.
  assert (getUserPositionOrEmpty u i = Ok (getEmptyPosition i)) as Hemp
    by (unfold getUserPositionOrEmpty; by rewrite Hnone).
  assert (getTotalPositionValueExcludingMarket u i = Ok tpv) as Hex.
  { unfold getTotalPositionValueExcludingMarket, getPositionValue, positionValue.
    rewrite Hemp. res_simpl. cbn [getEmptyPosition pos_marketIndex].
    rewrite Hm, bind_Ok. cbn [on_market].
    rewrite calculateBaseAssetValue_flat by done. rewrite bind_Ok, Htpv, bind_Ok. f_equal. lia. }
  unfold liquidationPrice. rewrite Htc, bind_Ok, Htpv, bind_Ok, Hex, bind_Ok, Hemp, bind_Ok.
  cbn [proposedPosition pos_marketIndex pos_baseAssetAmount getEmptyPosition].
  rewrite Hm, bind_Ok. cbn [on_market].
  rewrite calculateBaseAssetValue_flat by done. rewrite bind_Ok.
  rewrite Hlm, bind_Ok, (bn_div_nonzero _ lm H1), bind_Ok, Hlp.
  assert (forall X Y : Z, exists z,
    (if partial then
       lev ← Ok lp;
       used ← bn_div (tpv * TEN_THOUSAND) lev; Ok (X - used)
     else Ok (X - Y)) = Ok z) as Hz.
  { intros X Y. destruct partial; [| eauto]. rewrite bind_Ok, bn_div_nonzero by done. eauto. }
  edestruct Hz as (z & ->). rewrite bind_Ok.
  assert (exists d, priceDelt tc tpv (if partial then 16 else 20) (ZERO + 0) = Ok d) as (d & ->).
  { unfold priceDelt. change (ZERO + 0 <? ZERO) with false.
    destruct partial; rewrite bn_div_nonzero by lia; eauto. }
  rewrite bind_Ok. change (0 =? ZERO) with true. cbv iota.
  rewrite bind_Ok. cbn [deref]. rewrite bind_Ok, Hp, bind_Ok.
  change (ZERO <? ZERO + 0) with false. rewrite andb_false_r. done.
Qed.

(** [liquidationPriceAfterClose] closes the whole position when asked for
    its whole quote amount, but for a partial close it adds the remainder of
    the division itself, not a rounding unit: the base closed differs
    from the proportional amount by that remainder. *)
Theorem close_amount_remainder (p : UserPosition) (q : Z) :
  pos_quoteAssetAmount p <> 0 ->
  closeBaseAmount p (pos_quoteAssetAmount p) = Ok (- pos_baseAssetAmount p) /\
  exists c, closeBaseAmount p q = Ok c /\
    - c = (pos_baseAssetAmount p * q) `quot` pos_quoteAssetAmount p
          + (pos_baseAssetAmount p * q) `rem` pos_quoteAssetAmount p /\
    ((pos_baseAssetAmount p * q) `rem` pos_quoteAssetAmount p = 0 <->
     pos_baseAssetAmount p * q = - c * pos_quoteAssetAmount p) .
Proof.
  intros Hq. rewrite !closeBaseAmount_spec by done. split.
  - rewrite Z.quot_mul, Z.rem_mul by done. f_equal. lia.
  - eexists. split; [reflexivity |]. rewrite Z.opp_involutive. split; [done |].
    pose proof (Z.quot_rem' (pos_baseAssetAmount p * q) (pos_quoteAssetAmount p)) as E.
    set (Q := _ `quot` _) in *. set (R := _ `rem` _) in *. split; [intros H; nia |].
    intros H. assert (R * (pos_quoteAssetAmount p - 1) = 0) as HR by nia.
    apply Z.mul_eq_0 in HR as [HR | HR]; [done |].
    assert (pos_quoteAssetAmount p = 1) as E1 by lia.
    unfold R. rewrite E1. apply Z.rem_1_r.
Qed.

(** Trade sizing: within the leverage limit the size allowed, less the part
    that closes an opposite position, never takes the account over the limit;
    over it, a same-side trade is worth 0 and an opposite trade closes the
    position and re-opens exactly up to the limit when the other positions
    leave room.  When the others alone exceed the limit by less than the
    position, the size allowed is smaller than the position: the user is not
    allowed to close it. *)
Theorem max_position_size_cases (maxL curL tc cur : Z) :
  0 <= tc -> 0 <= curL -> 0 <= maxL -> 0 <= cur ->
  let total := (curL * tc) / 10000 in
  let limit := (maxL * tc) / 10000 in
  (** same side, or no opposite position *)
  (exists s, maxPositionSizeFor maxL curL tc 0 true (Ok cur) = Ok s /\
     0 <= s /\ (curL <= maxL -> total + s <= limit) /\ (maxL < curL -> s = 0)) /\
  (** opposite side, within the limit *)
  (0 < cur -> curL <= maxL -> exists s,
     maxPositionSizeFor maxL curL tc cur false (Ok cur) = Ok s /\
     2 * cur <= s /\ (total - cur) + (s - cur) <= limit) /\
  (** opposite side, over the limit: [other] is what the other positions are worth *)
  (0 < cur -> maxL < curL -> let other := total - cur in exists s,
     maxPositionSizeFor maxL curL tc cur false (Ok cur) = Ok s /\ 0 < s /\
     (limit <= other - cur -> s = cur) /\
     (other <= limit -> cur <= s /\ other + (s - cur) = limit) /\
     (limit < other < limit + cur -> s = cur - (other - limit) /\ s < cur)).
Proof.
  intros Htc HcL HmL Hcur total limit.
  assert (forall x, 0 <= x -> (x * tc) / 10000 >= 0) as Hnn
    by (intros x Hx; apply Z.le_ge, Z.div_pos; nia).
  assert (curL <= maxL -> total + ((maxL - curL) * tc) / 10000 <= limit) as Hsum.
  { intros Hle. unfold total, limit.
    pose proof (Z.mul_div_le (curL * tc) 10000). pose proof (Z.mul_div_le ((maxL - curL) * tc) 10000).
    apply Z.div_le_lower_bound; nia. }
  unfold maxPositionSizeFor. consts. split_and!.
  - destruct (Z.leb_spec 0 (maxL - curL)).
    + rewrite Z.max_l by lia. rewrite bn_div_pos by nia. res_simpl. cbn.
      eexists. split; [reflexivity |]. pose proof (Hnn (maxL - curL)).
      split_and!; [lia | done | lia].
    + rewrite Z.max_r by lia. rewrite (bn_div_pos (0 * tc)) by lia. rewrite Z.mul_0_l.
      change (0 / 10000) with 0. res_simpl. cbn. exists 0. split_and!; [done | lia | lia | lia].
  - intros Hc Hle. rewrite (proj2 (Z.leb_le 0 _)), Z.max_l by lia.
    rewrite bn_div_pos by nia. res_simpl. rewrite (proj2 (Z.eqb_neq cur 0)) by lia.
    eexists. split; [reflexivity |]. pose proof (Hnn (maxL - curL)). specialize (Hsum Hle). lia.
  - intros Hc Hlt. set (other := total - cur). rewrite (proj2 (Z.leb_gt 0 _)), Z.max_r by lia.
    rewrite (bn_div_pos (0 * tc)) by lia. res_simpl. cbn [negb].
    rewrite !bn_div_pos by nia. res_simpl. fold total limit.
    fold other. destruct (Z.leb_spec limit (other - cur));
      (eexists; split; [reflexivity |]; lia).
Qed.

(** A zero-size trade leaves the leverage as it is: for a user with
    positive collateral whose target position is not worth more than all
    positions together, [accountLeverageRatioAfterTrade] of 0 is
    [getLeverage], on either side. *)
Theorem leverage_after_zero_trade (i : BNObj) (p : UserPosition) (tc tpv v : Z)
    (side : PositionDirection) :
  getTotalCollateral u = Ok tc -> 0 < tc -> getTotalPositionValue u = Ok tpv ->
  getUserPositionOrEmpty u i = Ok p -> getPositionValue u i = Ok v -> 0 <= v <= tpv ->
  accountLeverageRatioAfterTrade u i 0 side = getLeverage u.
Proof.
  intros Htc Hpos Htpv Hp Hv Hle. unfold accountLeverageRatioAfterTrade, getLeverage,
    getTotalPositionValueExcludingMarket.
  rewrite Hp, Hv, Htpv, Htc. res_simpl. consts. rewrite (proj2 (Z.ltb_lt 0 tc) Hpos).
  rewrite (proj2 (Z.eqb_neq tc 0)) by lia. rewrite andb_false_r.
  replace (Z.abs (Z.abs _ + _)) with tpv; [done |].
  repeat case_decide; lia.
Qed.
End LiquidationProperties.
