(* ===== verification/Vaults.v ===== *)
(** * The insurance fund (math/insuranceFund.ts)

    The size of the insurance fund; the balance of the vault is what
    [connection.getTokenAccountBalance] answers. *)
From S2P Require Import Prelude BN Types.

Section Vaults.
Context {B : BNLib}.

(** [calculateInsuranceFundSize] *)
Definition calculateInsuranceFundSize (getTokenAccountBalance : PublicKey -> result Z)
    (state : StateAccount) (marketsAccount : MarketsAccount) : result Z :=
  insuranceVaultAmount ← getTokenAccountBalance (st_insuranceVault state);
  reduceM (fun insuranceVaultAmount market =>
    half ← bn_div (amm_totalFee (mkt_amm market)) 2;
    Ok (insuranceVaultAmount + half)) (ma_markets marketsAccount) insuranceVaultAmount.
End Vaults.

(** the fund is the vault's balance plus half of each market's fees, each
    half rounded on its own: twice the fees' share is the total of the fees less
    at most one unit per market. *)
Theorem insurance_fund_size {B : BNLib} {L : BNLaws B} bal state ma v :
  bal (st_insuranceVault state) = Ok v ->
  Forall (fun m => 0 <= amm_totalFee (mkt_amm m)) (ma_markets ma) ->
  exists share, calculateInsuranceFundSize bal state ma = Ok (v + share) /\
    let total := foldr (fun m acc => amm_totalFee (mkt_amm m) + acc) 0 (ma_markets ma) in
    total - Z.of_nat (length (ma_markets ma)) <= 2 * share <= total.
Proof.
  intros Hb Hall. unfold calculateInsuranceFundSize. rewrite Hb. cbn.
  set (g := fun m => bn_div (amm_totalFee (mkt_amm m)) 2).
  set (vs := (fun m => amm_totalFee (mkt_amm m) / 2) <$> ma_markets ma).
  exists (foldr Z.add 0 vs). split.
  - apply (reduceM_sum g). subst vs. apply Forall2_fmap_r, Forall_Forall2_diag.
    eapply Forall_impl; [exact Hall |]. intros m Hm. cbn in Hm |- *. by apply bn_div_pos.
  - subst vs. clear Hb. induction Hall as [| m l Hm Hall IH]; cbn [foldr fmap list_fmap length];
      [lia |].
    pose proof (Z.div_mod (amm_totalFee (mkt_amm m)) 2 ltac:(lia)).
    pose proof (Z.mod_pos_bound (amm_totalFee (mkt_amm m)) 2 ltac:(lia)). lia.
Qed.
