(* ===== verification/JsMap.v ===== *)
(** * JavaScript maps

    A [Map] iterates in insertion order; setting an existing key keeps its
    place.  It is an association list with distinct keys. *)
From S2P Require Import Prelude.

Section JsMap.
Context {V : Type}.
Implicit Types (k : string) (v : V) (m : list (string * V)).

Fixpoint js_get k m : option V :=
  match m with
  | [] => None
  | (k', v) :: m' => if decide (k = k') then Some v else js_get k m'
  end.

Fixpoint js_set k v m : list (string * V) :=
  match m with
  | [] => [(k, v)]
  | (k', v') :: m' => if decide (k = k') then (k, v) :: m' else (k', v') :: js_set k v m'
  end.

Fixpoint js_delete k m : list (string * V) :=
  match m with
  | [] => []
  | (k', v') :: m' => if decide (k = k') then m' else (k', v') :: js_delete k m'
  end.

(** Keys are distinct. *)
Definition js_wf m : Prop := NoDup (fst <$> m).

Lemma js_get_set_eq k v m : js_get k (js_set k v m) = Some v.
Proof.
  induction m as [| [k' v'] m IH]; cbn.
  - by rewrite decide_True.
  - case_decide; cbn; [by rewrite decide_True | by rewrite decide_False].
Qed.

Lemma js_get_set_ne k k' v m : k' <> k -> js_get k' (js_set k v m) = js_get k' m.
Proof.
  intros Hne. induction m as [| [k1 v1] m IH]; cbn.
  - by rewrite decide_False.
  - case_decide; subst; cbn; [by rewrite !(decide_False (P := k' = k1)) |].
    case_decide; [done | apply IH].
Qed.

Lemma js_keys_set k v m :
  fst <$> js_set k v m = match js_get k m with Some _ => fst <$> m | None => (fst <$> m) ++ [k] end.
Proof.
  induction m as [| [k1 v1] m IH]; cbn; [done |]. case_decide; subst; cbn; [done |].
  rewrite IH. by destruct (js_get k m).
Qed.

Lemma js_get_None k m : js_get k m = None <-> k ∉ (fst <$> m).
Proof.
  induction m as [| [k1 v1] m IH]; cbn.
  - split; [intros _ Hx; by apply not_elem_of_nil in Hx | done].
  - rewrite not_elem_of_cons. case_decide; [split; [done | intros [? _]; done] |].
    rewrite IH. tauto.
Qed.

Lemma js_wf_set k v m : js_wf m -> js_wf (js_set k v m).
Proof.
  unfold js_wf. rewrite js_keys_set. intros Hwf. destruct (js_get k m) eqn:E; [done |].
  apply NoDup_app. split_and!; [done | | apply NoDup_singleton].
  apply js_get_None in E. intros x Hx Hx'. apply list_elem_of_singleton in Hx'. by subst.
Qed.

Lemma js_delete_not_in k m : js_get k m = None -> js_delete k m = m.
Proof.
  induction m as [| [k1 v1] m IH]; cbn; [done |]. case_decide; [done |].
  intros Hk. by rewrite IH.
Qed.

Lemma js_set_fresh k v m : k ∉ (fst <$> m) -> js_set k v m = m ++ [(k, v)].
Proof.
  induction m as [| [k' v'] m IH]; cbn; [done |]. rewrite not_elem_of_cons. intros [Hne Hin].
  rewrite decide_False by done. by rewrite IH.
Qed.

Lemma js_get_delete_eq k m : js_wf m -> js_get k (js_delete k m) = None.
Proof.
  induction m as [| [k1 v1] m IH]; cbn; [done |]. intros Hwf.
  apply NoDup_cons in Hwf as [Hn Hwf]. case_decide; subst.
  - by apply js_get_None.
  - cbn. rewrite decide_False by done. by apply IH.
Qed.

Lemma js_get_delete_ne k k' m : k' <> k -> js_get k' (js_delete k m) = js_get k' m.
Proof.
  intros Hne. induction m as [| [k1 v1] m IH]; cbn; [done |].
  case_decide; subst; cbn.
  - by rewrite decide_False.
  - case_decide; [done | apply IH].
Qed.

Lemma js_keys_delete k m x : x ∈ (fst <$> js_delete k m) -> x ∈ (fst <$> m).
Proof.
  induction m as [| [k1 v1] m IH]; cbn; [done |]. case_decide; cbn; [by right |].
  rewrite !elem_of_cons. intros [Hx | Hx]; [by left | right; by apply IH].
Qed.

Lemma js_wf_delete k m : js_wf m -> js_wf (js_delete k m).
Proof.
  unfold js_wf. induction m as [| [k1 v1] m IH]; cbn; [done |].
  rewrite NoDup_cons. intros [Hn Hwf]. case_decide; cbn; [done |].
  rewrite NoDup_cons. split; [| by apply IH]. intros Hin. apply Hn. by eapply js_keys_delete.
Qed.

Lemma js_get_elem k v m : js_wf m -> js_get k m = Some v <-> (k, v) ∈ m.
Proof.
  unfold js_wf. induction m as [| [k1 v1] m IH]; cbn.
  - intros _. split; [done | intros Hx; by apply not_elem_of_nil in Hx].
  - rewrite NoDup_cons, elem_of_cons. intros [Hn Hwf]. case_decide as Hk.
    + subst. split; [intros [= ->]; by left |]. intros [Hx | Hx]; [congruence |].
      exfalso. apply Hn. by apply (list_elem_of_fmap_2 fst m (k1, v)).
    + rewrite IH by done. naive_solver.
Qed.

(** Removing what was just set gives the map back. *)
Lemma js_delete_set k v m : js_get k m = None -> js_delete k (js_set k v m) = m.
Proof.
  induction m as [| [k1 v1] m IH]; cbn.
  - intros _. by rewrite decide_True.
  - case_decide; [done |]. intros Hk. cbn. rewrite decide_False by done. by rewrite IH.
Qed.
End JsMap.

#[export] Hint Resolve js_wf_set js_wf_delete : bn.
