(* ===== verification/Slots.v ===== *)
(** * Slot-stamped account data

    Both the polling loader and the websocket subscriber keep, per account, the
    last buffer they accepted and the slot it came with, and accept a response
    by the same rule.  This file states that rule once, as the specification
    the two components are proved to follow, with its consequences. *)
From Stdlib Require Import Strings.Byte.
From S2P Require Import Prelude.

(** A Node [Buffer]. *)
Definition Buffer := list byte.

#[export] Instance byte_eq_dec : EqDecision byte := Byte.byte_eq_dec.
#[export] Instance Buffer_eq_dec : EqDecision Buffer.
Proof. unfold Buffer. apply _. Defined.

(** [AccountData] of accounts/types.ts. *)
Record AccountData := mkAccountData { ad_slot : Z; ad_buffer : option Buffer }.

#[export] Instance AccountData_eq_dec : EqDecision AccountData.
Proof. solve_decision. Defined.

(** Whether a response replaces what is stored: always the first one, then only
    one of a later slot that carries a buffer different from the stored one. *)
Definition accepts (old : option AccountData) (newSlot : Z) (newBuffer : option Buffer) : bool :=
  match old with
  | None => true
  | Some d =>
      if newSlot <=? ad_slot d then false
      else match newBuffer with
           | None => false
           | Some nb => match ad_buffer d with
                        | None => true
                        | Some ob => negb (bool_decide (nb = ob))
                        end
           end
  end.

(** What is stored after a response. *)
Definition absorb (old : option AccountData) (r : Z * option Buffer) : option AccountData :=
  if accepts old r.1 r.2 then Some (mkAccountData r.1 r.2) else old.

(** The stored slot never goes back. *)
Definition slot_le (a b : option AccountData) : Prop :=
  match a, b with
  | None, _ => True
  | Some _, None => False
  | Some x, Some y => ad_slot x <= ad_slot y
  end.

#[export] Instance slot_le_preorder : PreOrder slot_le.
Proof.
  split.
  - intros [x |]; cbn; [lia | done].
  - intros [x |] [y |] [z |]; cbn; intuition lia.
Qed.

Lemma absorb_slot_le old r : slot_le old (absorb old r).
Proof.
  unfold absorb, accepts. destruct old as [d |]; cbn; [| done].
  destruct (Z.leb_spec r.1 (ad_slot d)); cbn; [lia |].
  destruct r.2; cbn; [| lia]. destruct (ad_buffer d); cbn; [| lia].
  case_bool_decide; cbn; lia.
Qed.

Lemma absorb_stale d r : r.1 <= ad_slot d -> absorb (Some d) r = Some d.
Proof. intros H. unfold absorb, accepts. by rewrite (proj2 (Z.leb_le _ _) H). Qed.

(** An accepted response has a buffer, unless it is the first. *)
Lemma accepts_Some d s b : accepts (Some d) s b = true ->
  ad_slot d < s /\ exists nb, b = Some nb /\ ad_buffer d <> Some nb.
Proof.
  cbn. destruct (Z.leb_spec s (ad_slot d)); [done |]. destruct b as [nb |]; [| done].
  intros H1. split; [done |]. exists nb. split; [done |].
  destruct (ad_buffer d); [| done]. case_bool_decide; [done | congruence].
Qed.

(** The last buffer a sequence of responses carried. *)
Fixpoint last_buffer (rs : list (Z * option Buffer)) (init : option Buffer) : option Buffer :=
  match rs with
  | [] => init
  | (_, Some b) :: rs' => last_buffer rs' (Some b)
  | (_, None) :: rs' => last_buffer rs' init
  end.

(** Slots strictly increasing, all above [s]. *)
Fixpoint increasing_from (s : Z) (rs : list (Z * option Buffer)) : Prop :=
  match rs with
  | [] => True
  | r :: rs' => s < r.1 /\ increasing_from r.1 rs'
  end.

Lemma increasing_from_weaken s s' rs : s' <= s -> increasing_from s rs -> increasing_from s' rs.
Proof. destruct rs; cbn; [done |]. intros ? [? ?]. split; [lia | done]. Qed.

(** Responses arriving in slot order leave the last buffer received. *)
Lemma absorb_in_order rs d :
  increasing_from (ad_slot d) rs ->
  exists d', foldl absorb (Some d) rs = Some d' /\ ad_buffer d' = last_buffer rs (ad_buffer d).
Proof.
  revert d. induction rs as [| [s b] rs IH]; intros d; cbn; [eauto |].
  intros [Hs Hrs]. unfold absorb. cbn. rewrite (proj2 (Z.leb_gt _ _) Hs).
  assert (increasing_from (ad_slot d) rs) as Hw by (eapply increasing_from_weaken; [| done]; lia).
  destruct b as [nb |]; [| by apply IH].
  destruct (ad_buffer d) as [ob |] eqn:E; cbn.
  - case_bool_decide; subst; cbn.
    + destruct (IH d Hw) as (d' & H1 & H2). exists d'. by rewrite H2, E.
    + apply (IH (mkAccountData s (Some nb)) Hrs).
  - apply (IH (mkAccountData s (Some nb)) Hrs).
Qed.

(** ** Properties *)

(** answers that arrive in the order of their slots leave the buffer of the
    last answer that carried one. *)
Theorem in_order_keeps_latest rs d :
  increasing_from (ad_slot d) rs ->
  exists d', foldl absorb (Some d) rs = Some d' /\ ad_buffer d' = last_buffer rs (ad_buffer d).
Proof. apply absorb_in_order. Qed.

(** an answer that confirms the stored content does not advance the stored
    slot, so an older answer arriving after it is still accepted: content known
    to be current at slot [s3] is replaced by what the account held at [s2]. *)
Theorem confirmation_does_not_protect s1 s2 s3 (current older : Buffer) :
  s1 < s2 < s3 -> older <> current ->
  foldl absorb (Some (mkAccountData s1 (Some current))) [(s3, Some current); (s2, Some older)] =
  Some (mkAccountData s2 (Some older)).
Proof.
  intros Hs Hne. cbn. unfold absorb, accepts. cbn.
  rewrite (proj2 (Z.leb_gt s3 s1)) by lia. rewrite bool_decide_true by done. cbn.
  rewrite (proj2 (Z.leb_gt s2 s1)) by lia. by rewrite bool_decide_false.
Qed.
