(* ===== verification/Loader.v ===== *)
(** * The bulk account loader (accounts/bulkAccountLoader.ts)

    Polls many accounts with batched RPC calls and notifies the callbacks
    registered for each.  The [AccountToLoad] objects are shared between the
    map and the chunks of a load in flight, so they live in a store and the
    map holds their addresses.  Invoking a callback is an event of the log.

    [uuidv4()], [setInterval] and [Buffer.from] are not part of the repository:
    the identifier, the timer and the decoding function are arguments. *)
From S2P Require Import Prelude JsMap Slots.

(** What invoking a callback does: complete, or throw. *)
Class Callbacks (Callback : Type) := {
  cb_run : Callback -> option Buffer -> option JsError;
  ecb_run : Callback -> JsError -> option JsError
}.

Definition PubKey := string.

Record AccountToLoad (Callback : Type) := mkAccountToLoad {
  atl_publicKey : PubKey;
  atl_callbacks : list (string * Callback)
}.
Arguments mkAccountToLoad {Callback}.
Arguments atl_publicKey {Callback}.
Arguments atl_callbacks {Callback}.

Inductive Event (Callback : Type) :=
  | Notify (callbackId : string) (cb : Callback) (buffer : option Buffer)
  | NotifyError (callbackId : string) (cb : Callback) (e : JsError).
Arguments Notify {Callback}.
Arguments NotifyError {Callback}.

(** The fields of the class; [l_heap] and [l_nextAddr] are the object store,
    [l_log] the callback invocations so far.  [l_loadPromise] and
    [l_loadPromiseResolver] name promises by number. *)
Record BulkAccountLoader (Callback : Type) := mkLoader {
  l_accountsToLoad : list (string * positive);
  l_heap : gmap positive (AccountToLoad Callback);
  l_nextAddr : positive;
  l_accountData : gmap string AccountData;
  l_errorCallbacks : list (string * Callback);
  l_intervalId : option nat;
  l_loadPromise : option nat;
  l_loadPromiseResolver : option nat;
  l_log : list (Event Callback)
}.
Arguments mkLoader {Callback}.
Arguments l_accountsToLoad {Callback}.
Arguments l_heap {Callback}.
Arguments l_nextAddr {Callback}.
Arguments l_accountData {Callback}.
Arguments l_errorCallbacks {Callback}.
Arguments l_intervalId {Callback}.
Arguments l_loadPromise {Callback}.
Arguments l_loadPromiseResolver {Callback}.
Arguments l_log {Callback}.

(** The answer of [getMultipleAccounts]: its slot and, per requested account,
    the raw data and its encoding.  [None] is a response without [result]. *)
Record RpcResult := mkRpcResult {
  rpc_slot : Z;
  rpc_value : list (option (string * string))
}.
Definition RpcResponse := result (option RpcResult).

Definition GET_MULTIPLE_ACCOUNTS_CHUNK_SIZE : nat := 99.

(** [chunks]: [array.slice(i * size, (i + 1) * size)] for [i] below
    [Math.ceil(array.length / size)] *)
Definition chunks {T} (array : list T) (size : nat) : list (list T) :=
  (fun index => take size (drop (index * size) array)) <$>
    seq 0 (Nat.div (length array + size - 1) size).

Section Loader.
Context {Callback : Type} {CB : Callbacks Callback}.
#[local] Abbreviation Loader := (BulkAccountLoader Callback).

(** The constructor. *)
Definition newLoader : Loader := mkLoader [] ∅ 1%positive ∅ [] None None None [].

(** ** Field updates *)
Definition set_accounts (ld : Loader) m h n : Loader :=
  mkLoader m h n (l_accountData ld) (l_errorCallbacks ld) (l_intervalId ld)
    (l_loadPromise ld) (l_loadPromiseResolver ld) (l_log ld).
Definition set_data (ld : Loader) d : Loader :=
  mkLoader (l_accountsToLoad ld) (l_heap ld) (l_nextAddr ld) d (l_errorCallbacks ld)
    (l_intervalId ld) (l_loadPromise ld) (l_loadPromiseResolver ld) (l_log ld).
Definition set_errorCallbacks (ld : Loader) e : Loader :=
  mkLoader (l_accountsToLoad ld) (l_heap ld) (l_nextAddr ld) (l_accountData ld) e
    (l_intervalId ld) (l_loadPromise ld) (l_loadPromiseResolver ld) (l_log ld).
Definition set_interval (ld : Loader) i : Loader :=
  mkLoader (l_accountsToLoad ld) (l_heap ld) (l_nextAddr ld) (l_accountData ld)
    (l_errorCallbacks ld) i (l_loadPromise ld) (l_loadPromiseResolver ld) (l_log ld).
Definition set_promise (ld : Loader) p r : Loader :=
  mkLoader (l_accountsToLoad ld) (l_heap ld) (l_nextAddr ld) (l_accountData ld)
    (l_errorCallbacks ld) (l_intervalId ld) p r (l_log ld).
Definition emit (ld : Loader) (ev : Event Callback) : Loader :=
  mkLoader (l_accountsToLoad ld) (l_heap ld) (l_nextAddr ld) (l_accountData ld)
    (l_errorCallbacks ld) (l_intervalId ld) (l_loadPromise ld) (l_loadPromiseResolver ld)
    (l_log ld ++ [ev]).

(** [startPolling]; [timer] is what [setInterval] would return *)
Definition startPolling (timer : nat) (ld : Loader) : Loader :=
  match l_intervalId ld with Some _ => ld | None => set_interval ld (Some timer) end.

(** [stopPolling] *)
Definition stopPolling (ld : Loader) : Loader :=
  match l_intervalId ld with Some _ => set_interval ld None | None => ld end.

(** [addAccount]; [callbackId] is the fresh uuid *)
Definition addAccount (publicKey : PubKey) (callback : Callback) (callbackId : string)
    (timer : nat) (ld : Loader) : Loader * string :=
  let existingSize := length (l_accountsToLoad ld) in
  let ld1 :=
    match js_get publicKey (l_accountsToLoad ld) with
    | Some addr =>
        let h := alter (fun a => mkAccountToLoad (atl_publicKey a)
                          (js_set callbackId callback (atl_callbacks a))) addr (l_heap ld) in
        set_accounts ld (l_accountsToLoad ld) h (l_nextAddr ld)
    | None =>
        let addr := l_nextAddr ld in
        set_accounts ld (js_set publicKey addr (l_accountsToLoad ld))
          (<[addr := mkAccountToLoad publicKey [(callbackId, callback)]]> (l_heap ld))
          (Pos.succ addr)
    end in
  let ld2 := if Nat.eqb existingSize 0 then startPolling timer ld1 else ld1 in
  (set_promise ld2 None (l_loadPromiseResolver ld2), callbackId).

(** [removeAccount] *)
Definition removeAccount (publicKey : PubKey) (callbackId : string) (ld : Loader) : Loader :=
  let ld1 :=
    match js_get publicKey (l_accountsToLoad ld) with
    | Some addr =>
        match l_heap ld !! addr with
        | Some a =>
            let a' := mkAccountToLoad (atl_publicKey a) (js_delete callbackId (atl_callbacks a)) in
            let h := <[addr := a']> (l_heap ld) in
            if Nat.eqb (length (atl_callbacks a')) 0
            then set_accounts ld (js_delete (atl_publicKey a) (l_accountsToLoad ld)) h (l_nextAddr ld)
            else set_accounts ld (l_accountsToLoad ld) h (l_nextAddr ld)
        | None => ld
        end
    | None => ld
    end in
  if Nat.eqb (length (l_accountsToLoad ld1)) 0 then stopPolling ld1 else ld1.

(** [addErrorCallbacks] *)
Definition addErrorCallbacks (callback : Callback) (callbackId : string) (ld : Loader)
    : Loader * string :=
  (set_errorCallbacks ld (js_set callbackId callback (l_errorCallbacks ld)), callbackId).

(** [removeErrorCallbacks] *)
Definition removeErrorCallbacks (callbackId : string) (ld : Loader) : Loader :=
  set_errorCallbacks ld (js_delete callbackId (l_errorCallbacks ld)).

(** [getAccountData] *)
Definition getAccountData (publicKey : PubKey) (ld : Loader) : option Buffer :=
  d ← l_accountData ld !! publicKey; ad_buffer d.

(** [for (const [_, callback] of callbacks) callback(buffer)]: the first
    callback that throws ends the loop. *)
Fixpoint runCallbacks (cbs : list (string * Callback)) (buffer : option Buffer) (ld : Loader)
    : Loader * result unit :=
  match cbs with
  | [] => (ld, Ok tt)
  | (id, cb) :: cbs' =>
      let ld' := emit ld (Notify id cb buffer) in
      match cb_run cb buffer with
      | None => runCallbacks cbs' buffer ld'
      | Some e => (ld', Throw e)
      end
  end.

Fixpoint runErrorCallbacks (cbs : list (string * Callback)) (e : JsError) (ld : Loader)
    : Loader * result unit :=
  match cbs with
  | [] => (ld, Ok tt)
  | (id, cb) :: cbs' =>
      let ld' := emit ld (NotifyError id cb e) in
      match ecb_run cb e with
      | None => runErrorCallbacks cbs' e ld'
      | Some e' => (ld', Throw e')
      end
  end.

(** [handleAccountCallbacks] *)
Definition handleAccountCallbacks (a : AccountToLoad Callback) (buffer : option Buffer)
    (ld : Loader) : Loader * result unit := runCallbacks (atl_callbacks a) buffer ld.

(** One turn of the loop of [loadChunk]. *)
Definition loadOne (a : AccountToLoad Callback) (newSlot : Z) (newBuffer : option Buffer)
    (ld : Loader) : Loader * result unit :=
  let key := atl_publicKey a in
  let store := set_data ld (<[key := mkAccountData newSlot newBuffer]> (l_accountData ld)) in
  match l_accountData ld !! key with
  | None => handleAccountCallbacks a newBuffer store
  | Some old =>
      if newSlot <=? ad_slot old then (ld, Ok tt)
      else
        match newBuffer with
        | None => (ld, Ok tt)
        | Some nb =>
            if match ad_buffer old with
               | None => true
               | Some ob => negb (bool_decide (nb = ob))
               end
            then handleAccountCallbacks a newBuffer store
            else (ld, Ok tt)
        end
  end.

Section LoadChunk.
(** [Buffer.from(raw, dataType)] *)
Variable Buffer_from : string -> string -> Buffer.

(** The buffer the answer has for the [i]-th account of the chunk. *)
Definition newBufferAt (r : RpcResult) (i : nat) : option Buffer :=
  match rpc_value r !! i with
  | Some (Some (raw, dataType)) => Some (Buffer_from raw dataType)
  | _ => None
  end.

(** The loop of [loadChunk] from index [i]. *)
Fixpoint loadAccounts (addrs : list positive) (r : RpcResult) (i : nat) (ld : Loader)
    : Loader * result unit :=
  match addrs with
  | [] => (ld, Ok tt)
  | addr :: addrs' =>
      match l_heap ld !! addr with
      | None => (ld, Throw TypeError)
      | Some a =>
          match loadOne a (rpc_slot r) (newBufferAt r i) ld with
          | (ld', Ok _) => loadAccounts addrs' r (Datatypes.S i) ld'
          | (ld', Throw e) => (ld', Throw e)
          end
      end
  end.

(** The public keys of a chunk, the argument of the RPC call. *)
Definition chunkRequest (addrs : list positive) (ld : Loader) : list PubKey :=
  omap (fun a => atl_publicKey <$> l_heap ld !! a) addrs.

(** [loadChunk], given the answer of the RPC call *)
Definition loadChunk (addrs : list positive) (rpc : RpcResponse) (ld : Loader)
    : Loader * result unit :=
  match addrs with
  | [] => (ld, Ok tt)
  | _ =>
      match rpc with
      | Throw e => runErrorCallbacks (l_errorCallbacks ld) e ld
      | Ok None => (ld, Throw TypeError)
      | Ok (Some r) => loadAccounts addrs r 0 ld
      end
  end.
End LoadChunk.
End Loader.

(** ** Chunks *)
Lemma concat_slices {T} (l : list T) (size n s : nat) :
  concat ((fun index => take size (drop (index * size) l)) <$> seq s n) =
  take (n * size) (drop (s * size) l).
Proof.
  revert s. induction n as [| n IH]; intros s; [done |].
  cbn [seq fmap list_fmap concat]. rewrite IH, <- (take_take_drop _ size (n * size)), drop_drop.
  do 3 f_equal. lia.
Qed.

(** ** The invariant of the loader

    The map's keys are distinct; each entry points to an allocated object of
    that key with at least one callback; and the polling timer runs exactly
    when there is something to poll. *)
Section LoaderInvariant.
Context {Callback : Type} {CB : Callbacks Callback}.
#[local] Abbreviation Loader := (BulkAccountLoader Callback).

Record loader_inv (ld : Loader) : Prop := {
  inv_wf : js_wf (l_accountsToLoad ld);
  inv_entries : forall k addr, js_get k (l_accountsToLoad ld) = Some addr ->
    exists a, l_heap ld !! addr = Some a /\ atl_publicKey a = k /\ atl_callbacks a <> [];
  inv_fresh : forall addr, is_Some (l_heap ld !! addr) -> (addr < l_nextAddr ld)%positive;
  inv_callbacks : forall addr a, l_heap ld !! addr = Some a -> js_wf (atl_callbacks a);
  inv_polling : l_intervalId ld = None <-> l_accountsToLoad ld = []
}.

(** The operations clients perform, and the processing of a response. *)
Inductive loader_op : Loader -> Loader -> Prop :=
  | op_addAccount ld pk cb id timer : loader_op ld (addAccount pk cb id timer ld).1
  | op_removeAccount ld pk id : loader_op ld (removeAccount pk id ld)
  | op_addErrorCallbacks ld cb id : loader_op ld (addErrorCallbacks cb id ld).1
  | op_removeErrorCallbacks ld id : loader_op ld (removeErrorCallbacks id ld)
  | op_loadChunk ld Buffer_from addrs rpc : loader_op ld (loadChunk Buffer_from addrs rpc ld).1.

(** Everything but the stored data and the log. *)
Definition same_registry (ld ld' : Loader) : Prop :=
  l_accountsToLoad ld' = l_accountsToLoad ld /\ l_heap ld' = l_heap ld /\
  l_nextAddr ld' = l_nextAddr ld /\ l_intervalId ld' = l_intervalId ld /\
  l_errorCallbacks ld' = l_errorCallbacks ld /\
  l_loadPromise ld' = l_loadPromise ld /\ l_loadPromiseResolver ld' = l_loadPromiseResolver ld.

#[export] Instance same_registry_preorder : PreOrder same_registry.
Proof.
  split; [by repeat split |].
  unfold same_registry. intros x y z Hxy Hyz. destruct_and?. split_and!; congruence.
Qed.

Lemma runCallbacks_registry cbs b ld : same_registry ld (runCallbacks cbs b ld).1.
Proof.
  revert ld. induction cbs as [| [id cb] cbs IH]; intros ld; cbn; [done |].
  destruct (cb_run cb b); [done | by etrans; [| apply IH]].
Qed.

Lemma runErrorCallbacks_registry cbs e ld : same_registry ld (runErrorCallbacks cbs e ld).1.
Proof.
  revert ld. induction cbs as [| [id cb] cbs IH]; intros ld; cbn; [done |].
  destruct (ecb_run cb e); [done | by etrans; [| apply IH]].
Qed.

Lemma loadOne_registry a s b ld : same_registry ld (loadOne a s b ld).1.
Proof.
  unfold loadOne, handleAccountCallbacks.
  destruct (l_accountData ld !! atl_publicKey a) as [old |].
  - destruct (s <=? ad_slot old); [done |]. destruct b as [nb |]; [| done].
    destruct (match ad_buffer old with None => true | Some ob => _ end); [| done].
    by etrans; [| apply runCallbacks_registry].
  - by etrans; [| apply runCallbacks_registry].
Qed.

Lemma loadAccounts_registry bf addrs r i ld :
  same_registry ld (loadAccounts bf addrs r i ld).1.
Proof.
  revert i ld. induction addrs as [| addr addrs IH]; intros i ld; cbn; [done |].
  destruct (l_heap ld !! addr) as [a |]; [| done].
  pose proof (loadOne_registry a (rpc_slot r) (newBufferAt bf r i) ld) as H.
  destruct (loadOne _ _ _ _) as [ld' [|]]; cbn in *; [| done].
  etrans; [exact H | apply IH].
Qed.

Lemma loadChunk_registry bf addrs rpc ld : same_registry ld (loadChunk bf addrs rpc ld).1.
Proof.
  unfold loadChunk. destruct addrs; [done |]. destruct rpc as [[r |] | e]; [| done |].
  - apply loadAccounts_registry.
  - apply runErrorCallbacks_registry.
Qed.

(** The accounts, their callbacks, the error callbacks and the timer: what a load leaves
    alone, which replaces the stored data, the log and the promises. *)
Definition same_accounts (ld ld' : Loader) : Prop :=
  l_accountsToLoad ld' = l_accountsToLoad ld /\ l_heap ld' = l_heap ld /\
  l_nextAddr ld' = l_nextAddr ld /\ l_intervalId ld' = l_intervalId ld /\
  l_errorCallbacks ld' = l_errorCallbacks ld.

#[export] Instance same_accounts_preorder : PreOrder same_accounts.
Proof.
  split; [by repeat split |].
  unfold same_accounts. intros x y z Hxy Hyz. destruct_and?. split_and!; congruence.
Qed.

Lemma same_registry_accounts ld ld' : same_registry ld ld' -> same_accounts ld ld'.
Proof. unfold same_registry, same_accounts. tauto. Qed.

Lemma same_accounts_inv ld ld' : same_accounts ld ld' -> loader_inv ld -> loader_inv ld'.
Proof.
  intros (H1 & H2 & H3 & H4 & _) [W E F C P].
  split; rewrite ?H1, ?H2, ?H3, ?H4; auto.
Qed.

Lemma same_registry_inv ld ld' : same_registry ld ld' -> loader_inv ld -> loader_inv ld'.
Proof. intros H. by apply same_accounts_inv, same_registry_accounts. Qed.

Lemma newLoader_inv : loader_inv newLoader.
Proof.
  split; cbn; [apply NoDup_nil_2 | done | | done | done].
  intros addr [x Hx]. by rewrite lookup_empty in Hx.
Qed.

Lemma js_set_not_nil {V} k (v : V) m : js_set k v m <> [].
Proof. destruct m as [| [k' v'] m]; cbn; [done |]. by case_decide. Qed.

Lemma js_get_not_nil {V} k (v : V) m : js_get k m = Some v -> m <> [].
Proof. by intros H ->. Qed.

(** Starting the timer keeps the rest and makes it run. *)
Lemma startPolling_running timer (ld : Loader) :
  l_intervalId (startPolling timer ld) <> None /\
  l_accountsToLoad (startPolling timer ld) = l_accountsToLoad ld /\
  l_heap (startPolling timer ld) = l_heap ld /\
  l_nextAddr (startPolling timer ld) = l_nextAddr ld.
Proof. unfold startPolling. by destruct (l_intervalId ld) eqn:E; cbn; rewrite ?E. Qed.

Lemma stopPolling_stopped (ld : Loader) :
  l_intervalId (stopPolling ld) = None /\
  l_accountsToLoad (stopPolling ld) = l_accountsToLoad ld /\
  l_heap (stopPolling ld) = l_heap ld /\
  l_nextAddr (stopPolling ld) = l_nextAddr ld.
Proof. unfold stopPolling. by destruct (l_intervalId ld) eqn:E; cbn; rewrite ?E. Qed.

Lemma length_zero_nil {V} (m : list V) : Nat.eqb (length m) 0 = true <-> m = [].
Proof. rewrite Nat.eqb_eq. apply length_zero_iff_nil. Qed.

(** The calls on accounts leave the error callbacks alone. *)
Lemma startPolling_errorCallbacks timer (ld : Loader) :
  l_errorCallbacks (startPolling timer ld) = l_errorCallbacks ld.
Proof. unfold startPolling. by destruct (l_intervalId ld). Qed.
Lemma stopPolling_errorCallbacks (ld : Loader) : l_errorCallbacks (stopPolling ld) = l_errorCallbacks ld.
Proof. unfold stopPolling. by destruct (l_intervalId ld). Qed.

Lemma addAccount_errorCallbacks pk cb id timer (ld : Loader) :
  l_errorCallbacks (addAccount pk cb id timer ld).1 = l_errorCallbacks ld.
Proof.
  unfold addAccount. destruct (js_get pk _), (_ =? _)%nat; cbn; by rewrite ?startPolling_errorCallbacks.
Qed.
Lemma removeAccount_errorCallbacks pk id (ld : Loader) :
  l_errorCallbacks (removeAccount pk id ld) = l_errorCallbacks ld.
Proof.
  unfold removeAccount.
  set (ld1 := match js_get pk _ with Some _ => _ | None => _ end).
  assert (l_errorCallbacks ld1 = l_errorCallbacks ld) as <- by (unfold ld1; by repeat case_match).
  destruct (_ =? _)%nat; [apply stopPolling_errorCallbacks | done].
Qed.

(** What [addAccount] does to the registry, before the timer. *)
Lemma addAccount_registry pk cb id timer ld :
  let ld' := (addAccount pk cb id timer ld).1 in
  match js_get pk (l_accountsToLoad ld) with
  | Some addr =>
      l_accountsToLoad ld' = l_accountsToLoad ld /\ l_nextAddr ld' = l_nextAddr ld /\
      l_heap ld' = alter (fun a => (mkAccountToLoad (atl_publicKey a)
                             (js_set id cb (atl_callbacks a)))) addr (l_heap ld)
  | None =>
      l_accountsToLoad ld' = js_set pk (l_nextAddr ld) (l_accountsToLoad ld) /\
      l_nextAddr ld' = Pos.succ (l_nextAddr ld) /\
      l_heap ld' = <[l_nextAddr ld := mkAccountToLoad (Callback := Callback) pk [(id, cb)]]> (l_heap ld)
  end.
Proof.
  unfold addAccount. destruct (js_get pk (l_accountsToLoad ld)) as [addr |]; cbn;
    destruct (length (l_accountsToLoad ld) =? 0)%nat; cbn;
    rewrite ?(proj1 (proj2 (startPolling_running _ _))),
      ?(proj1 (proj2 (proj2 (startPolling_running _ _)))),
      ?(proj2 (proj2 (proj2 (startPolling_running _ _)))); done.
Qed.

Lemma addAccount_interval pk cb id timer ld : loader_inv ld ->
  l_intervalId (addAccount pk cb id timer ld).1 <> None.
Proof.
  intros Hi. unfold addAccount. cbn.
  destruct (length (l_accountsToLoad ld) =? 0)%nat eqn:E; [apply startPolling_running |].
  assert (l_intervalId ld <> None) as Hn.
  { intros Hn. apply (inv_polling _ Hi) in Hn. apply length_zero_nil in Hn. congruence. }
  by destruct (js_get pk (l_accountsToLoad ld)).
Qed.

Lemma addAccount_inv pk cb id timer ld :
  loader_inv ld -> loader_inv (addAccount pk cb id timer ld).1.
Proof.
  intros Hi. pose proof (addAccount_interval pk cb id timer ld Hi) as Ht.
  pose proof (addAccount_registry pk cb id timer ld) as Hr. destruct Hi as [W E F C P]. cbn zeta in Hr.
  destruct (js_get pk (l_accountsToLoad ld)) as [addr |] eqn:Eg; destruct Hr as (Ha & Hn & Hh);
    split; rewrite ?Ha, ?Hn, ?Hh; auto using js_wf_set.
  - intros k addr' Hk. destruct (E _ _ Hk) as (a & Hl & Hp & Hc).
    destruct (decide (addr = addr')) as [<- |].
    + eexists. rewrite lookup_alter_eq, Hl. split; [done |]. split; [done | apply js_set_not_nil].
    + exists a. by rewrite lookup_alter_ne.
  - intros addr' Hs. apply F. destruct (decide (addr = addr')) as [<- |].
    + rewrite lookup_alter_eq in Hs. by apply fmap_is_Some in Hs.
    + by rewrite lookup_alter_ne in Hs.
  - intros addr' a. destruct (decide (addr = addr')) as [<- |].
    + rewrite lookup_alter_eq. intros (a0 & Ha0 & ->)%fmap_Some. cbn. eauto using js_wf_set.
    + rewrite lookup_alter_ne by done. apply C.
  - split; [done |]. intros Hx. by rewrite Hx in Eg.
  - intros k addr' Hk. destruct (decide (k = pk)) as [-> |].
    + rewrite js_get_set_eq in Hk. injection Hk as <-. eexists. by rewrite lookup_insert_eq.
    + rewrite js_get_set_ne in Hk by done. destruct (E _ _ Hk) as (a & Hl & Hp & Hc).
      exists a. rewrite lookup_insert_ne; [done |].
      intros <-. specialize (F _ (mk_is_Some _ _ Hl)). lia.
  - intros addr' Hs. destruct (decide (l_nextAddr ld = addr')) as [<- |]; [lia |].
    rewrite lookup_insert_ne in Hs by done. specialize (F _ Hs). lia.
  - intros addr' a. destruct (decide (l_nextAddr ld = addr')) as [<- |].
    + rewrite lookup_insert_eq. intros [= <-]. apply NoDup_singleton.
    + rewrite lookup_insert_ne by done. apply C.
  - split; [done |]. intros Hx. by apply js_set_not_nil in Hx.
Qed.

(** [removeAccount] before it looks at the size of the map. *)
Definition detach (pk : PubKey) (id : string) (ld : Loader) : Loader :=
  match js_get pk (l_accountsToLoad ld) with
  | Some addr =>
      match l_heap ld !! addr with
      | Some a =>
          let cbs := js_delete id (atl_callbacks a) in
          set_accounts ld
            (if Nat.eqb (length cbs) 0 then js_delete (atl_publicKey a) (l_accountsToLoad ld)
             else l_accountsToLoad ld)
            (<[addr := mkAccountToLoad (atl_publicKey a) cbs]> (l_heap ld)) (l_nextAddr ld)
      | None => ld
      end
  | None => ld
  end.

Lemma removeAccount_detach pk id ld :
  removeAccount pk id ld =
  (if Nat.eqb (length (l_accountsToLoad (detach pk id ld))) 0
   then stopPolling (detach pk id ld) else (detach pk id ld)).
Proof.
  unfold removeAccount, detach. destruct (js_get pk _); [| done].
  destruct (l_heap ld !! _); [| done]. cbn. by destruct (length (js_delete _ _) =? 0)%nat.
Qed.

Lemma detach_inv pk id ld : loader_inv ld ->
  js_wf (l_accountsToLoad (detach pk id ld)) /\
  (forall k addr, js_get k (l_accountsToLoad (detach pk id ld)) = Some addr ->
    exists a, l_heap (detach pk id ld) !! addr = Some a /\ atl_publicKey a = k /\
      atl_callbacks a <> []) /\
  (forall addr, is_Some (l_heap (detach pk id ld) !! addr) ->
    (addr < l_nextAddr (detach pk id ld))%positive) /\
  (forall addr a, l_heap (detach pk id ld) !! addr = Some a -> js_wf (atl_callbacks a)) /\
  (l_accountsToLoad (detach pk id ld) <> [] -> l_accountsToLoad ld <> []) /\
  l_intervalId (detach pk id ld) = l_intervalId ld.
Proof.
  intros [W E F C P]. unfold detach. destruct (js_get pk (l_accountsToLoad ld)) as [addr |] eqn:Eg;
    [| by split_and!].
  destruct (E _ _ Eg) as (a & Hl & Hp & Hc). rewrite Hl. cbn. subst pk.
  split_and!; [| | | | by apply js_get_not_nil in Eg | done].
  - case_match; auto using js_wf_delete.
  - intros k addr' Hk. destruct (decide (k = atl_publicKey a)) as [-> | Hne].
    + case_match eqn:En; [by rewrite js_get_delete_eq in Hk |].
      rewrite Eg in Hk. injection Hk as <-. eexists. rewrite lookup_insert_eq. split; [done |].
      split; [done |]. cbn. intros Hx. by rewrite Hx in En.
    + assert (js_get k (l_accountsToLoad ld) = Some addr') as Hk'.
      { case_match; [by rewrite js_get_delete_ne in Hk | done]. }
      destruct (E _ _ Hk') as (a' & Hl' & Hp' & Hc'). exists a'.
      rewrite lookup_insert_ne; [done | intros <-; congruence].
  - intros addr' Hs. apply F. destruct (decide (addr = addr')) as [<- |]; [by exists a |].
    by rewrite lookup_insert_ne in Hs.
  - intros addr' a'. destruct (decide (addr = addr')) as [<- |].
    + rewrite lookup_insert_eq. intros [= <-]. cbn. eauto using js_wf_delete.
    + rewrite lookup_insert_ne by done. apply C.
Qed.

Lemma removeAccount_inv pk id ld : loader_inv ld -> loader_inv (removeAccount pk id ld).
Proof.
  intros Hi. rewrite removeAccount_detach. destruct (detach_inv pk id ld Hi) as (W & E & F & C & N & I).
  destruct (length (l_accountsToLoad (detach pk id ld)) =? 0)%nat eqn:En.
  - destruct (stopPolling_stopped (detach pk id ld)) as (H1 & H2 & H3 & H4).
    split; rewrite ?H2, ?H3, ?H4; auto. rewrite H1. apply length_zero_nil in En. by rewrite En.
  - split; auto. rewrite I. assert (l_accountsToLoad (detach pk id ld) <> []) as Hn.
    { intros Hn. apply length_zero_nil in Hn. congruence. }
    split; [| done]. intros Hx. apply (inv_polling _ Hi) in Hx. by apply N in Hn.
Qed.

Lemma loader_op_inv ld ld' : loader_op ld ld' -> loader_inv ld -> loader_inv ld'.
Proof.
  intros [] Hi; auto using addAccount_inv, removeAccount_inv.
  - by destruct Hi.
  - by destruct Hi.
  - eauto using same_registry_inv, loadChunk_registry.
Qed.
End LoaderInvariant.
