(* ===== verification/LoaderSpec.v ===== *)
(** * What the bulk account loader guarantees

    The theorems about Loader.v: its registry and timer, the batching, and the
    treatment of an answer as the rule of Slots.v applied to each account. *)
From S2P Require Import Prelude JsMap Slots Loader.

Section LoaderSpec.
Context {Callback : Type} {CB : Callbacks Callback}.
#[local] Abbreviation Loader := (BulkAccountLoader Callback).
Implicit Types (ld : Loader) (a : AccountToLoad Callback) (k : string).

(** ** Histories *)
Lemma loader_history_inv ld : rtc loader_op newLoader ld -> loader_inv ld.
Proof.
  intros H. assert (forall x, loader_inv x -> rtc loader_op x ld -> loader_inv ld) as Hall.
  { intros x Hx Hr. induction Hr; eauto using loader_op_inv. }
  eauto using newLoader_inv.
Qed.

(** ** One account *)
Lemma runCallbacks_data cbs b ld :
  l_accountData (runCallbacks cbs b ld).1 = l_accountData ld.
Proof.
  revert ld. induction cbs as [| [id cb] cbs IH]; intros ld; cbn; [done |].
  destruct (cb_run cb b); [done | by rewrite IH].
Qed.

Lemma runErrorCallbacks_data cbs e ld :
  l_accountData (runErrorCallbacks cbs e ld).1 = l_accountData ld.
Proof.
  revert ld. induction cbs as [| [id cb] cbs IH]; intros ld; cbn; [done |].
  destruct (ecb_run cb e); [done | by rewrite IH].
Qed.

(** The calls made for an accepted answer. *)
Definition notifications a (b : option Buffer) : list (Event Callback) :=
  (fun p => Notify p.1 p.2 b) <$> atl_callbacks a.

(** Callbacks that never throw. *)
Definition quiet : Prop := forall (cb : Callback) b, cb_run cb b = None.

Lemma runCallbacks_quiet cbs b ld : quiet ->
  (runCallbacks cbs b ld).2 = Ok tt /\
  l_log (runCallbacks cbs b ld).1 = l_log ld ++ ((fun p => Notify p.1 p.2 b) <$> cbs).
Proof.
  intros Hq. revert ld. induction cbs as [| [id cb] cbs IH]; intros ld; cbn.
  - by rewrite app_nil_r.
  - rewrite Hq. destruct (IH (emit ld (Notify id cb b))) as [-> ->]. cbn.
    by rewrite <- app_assoc.
Qed.

Lemma runErrorCallbacks_quiet cbs e ld : (forall cb e', ecb_run cb e' = None) ->
  (runErrorCallbacks cbs e ld).2 = Ok tt /\
  l_log (runErrorCallbacks cbs e ld).1 = l_log ld ++ ((fun p => NotifyError p.1 p.2 e) <$> cbs).
Proof.
  intros Hq. revert ld. induction cbs as [| [id cb] cbs IH]; intros ld; cbn.
  - by rewrite app_nil_r.
  - rewrite Hq. destruct (IH (emit ld (NotifyError id cb e))) as [-> ->]. cbn.
    by rewrite <- app_assoc.
Qed.

(** [loadOne] is the rule of Slots.v followed, on acceptance, by the callbacks. *)
Lemma loadOne_accepts a s b ld :
  loadOne a s b ld =
  (if accepts (l_accountData ld !! atl_publicKey a) s b
   then runCallbacks (atl_callbacks a) b
          (set_data ld (<[atl_publicKey a := mkAccountData s b]> (l_accountData ld)))
   else (ld, Ok tt)).
Proof.
  unfold loadOne, handleAccountCallbacks. destruct (l_accountData ld !! _) as [old |]; cbn; [| done].
  destruct (s <=? ad_slot old); [done |]. destruct b as [nb |]; [| done].
  by destruct (ad_buffer old).
Qed.

Lemma loadOne_data a s b ld (k : string) :
  l_accountData (loadOne a s b ld).1 !! k =
  (if decide (k = atl_publicKey a) then absorb (l_accountData ld !! k) (s, b)
   else l_accountData ld !! k).
Proof.
  rewrite loadOne_accepts. unfold absorb. case_decide as Hk.
  - subst. cbn [fst snd]. destruct (accepts _ s b); [| done].
    rewrite runCallbacks_data. cbn. by rewrite lookup_insert_eq.
  - destruct (accepts _ s b); [| done].
    rewrite runCallbacks_data. cbn. by rewrite lookup_insert_ne.
Qed.

Lemma loadOne_quiet a s b ld : quiet ->
  (loadOne a s b ld).2 = Ok tt /\
  l_log (loadOne a s b ld).1 =
    l_log ld ++ (if accepts (l_accountData ld !! atl_publicKey a) s b
                 then notifications a b else []).
Proof.
  intros Hq. rewrite loadOne_accepts. destruct (accepts _ s b); cbn; [| by rewrite app_nil_r].
  match goal with |- context [runCallbacks _ _ ?x] =>
    by destruct (runCallbacks_quiet (atl_callbacks a) b x Hq) as [-> ->] end.
Qed.

(** ** One answer *)
Lemma loadAccounts_slot bf addrs r i ld k :
  slot_le (l_accountData ld !! k) (l_accountData (loadAccounts bf addrs r i ld).1 !! k).
Proof.
  revert i ld. induction addrs as [| addr addrs IH]; intros i ld; cbn; [done |].
  destruct (l_heap ld !! addr) as [a |]; [| done].
  pose proof (loadOne_data a (rpc_slot r) (newBufferAt bf r i) ld k) as Hd.
  assert (slot_le (l_accountData ld !! k)
    (l_accountData (loadOne a (rpc_slot r) (newBufferAt bf r i) ld).1 !! k)) as Hs.
  { rewrite Hd. case_decide; [apply absorb_slot_le | done]. }
  destruct (loadOne _ _ _ _) as [ld' [|]]; cbn in *; [| done].
  etrans; [exact Hs | apply IH].
Qed.

Lemma loadChunk_slot bf addrs rpc ld k :
  slot_le (l_accountData ld !! k) (l_accountData (loadChunk bf addrs rpc ld).1 !! k).
Proof.
  unfold loadChunk. destruct addrs; [done |]. destruct rpc as [[r |] | e]; [| done |].
  - apply loadAccounts_slot.
  - by rewrite runErrorCallbacks_data.
Qed.

Lemma addAccount_data pk cb id timer ld :
  l_accountData (addAccount pk cb id timer ld).1 = l_accountData ld.
Proof.
  unfold addAccount. destruct (js_get _ _); cbn; destruct (_ =? _)%nat; cbn; try done;
    unfold startPolling; by destruct (l_intervalId _).
Qed.

Lemma removeAccount_data pk id ld :
  l_accountData (removeAccount pk id ld) = l_accountData ld.
Proof.
  rewrite removeAccount_detach. unfold detach, stopPolling.
  repeat (case_match; try done).
Qed.

Lemma loader_op_slot ld ld' k : loader_op ld ld' ->
  slot_le (l_accountData ld !! k) (l_accountData ld' !! k).
Proof.
  intros []; rewrite ?addAccount_data, ?removeAccount_data; try done. apply loadChunk_slot.
Qed.

(** The accounts [objs] of a batch, at the indices from [i]: the calls made. *)
Fixpoint batch_log bf (data : gmap string AccountData) r (i : nat) objs
    : list (Event Callback) :=
  match objs with
  | [] => []
  | a :: objs' =>
      (if accepts (data !! atl_publicKey a) (rpc_slot r) (newBufferAt bf r i)
       then notifications a (newBufferAt bf r i) else []) ++
      batch_log bf data r (Datatypes.S i) objs'
  end.

Lemma batch_log_ext bf data data' r i objs :
  (forall a, a ∈ objs -> data !! atl_publicKey a = data' !! atl_publicKey a) ->
  batch_log bf data r i objs = batch_log bf data' r i objs.
Proof.
  revert i. induction objs as [| a objs IH]; intros i H; cbn; [done |].
  rewrite (H a) by (left; done). f_equal. apply IH. intros a' Ha'. apply H. by right.
Qed.

Lemma loadAccounts_quiet bf r addrs objs i ld :
  quiet -> Forall2 (fun addr a => l_heap ld !! addr = Some a) addrs objs ->
  NoDup (atl_publicKey <$> objs) ->
  let ld' := (loadAccounts bf addrs r i ld).1 in
  (loadAccounts bf addrs r i ld).2 = Ok tt /\
  (forall j a, objs !! j = Some a ->
    l_accountData ld' !! atl_publicKey a =
    absorb (l_accountData ld !! atl_publicKey a) (rpc_slot r, newBufferAt bf r (i + j))) /\
  (forall k, k ∉ (atl_publicKey <$> objs) -> l_accountData ld' !! k = l_accountData ld !! k) /\
  l_log ld' = l_log ld ++ batch_log bf (l_accountData ld) r i objs.
Proof.
  intros Hq. cbn zeta. revert objs i ld.
  induction addrs as [| addr addrs IH]; intros objs i ld Hall Hnd.
  - apply Forall2_nil_inv_l in Hall as ->. cbn. split_and!; [done | done | done |].
    by rewrite app_nil_r.
  - apply Forall2_cons_inv_l in Hall as (a & objs' & Ha & Hall & ->). cbn [loadAccounts].
    apply NoDup_cons in Hnd as [Hn Hnd]. rewrite Ha.
    pose proof (loadOne_registry a (rpc_slot r) (newBufferAt bf r i) ld) as Hr.
    pose proof (loadOne_data a (rpc_slot r) (newBufferAt bf r i) ld) as Hd.
    destruct (loadOne_quiet a (rpc_slot r) (newBufferAt bf r i) ld Hq) as [Hok Hlog].
    destruct (loadOne a (rpc_slot r) (newBufferAt bf r i) ld) as [ld1 res]; cbn in *. subst res.
    destruct Hr as (_ & Hh & _). rewrite <- Hh in Hall.
    destruct (IH objs' (Datatypes.S i) ld1 Hall Hnd) as (H1 & H2 & H3 & H4).
    split_and!; [done | | |].
    + intros [| j] a' Hj; cbn in Hj.
      * injection Hj as <-. rewrite H3 by done. rewrite Hd, decide_True by done. by rewrite Nat.add_0_r.
      * rewrite (H2 j a' Hj), Hd, decide_False; [do 3 f_equal; lia |].
        intros Heq. apply Hn. rewrite <- Heq. apply list_elem_of_fmap_2.
        by eapply list_elem_of_lookup_2.
    + intros k [Hk1 Hk2]%not_elem_of_cons. rewrite H3 by done. by rewrite Hd, decide_False.
    + rewrite H4, Hlog, <- app_assoc. do 2 f_equal. apply batch_log_ext. intros a' Ha'.
      rewrite Hd, decide_False; [done |]. intros Heq. apply Hn. rewrite <- Heq.
      by apply list_elem_of_fmap_2.
Qed.

(** ** Which callbacks a batch can reach *)

(** [ld'] has the log of [ld] followed by calls of callbacks registered, under
    the identifier logged, at one of [addrs]. *)
Definition reaches ld (addrs : list positive) ld' : Prop :=
  exists evs, l_log ld' = l_log ld ++ evs /\
    forall id cb b, Notify id cb b ∈ evs ->
      exists addr a, addr ∈ addrs /\ l_heap ld !! addr = Some a /\
        id ∈ (fst <$> atl_callbacks a).

Lemma runCallbacks_log cbs b ld :
  exists evs, l_log (runCallbacks cbs b ld).1 = l_log ld ++ evs /\
    forall id cb b', Notify id cb b' ∈ evs -> id ∈ (fst <$> cbs).
Proof.
  revert ld. induction cbs as [| [id cb] cbs IH]; intros ld; cbn.
  - exists []. rewrite app_nil_r. split; [done |]. intros ? ? ? Hx. by apply not_elem_of_nil in Hx.
  - destruct (cb_run cb b); cbn.
    + exists [Notify id cb b]. split; [done |]. intros id' cb' b' Hx.
      apply list_elem_of_singleton in Hx as [= -> _ _]. by left.
    + destruct (IH (emit ld (Notify id cb b))) as (evs & -> & H). cbn.
      exists (Notify id cb b :: evs). rewrite <- app_assoc. split; [done |].
      intros id' cb' b' [[= -> _ _] | Hx]%elem_of_cons; [by left | right; eauto].
Qed.

Lemma runErrorCallbacks_log cbs e ld :
  exists evs, l_log (runErrorCallbacks cbs e ld).1 = l_log ld ++ evs /\
    forall id cb b, Notify id cb b ∉ evs.
Proof.
  revert ld. induction cbs as [| [id cb] cbs IH]; intros ld; cbn.
  - exists []. rewrite app_nil_r. split; [done |]. intros ? ? ?. apply not_elem_of_nil.
  - destruct (ecb_run cb e); cbn.
    + exists [NotifyError id cb e]. split; [done |]. intros id' cb' b' Hx.
      by apply list_elem_of_singleton in Hx.
    + destruct (IH (emit ld (NotifyError id cb e))) as (evs & -> & H). cbn.
      exists (NotifyError id cb e :: evs). rewrite <- app_assoc. split; [done |].
      intros id' cb' b' [? | Hx]%elem_of_cons; [done | by eapply H].
Qed.

Lemma reaches_refl ld addrs : reaches ld addrs ld.
Proof. exists []. rewrite app_nil_r. split; [done |]. intros ? ? ? Hx. by apply not_elem_of_nil in Hx. Qed.

Lemma loadAccounts_log bf addrs r i ld : reaches ld addrs (loadAccounts bf addrs r i ld).1.
Proof.
  revert i ld. induction addrs as [| addr addrs IH]; intros i ld; cbn; [apply reaches_refl |].
  destruct (l_heap ld !! addr) as [a |] eqn:Ea; [| apply reaches_refl].
  pose proof (loadOne_registry a (rpc_slot r) (newBufferAt bf r i) ld) as (_ & Hh & _).
  assert (reaches ld (addr :: addrs) (loadOne a (rpc_slot r) (newBufferAt bf r i) ld).1) as H1.
  { rewrite loadOne_accepts. destruct (accepts _ _ _); [| apply reaches_refl].
    match goal with |- context [runCallbacks _ _ ?x] =>
      destruct (runCallbacks_log (atl_callbacks a) (newBufferAt bf r i) x) as (evs & He & Hin) end.
    exists evs. split; [done |]. intros id cb b Hx. exists addr, a.
    split; [by left | eauto]. }
  destruct (loadOne _ _ _ _) as [ld1 [|]]; cbn in *; [| done].
  destruct H1 as (e1 & Hl1 & Hi1), (IH (Datatypes.S i) ld1) as (e2 & Hl2 & Hi2).
  exists (e1 ++ e2). rewrite Hl2, Hl1, app_assoc. split; [done |].
  intros id cb b [Hx | Hx]%elem_of_app; [eauto |].
  destruct (Hi2 _ _ _ Hx) as (addr' & a' & Hm & Hl & Hc). rewrite Hh in Hl.
  exists addr', a'. split; [by right | done].
Qed.

Lemma loadChunk_log bf addrs rpc ld : reaches ld addrs (loadChunk bf addrs rpc ld).1.
Proof.
  unfold loadChunk. destruct addrs; [apply reaches_refl |].
  destruct rpc as [[r |] | e]; [apply loadAccounts_log | apply reaches_refl |].
  destruct (runErrorCallbacks_log (l_errorCallbacks ld) e ld) as (evs & He & Hn).
  exists evs. split; [done |]. intros id cb b Hx. by apply Hn in Hx.
Qed.

Lemma detach_heap pk id ld addr a : loader_inv ld ->
  l_heap (detach pk id ld) !! addr = Some a ->
  l_heap ld !! addr = Some a \/
  exists a0, js_get pk (l_accountsToLoad ld) = Some addr /\ l_heap ld !! addr = Some a0 /\
    a = mkAccountToLoad (atl_publicKey a0) (js_delete id (atl_callbacks a0)).
Proof.
  intros _. unfold detach. destruct (js_get pk _) as [addr' |] eqn:Eg; [| by left].
  destruct (l_heap ld !! addr') as [a0 |] eqn:Ea; [| by left]. cbn.
  destruct (decide (addr' = addr)) as [<- |].
  - rewrite lookup_insert_eq. intros [= <-]. right. eauto.
  - rewrite lookup_insert_ne by done. by left.
Qed.

Lemma removeAccount_heap pk id ld :
  l_heap (removeAccount pk id ld) = l_heap (detach pk id ld) /\
  l_accountsToLoad (removeAccount pk id ld) = l_accountsToLoad (detach pk id ld).
Proof.
  rewrite removeAccount_detach. destruct (_ =? _)%nat; [| done].
  split; apply (stopPolling_stopped (detach pk id ld)).
Qed.

(** ** The registry as a set of registrations *)

(** Callback [id] is registered for account [k]. *)
Definition registered ld (k id : string) : Prop :=
  exists addr a, js_get k (l_accountsToLoad ld) = Some addr /\ l_heap ld !! addr = Some a /\
    js_get id (atl_callbacks a) <> None.

Lemma js_get_set_None {V} k k' (v : V) m :
  js_get k (js_set k' v m) <> None <-> k = k' \/ js_get k m <> None.
Proof.
  destruct (decide (k = k')) as [-> |].
  - rewrite js_get_set_eq. split; [by left | done].
  - rewrite js_get_set_ne by done. tauto.
Qed.

Lemma js_get_delete_None {V} k k' (m : list (string * V)) : js_wf m ->
  js_get k (js_delete k' m) <> None <-> k <> k' /\ js_get k m <> None.
Proof.
  intros Hwf. destruct (decide (k = k')) as [-> |].
  - rewrite js_get_delete_eq by done. tauto.
  - rewrite js_get_delete_ne by done. tauto.
Qed.

(** Reading one account's object. *)
Lemma registered_at ld k id addr a :
  js_get k (l_accountsToLoad ld) = Some addr -> l_heap ld !! addr = Some a ->
  registered ld k id <-> js_get id (atl_callbacks a) <> None.
Proof.
  intros Hk Ha. split; [| intros Hid; by exists addr, a].
  intros (addr' & a' & Hk' & Ha' & Hid). congruence.
Qed.

Lemma registered_not_at ld k id : js_get k (l_accountsToLoad ld) = None -> ~ registered ld k id.
Proof. intros Hk (addr & a & Hk' & _). congruence. Qed.

Lemma registered_other ld ld' k id :
  js_get k (l_accountsToLoad ld') = js_get k (l_accountsToLoad ld) ->
  (forall addr, js_get k (l_accountsToLoad ld) = Some addr -> l_heap ld' !! addr = l_heap ld !! addr) ->
  registered ld' k id <-> registered ld k id.
Proof.
  intros Hk Hh. unfold registered. rewrite Hk.
  split; intros (addr & a & H1 & H2 & H3); exists addr, a;
    (split_and!; [done | | done]); specialize (Hh _ H1); congruence.
Qed.

Lemma inv_addr_ne ld k k' addr addr' : loader_inv ld ->
  js_get k (l_accountsToLoad ld) = Some addr -> js_get k' (l_accountsToLoad ld) = Some addr' ->
  k <> k' -> addr <> addr'.
Proof.
  intros Hi H1 H2 Hne <-. destruct (inv_entries _ Hi _ _ H1) as (a & Ha & <- & _).
  destruct (inv_entries _ Hi _ _ H2) as (a' & Ha' & <- & _). congruence.
Qed.

Lemma registered_addAccount ld pk cb id' timer k id : loader_inv ld ->
  registered (addAccount pk cb id' timer ld).1 k id <-> (k = pk /\ id = id') \/ registered ld k id.
Proof.
  intros Hi. pose proof (addAccount_registry pk cb id' timer ld) as Hr. cbn zeta in Hr.
  destruct (js_get pk (l_accountsToLoad ld)) as [addr |] eqn:Eg; destruct Hr as (Ha & _ & Hh).
  - destruct (inv_entries _ Hi _ _ Eg) as (a & Ea & _).
    destruct (decide (k = pk)) as [-> |].
    + rewrite (registered_at _ pk id addr
        (mkAccountToLoad (atl_publicKey a) (js_set id' cb (atl_callbacks a)))).
      * cbn. rewrite js_get_set_None, (registered_at ld pk id addr a) by done. tauto.
      * by rewrite Ha.
      * by rewrite Hh, lookup_alter_eq, Ea.
    + rewrite (registered_other ld); [tauto | by rewrite Ha |].
      intros addr' Hk. rewrite Hh, lookup_alter_ne; [done |]. by eapply inv_addr_ne.
  - destruct (decide (k = pk)) as [-> |].
    + rewrite (registered_at _ pk id (l_nextAddr ld) (mkAccountToLoad pk [(id', cb)])).
      * cbn. pose proof (registered_not_at ld pk id Eg). case_decide; [| tauto].
        split; [by left | done].
      * by rewrite Ha, js_get_set_eq.
      * by rewrite Hh, lookup_insert_eq.
    + rewrite (registered_other ld); [tauto | by rewrite Ha, js_get_set_ne |].
      intros addr' Hk. destruct (inv_entries _ Hi _ _ Hk) as (a' & Ea' & _).
      pose proof (inv_fresh _ Hi _ (mk_is_Some _ _ Ea')).
      rewrite Hh, lookup_insert_ne; [done |]. intros <-. lia.
Qed.

Lemma registered_removeAccount ld pk id' k id : loader_inv ld ->
  registered (removeAccount pk id' ld) k id <-> ~ (k = pk /\ id = id') /\ registered ld k id.
Proof.
  intros Hi. destruct (removeAccount_heap pk id' ld) as [Hh Ha].
  rewrite <- (registered_other (removeAccount pk id' ld) (detach pk id' ld)) by congruence.
  clear Hh Ha. unfold detach. destruct (js_get pk (l_accountsToLoad ld)) as [addr |] eqn:Eg.
  - destruct (inv_entries _ Hi _ _ Eg) as (a & Ea & Hp & _). rewrite Ea. cbn zeta.
    pose proof (inv_callbacks _ Hi _ _ Ea) as Hwf. pose proof (inv_wf _ Hi) as Hwf'. subst pk.
    destruct (decide (k = atl_publicKey a)) as [-> | Hne].
    + rewrite (registered_at ld _ id addr a) by done.
      destruct (js_delete id' (atl_callbacks a)) as [| x l] eqn:Ed; cbn [length Nat.eqb].
      * pose proof (js_get_delete_None id id' _ Hwf) as Hd. rewrite Ed in Hd. cbn in Hd.
        assert (~ registered (set_accounts ld (js_delete (atl_publicKey a) (l_accountsToLoad ld))
          (<[addr := mkAccountToLoad (atl_publicKey a) []]> (l_heap ld)) (l_nextAddr ld))
          (atl_publicKey a) id) as Hnr.
        { apply registered_not_at. cbn. by apply js_get_delete_eq. }
        destruct (decide (id = id')); tauto.
      * rewrite (registered_at _ _ id addr (mkAccountToLoad (atl_publicKey a) (x :: l))).
        -- rewrite <- Ed. cbn [atl_callbacks]. rewrite js_get_delete_None by done. tauto.
        -- done.
        -- cbn. by rewrite lookup_insert_eq.
    + rewrite (registered_other ld); [tauto | |].
      * cbn. case_match; [by rewrite js_get_delete_ne | done].
      * intros addr' Hk. cbn. rewrite lookup_insert_ne; [done |]. by eapply inv_addr_ne.
  - split; [| by intros [_ ?]]. intros Hr. split; [| done]. intros [-> _].
    by apply (registered_not_at ld pk id Eg).
Qed.

(** The set is unchanged by what only touches data, log or error callbacks. *)
Lemma registered_same ld ld' k id : l_accountsToLoad ld' = l_accountsToLoad ld ->
  l_heap ld' = l_heap ld -> registered ld' k id <-> registered ld k id.
Proof. intros Ha Hh. unfold registered. by rewrite Ha, Hh. Qed.
End LoaderSpec.

(** ** Properties *)

(** [chunks] splits the accounts into consecutive groups, none empty and
    none above the size [getMultipleAccounts] takes, that put together give the
    accounts back in order: each account is requested exactly once. *)
Theorem chunks_partition {T} (l : list T) (size : nat) :
  (0 < size)%nat ->
  concat (chunks l size) = l /\
  Forall (fun c => (0 < length c <= size)%nat) (chunks l size) /\
  length (chunks l size) = Nat.div (length l + size - 1) size.
Proof.
  intros Hs. unfold chunks.
  pose proof (Nat.div_mod_eq (length l + size - 1) size) as Hd.
  pose proof (Nat.mod_upper_bound (length l + size - 1) size ltac:(lia)) as Hm.
  set (n := Nat.div (length l + size - 1) size) in *. split_and!.
  - rewrite (concat_slices l size n 0). cbn. apply take_ge. nia.
  - apply Forall_fmap, Forall_forall. intros i Hi%elem_of_seq. cbn.
    rewrite length_take, length_drop. nia.
  - by rewrite length_fmap, length_seq.
Qed.

Section LoaderProperties.
Context {Callback : Type} {CB : Callbacks Callback}.
#[local] Abbreviation Loader := (BulkAccountLoader Callback).
Implicit Types (ld : Loader).

(** whatever the order in which clients add and remove accounts and error
    callbacks and answers arrive, the polling timer runs exactly when there is
    an account to poll, an account is registered once, and every registered
    account still has a callback. *)
Theorem polling_iff_accounts ld :
  rtc loader_op newLoader ld ->
  (l_intervalId ld = None <-> l_accountsToLoad ld = []) /\
  NoDup (fst <$> l_accountsToLoad ld) /\
  (forall k addr, js_get k (l_accountsToLoad ld) = Some addr ->
    exists a, l_heap ld !! addr = Some a /\ atl_publicKey a = k /\ atl_callbacks a <> []).
Proof.
  intros Hr. apply loader_history_inv in Hr as [W E F C P]. by split_and!.
Qed.

(** the slot stored for an account never goes back, and stored data never
    disappears, over any sequence of client operations and answers, late,
    repeated, failing or interrupted by a throwing callback. *)
Theorem stored_slot_monotone ld ld' (k : string) :
  rtc loader_op ld ld' -> slot_le (l_accountData ld !! k) (l_accountData ld' !! k).
Proof. induction 1; [done |]. etrans; [by eapply loader_op_slot | done]. Qed.

(** C13: processing an answer implements the slot rule: every account of the
    chunk moves by [absorb], no other account changes, and the callbacks of
    exactly the accepted accounts are called, in the order of the chunk. *)
Theorem loadChunk_refines_absorb bf addrs (objs : list (AccountToLoad Callback)) r ld :
  quiet -> addrs <> [] ->
  Forall2 (fun addr a => l_heap ld !! addr = Some a) addrs objs ->
  NoDup (atl_publicKey <$> objs) ->
  let ld' := (loadChunk bf addrs (Ok (Some r)) ld).1 in
  (loadChunk bf addrs (Ok (Some r)) ld).2 = Ok tt /\
  (forall j a, objs !! j = Some a ->
    l_accountData ld' !! atl_publicKey a =
    absorb (l_accountData ld !! atl_publicKey a) (rpc_slot r, newBufferAt bf r j)) /\
  (forall k, k ∉ (atl_publicKey <$> objs) -> l_accountData ld' !! k = l_accountData ld !! k) /\
  l_log ld' = l_log ld ++ batch_log bf (l_accountData ld) r 0 objs.
Proof.
  intros Hq Hne Hall Hnd. unfold loadChunk. destruct addrs as [| addr addrs]; [done |].
  apply (loadAccounts_quiet bf r _ objs 0 ld Hq Hall Hnd).
Qed.

(** a failed RPC call stores nothing and is reported to every error
    callback in turn; an answer without a result rejects the load. *)
Theorem failed_answer_outcomes bf addrs e ld :
  addrs <> [] -> (forall cb e', ecb_run cb e' = None) ->
  (loadChunk bf addrs (Throw e) ld).2 = Ok tt /\
  l_accountData (loadChunk bf addrs (Throw e) ld).1 = l_accountData ld /\
  l_log (loadChunk bf addrs (Throw e) ld).1 =
    l_log ld ++ ((fun p => NotifyError p.1 p.2 e) <$> l_errorCallbacks ld) /\
  loadChunk bf addrs (Ok None) ld = (ld, Throw TypeError).
Proof.
  intros Hne Hq. unfold loadChunk. destruct addrs; [done |].
  destruct (runErrorCallbacks_quiet (l_errorCallbacks ld) e ld Hq).
  split_and!; [done | apply runErrorCallbacks_data | done | done].
Qed.

(** the registry behaves as a set of pairs of an account and a callback
    identifier: [addAccount] inserts its pair, [removeAccount] deletes its
    pair, and neither touches any other, although the pairs live in shared
    mutable objects that are dropped when their last callback goes. *)
Theorem registry_is_a_set ld pk cb id' timer k id :
  loader_inv ld ->
  (registered (addAccount pk cb id' timer ld).1 k id <->
    (k = pk /\ id = id') \/ registered ld k id) /\
  (registered (removeAccount pk id' ld) k id <->
    ~ (k = pk /\ id = id') /\ registered ld k id).
Proof.
  intros Hi. split; [by apply registered_addAccount | by apply registered_removeAccount].
Qed.

(** unregistering a callback undoes registering it: the accounts, their
    callbacks and the timer are as before. *)
Theorem add_remove_roundtrip pk cb id timer ld :
  loader_inv ld ->
  (forall addr a, l_heap ld !! addr = Some a -> js_get id (atl_callbacks a) = None) ->
  let ld' := removeAccount pk id (addAccount pk cb id timer ld).1 in
  l_accountsToLoad ld' = l_accountsToLoad ld /\
  (l_intervalId ld' = None <-> l_intervalId ld = None) /\
  (forall k addr, js_get k (l_accountsToLoad ld) = Some addr ->
    l_heap ld' !! addr = l_heap ld !! addr).
Proof.
  intros Hi Hfresh. cbn zeta.
  pose proof (addAccount_registry pk cb id timer ld) as Hr. cbn zeta in Hr.
  pose proof (addAccount_inv pk cb id timer ld Hi) as Hi1.
  pose proof (removeAccount_inv pk id _ Hi1) as Hi2.
  set (ld1 := (addAccount pk cb id timer ld).1) in *.
  destruct (removeAccount_heap pk id ld1) as [Hrh Ha].
  assert (l_accountsToLoad (detach pk id ld1) = l_accountsToLoad ld /\
    forall k addr, js_get k (l_accountsToLoad ld) = Some addr ->
      l_heap (detach pk id ld1) !! addr = l_heap ld !! addr) as [Hacc Hheap].
  { destruct (js_get pk (l_accountsToLoad ld)) as [addr |] eqn:Eg;
      destruct Hr as (Hl & _ & Hh); unfold detach; rewrite Hl.
    - destruct (inv_entries _ Hi _ _ Eg) as (a & Ea & Ek & Ec).
      rewrite Eg, Hh, lookup_alter_eq, Ea. cbn. rewrite js_delete_set by eauto.
      destruct (atl_callbacks a) as [| c cs] eqn:Ecs; [done |]. cbn. split; [done |].
      intros k addr' Hk. destruct (decide (addr = addr')) as [<- |].
      + rewrite lookup_insert_eq, Ea, <- Ecs. by destruct a.
      + by rewrite lookup_insert_ne, lookup_alter_ne.
    - rewrite js_get_set_eq, Hh, lookup_insert_eq. cbn. rewrite decide_True by done. cbn.
      rewrite js_delete_set by done. split; [done |]. intros k addr' Hk.
      destruct (inv_entries _ Hi _ _ Hk) as (a & Ea & _).
      assert (l_nextAddr ld <> addr') as Hn.
      { intros <-. pose proof (inv_fresh _ Hi _ (mk_is_Some _ _ Ea)). lia. }
      by rewrite !lookup_insert_ne. }
  rewrite Hrh, Ha. split_and!; [done | | done].
  rewrite (inv_polling _ Hi2), (inv_polling _ Hi), Ha, Hacc. done.
Qed.

(** once [removeAccount] has returned, the callback is never called
    again, not even by the answer to a request already in flight, which still
    holds the account. *)
Theorem removed_callback_silent pk id ld bf addrs rpc :
  loader_inv ld ->
  (forall addr a, l_heap ld !! addr = Some a -> id ∈ (fst <$> atl_callbacks a) ->
    js_get pk (l_accountsToLoad ld) = Some addr) ->
  let ld1 := removeAccount pk id ld in
  exists evs, l_log (loadChunk bf addrs rpc ld1).1 = l_log ld1 ++ evs /\
    forall cb b, Notify id cb b ∉ evs.
Proof.
  intros Hi Hown. cbn zeta. destruct (loadChunk_log bf addrs rpc (removeAccount pk id ld))
    as (evs & He & Hin). exists evs. split; [done |]. intros cb b Hx.
  destruct (Hin _ _ _ Hx) as (addr & a & _ & Ha & Hc).
  rewrite (proj1 (removeAccount_heap pk id ld)) in Ha.
  destruct (detach_heap _ _ _ _ _ Hi Ha) as [Ha' | (a0 & Hg & Ha' & ->)].
  - assert (js_get pk (l_accountsToLoad ld) = Some addr) as Hg by eauto.
    unfold detach in Ha. rewrite Hg, Ha' in Ha. cbn in Ha. rewrite lookup_insert_eq in Ha.
    injection Ha as Ha. rewrite <- Ha in Hc. cbn in Hc.
    apply js_get_None in Hc; [done |]. apply js_get_delete_eq.
    eapply (inv_callbacks _ Hi). exact Ha'.
  - cbn in Hc. apply js_get_None in Hc; [done |]. apply js_get_delete_eq.
    by eapply (inv_callbacks _ Hi).
Qed.
End LoaderProperties.
