(* ===== verification/LoadSystem.v ===== *)
(** * Concurrent loads (BulkAccountLoader.load)

    [load] is asynchronous: between its start and its end the event loop runs
    other calls of the class.  The system state is the loader, the loads in
    flight and the promises created and resolved; a step is one turn of the
    event loop: a client call, the start of a load, one answer, or the end of a
    load.  Every interleaving is a list of actions.

    The promise a caller holds when it finds [loadPromise] set is that promise;
    the theorems say which of these are resolved. *)
From S2P Require Import Prelude JsMap Slots Loader LoaderSpec.

Inductive LoadStatus :=
  | Running               (** awaiting [Promise.all] *)
  | Failed (e : JsError)  (** a chunk rejected; the [catch] block is next *)
  | Finished              (** past [this.loadPromise = undefined] *)
  | Rejected.             (** an error callback threw in the [catch] block *)

(** A load in flight: the chunks whose answers are still to come. *)
Record Flight := mkFlight { fl_pending : list (list positive); fl_status : LoadStatus }.

Inductive LoaderCall (Callback : Type) :=
  | CallAdd (pk : PubKey) (cb : Callback) (id : string) (timer : nat)
  | CallRemove (pk : PubKey) (id : string)
  | CallAddError (cb : Callback) (id : string)
  | CallRemoveError (id : string).
Arguments CallAdd {Callback}.
Arguments CallRemove {Callback}.
Arguments CallAddError {Callback}.
Arguments CallRemoveError {Callback}.

Inductive Action (Callback : Type) :=
  | AClient (c : LoaderCall Callback)
  | ALoad
  | AAnswer (flight chunk : nat) (rpc : RpcResponse)
  | ASettle (flight : nat).
Arguments AClient {Callback}.
Arguments ALoad {Callback}.
Arguments AAnswer {Callback}.
Arguments ASettle {Callback}.

Record Sys (Callback : Type) := mkSys {
  s_loader : BulkAccountLoader Callback;
  s_flights : list Flight;
  s_nextPromise : nat;
  s_resolved : gset nat
}.
Arguments mkSys {Callback}.
Arguments s_loader {Callback}.
Arguments s_flights {Callback}.
Arguments s_nextPromise {Callback}.
Arguments s_resolved {Callback}.

Section LoadSystem.
Context {Callback : Type} {CB : Callbacks Callback}.
Variable Buffer_from : string -> string -> Buffer.
#[local] Abbreviation Loader := (BulkAccountLoader Callback).
#[local] Abbreviation System := (Sys Callback).
Implicit Types (s : System) (ld : Loader).

Definition initSys : System := mkSys newLoader [] 0 ∅.

Definition client (c : LoaderCall Callback) ld : Loader :=
  match c with
  | CallAdd pk cb id timer => (addAccount pk cb id timer ld).1
  | CallRemove pk id => removeAccount pk id ld
  | CallAddError cb id => (addErrorCallbacks cb id ld).1
  | CallRemoveError id => removeErrorCallbacks id ld
  end.

(** [load] up to its first [await]: a call that finds [loadPromise] set
    returns it; otherwise a new promise is installed and the chunks of the
    accounts registered now are requested. *)
Definition loadStart s : System :=
  let ld := s_loader s in
  match l_loadPromise ld with
  | Some _ => s
  | None =>
      let p := s_nextPromise s in
      mkSys (set_promise ld (Some p) (Some p))
        (s_flights s ++
           [mkFlight (chunks (snd <$> l_accountsToLoad ld) GET_MULTIPLE_ACCOUNTS_CHUNK_SIZE) Running])
        (Datatypes.S p) (s_resolved s)
  end.

(** The answer to one chunk. The first chunk that rejects makes [Promise.all]
    reject; the others go on. *)
Definition answer s (f chunk : nat) (rpc : RpcResponse) : option System :=
  fl ← s_flights s !! f;
  addrs ← fl_pending fl !! chunk;
  let '(ld', res) := loadChunk Buffer_from addrs rpc (s_loader s) in
  let status :=
    match res, fl_status fl with
    | Throw e, Running => Failed e
    | _, st => st
    end in
  Some (mkSys ld' (<[f := mkFlight (delete chunk (fl_pending fl)) status]> (s_flights s))
          (s_nextPromise s) (s_resolved s)).

(** [this.loadPromiseResolver(); this.loadPromise = undefined;] *)
Definition finish s (f : nat) ld : System :=
  mkSys (set_promise ld None (l_loadPromiseResolver ld))
    (alter (fun fl => mkFlight (fl_pending fl) Finished) f (s_flights s))
    (s_nextPromise s)
    (match l_loadPromiseResolver ld with Some p => {[p]} ∪ s_resolved s | None => s_resolved s end).

(** [load] after [Promise.all] has settled. *)
Definition settle s (f : nat) : option System :=
  fl ← s_flights s !! f;
  match fl_status fl with
  | Running =>
      match fl_pending fl with
      | [] => Some (finish s f (s_loader s))
      | _ => None
      end
  | Failed e =>
      let ld := s_loader s in
      match runErrorCallbacks (l_errorCallbacks ld) e ld with
      | (ld', Ok _) => Some (finish s f ld')
      | (ld', Throw _) =>
          Some (mkSys ld' (alter (fun fl => mkFlight (fl_pending fl) Rejected) f (s_flights s))
                  (s_nextPromise s) (s_resolved s))
      end
  | _ => None
  end.

Definition step s (a : Action Callback) : option System :=
  match a with
  | AClient c => Some (mkSys (client c (s_loader s)) (s_flights s) (s_nextPromise s) (s_resolved s))
  | ALoad => Some (loadStart s)
  | AAnswer f chunk rpc => answer s f chunk rpc
  | ASettle f => settle s f
  end.

Fixpoint run (acts : list (Action Callback)) s : option System :=
  match acts with
  | [] => Some s
  | a :: acts' => s' ← step s a; run acts' s'
  end.

(** A client adds no account while a load is in flight. *)
Definition calm s (a : Action Callback) : Prop :=
  match a with
  | AClient (CallAdd _ _ _ _) => l_loadPromise (s_loader s) = None
  | _ => True
  end.

(** No account is added at all. *)
Definition no_add (a : Action Callback) : Prop :=
  match a with AClient (CallAdd _ _ _ _) => False | _ => True end.

(** Every step of a run is calm. *)
Fixpoint calm_run (acts : list (Action Callback)) s : Prop :=
  match acts with
  | [] => True
  | a :: acts' => calm s a /\ match step s a with Some s' => calm_run acts' s' | None => True end
  end.

End LoadSystem.

(** ** What the steps do to the promises *)
Section LoadSystemFacts.
Context {Callback : Type} {CB : Callbacks Callback}.
Variable Buffer_from : string -> string -> Buffer.
#[local] Abbreviation Loader := (BulkAccountLoader Callback).
#[local] Abbreviation System := (Sys Callback).
Implicit Types (s : System) (ld : Loader).

Lemma client_promise c ld :
  l_loadPromiseResolver (client c ld) = l_loadPromiseResolver ld /\
  (l_loadPromise (client c ld) = l_loadPromise ld \/
   ~ no_add (AClient c) /\ l_loadPromise (client c ld) = None).
Proof.
  destruct c as [pk cb id timer | pk id | cb id | id]; cbn; [| | by auto | by auto].
  - unfold addAccount, startPolling. destruct (js_get _ _), (_ =? _)%nat; cbn;
      try (destruct (l_intervalId ld)); cbn; (split; [done | right; tauto]).
  - rewrite removeAccount_detach. unfold detach, stopPolling.
    split; [| left]; repeat (case_match; try done).
Qed.

Lemma answer_inv s f chunk rpc s' : answer Buffer_from s f chunk rpc = Some s' ->
  exists fl addrs st ld', s_flights s !! f = Some fl /\ fl_pending fl !! chunk = Some addrs /\
    ld' = (loadChunk Buffer_from addrs rpc (s_loader s)).1 /\
    same_registry (s_loader s) ld' /\
    (st = fl_status fl \/ fl_status fl = Running /\ exists e, st = Failed e) /\
    s' = mkSys ld' (<[f := mkFlight (delete chunk (fl_pending fl)) st]> (s_flights s))
           (s_nextPromise s) (s_resolved s).
Proof.
  unfold answer. destruct (s_flights s !! f) as [fl |] eqn:Ef; cbn; [| done].
  destruct (fl_pending fl !! chunk) as [addrs |] eqn:Ea; cbn; [| done].
  pose proof (loadChunk_registry Buffer_from addrs rpc (s_loader s)) as Hr.
  destruct (loadChunk _ addrs rpc (s_loader s)) as [ld' res] eqn:El. intros [= <-].
  do 4 eexists. rewrite El. split_and!; try done.
  destruct res; [by left |]. destruct (fl_status fl); eauto.
Qed.

Lemma settle_inv s f s' : settle s f = Some s' ->
  exists fl ld' st, s_flights s !! f = Some fl /\ fl_status fl <> Finished /\
    fl_status fl <> Rejected /\ same_registry (s_loader s) ld' /\
    (s' = finish s f ld' \/
     (exists e e', fl_status fl = Failed e /\
       runErrorCallbacks (l_errorCallbacks (s_loader s)) e (s_loader s) = (ld', Throw e')) /\
     st = Rejected /\
     s' = mkSys ld' (alter (fun fl => mkFlight (fl_pending fl) st) f (s_flights s))
            (s_nextPromise s) (s_resolved s)).
Proof.
  unfold settle. destruct (s_flights s !! f) as [fl |] eqn:Ef; cbn; [| done].
  destruct (fl_status fl) as [| e | |] eqn:Es; [| | done | done].
  - destruct (fl_pending fl); [| done]. intros [= <-].
    exists fl, (s_loader s), Running. rewrite Es. split_and!; try done. by left.
  - pose proof (runErrorCallbacks_registry (l_errorCallbacks (s_loader s)) e (s_loader s)) as Hr.
    destruct (runErrorCallbacks _ e (s_loader s)) as [ld' [|]] eqn:Er; cbn in Hr; intros [= <-];
      exists fl, ld', Rejected; rewrite Es; split_and!; try done; [by left | right].
    split_and!; eauto.
Qed.

(** Rule induction over a run, for an invariant the actions of a class keep. *)
Lemma run_invariant (P : System -> Prop) (ok : Action Callback -> Prop) :
  (forall s a s', ok a -> P s -> step Buffer_from s a = Some s' -> P s') ->
  forall acts s s', Forall ok acts -> P s -> run Buffer_from acts s = Some s' -> P s'.
Proof.
  intros Hstep acts. induction acts as [| a acts IH]; intros s s' Hok HP; cbn.
  - by intros [= <-].
  - apply Forall_cons in Hok as [Ha Hok].
    destruct (step Buffer_from s a) as [s1 |] eqn:Es; cbn; [| done]. eauto.
Qed.

(** *** What awaiting a load may do to the loader

    Loads start, their chunks are answered and they end, in any interleaving; clients call
    nothing. *)
Definition no_client (a : Action Callback) : Prop := match a with AClient _ => False | _ => True end.
Definition loads ld ld' : Prop :=
  exists acts s s', Forall no_client acts /\ s_loader s = ld /\ run Buffer_from acts s = Some s' /\
    s_loader s' = ld'.

Lemma step_keeps_accounts s a s' : no_client a -> step Buffer_from s a = Some s' ->
  same_accounts (s_loader s) (s_loader s').
Proof.
  intros Ha Hs. destruct a as [c | | f chunk rpc | f]; cbn in Hs; [done | | |].
  - injection Hs as <-. unfold loadStart. by destruct (l_loadPromise (s_loader s)).
  - apply answer_inv in Hs as (fl & addrs & st & ld' & _ & _ & _ & Hr & _ & ->).
    by apply same_registry_accounts.
  - apply settle_inv in Hs as (fl & ld' & st & _ & _ & _ & Hr & [-> | (_ & _ & ->)]);
      [etrans; [by apply same_registry_accounts | done] | by apply same_registry_accounts].
Qed.

(** They leave the accounts, the callbacks and the timer as they were. *)
Lemma loads_keep_accounts ld ld' : loads ld ld' -> same_accounts ld ld'.
Proof.
  intros (acts & s & s' & Ha & <- & Hrun & <-).
  apply (run_invariant (fun x => same_accounts (s_loader s) (s_loader x)) no_client) with acts s; try done.
  intros x a x' Hok Hx Hs. etrans; [exact Hx | by eapply step_keeps_accounts].
Qed.

(** The promise in [loadPromise] is the one its resolver resolves. *)
Definition promise_inv s : Prop :=
  (forall p, l_loadPromise (s_loader s) = Some p ->
    l_loadPromiseResolver (s_loader s) = Some p) /\
  (forall p, l_loadPromiseResolver (s_loader s) = Some p -> (p < s_nextPromise s)%nat) /\
  (forall p, p ∈ s_resolved s -> (p < s_nextPromise s)%nat).

Lemma loadStart_cases s :
  (exists p, l_loadPromise (s_loader s) = Some p /\ loadStart s = s) \/
  l_loadPromise (s_loader s) = None /\
  l_loadPromise (s_loader (loadStart s)) = Some (s_nextPromise s) /\
  l_loadPromiseResolver (s_loader (loadStart s)) = Some (s_nextPromise s) /\
  s_nextPromise (loadStart s) = Datatypes.S (s_nextPromise s) /\
  s_resolved (loadStart s) = s_resolved s /\
  exists chs, s_flights (loadStart s) = s_flights s ++ [mkFlight chs Running].
Proof.
  unfold loadStart. destruct (l_loadPromise (s_loader s)) as [p |] eqn:E.
  - left. by exists p.
  - right. cbn. split_and!; eauto.
Qed.

Lemma finish_resolved s f ld p :
  p ∈ s_resolved (finish s f ld) <-> l_loadPromiseResolver ld = Some p \/ p ∈ s_resolved s.
Proof.
  unfold finish. cbn. destruct (l_loadPromiseResolver ld) as [q |].
  - rewrite elem_of_union, elem_of_singleton. split; (intros [Hx | Hx]; [left | right]; congruence).
  - split; [by right | by intros [? | ?]].
Qed.

Lemma step_promise_inv s a s' :
  promise_inv s -> step Buffer_from s a = Some s' -> promise_inv s'.
Proof.
  intros (H1 & H2 & H3) Hs. destruct a as [c | | f chunk rpc | f]; cbn in Hs.
  - injection Hs as <-. destruct (client_promise c (s_loader s)) as [Hr [Hp | [_ Hp]]];
      unfold promise_inv; cbn; rewrite Hr, Hp; split_and!; auto; congruence.
  - injection Hs as <-. destruct (loadStart_cases s) as [(p & _ & ->) | (_ & Hp & Hr & Hn & Hd & _)];
      [done |]. unfold promise_inv. rewrite Hp, Hr, Hn, Hd. split_and!; [congruence | |].
    + intros p [= <-]. lia.
    + intros p Hin. specialize (H3 _ Hin). lia.
  - apply answer_inv in Hs as (fl & addrs & st & ld' & _ & _ & _ & Hr & _ & ->).
    destruct Hr as (_ & _ & _ & _ & _ & Hp & Hq). unfold promise_inv. cbn. rewrite Hp, Hq.
    by split_and!.
  - apply settle_inv in Hs as (fl & ld' & st & _ & _ & _ & Hr & Hcase).
    destruct Hr as (_ & _ & _ & _ & _ & Hp & Hq).
    destruct Hcase as [-> | (_ & _ & ->)]; unfold promise_inv.
    + split_and!; cbn [finish s_loader set_promise l_loadPromise]; [done | |].
      * cbn. rewrite Hq. auto.
      * intros p. rewrite finish_resolved, Hq. cbn. intros [Hx | Hx]; auto.
    + cbn. rewrite Hp, Hq. by split_and!.
Qed.

Lemma run_promise_inv acts s s' :
  promise_inv s -> run Buffer_from acts s = Some s' -> promise_inv s'.
Proof.
  apply (run_invariant promise_inv (fun _ => True)); [eauto using step_promise_inv |].
  by apply Forall_true.
Qed.

Lemma initSys_promise_inv : promise_inv initSys.
Proof. split_and!; cbn; [done | done |]. intros p Hp. by apply not_elem_of_empty in Hp. Qed.

(** A promise the resolver no longer refers to. *)
Definition orphan (p : nat) s : Prop :=
  ~ (p ∈ s_resolved s) /\ (p < s_nextPromise s)%nat /\ l_loadPromiseResolver (s_loader s) <> Some p.

Lemma step_orphan p s a s' : orphan p s -> step Buffer_from s a = Some s' -> orphan p s'.
Proof.
  intros (H1 & H2 & H3) Hs. destruct a as [c | | f chunk rpc | f]; cbn in Hs.
  - injection Hs as <-. destruct (client_promise c (s_loader s)) as [Hr _].
    unfold orphan. cbn. by rewrite Hr.
  - injection Hs as <-. destruct (loadStart_cases s) as [(q & _ & ->) | (_ & Hp & Hr & Hn & Hd & _)];
      [done |]. unfold orphan. rewrite Hr, Hn, Hd. split_and!; [done | lia |].
    intros [= Heq]. lia.
  - apply answer_inv in Hs as (fl & addrs & st & ld' & _ & _ & _ & Hr & _ & ->).
    destruct Hr as (_ & _ & _ & _ & _ & Hp & Hq). unfold orphan. cbn. by rewrite Hq.
  - apply settle_inv in Hs as (fl & ld' & st & _ & _ & _ & Hr & Hcase).
    destruct Hr as (_ & _ & _ & _ & _ & Hp & Hq).
    destruct Hcase as [-> | (_ & _ & ->)]; unfold orphan.
    + rewrite finish_resolved. cbn. rewrite Hq. split_and!; [tauto | done | done].
    + cbn. by rewrite Hq.
Qed.

(** ** Calm runs: one load at a time *)
Definition done_flag (fl : Flight) : bool :=
  match fl_status fl with Finished => true | _ => false end.

Definition is_load (p : option nat) : list bool := match p with Some _ => [false] | None => [] end.

(** Every promise is resolved or is the current one; exactly the last load is
    unfinished, and only while [loadPromise] is set. *)
Definition calm_inv s : Prop :=
  promise_inv s /\
  (forall p, (p < s_nextPromise s)%nat ->
    p ∈ s_resolved s \/ l_loadPromise (s_loader s) = Some p) /\
  (forall p, l_loadPromise (s_loader s) = Some p -> p ∉ s_resolved s) /\
  exists n, done_flag <$> s_flights s = replicate n true ++ is_load (l_loadPromise (s_loader s)).

Lemma calm_inv_live s f fl :
  calm_inv s -> s_flights s !! f = Some fl -> fl_status fl <> Finished ->
  exists p n, l_loadPromise (s_loader s) = Some p /\ f = n /\
    done_flag <$> s_flights s = replicate n true ++ [false].
Proof.
  intros (_ & _ & _ & n & Hn) Hf Hst.
  assert ((done_flag <$> s_flights s) !! f = Some false) as Hb.
  { rewrite list_lookup_fmap, Hf. cbn. unfold done_flag. by destruct (fl_status fl). }
  rewrite Hn in Hb.
  destruct (decide (f < n)%nat) as [Hlt | Hge].
  - rewrite lookup_app_l in Hb by (rewrite length_replicate; lia).
    apply lookup_replicate in Hb as [? _]. done.
  - rewrite lookup_app_r, length_replicate in Hb by (rewrite length_replicate; lia).
    destruct (l_loadPromise (s_loader s)) as [p |]; cbn in Hb; [| done].
    exists p, n. split_and!; [done | | done].
    destruct (f - n)%nat as [| k] eqn:Ek; [lia | done].
Qed.

Lemma done_flag_insert f fl fl' (fls : list Flight) :
  fls !! f = Some fl -> done_flag fl' = done_flag fl ->
  done_flag <$> <[f := fl']> fls = done_flag <$> fls.
Proof.
  intros Hf Hd. rewrite list_fmap_insert, Hd, list_insert_id; [done |].
  by rewrite list_lookup_fmap, Hf.
Qed.

Lemma done_flag_answer st fl chs : st = fl_status fl \/ fl_status fl = Running /\ (exists e, st = Failed e) ->
  done_flag (mkFlight chs st) = done_flag fl.
Proof. unfold done_flag. cbn. intros [-> | [-> [e ->]]]; done. Qed.

Lemma done_flag_last st n (fls : list Flight) :
  done_flag <$> fls = replicate n true ++ [false] ->
  done_flag <$> alter (fun fl => mkFlight (fl_pending fl) st) n fls =
  replicate n true ++ [match st with Finished => true | _ => false end].
Proof.
  intros Hn. apply list_eq. intros i. rewrite list_lookup_fmap.
  destruct (decide (i = n)) as [-> | Hne].
  - rewrite list_lookup_alter_eq. assert ((done_flag <$> fls) !! n = Some false) as Hb.
    { rewrite Hn, lookup_app_r, length_replicate, Nat.sub_diag by (rewrite length_replicate; lia). done. }
    rewrite list_lookup_fmap in Hb. destruct (fls !! n); [| done]. cbn.
    rewrite lookup_app_r, length_replicate, Nat.sub_diag by (rewrite length_replicate; lia). done.
  - rewrite list_lookup_alter_ne, <- list_lookup_fmap, Hn by done.
    destruct (decide (i < n)%nat).
    + rewrite !lookup_app_l by (rewrite length_replicate; lia). done.
    + rewrite !lookup_app_r, length_replicate by (rewrite length_replicate; lia).
      destruct (i - n)%nat eqn:Ei; [lia | done].
Qed.

Lemma step_calm_inv s a s' :
  calm s a -> calm_inv s -> step Buffer_from s a = Some s' -> calm_inv s'.
Proof.
  intros Hc Hi Hs. pose proof Hi as (Hp & Hall & Hcur & n & Hn).
  pose proof (step_promise_inv s a s' Hp Hs) as Hp'. pose proof Hp as (H1 & H2 & H3).
  split; [exact Hp' |].
  destruct a as [c | | f chunk rpc | f]; cbn in Hs.
  - injection Hs as <-. assert (l_loadPromise (client c (s_loader s)) = l_loadPromise (s_loader s)) as He.
    { destruct (client_promise c (s_loader s)) as [_ [He | [Hna He]]]; [done |].
      destruct c; cbn in Hna, Hc; try (by destruct Hna). by rewrite Hc. }
    cbn. rewrite He. split_and!; eauto.
  - injection Hs as <-. destruct (loadStart_cases s) as [(q & _ & ->) | (Hq & Hq' & Hr & Hnx & Hd & chs & Hf)];
      [split_and!; eauto |].
    rewrite Hq', Hnx, Hd, Hf. rewrite Hq in *. split_and!.
    + intros p Hlt. destruct (decide (p = s_nextPromise s)) as [-> |]; [by right |].
      destruct (Hall p) as [? | ?]; [lia | by left | done].
    + intros p [= <-] Hin. specialize (H3 _ Hin). lia.
    + exists n. rewrite fmap_app, Hn. cbn. by rewrite app_nil_r.
  - apply answer_inv in Hs as (fl & addrs & st & ld' & Hf & _ & _ & Hr & Hst & ->).
    destruct Hr as (_ & _ & _ & _ & _ & Hpr & _). cbn. rewrite Hpr. split_and!; [done | done |].
    exists n. rewrite (done_flag_insert f fl) by eauto using done_flag_answer. done.
  - apply settle_inv in Hs as (fl & ld' & st & Hf & Hnf & Hnr & Hr & Hcase).
    destruct (calm_inv_live s f fl Hi Hf Hnf) as (p & m & Hpr & -> & Hm).
    destruct Hr as (_ & _ & _ & _ & _ & Hpr' & Hrr). destruct Hcase as [-> | (_ & -> & ->)].
    + split_and!.
      * intros q Hlt. left. apply finish_resolved. rewrite Hrr.
        destruct (Hall q Hlt) as [? | Hq]; [by right | left; auto].
      * done.
      * exists (Datatypes.S m). cbn. rewrite (done_flag_last Finished m) by done.
        rewrite app_nil_r. symmetry. apply (replicate_S_end m true).
    + cbn. rewrite Hpr'. split_and!; [done | done |]. exists m. rewrite Hpr.
      by rewrite (done_flag_last Rejected m).
Qed.

Lemma initSys_calm_inv : calm_inv initSys.
Proof.
  split; [apply initSys_promise_inv |]. cbn. split_and!; [lia | done |]. by exists 0%nat.
Qed.

Lemma run_calm_inv acts s s' :
  calm_run Buffer_from acts s -> calm_inv s -> run Buffer_from acts s = Some s' -> calm_inv s'.
Proof.
  revert s. induction acts as [| a acts IH]; intros s; cbn; [by intros _ ? [= <-] |].
  destruct (step Buffer_from s a) as [s1 |] eqn:Es; cbn; [| done].
  intros [Ha Hc] Hi. eauto using step_calm_inv.
Qed.

(** ** A load whose error callbacks do not throw ends *)
Definition quiet_errors : Prop := forall (cb : Callback) e, ecb_run cb e = None.

Definition no_rejected s : Prop := Forall (fun fl => fl_status fl <> Rejected) (s_flights s).

Lemma step_no_rejected s a s' : quiet_errors ->
  no_rejected s -> step Buffer_from s a = Some s' -> no_rejected s'.
Proof.
  intros Hq Hi Hs. unfold no_rejected in *. destruct a as [c | | f chunk rpc | f]; cbn in Hs.
  - by injection Hs as <-.
  - injection Hs as <-. unfold loadStart. destruct (l_loadPromise (s_loader s)); [done |]. cbn.
    apply Forall_app. split; [done |]. by apply Forall_singleton.
  - apply answer_inv in Hs as (fl & addrs & st & ld' & Hf & _ & _ & _ & Hst & ->). cbn.
    apply Forall_insert; [done |]. cbn. pose proof (Forall_lookup_1 _ _ _ _ Hi Hf).
    destruct Hst as [-> | [_ [e ->]]]; done.
  - apply settle_inv in Hs as (fl & ld' & st & Hf & _ & _ & _ & Hcase).
    destruct Hcase as [-> | ((e & e' & _ & Hr) & _ & ->)].
    + cbn. apply Forall_alter; done.
    + exfalso. destruct (runErrorCallbacks_quiet (l_errorCallbacks (s_loader s)) e (s_loader s) Hq) as [He _].
      rewrite Hr in He. done.
Qed.

Lemma settle_finishes s f fl : quiet_errors ->
  s_flights s !! f = Some fl -> fl_pending fl = [] ->
  fl_status fl <> Finished -> fl_status fl <> Rejected ->
  exists ld', settle s f = Some (finish s f ld') /\ same_registry (s_loader s) ld'.
Proof.
  intros Hq Hf Hp H1 H2. unfold settle. rewrite Hf. cbn.
  destruct (fl_status fl) as [| e | |]; [| | done | done].
  - rewrite Hp. by exists (s_loader s).
  - pose proof (runErrorCallbacks_registry (l_errorCallbacks (s_loader s)) e (s_loader s)) as Hr.
    destruct (runErrorCallbacks_quiet (l_errorCallbacks (s_loader s)) e (s_loader s) Hq) as [He _].
    destruct (runErrorCallbacks _ e _) as [ld' [[] |]]; cbn in *; [| done]. by exists ld'.
Qed.

(** Answering the pending chunks, first to last, then settling. *)
Lemma answers_then_settle rpcs s f fl : quiet_errors ->
  s_flights s !! f = Some fl -> length rpcs = length (fl_pending fl) ->
  fl_status fl <> Finished -> fl_status fl <> Rejected ->
  exists s1 ld', run Buffer_from (((fun r => AAnswer f 0 r) <$> rpcs) ++ [ASettle f]) s =
    Some (finish s1 f ld') /\
    s_resolved s1 = s_resolved s /\ l_loadPromiseResolver ld' = l_loadPromiseResolver (s_loader s).
Proof.
  intros Hq. revert s fl. induction rpcs as [| r rpcs IH]; intros s fl Hf Hlen H1 H2; cbn in Hlen.
  - symmetry in Hlen. apply length_zero_iff_nil in Hlen.
    destruct (settle_finishes s f fl) as (ld' & Hs & Hr); try done.
    exists s, ld'. cbn. rewrite Hs. cbn. split_and!; [done | done | apply Hr].
  - destruct (fl_pending fl) as [| addrs chs] eqn:Ep; [done |]. injection Hlen as Hlen.
    cbn [fmap list_fmap app run step].
    destruct (answer Buffer_from s f 0 r) as [s1 |] eqn:Ea.
    + apply answer_inv in Ea as (fl0 & addrs0 & st & ld' & Hf0 & Ha & _ & Hr & Hst & ->).
      rewrite Hf in Hf0. injection Hf0 as <-. cbn [mbind option_bind].
      destruct (IH (mkSys ld' (<[f := mkFlight (delete 0%nat (fl_pending fl)) st]> (s_flights s))
           (s_nextPromise s) (s_resolved s)) (mkFlight (delete 0%nat (fl_pending fl)) st))
        as (s2 & ld2 & H3 & H4 & H5); cbn.
      * apply list_lookup_insert_eq. by eapply lookup_lt_Some.
      * by rewrite Ep.
      * destruct Hst as [-> | [_ [e ->]]]; done.
      * destruct Hst as [-> | [_ [e ->]]]; done.
      * exists s2, ld2. split_and!; [exact H3 | done |]. rewrite H5. apply Hr.
    + exfalso. unfold answer in Ea. rewrite Hf in Ea. cbn in Ea. rewrite Ep in Ea. cbn in Ea.
      by destruct (loadChunk _ _ _ _).
Qed.

(** ** A load that was rejected *)
Definition dead (p n : nat) s : Prop :=
  l_loadPromise (s_loader s) = Some p /\ ~ (p ∈ s_resolved s) /\ length (s_flights s) = n /\
  Forall (fun fl => fl_status fl = Finished \/ fl_status fl = Rejected) (s_flights s).

Lemma step_dead p n s a s' :
  no_add a -> dead p n s -> step Buffer_from s a = Some s' -> dead p n s'.
Proof.
  intros Hok (H1 & H2 & H3 & H4) Hs. destruct a as [c | | g chunk rpc | g]; cbn in Hs.
  - injection Hs as <-. destruct (client_promise c (s_loader s)) as [_ [Hpc | [Hpc _]]]; [| done].
      unfold dead. cbn. by rewrite Hpc.
  - injection Hs as <-. destruct (loadStart_cases s) as [(? & _ & ->) | (Hx & _)]; [done | congruence].
  - apply answer_inv in Hs as (fl & addrs & st & ld' & Hf & _ & _ & Hr & Hst & ->).
      destruct Hr as (_ & _ & _ & _ & _ & Hpr & _). unfold dead. cbn.
      rewrite Hpr, length_insert. split_and!; [done | done | done |].
      apply Forall_insert; [done |]. cbn. pose proof (Forall_lookup_1 _ _ _ _ H4 Hf) as Hd.
      cbn in Hd. destruct Hst as [-> | [Hx _]]; [done |]. rewrite Hx in Hd. by destruct Hd.
  - apply settle_inv in Hs as (fl & ld' & st & Hf & Hn1 & Hn2 & _).
    by destruct (Forall_lookup_1 _ _ _ _ H4 Hf).
Qed.
End LoadSystemFacts.

(** ** Properties *)
Section LoadProperties.
Context {Callback : Type} {CB : Callbacks Callback}.
Variable Buffer_from : string -> string -> Buffer.
#[local] Abbreviation System := (Sys Callback).
Implicit Types (s : System).

(** when no account is added while a load is in flight, at most one load
    is in flight, every promise [load] ever handed out is either resolved or
    the one [loadPromise] holds now, and a set [loadPromise] is not resolved
    yet. *)
Theorem calm_promises_accounted acts s :
  calm_run Buffer_from acts initSys -> run Buffer_from acts initSys = Some s ->
  (forall p, (p < s_nextPromise s)%nat ->
    p ∈ s_resolved s \/ l_loadPromise (s_loader s) = Some p) /\
  (forall p, l_loadPromise (s_loader s) = Some p -> p ∉ s_resolved s) /\
  exists n, done_flag <$> s_flights s =
    replicate n true ++ is_load (l_loadPromise (s_loader s)).
Proof.
  intros Hc Hr. pose proof (run_calm_inv Buffer_from acts _ _ Hc initSys_calm_inv Hr) as Hi.
  destruct Hi as (_ & H1 & H2 & H3). by split_and!.
Qed.

(** C14: in such a run, if error callbacks do not throw, the load behind
    [loadPromise] ends whatever the answers are: once each pending chunk has
    been answered and the load settles, the promise is resolved and the next
    [load] starts afresh. *)
Theorem load_completes acts s p :
  quiet_errors -> calm_run Buffer_from acts initSys ->
  run Buffer_from acts initSys = Some s -> l_loadPromise (s_loader s) = Some p ->
  exists f fl, s_flights s !! f = Some fl /\
    forall rpcs, length rpcs = length (fl_pending fl) ->
      exists s', run Buffer_from (((fun r => AAnswer f 0 r) <$> rpcs) ++ [ASettle f]) s = Some s' /\
        p ∈ s_resolved s' /\ l_loadPromise (s_loader s') = None.
Proof.
  intros Hq Hc Hr Hp.
  pose proof (run_calm_inv Buffer_from acts _ _ Hc initSys_calm_inv Hr) as ((Hpr & _) & _ & _ & n & Hn).
  assert (no_rejected s) as Hnr.
  { apply (run_invariant Buffer_from no_rejected (fun _ => True)
      (fun s a s' _ Hi Hs => step_no_rejected Buffer_from s a s' Hq Hi Hs) acts initSys s);
      [by apply Forall_true | by apply Forall_nil | done]. }
  rewrite Hp in Hn. cbn in Hn.
  assert ((done_flag <$> s_flights s) !! n = Some false) as Hb.
  { rewrite Hn, lookup_app_r, length_replicate, Nat.sub_diag by (rewrite length_replicate; lia). done. }
  rewrite list_lookup_fmap in Hb. destruct (s_flights s !! n) as [fl |] eqn:Ef; [| done].
  exists n, fl. split; [done |]. intros rpcs Hlen.
  destruct (answers_then_settle Buffer_from rpcs s n fl Hq Ef Hlen) as (s1 & ld' & H1 & H2 & H3).
  { intros Hx. cbn in Hb. unfold done_flag in Hb. by rewrite Hx in Hb. }
  { by apply (Forall_lookup_1 _ _ _ _ Hnr Ef). }
  exists (finish s1 n ld'). split_and!; [done | | done].
  apply finish_resolved. left. rewrite H3. by apply Hpr.
Qed.

(** adding an account during a load and loading again strands the first
    promise: its resolver has been replaced, and in no continuation at all is
    it resolved, so a caller that joined the first load waits for ever. *)
Theorem replaced_promise_never_resolves acts s p c acts' s' :
  run Buffer_from acts initSys = Some s ->
  l_loadPromise (s_loader s) = Some p -> ~ (p ∈ s_resolved s) -> ~ no_add (AClient c) ->
  run Buffer_from (AClient c :: ALoad :: acts') s = Some s' ->
  p ∉ s_resolved s'.
Proof.
  intros Hr Hp Hnr Hna. cbn. intros Hrun.
  pose proof (run_promise_inv Buffer_from acts _ _ initSys_promise_inv Hr) as (H1 & H2 & _).
  match type of Hrun with run _ _ ?x = _ => set (s2 := x) in * end.
  assert (orphan p s2) as Ho.
  { pose proof (H2 _ (H1 _ Hp)). unfold s2, loadStart. cbn.
    assert (l_loadPromise (client c (s_loader s)) = None) as ->.
    { destruct c; cbn in Hna; try (by destruct Hna); done. }
    unfold orphan. cbn. split_and!; [done | lia |]. intros [= Heq]. lia. }
  enough (orphan p s') as (Hx & _) by exact Hx.
  apply (run_invariant Buffer_from (orphan p) (fun _ => True)
    (fun s a s' _ Hi Hs => step_orphan Buffer_from p s a s' Hi Hs) acts' s2 s');
    [by apply Forall_true | exact Ho | exact Hrun].
Qed.

(** if an error callback throws while a failed load is being reported,
    the load ends without resolving its promise or clearing [loadPromise]:
    until an account is added, every later [load] joins the dead promise, so
    no request is ever sent again although the timer still runs. *)
Theorem throwing_error_callback_wedges acts s f fl e ld' e' s1 acts' s' p :
  calm_run Buffer_from acts initSys -> run Buffer_from acts initSys = Some s ->
  s_flights s !! f = Some fl -> fl_status fl = Failed e ->
  runErrorCallbacks (l_errorCallbacks (s_loader s)) e (s_loader s) = (ld', Throw e') ->
  l_loadPromise (s_loader s) = Some p ->
  step Buffer_from s (ASettle f) = Some s1 ->
  Forall no_add acts' -> run Buffer_from acts' s1 = Some s' ->
  l_loadPromise (s_loader s') = Some p /\ ~ (p ∈ s_resolved s') /\
  length (s_flights s') = length (s_flights s).
Proof.
  intros Hc Hr Hf Hst He Hp Hs Hna Hrun.
  pose proof (run_calm_inv Buffer_from acts _ _ Hc initSys_calm_inv Hr) as Hi.
  destruct (calm_inv_live s f fl Hi Hf ltac:(by rewrite Hst)) as (q & n & Hq & -> & Hn).
  destruct Hi as (_ & _ & Hcur & _).
  cbn in Hs. unfold settle in Hs. rewrite Hf in Hs. cbn in Hs. rewrite Hst, He in Hs.
  injection Hs as <-.
  pose proof (runErrorCallbacks_registry (l_errorCallbacks (s_loader s)) e (s_loader s))
    as (_ & _ & _ & _ & _ & Hpr & _). rewrite He in Hpr. cbn in Hpr.
  enough (dead p (length (s_flights s)) s') as (? & ? & ? & _) by done.
  refine (run_invariant Buffer_from (dead p (length (s_flights s))) no_add _ acts' _ s' Hna _ Hrun).
  - intros. by eapply step_dead.
  - unfold dead. cbn. rewrite Hpr, length_alter. split_and!; [congruence | by apply Hcur | done |].
    apply Forall_lookup. intros i fl' Hi. destruct (decide (i = n)) as [-> |].
    + rewrite list_lookup_alter_eq in Hi. apply fmap_Some in Hi as (? & _ & ->). by right.
    + rewrite list_lookup_alter_ne in Hi by done. left.
      assert ((done_flag <$> s_flights s) !! i = Some (done_flag fl')) as Hd
        by (by rewrite list_lookup_fmap, Hi).
      rewrite Hn in Hd. unfold done_flag in Hd. destruct (decide (i < n)%nat).
      * rewrite lookup_app_l in Hd by (rewrite length_replicate; lia).
        apply lookup_replicate in Hd as [Hd _]. by destruct (fl_status fl').
      * rewrite lookup_app_r, length_replicate in Hd by (rewrite length_replicate; lia).
        destruct (i - n)%nat eqn:En; [lia | done].
Qed.
End LoadProperties.
