(* ===== verification/WebSocket.v ===== *)
(** * The websocket account subscriber (accounts/webSocketAccountSubscriber.ts)

    Keeps one account up to date from a first fetch and the notifications of a
    websocket listener.  [subscribe] awaits the fetch between its guard and the
    registration of the listener, so the system below has one step for each half
    and every interleaving of calls is a list of actions.

    The connection's registered listeners are part of the state; the identifiers
    it hands out, the answers and the decoding of a buffer
    ([coder.accounts.decode] with the capitalised account name) are arguments. *)
From S2P Require Import Prelude Slots.

(** What the subscriber needs of its environment: the coder of the account and
    the [onChange] functions of its clients. *)
Class Coder (T H : Type) := {
  decode : Buffer -> result T;
  onChange_run : H -> T -> option JsError
}.

(** The fields of the class. *)
Record WebSocketAccountSubscriber (T H : Type) := mkWs {
  ws_data : option T;
  ws_accountData : option AccountData;
  ws_onChange : option H;
  ws_listenerId : option nat
}.
Arguments mkWs {T H}.
Arguments ws_data {T H}.
Arguments ws_accountData {T H}.
Arguments ws_onChange {T H}.
Arguments ws_listenerId {T H}.

(** The subscriber, the [subscribe] calls awaiting their fetch, the listeners
    the connection serves and the [onChange] calls made. *)
Record WsSys (T H : Type) := mkWsSys {
  sys_ws : WebSocketAccountSubscriber T H;
  sys_pending : nat;
  sys_listeners : gset nat;
  sys_calls : list (H * T)
}.
Arguments mkWsSys {T H}.
Arguments sys_ws {T H}.
Arguments sys_pending {T H}.
Arguments sys_listeners {T H}.
Arguments sys_calls {T H}.

(** An answer: the slot of its context and the account's data, if it exists. *)
Definition WsResponse := (Z * option Buffer)%type.

Inductive WsAction (H : Type) :=
  | WSubscribe (h : H)
  | WFetched (r : result WsResponse) (listener : nat)
  | WFetch (r : result WsResponse)
  | WNotify (listener : nat) (r : WsResponse)
  | WUnsubscribe.
Arguments WSubscribe {H}.
Arguments WFetched {H}.
Arguments WFetch {H}.
Arguments WNotify {H}.
Arguments WUnsubscribe {H}.

Section WebSocket.
Context {T H : Type} {C : Coder T H}.
#[local] Abbreviation Ws := (WebSocketAccountSubscriber T H).
#[local] Abbreviation System := (WsSys T H).
Implicit Types (w : Ws) (s : System).

(** The constructor. *)
Definition newWs : Ws := mkWs None None None None.
Definition initWs : System := mkWsSys newWs 0 ∅ [].

(** [if (this.listenerId)]: a number that is not 0. *)
Definition listening w : bool :=
  match ws_listenerId w with Some (Datatypes.S _) => true | _ => false end.

(** [this.data = decode(newBuffer); this.onChange(this.data);] *)
Definition deliver (d : AccountData) (nb : Buffer) s : System * result unit :=
  let w := sys_ws s in
  let stored := mkWs (ws_data w) (Some d) (ws_onChange w) (ws_listenerId w) in
  match decode nb with
  | Throw e => (mkWsSys stored (sys_pending s) (sys_listeners s) (sys_calls s), Throw e)
  | Ok data =>
      let w' := mkWs (Some data) (Some d) (ws_onChange w) (ws_listenerId w) in
      match ws_onChange w with
      | None => (mkWsSys w' (sys_pending s) (sys_listeners s) (sys_calls s), Throw TypeError)
      | Some h =>
          (mkWsSys w' (sys_pending s) (sys_listeners s) (sys_calls s ++ [(h, data)]),
           match onChange_run h data with Some e => Throw e | None => Ok tt end)
      end
  end.

(** [handleRpcResponse] *)
Definition handleRpcResponse (r : WsResponse) s : System * result unit :=
  let '(newSlot, newBuffer) := r in
  let w := sys_ws s in
  match ws_accountData w with
  | None =>
      let d := mkAccountData newSlot newBuffer in
      match newBuffer with
      | None =>
          (mkWsSys (mkWs (ws_data w) (Some d) (ws_onChange w) (ws_listenerId w))
             (sys_pending s) (sys_listeners s) (sys_calls s), Ok tt)
      | Some nb => deliver d nb s
      end
  | Some old =>
      if newSlot <=? ad_slot old then (s, Ok tt)
      else
        match newBuffer with
        | None => (s, Ok tt)
        | Some nb =>
            if match ad_buffer old with
               | None => true
               | Some ob => negb (bool_decide (nb = ob))
               end
            then deliver (mkAccountData newSlot newBuffer) nb s
            else (s, Ok tt)
        end
  end.

(** [fetch], given the answer of [getAccountInfoAndContext] *)
Definition wsFetch (r : result WsResponse) s : System * result unit :=
  match r with Throw e => (s, Throw e) | Ok r' => handleRpcResponse r' s end.

(** [subscribe] up to [await this.fetch()] *)
Definition subscribeStart (h : H) s : System :=
  let w := sys_ws s in
  if listening w then s
  else mkWsSys (mkWs (ws_data w) (ws_accountData w) (Some h) (ws_listenerId w))
         (Datatypes.S (sys_pending s)) (sys_listeners s) (sys_calls s).

(** The rest of a [subscribe] call, once its fetch is answered; [listener] is
    what [onAccountChange] returns. *)
Definition subscribeFetched (r : result WsResponse) (listener : nat) s : option System :=
  match sys_pending s with
  | O => None
  | Datatypes.S n =>
      match wsFetch r s with
      | (s', Throw _) => Some (mkWsSys (sys_ws s') n (sys_listeners s') (sys_calls s'))
      | (s', Ok _) =>
          let w := sys_ws s' in
          Some (mkWsSys (mkWs (ws_data w) (ws_accountData w) (ws_onChange w) (Some listener))
                  n ({[listener]} ∪ sys_listeners s') (sys_calls s'))
      end
  end.

(** [unsubscribe] *)
Definition wsUnsubscribe s : System :=
  let w := sys_ws s in
  match ws_listenerId w with
  | Some (Datatypes.S _ as id) =>
      mkWsSys (mkWs (ws_data w) (ws_accountData w) (ws_onChange w) None)
        (sys_pending s) (sys_listeners s ∖ {[id]}) (sys_calls s)
  | _ => s
  end.

Definition wsStep s (a : WsAction H) : option System :=
  match a with
  | WSubscribe h => Some (subscribeStart h s)
  | WFetched r listener => subscribeFetched r listener s
  | WFetch r => Some (wsFetch r s).1
  | WNotify listener r =>
      if decide (listener ∈ sys_listeners s) then Some (handleRpcResponse r s).1 else None
  | WUnsubscribe => Some (wsUnsubscribe s)
  end.

Fixpoint wsRun (acts : list (WsAction H)) s : option System :=
  match acts with
  | [] => Some s
  | a :: acts' => s' ← wsStep s a; wsRun acts' s'
  end.
End WebSocket.

Section WebSocketFacts.
Context {T H : Type} {C : Coder T H}.
#[local] Abbreviation System := (WsSys T H).
Implicit Types (s : System).

(** [handleRpcResponse] is the rule of Slots.v followed by [deliver]. *)
Lemma handle_accepts r s :
  handleRpcResponse r s =
  (if accepts (ws_accountData (sys_ws s)) r.1 r.2
   then match r.2 with
        | Some nb => deliver (mkAccountData r.1 r.2) nb s
        | None =>
            let w := sys_ws s in
            (mkWsSys (mkWs (ws_data w) (Some (mkAccountData r.1 None)) (ws_onChange w)
               (ws_listenerId w)) (sys_pending s) (sys_listeners s) (sys_calls s), Ok tt)
        end
   else (s, Ok tt)).
Proof.
  destruct r as [slot nb]. unfold handleRpcResponse. cbn.
  destruct (ws_accountData (sys_ws s)) as [old |]; cbn; [| by destruct nb].
  destruct (slot <=? ad_slot old); [done |]. destruct nb as [nb |]; [| done].
  destruct (ad_buffer old); cbn; [by destruct (negb _) | done].
Qed.

Lemma deliver_frame d nb s :
  let s' := (deliver d nb s).1 in
  ws_accountData (sys_ws s') = Some d /\ ws_onChange (sys_ws s') = ws_onChange (sys_ws s) /\
  ws_listenerId (sys_ws s') = ws_listenerId (sys_ws s) /\
  sys_pending s' = sys_pending s /\ sys_listeners s' = sys_listeners s.
Proof.
  unfold deliver. destruct (decode nb); cbn; [| done]. by destruct (ws_onChange (sys_ws s)).
Qed.

Lemma handle_frame r s :
  let s' := (handleRpcResponse r s).1 in
  ws_accountData (sys_ws s') = absorb (ws_accountData (sys_ws s)) r /\
  ws_onChange (sys_ws s') = ws_onChange (sys_ws s) /\
  ws_listenerId (sys_ws s') = ws_listenerId (sys_ws s) /\
  sys_pending s' = sys_pending s /\ sys_listeners s' = sys_listeners s.
Proof.
  cbn zeta. rewrite handle_accepts. unfold absorb. destruct (accepts _ r.1 r.2); [| done].
  destruct r.2 as [nb |]; [| done]. apply deliver_frame.
Qed.

Lemma fetch_frame r s :
  let s' := (wsFetch r s).1 in
  ws_onChange (sys_ws s') = ws_onChange (sys_ws s) /\
  ws_listenerId (sys_ws s') = ws_listenerId (sys_ws s) /\
  sys_pending s' = sys_pending s /\ sys_listeners s' = sys_listeners s.
Proof. destruct r as [r' | e]; cbn; [apply handle_frame | done]. Qed.

(** The typed view is the decoding of the stored buffer. *)
Definition view_current s : Prop :=
  match ws_accountData (sys_ws s) with
  | Some (mkAccountData _ (Some b)) => exists d, decode b = Ok d /\ ws_data (sys_ws s) = Some d
  | _ => ws_data (sys_ws s) = None
  end.

Definition decodes : Prop := forall b, exists d, decode b = Ok d.

Lemma handle_view r s : decodes -> view_current s -> view_current (handleRpcResponse r s).1.
Proof.
  intros Hd Hv. rewrite handle_accepts. destruct (accepts _ r.1 r.2) eqn:Ea; [| done].
  destruct r.2 as [nb |] eqn:Er.
  - destruct (Hd nb) as [d Hd']. unfold deliver. rewrite Hd'.
    destruct (ws_onChange (sys_ws s)); unfold view_current; cbn; eauto.
  - unfold view_current in *. cbn.
    destruct (ws_accountData (sys_ws s)) as [old |]; [| done].
    by apply accepts_Some in Ea as (_ & nb & ? & _).
Qed.

Lemma wsStep_view s a s' : decodes -> view_current s -> wsStep s a = Some s' -> view_current s'.
Proof.
  intros Hd Hv. destruct a as [h | r id | r | id r |]; cbn.
  - intros [= <-]. unfold subscribeStart. by destruct (listening (sys_ws s)).
  - unfold subscribeFetched. destruct (sys_pending s); [done |].
    assert (view_current (wsFetch r s).1) as Hf by (destruct r; [by apply handle_view | done]).
    by destruct (wsFetch r s) as [s1 [|]]; intros [= <-].
  - intros [= <-]. destruct r; [by apply handle_view | done].
  - case_decide; [intros [= <-]; by apply handle_view | done].
  - intros [= <-]. unfold wsUnsubscribe. by destruct (ws_listenerId (sys_ws s)) as [[|] |].
Qed.

(** ** One [subscribe] at a time *)
Definition serial s (a : WsAction H) : Prop :=
  match a with
  | WSubscribe _ => sys_pending s = 0%nat
  | WFetched _ listener => listener <> 0%nat
  | _ => True
  end.

Fixpoint serial_run (acts : list (WsAction H)) s : Prop :=
  match acts with
  | [] => True
  | a :: acts' => serial s a /\ match wsStep s a with Some s' => serial_run acts' s' | None => True end
  end.

(** The listeners of the connection are the one the subscriber remembers. *)
Definition no_leak s : Prop :=
  match ws_listenerId (sys_ws s) with
  | Some id => id <> 0%nat /\ sys_listeners s = {[id]} /\ sys_pending s = 0%nat
  | None => sys_listeners s = ∅ /\ (sys_pending s <= 1)%nat
  end.

Lemma no_leak_ext s s' :
  ws_listenerId (sys_ws s') = ws_listenerId (sys_ws s) -> sys_pending s' = sys_pending s ->
  sys_listeners s' = sys_listeners s -> no_leak s -> no_leak s'.
Proof. unfold no_leak. by intros -> -> ->. Qed.

Lemma wsStep_no_leak s a s' : serial s a -> no_leak s -> wsStep s a = Some s' -> no_leak s'.
Proof.
  intros Hs Hi. destruct a as [h | r id | r | id r |]; cbn in *.
  - intros [= <-]. unfold subscribeStart, listening, no_leak in *.
    destruct (ws_listenerId (sys_ws s)) as [[| n] |] eqn:E; cbn; rewrite ?E;
      [by destruct Hi | done |].
    rewrite Hs. split; [apply Hi | lia].
  - unfold subscribeFetched. destruct (sys_pending s) as [| n] eqn:Ep; [done |].
    destruct (fetch_frame r s) as (_ & H1 & H2 & H3).
    unfold no_leak in Hi. destruct (ws_listenerId (sys_ws s)) as [id' |]; [lia |].
    destruct Hi as [Hl Hn]. rewrite Ep in Hn. rewrite Hl in H3.
    destruct (wsFetch r s) as [s1 [|]]; intros [= <-]; unfold no_leak; cbn in *.
    + rewrite H3. split_and!; [done | set_solver | lia].
    + rewrite H1, H3. split; [done | lia].
  - intros [= <-]. destruct (fetch_frame r s) as (_ & H1 & H2 & H3). by eapply no_leak_ext.
  - case_decide; [| done]. intros [= <-].
    destruct (handle_frame r s) as (_ & _ & H1 & H2 & H3). by eapply no_leak_ext.
  - intros [= <-]. unfold wsUnsubscribe, no_leak in *.
    destruct (ws_listenerId (sys_ws s)) as [[| n] |] eqn:E; cbn; rewrite ?E; [done | | done].
    destruct Hi as (_ & -> & ->). split; [set_solver | lia].
Qed.

Lemma wsRun_invariant (P : System -> Prop) :
  (forall s a s', P s -> wsStep s a = Some s' -> P s') ->
  forall acts s s', P s -> wsRun acts s = Some s' -> P s'.
Proof.
  intros Hstep acts. induction acts as [| a acts IH]; intros s s' HP; cbn; [by intros [= <-] |].
  destruct (wsStep s a) as [s1 |] eqn:Es; cbn; [eauto | done].
Qed.

Lemma serial_run_no_leak acts s s' :
  serial_run acts s -> no_leak s -> wsRun acts s = Some s' -> no_leak s'.
Proof.
  revert s. induction acts as [| a acts IH]; intros s; cbn; [by intros _ ? [= <-] |].
  destruct (wsStep s a) as [s1 |] eqn:Es; cbn; [| done].
  intros [Ha Hc] Hi. eauto using wsStep_no_leak.
Qed.

(** With a coder that decodes and clients that do not throw, a fetch succeeds. *)
Lemma handle_ok r s : decodes -> (forall h d, onChange_run h d = None) ->
  ws_onChange (sys_ws s) <> None -> (handleRpcResponse r s).2 = Ok tt.
Proof.
  intros Hd Hq Hh. rewrite handle_accepts. destruct (accepts _ _ _); [| done].
  destruct r.2 as [nb |]; [| done]. destruct (Hd nb) as [d Hd']. unfold deliver. rewrite Hd'.
  destruct (ws_onChange (sys_ws s)); [| done]. cbn. by rewrite Hq.
Qed.

Lemma subscribeFetched_ok r id s n : decodes -> (forall h d, onChange_run h d = None) ->
  sys_pending s = Datatypes.S n -> ws_onChange (sys_ws s) <> None ->
  exists s', subscribeFetched (Ok r) id s = Some s' /\ sys_pending s' = n /\
    ws_onChange (sys_ws s') = ws_onChange (sys_ws s) /\ ws_listenerId (sys_ws s') = Some id /\
    sys_listeners s' = {[id]} ∪ sys_listeners s.
Proof.
  intros Hd Hq Hp Hh. unfold subscribeFetched. rewrite Hp. cbn.
  pose proof (handle_ok r s Hd Hq Hh) as Hok.
  destruct (handle_frame r s) as (_ & H1 & H2 & H3 & H4).
  destruct (handleRpcResponse r s) as [s1 [[] |]]; cbn in *; [| done].
  eexists. split; [done |]. cbn. split_and!; [done | done | done | by rewrite H4].
Qed.
End WebSocketFacts.

(** ** Properties *)
Section WebSocketProperties.
Context {T H : Type} {C : Coder T H}.
#[local] Abbreviation System := (WsSys T H).
Implicit Types (s : System).

(** an answer changes the stored data exactly as the slot rule says, the
    same rule the polling loader follows, and never the listeners; the typed
    view and the client are updated exactly when a buffer is accepted, and a
    decoding error leaves the old view beside the new buffer. *)
Theorem handleRpcResponse_refines_absorb r s :
  let s' := (handleRpcResponse r s).1 in
  ws_accountData (sys_ws s') = absorb (ws_accountData (sys_ws s)) r /\
  ws_listenerId (sys_ws s') = ws_listenerId (sys_ws s) /\
  sys_listeners s' = sys_listeners s /\
  match accepts (ws_accountData (sys_ws s)) r.1 r.2, r.2 with
  | true, Some nb =>
      match decode nb with
      | Throw e =>
          ws_data (sys_ws s') = ws_data (sys_ws s) /\ sys_calls s' = sys_calls s /\
          (handleRpcResponse r s).2 = Throw e
      | Ok d =>
          ws_data (sys_ws s') = Some d /\
          sys_calls s' = sys_calls s ++
            match ws_onChange (sys_ws s) with Some h => [(h, d)] | None => [] end
      end
  | _, _ =>
      ws_data (sys_ws s') = ws_data (sys_ws s) /\ sys_calls s' = sys_calls s /\
      (handleRpcResponse r s).2 = Ok tt
  end.
Proof.
  cbn zeta. destruct (handle_frame r s) as (H1 & _ & H2 & _ & H3).
  split_and!; [done | done | done |].
  rewrite handle_accepts. destruct (accepts _ _ _); [| done].
  destruct r.2 as [nb |]; [| done]. unfold deliver. destruct (decode nb) as [d |]; [| done].
  destruct (ws_onChange (sys_ws s)); [done |]. by rewrite app_nil_r.
Qed.

(** if every buffer decodes, then after any interleaving of subscriptions,
    fetches, notifications and unsubscriptions, also with late and repeated
    answers and throwing clients, [data] is the decoding of the stored buffer,
    and undefined when there is none. *)
Theorem view_is_decoded_buffer acts s :
  decodes -> wsRun acts initWs = Some s -> view_current s.
Proof.
  intros Hd. apply (wsRun_invariant view_current); [| done].
  intros s1 a s2 Hv Hs. by eapply wsStep_view.
Qed.

(** when [subscribe] is not called again before its fetch is answered, the
    connection serves at most one listener, the one the subscriber remembers,
    and [unsubscribe] leaves none. *)
Theorem serial_subscriptions_do_not_leak acts s :
  serial_run acts initWs -> wsRun acts initWs = Some s ->
  no_leak s /\ sys_listeners (wsUnsubscribe s) = ∅.
Proof.
  intros Hc Hr. assert (no_leak s) as Hi.
  { apply (serial_run_no_leak acts initWs); [done | | done]. split; [done | cbn; lia]. }
  split; [done |].
  pose proof (wsStep_no_leak s WUnsubscribe (wsUnsubscribe s) I Hi eq_refl) as Hi'.
  unfold no_leak in Hi'. destruct (ws_listenerId (sys_ws (wsUnsubscribe s))) as [id |] eqn:E; [| by apply Hi'].
  exfalso. unfold no_leak in Hi. unfold wsUnsubscribe in E.
  destruct (ws_listenerId (sys_ws s)) as [[| n] |] eqn:E'; cbn in E; [by destruct Hi | done | congruence].
Qed.

(** two [subscribe] calls that overlap both register a listener, because
    the guard is checked before the fetch and the listener stored after it.
    The first identifier is overwritten, so [unsubscribe] leaves that listener
    registered and its notifications go on changing the subscriber. *)
Theorem overlapping_subscribe_leaks s h1 h2 r1 r2 id1 id2 :
  decodes -> (forall h d, onChange_run h d = None) ->
  ws_listenerId (sys_ws s) = None -> sys_pending s = 0%nat ->
  id1 <> id2 -> id2 <> 0%nat ->
  exists s', wsRun [WSubscribe h1; WSubscribe h2; WFetched (Ok r1) id1; WFetched (Ok r2) id2;
                    WUnsubscribe] s = Some s' /\
    ws_listenerId (sys_ws s') = None /\ id1 ∈ sys_listeners s' /\
    forall r, exists s'', wsStep s' (WNotify id1 r) = Some s'' /\
      ws_accountData (sys_ws s'') = absorb (ws_accountData (sys_ws s')) r.
Proof.
  intros Hd Hq Hl Hp Hne Hnz. unfold wsRun, wsStep. cbn [mbind option_bind].
  set (s2 := subscribeStart h2 (subscribeStart h1 s)).
  assert (sys_pending s2 = 2%nat /\ ws_onChange (sys_ws s2) = Some h2 /\
    sys_listeners s2 = sys_listeners s) as (E1 & E2 & E3).
  { unfold s2, subscribeStart, listening. cbn. rewrite Hl. cbn. rewrite ?Hl. cbn. by rewrite Hp. }
  destruct (subscribeFetched_ok r1 id1 s2 1 Hd Hq E1 ltac:(congruence)) as (s3 & -> & F1 & F2 & F3 & F4).
  cbn [mbind option_bind].
  destruct (subscribeFetched_ok r2 id2 s3 0 Hd Hq F1 ltac:(congruence)) as (s4 & -> & G1 & G2 & G3 & G4).
  cbn [mbind option_bind]. eexists. split; [done |].
  destruct id2 as [| n]; [done |]. unfold wsUnsubscribe. rewrite G3. cbn.
  assert (id1 ∈ sys_listeners s4 ∖ {[Datatypes.S n]}) as Hin by (rewrite G4, F4; set_solver).
  split_and!; [done | exact Hin |]. intros r.
  rewrite decide_True by exact Hin. eexists. split; [done |].
  match goal with |- context [handleRpcResponse r ?x] => by destruct (handle_frame r x) as [-> _] end.
Qed.
End WebSocketProperties.
