(* ===== verification/Polling.v ===== *)
(** * The polling account subscribers

    accounts/pollingClearingHouseAccountSubscriber.ts and
    accounts/pollingUserAccountSubscriber.ts, clients of the bulk account loader.
    Both keep a map of accounts to poll and the callbacks registered for them;
    that common part is the record [Poller].  A [subscribe] call is split at its
    [await]s; what the loader does while a call waits is a parameter.

    The coder of the program, the listeners of the event emitter, the derived
    addresses, the answer of [program.account.state.fetch] and [uuidv4] are
    arguments. *)
From Stdlib Require Import Ascii.
From S2P Require Import Prelude BN Types JsMap Slots Loader LoaderSpec.

(** [capitalize] of accounts/utils.ts *)
Definition toUpperCase (c : ascii) : ascii :=
  let n := nat_of_ascii c in
  if (Nat.leb 97 n && Nat.leb n 122)%bool then ascii_of_nat (n - 32) else c.
Definition capitalize (value : string) : result string :=
  match value with
  | EmptyString => Throw TypeError
  | String c rest => Ok (String (toUpperCase c) rest)
  end.

(** The program and the emitter: decoding an account of a given kind and Rust
    name, and what the listeners of an event of a subscriber do. *)
Class Program (Account : Type) := {
  coder_decode : string -> string -> option Buffer -> result Account;
  emit_run : nat -> string -> option JsError;
  emit_error_run : nat -> JsError -> option JsError
}.

(** The closures the subscribers register, by subscriber and account. *)
Inductive PollCallback :=
  | AccountCallback (subscriber : nat) (key eventType : string)
  | ErrorCallback (subscriber : nat).

(** [AccountToPoll] of accounts/types.ts *)
Record AccountToPoll := mkAccountToPoll {
  atp_key : string;
  atp_publicKey : PubKey;
  atp_eventType : string;
  atp_callbackId : option string
}.

(** What the two classes share; [pl_fields] are the properties
    [this[accountToPoll.key]]. *)
Record Poller (Account : Type) := mkPoller {
  pl_isSubscribed : bool;
  pl_accountsToPoll : list (string * AccountToPoll);
  pl_errorCallbackId : option string;
  pl_fields : gmap string Account
}.
Arguments mkPoller {Account}.
Arguments pl_isSubscribed {Account}.
Arguments pl_accountsToPoll {Account}.
Arguments pl_errorCallbackId {Account}.
Arguments pl_fields {Account}.

(** [PollingClearingHouseAccountSubscriber] *)
Record ChPoller (Account : Type) := mkChPoller {
  cp_poller : Poller Account;
  cp_isSubscribing : bool;
  cp_optionalExtraSubscriptions : option (list string)
}.
Arguments mkChPoller {Account}.
Arguments cp_poller {Account}.
Arguments cp_isSubscribing {Account}.
Arguments cp_optionalExtraSubscriptions {Account}.

Section Decode.
Context {Account : Type} {P : Program Account}.

(** [this.program.account[key].coder.accounts.decode(capitalize(key), buffer)] *)
Definition decodeAccount (key : string) (buffer : option Buffer) : result Account :=
  name ← capitalize key; coder_decode key name buffer.

(** The closures of [addToAccountLoader]. *)
Definition accountCallback_run (c : PollCallback) (buffer : option Buffer) : option JsError :=
  match c with
  | AccountCallback me key eventType =>
      match decodeAccount key buffer with
      | Throw e => Some e
      | Ok _ =>
          match emit_run me eventType with
          | Some e => Some e
          | None => emit_run me "update"
          end
      end
  | ErrorCallback _ => None
  end.

Definition errorCallback_run (c : PollCallback) (e : JsError) : option JsError :=
  match c with
  | AccountCallback _ _ _ => None
  | ErrorCallback me => emit_error_run me e
  end.

#[export] Instance PollCallbacks : Callbacks PollCallback := {|
  cb_run := accountCallback_run;
  ecb_run := errorCallback_run
|}.

(** [this[accountToPoll.key] = account] of the closure, for the calls logged. *)
Definition observe1 (me : nat) (fields : gmap string Account) (ev : Event PollCallback)
    : gmap string Account :=
  match ev with
  | Notify _ (AccountCallback m key _) buffer =>
      if Nat.eqb m me
      then match decodeAccount key buffer with Ok account => <[key := account]> fields | Throw _ => fields end
      else fields
  | _ => fields
  end.
Definition observe (me : nat) (evs : list (Event PollCallback)) (fields : gmap string Account) :=
  foldl (observe1 me) fields evs.
End Decode.

Section Poller.
Context {Account : Type} {P : Program Account}.
#[local] Abbreviation Loader := (BulkAccountLoader PollCallback).
#[local] Abbreviation Pl := (Poller Account).
Implicit Types (p : Pl) (ld : Loader).

Definition set_fields p f : Pl :=
  mkPoller (pl_isSubscribed p) (pl_accountsToPoll p) (pl_errorCallbackId p) f.
Definition set_polled p m e : Pl := mkPoller (pl_isSubscribed p) m e (pl_fields p).
Definition set_subscribed p b : Pl :=
  mkPoller b (pl_accountsToPoll p) (pl_errorCallbackId p) (pl_fields p).

Definition newPoller : Pl := mkPoller false [] None ∅.

Definition entry (key : string) (pk : PubKey) (eventType : string) : AccountToPoll :=
  mkAccountToPoll key pk eventType None.

(** The loop registering the entries with the loader; the [i]-th call of
    [addAccount] gets the identifier [uuid i]. *)
Fixpoint registerAll (me : nat) (uuid : nat -> string) (timer i : nat)
    (entries : list (string * AccountToPoll)) ld
    : list (string * AccountToPoll) * Loader :=
  match entries with
  | [] => ([], ld)
  | (k, a) :: entries' =>
      let '(ld1, id) := addAccount (atp_publicKey a)
                          (AccountCallback me (atp_key a) (atp_eventType a)) (uuid i) timer ld in
      let '(rest, ld2) := registerAll me uuid timer (Datatypes.S i) entries' ld1 in
      ((k, mkAccountToPoll (atp_key a) (atp_publicKey a) (atp_eventType a) (Some id)) :: rest, ld2)
  end.

(** [addToAccountLoader]: the loop and the error callback. *)
Definition registerPolled (me : nat) (uuid : nat -> string) (timer : nat) p ld : Pl * Loader :=
  let '(m, ld1) := registerAll me uuid timer 0 (pl_accountsToPoll p) ld in
  let '(ld2, id) := addErrorCallbacks (ErrorCallback me)
                      (uuid (length (pl_accountsToPoll p))) ld1 in
  (set_polled p m (Some id), ld2).

(** The loop of [fetch], after [load]. *)
Fixpoint readAll (entries : list (string * AccountToPoll)) ld (fields : gmap string Account)
    : gmap string Account * result unit :=
  match entries with
  | [] => (fields, Ok tt)
  | (_, a) :: entries' =>
      match getAccountData (atp_publicKey a) ld with
      | None => readAll entries' ld fields
      | Some buffer =>
          match decodeAccount (atp_key a) (Some buffer) with
          | Throw e => (fields, Throw e)
          | Ok account => readAll entries' ld (<[atp_key a := account]> fields)
          end
      end
  end.

(** [fetch] once the loader has gone from [ld] to [ld']. *)
Definition fetchDone (me : nat) ld ld' p : Pl * result unit :=
  let fields := observe me (drop (length (l_log ld)) (l_log ld')) (pl_fields p) in
  let '(fields', r) := readAll (pl_accountsToPoll p) ld' fields in
  (set_fields p fields', r).

(** [removeAccount(publicKey, callbackId)] where the identifier may be
    undefined: then no callback is removed. *)
Definition removeEntry (a : AccountToPoll) ld : Loader :=
  match atp_callbackId a with
  | Some id => removeAccount (atp_publicKey a) id ld
  | None => if Nat.eqb (length (l_accountsToLoad ld)) 0 then stopPolling ld else ld
  end.

(** [unsubscribe] *)
Definition pollUnsubscribe p ld : Pl * Loader :=
  if pl_isSubscribed p then
    let ld1 := foldl (fun l e => removeEntry e.2 l) ld (pl_accountsToPoll p) in
    let ld2 := match pl_errorCallbackId p with
               | Some id => removeErrorCallbacks id ld1
               | None => ld1
               end in
    (mkPoller false [] None (pl_fields p), ld2)
  else (p, ld).

Definition NOT_SUBSCRIBED : JsError :=
  NotSubscribedError "You must call `subscribe` before using this function".

(** [assertIsSubscribed] *)
Definition assertIsSubscribed p : result unit :=
  if pl_isSubscribed p then Ok tt else Throw NOT_SUBSCRIBED.

(** A getter: [assertIsSubscribed()] and the property. *)
Definition getField (key : string) p : result (option Account) :=
  _ ← assertIsSubscribed p; Ok (pl_fields p !! key).
End Poller.

(** ** The clearing house subscriber *)
Section ClearingHouse.
Context {Account : Type} {P : Program Account}.
#[local] Abbreviation Loader := (BulkAccountLoader PollCallback).
#[local] Abbreviation Ch := (ChPoller Account).
Implicit Types (c : Ch) (ld : Loader).

(** The constructor. *)
Definition newChPoller : Ch := mkChPoller newPoller false (Some []).

Definition set_poller c p : Ch :=
  mkChPoller p (cp_isSubscribing c) (cp_optionalExtraSubscriptions c).

(** [this.optionalExtraSubscriptions?.includes(name)] *)
Definition includes (o : option (list string)) (name : string) : bool :=
  match o with Some l => bool_decide (name ∈ l) | None => false end.

(** The optional accounts: their names, keys, addresses and events. *)
Definition optionalAccounts (state : StateAccount)
    : list (string * (string * PubKey * string)) :=
  [("tradeHistoryAccount", ("tradeHistory", st_tradeHistory state, "tradeHistoryAccountUpdate"));
   ("depositHistoryAccount", ("depositHistory", st_depositHistory state, "depositHistoryAccountUpdate"));
   ("fundingPaymentHistoryAccount",
     ("fundingPaymentHistory", st_fundingPaymentHistory state, "fundingPaymentHistoryAccountUpdate"));
   ("fundingRateHistoryAccount",
     ("fundingRateHistory", st_fundingRateHistory state, "fundingRateHistoryAccountUpdate"));
   ("curveHistoryAccount",
     ("extendedCurveHistory", st_extendedCurveHistory state, "curveHistoryAccountUpdate"));
   ("liquidationHistoryAccount",
     ("liquidationHistory", st_liquidationHistory state, "liquidationHistoryAccountUpdate"))]%string.

(** [updateAccountsToPoll]; [fetched] is what [program.account.state.fetch]
    gives for the derived [statePublicKey] *)
Definition updateAccountsToPoll (statePublicKey : PubKey) (fetched : result StateAccount) c
    : Ch * result unit :=
  match pl_accountsToPoll (cp_poller c) with
  | _ :: _ => (c, Ok tt)
  | [] =>
      match fetched with
      | Throw e => (c, Throw e)
      | Ok state =>
          let m := js_set statePublicKey (entry "state" statePublicKey "stateAccountUpdate") [] in
          let m := js_set (st_markets state)
                     (entry "markets" (st_markets state) "marketsAccountUpdate") m in
          let m := foldl (fun m '(name, (key, pk, event)) =>
                     if includes (cp_optionalExtraSubscriptions c) name
                     then js_set pk (entry key pk event) m else m)
                     m (optionalAccounts state) in
          (set_poller c (set_polled (cp_poller c) m (pl_errorCallbackId (cp_poller c))), Ok tt)
      end
  end.

(** What a call of [subscribe] does before its first [await]. *)
Inductive Begin := AlreadySubscribed | Joins | Proceeds.

Definition subscribeBegin (optionalSubscriptions : option (list string)) c : Ch * Begin :=
  if pl_isSubscribed (cp_poller c) then (c, AlreadySubscribed)
  else if cp_isSubscribing c then (c, Joins)
  else (mkChPoller (cp_poller c) true optionalSubscriptions, Proceeds).

(** [this.eventEmitter.emit('update')] and the flags. *)
Definition subscribeEnd (me : nat) c : Ch * result bool :=
  match emit_run me "update" with
  | Some e => (c, Throw e)
  | None =>
      (mkChPoller (set_subscribed (cp_poller c) true) false (cp_optionalExtraSubscriptions c),
       Ok true)
  end.

(** [subscribe]. [load] is what happens to the loader while the call awaits
    [accountLoader.load()], which may be any run of [LoadSystem]; the result is [None] for a call that joins another
    one and awaits its promise. *)
Definition chSubscribe (me : nat) (optionalSubscriptions : option (list string))
    (statePublicKey : PubKey) (fetched : result StateAccount) (uuid : nat -> string)
    (timer : nat) (load : Loader -> Loader) c ld : Ch * Loader * option (result bool) :=
  match subscribeBegin optionalSubscriptions c with
  | (c, AlreadySubscribed) => (c, ld, Some (Ok true))
  | (c, Joins) => (c, ld, None)
  | (c, Proceeds) =>
      match updateAccountsToPoll statePublicKey fetched c with
      | (c, Throw e) => (c, ld, Some (Throw e))
      | (c, Ok _) =>
          let '(p, ld) := registerPolled me uuid timer (cp_poller c) ld in
          let ld' := load ld in
          match fetchDone me ld ld' p with
          | (p, Throw e) => (set_poller c p, ld', Some (Throw e))
          | (p, Ok _) =>
              let '(c, r) := subscribeEnd me (set_poller c p) in (c, ld', Some r)
          end
      end
  end.

(** [unsubscribe] *)
Definition chUnsubscribe c ld : Ch * Loader :=
  let '(p, ld') := pollUnsubscribe (cp_poller c) ld in (set_poller c p, ld').

(** A double quote. *)
Definition quote_mark : string := String "034"%char EmptyString.
Definition optionalMessage (name : string) : string :=
  ("You need to subscribe to the optional Clearing House account " +:+ quote_mark +:+ name +:+
   quote_mark +:+ " to use this method")%string.

(** [assertOptionalIsSubscribed] *)
Definition assertOptionalIsSubscribed (name : string) c : result unit :=
  _ ← assertIsSubscribed (cp_poller c);
  l ← deref (cp_optionalExtraSubscriptions c);
  if bool_decide (name ∈ l) then Ok tt else Throw (NotSubscribedError (optionalMessage name)).

Definition getStateAccount c : result (option Account) := getField "state" (cp_poller c).
Definition getMarketsAccount c : result (option Account) := getField "markets" (cp_poller c).

(** The getters of the optional accounts, by name and property. *)
Definition getOptional (name key : string) c : result (option Account) :=
  _ ← assertIsSubscribed (cp_poller c);
  _ ← assertOptionalIsSubscribed name c;
  Ok (pl_fields (cp_poller c) !! key).
Definition getTradeHistoryAccount := getOptional "tradeHistoryAccount" "tradeHistory".
Definition getDepositHistoryAccount := getOptional "depositHistoryAccount" "depositHistory".
Definition getFundingPaymentHistoryAccount :=
  getOptional "fundingPaymentHistoryAccount" "fundingPaymentHistory".
Definition getFundingRateHistoryAccount :=
  getOptional "fundingRateHistoryAccount" "fundingRateHistory".
Definition getCurveHistoryAccount := getOptional "curveHistoryAccount" "extendedCurveHistory".
Definition getLiquidationHistoryAccount :=
  getOptional "liquidationHistoryAccount" "liquidationHistory".
End ClearingHouse.

(** ** The user subscriber *)
Section UserPoller.
Context {Account : Type} {P : Program Account}.
#[local] Abbreviation Loader := (BulkAccountLoader PollCallback).
#[local] Abbreviation Pl := (Poller Account).
Implicit Types (p : Pl) (ld : Loader).

(** [addToAccountLoader] before its [await]s: whether it goes on. *)
Definition userNeedsAccounts p : bool := Nat.eqb (length (pl_accountsToPoll p)) 0.

(** [addToAccountLoader] after them: [positions] is the address read from the
    fetched user account. *)
Definition userAddToAccountLoader (me : nat) (userPublicKey positions : PubKey)
    (uuid : nat -> string) (timer : nat) p ld : Pl * Loader :=
  let m := js_set userPublicKey (entry "user" userPublicKey "userAccountData")
             (pl_accountsToPoll p) in
  let m := js_set positions (entry "userPositions" positions "userPositionsData") m in
  registerPolled me uuid timer (set_polled p m (pl_errorCallbackId p)) ld.

(** The loop of [fetchIfUnloaded]. *)
Definition shouldFetch p : bool :=
  existsb (fun e => match pl_fields p !! atp_key e.2 with None => true | Some _ => false end)
    (pl_accountsToPoll p).

(** [fetchIfUnloaded] *)
Definition fetchIfUnloaded (me : nat) (load : Loader -> Loader) p ld : Pl * Loader * result unit :=
  if shouldFetch p then
    let ld' := load ld in
    let '(p', r) := fetchDone me ld ld' p in (p', ld', r)
  else (p, ld, Ok tt).

(** [subscribe], when no other call of it is under way *)
Definition userSubscribe (me : nat) (userPublicKey : PubKey) (fetched : result UserAccount)
    (uuid : nat -> string) (timer : nat) (load : Loader -> Loader) p ld
    : Pl * Loader * result bool :=
  if pl_isSubscribed p then (p, ld, Ok true)
  else
    let registered :=
      if userNeedsAccounts p then
        userAccount ← fetched;
        Ok (userAddToAccountLoader me userPublicKey (ua_positions userAccount) uuid timer p ld)
      else Ok (p, ld) in
    match registered with
    | Throw e => (p, ld, Throw e)
    | Ok (p1, ld1) =>
        match fetchIfUnloaded me load p1 ld1 with
        | (p2, ld2, Throw e) => (p2, ld2, Throw e)
        | (p2, ld2, Ok _) =>
            match emit_run me "update" with
            | Some e => (p2, ld2, Throw e)
            | None => (set_subscribed p2 true, ld2, Ok true)
            end
        end
    end.

Definition getUserAccount p : result (option Account) := getField "user" p.
Definition getUserPositionsAccount p : result (option Account) := getField "userPositions" p.
End UserPoller.
