(* ===== verification/PollingSpec.v ===== *)
(** * What the polling subscribers guarantee

    Theorems about Polling.v: what a subscription registers with the loader and
    what [unsubscribe] takes back, the accounts polled, the getters, and what
    becomes of a subscription that fails. *)
From S2P Require Import Prelude BN Types JsMap Slots Loader LoaderSpec LoadSystem Polling.

Section PollingFacts.
Context {Account : Type} {P : Program Account}.
#[local] Abbreviation Loader := (BulkAccountLoader PollCallback).
Implicit Types (p : Poller Account) (c : ChPoller Account) (ld : Loader)
  (m entries : list (string * AccountToPoll)).

(** [(k, id)] is a registration the entries remember. *)
Definition owns m (k id : string) : Prop :=
  exists e, e ∈ m /\ atp_publicKey e.2 = k /\ atp_callbackId e.2 = Some id.

Lemma owns_cons e m k id :
  owns (e :: m) k id <-> (atp_publicKey e.2 = k /\ atp_callbackId e.2 = Some id) \/ owns m k id.
Proof.
  unfold owns. split.
  - intros (x & Hx & H). apply elem_of_cons in Hx as [-> | Hx]; [by left | right; by exists x].
  - intros [H | (x & Hx & H)]; [exists e | exists x]; (split; [by constructor | done]).
Qed.

(** The loop of [addToAccountLoader] registers exactly what it remembers. *)
Lemma registerAll_registered me uuid timer i entries ld k id :
  loader_inv ld ->
  let r := registerAll me uuid timer i entries ld in
  loader_inv r.2 /\ (registered r.2 k id <-> owns r.1 k id \/ registered ld k id).
Proof.
  cbn zeta. revert i ld. induction entries as [| [k0 a] entries IH]; intros i ld Hi.
  - cbn. split; [done |]. split; [by right |]. intros [(x & Hx & _) | ?]; [| done].
    by apply not_elem_of_nil in Hx.
  - cbn [registerAll].
    pose proof (addAccount_inv (atp_publicKey a) (AccountCallback me (atp_key a) (atp_eventType a))
      (uuid i) timer ld Hi) as Hi1.
    pose proof (registered_addAccount ld (atp_publicKey a)
      (AccountCallback me (atp_key a) (atp_eventType a)) (uuid i) timer k id Hi) as Hr1.
    assert ((addAccount (atp_publicKey a) (AccountCallback me (atp_key a) (atp_eventType a))
      (uuid i) timer ld).2 = uuid i) as Hid by done.
    destruct (addAccount _ _ _ _ _) as [ld1 id1]. cbn in Hi1, Hr1, Hid. subst id1.
    destruct (IH (Datatypes.S i) ld1 Hi1) as [Hi2 Hr2].
    destruct (registerAll me uuid timer (Datatypes.S i) entries ld1) as [rest ld2]. cbn in *.
    split; [done |]. rewrite Hr2, Hr1, owns_cons. cbn.
    assert (k = atp_publicKey a /\ id = uuid i <->
      atp_publicKey a = k /\ Some (uuid i) = Some id) as -> by (split; intros [? ?]; split; congruence).
    tauto.
Qed.

Lemma addErrorCallbacks_inv cb id ld : loader_inv ld -> loader_inv (addErrorCallbacks cb id ld).1.
Proof. by destruct 1. Qed.

(** Dropping the loop and the error callback again. *)
Lemma removeEntry_registered a ld k id : loader_inv ld ->
  loader_inv (removeEntry a ld) /\
  (registered (removeEntry a ld) k id <->
    ~ (atp_publicKey a = k /\ atp_callbackId a = Some id) /\ registered ld k id).
Proof.
  intros Hi. unfold removeEntry. destruct (atp_callbackId a) as [id' |].
  - split; [by apply removeAccount_inv |]. rewrite registered_removeAccount by done.
    assert (k = atp_publicKey a /\ id = id' <-> atp_publicKey a = k /\ Some id' = Some id) as ->
      by (split; intros [? ?]; split; congruence).
    done.
  - destruct (length (l_accountsToLoad ld) =? 0)%nat eqn:El.
    + apply length_zero_nil in El. assert (stopPolling ld = ld) as ->.
      { unfold stopPolling. by rewrite (proj2 (inv_polling _ Hi) El). }
      split; [done |]. split; [intros ?; split; [by intros [_ ?] | done] | by intros [_ ?]].
    + split; [done |]. split; [intros ?; split; [by intros [_ ?] | done] | by intros [_ ?]].
Qed.

Lemma removeAll_registered m ld k id : loader_inv ld ->
  let ld' := foldl (fun l e => removeEntry e.2 l) ld m in
  loader_inv ld' /\ (registered ld' k id <-> ~ owns m k id /\ registered ld k id).
Proof.
  cbn zeta. revert ld. induction m as [| e m IH]; intros ld Hi; cbn.
  - split; [done |]. split; [| by intros [_ ?]]. intros ?. split; [| done].
    intros (x & Hx & _). by apply not_elem_of_nil in Hx.
  - destruct (removeEntry_registered e.2 ld k id Hi) as [Hi1 Hr1].
    destruct (IH _ Hi1) as [Hi2 Hr2]. split; [done |].
    rewrite Hr2, Hr1, owns_cons. tauto.
Qed.

Lemma removeErrorCallbacks_registered o ld k id :
  registered (match o with Some i => removeErrorCallbacks i ld | None => ld end) k id <->
  registered ld k id.
Proof. by destruct o. Qed.

(** ** The accounts polled *)
(** The optional accounts requested, in the order of the code. *)
Definition requested (o : option (list string)) (state : StateAccount)
    : list (string * AccountToPoll) :=
  omap (fun '(name, (key, pk, event)) =>
    if includes o name then Some (pk, entry key pk event) else None) (optionalAccounts state).

Definition optionalAddresses (state : StateAccount) : list PubKey :=
  (fun x => x.2.1.2) <$> optionalAccounts state.

Lemma requested_foldl o (opts : list (string * (string * PubKey * string))) m :
  NoDup ((fst <$> m) ++ ((fun x => x.2.1.2) <$> opts)) ->
  foldl (fun m '(name, (key, pk, event)) =>
    if includes o name then js_set pk (entry key pk event) m else m) m opts =
  m ++ omap (fun '(name, (key, pk, event)) =>
    if includes o name then Some (pk, entry key pk event) else None) opts.
Proof.
  revert m. induction opts as [| [name [[key pk] event]] opts IH]; intros m Hnd.
  - cbn. by rewrite app_nil_r.
  - cbn in Hnd. apply NoDup_app in Hnd as (H1 & H2 & H3). apply NoDup_cons in H3 as [H3 H4].
    cbn. destruct (includes o name); cbn.
    + assert (pk ∉ (fst <$> m)) as Hpk by (intros Hin; apply (H2 _ Hin); by left).
      rewrite js_set_fresh, IH by
        (done || (rewrite fmap_app; apply NoDup_app; split_and!;
          [apply NoDup_app; split_and!; [done | | apply NoDup_singleton];
            intros x Hx ->%list_elem_of_singleton; done
          | intros x [Hx | ->%list_elem_of_singleton]%elem_of_app Hx';
            [apply (H2 x Hx); by right | done]
          | done])).
      by rewrite <- app_assoc.
    + apply IH. apply NoDup_app. split_and!; [done | | done].
      intros x Hx Hx'. apply (H2 x Hx). by right.
Qed.

(** ** Reading the loader's data *)
Lemma readAll_untouched entries ld fields key :
  key ∉ ((fun e => atp_key e.2) <$> entries) ->
  (readAll entries ld fields).1 !! key = fields !! key.
Proof.
  revert fields. induction entries as [| [k a] entries IH]; intros fields; cbn; [done |].
  rewrite not_elem_of_cons. intros [Hne Hin].
  destruct (getAccountData (atp_publicKey a) ld); [| by apply IH].
  destruct (decodeAccount (atp_key a) _); cbn; [| done].
  rewrite IH by done. by rewrite lookup_insert_ne.
Qed.

Lemma readAll_reads entries ld fields e buffer :
  NoDup ((fun e => atp_key e.2) <$> entries) -> (readAll entries ld fields).2 = Ok tt ->
  e ∈ entries -> getAccountData (atp_publicKey e.2) ld = Some buffer ->
  exists account, decodeAccount (atp_key e.2) (Some buffer) = Ok account /\
    (readAll entries ld fields).1 !! atp_key e.2 = Some account.
Proof.
  revert fields. induction entries as [| [k a] entries IH]; intros fields Hnd Hok He Hb.
  - by apply not_elem_of_nil in He.
  - cbn in Hnd. apply NoDup_cons in Hnd as [Hn Hnd]. cbn in Hok |- *.
    apply elem_of_cons in He as [-> | He]; cbn in *.
    + rewrite Hb in *. destruct (decodeAccount (atp_key a) (Some buffer)) as [acc |]; [| done].
      exists acc. split; [done |]. rewrite readAll_untouched by done. by rewrite lookup_insert_eq.
    + destruct (getAccountData (atp_publicKey a) ld); [| by apply IH].
      destruct (decodeAccount (atp_key a) _); [by apply IH | done].
Qed.

(** ** Taking [subscribe] apart *)
Lemma registerAll_ids me uuid timer i entries ld k id :
  owns (registerAll me uuid timer i entries ld).1 k id -> exists j, id = uuid j.
Proof.
  revert i ld. induction entries as [| [k0 a] entries IH]; intros i ld; cbn [registerAll].
  - intros (x & Hx & _). by apply not_elem_of_nil in Hx.
  - destruct (addAccount _ _ _ _ ld) as [ld1 id1] eqn:Ea.
    assert (id1 = uuid i) as -> by (by injection Ea).
    pose proof (IH (Datatypes.S i) ld1) as IH'.
    destruct (registerAll me uuid timer (Datatypes.S i) entries ld1) as [rest ld2].
    cbn in *. rewrite owns_cons. cbn. intros [[_ [= <-]] | ?]; eauto.
Qed.

(** What [registerPolled] leaves: the poller remembers exactly what it added. *)
Lemma registerPolled_spec me uuid timer p ld : loader_inv ld ->
  let r := registerPolled me uuid timer p ld in
  loader_inv r.2 /\ pl_isSubscribed r.1 = pl_isSubscribed p /\ pl_fields r.1 = pl_fields p /\
  (forall k id, registered r.2 k id <-> owns (pl_accountsToPoll r.1) k id \/ registered ld k id) /\
  (forall k id, owns (pl_accountsToPoll r.1) k id -> exists j, id = uuid j).
Proof.
  intros Hi. cbn zeta. unfold registerPolled.
  pose proof (fun k id => registerAll_registered me uuid timer 0 (pl_accountsToPoll p) ld k id Hi) as Hr.
  pose proof (registerAll_ids me uuid timer 0 (pl_accountsToPoll p) ld) as Hids.
  destruct (registerAll me uuid timer 0 (pl_accountsToPoll p) ld) as [m ld1]. cbn in *.
  split_and!; [| done | done | | done].
  - destruct (Hr ""%string ""%string) as [[] _]. by split.
  - intros k id. by apply Hr.
Qed.

(** The error callback it adds, under an identifier of its own. *)
Lemma registerAll_errorCallbacks me uuid timer i entries ld :
  l_errorCallbacks (registerAll me uuid timer i entries ld).2 = l_errorCallbacks ld.
Proof.
  revert i ld. induction entries as [| [k a] entries IH]; intros i ld; cbn [registerAll]; [done |].
  pose proof (addAccount_errorCallbacks (atp_publicKey a)
    (AccountCallback me (atp_key a) (atp_eventType a)) (uuid i) timer ld) as He.
  destruct (addAccount _ _ _ _ ld) as [ld1 id1]. specialize (IH (Datatypes.S i) ld1).
  destruct (registerAll me uuid timer (Datatypes.S i) entries ld1). cbn in *. congruence.
Qed.

Lemma registerPolled_error me uuid timer p ld :
  (forall j, js_get (uuid j) (l_errorCallbacks ld) = None) ->
  let r := registerPolled me uuid timer p ld in
  exists id, pl_errorCallbackId r.1 = Some id /\
    l_errorCallbacks r.2 = l_errorCallbacks ld ++ [(id, ErrorCallback me)] /\
    js_get id (l_errorCallbacks ld) = None.
Proof.
  intros Hf. cbn zeta. unfold registerPolled.
  pose proof (registerAll_errorCallbacks me uuid timer 0 (pl_accountsToPoll p) ld) as He.
  destruct (registerAll me uuid timer 0 (pl_accountsToPoll p) ld) as [m ld1]. cbn in *.
  eexists. split; [done |]. split; [| apply Hf].
  rewrite He. apply js_set_fresh, js_get_None, Hf.
Qed.

(** Something is polled, and registered. *)
Lemma registerPolled_owns me uuid timer p ld : pl_accountsToPoll p <> [] ->
  exists k id, owns (pl_accountsToPoll (registerPolled me uuid timer p ld).1) k id.
Proof.
  unfold registerPolled. destruct (pl_accountsToPoll p) as [| [k a] entries]; [done |]. intros _.
  exists (atp_publicKey a), (uuid 0%nat). cbn [registerAll].
  destruct (addAccount _ _ _ _ ld) as [ld1 id1] eqn:Ea.
  assert (id1 = uuid 0%nat) as -> by (by injection Ea).
  destruct (registerAll me uuid timer 1 entries ld1) as [rest ld2]. cbn. apply owns_cons. by left.
Qed.

Lemma updateAccountsToPoll_some statePk fetched c c1 :
  updateAccountsToPoll statePk fetched c = (c1, Ok tt) -> pl_accountsToPoll (cp_poller c1) <> [].
Proof.
  unfold updateAccountsToPoll. destruct (pl_accountsToPoll (cp_poller c)) as [| e m] eqn:Em.
  - destruct fetched as [state |]; [| done]. intros [= <-]. cbn [pl_accountsToPoll set_poller set_polled cp_poller].
    assert (forall (l : list (string * (string * PubKey * string))) m, m <> [] ->
      foldl (fun m '(name, (key, pk, event)) =>
        if includes (cp_optionalExtraSubscriptions c) name then js_set pk (entry key pk event) m else m)
        m l <> []) as Hf.
    { induction l as [| [name [[key pk] event]] l IH]; intros m Hm; cbn; [done |]. apply IH.
      destruct (includes _ _); [apply js_set_not_nil | done]. }
    apply (Hf (optionalAccounts state)). by case_decide.
  - intros [= <-]. by rewrite Em.
Qed.

(** The stages of a [subscribe] that returns true without having been
    subscribed before. *)
Lemma chSubscribe_stages me opts statePk fetched uuid timer load c ld c' ld' :
  pl_isSubscribed (cp_poller c) = false ->
  chSubscribe me opts statePk fetched uuid timer load c ld = (c', ld', Some (Ok true)) ->
  exists c1 p1 ld1,
    updateAccountsToPoll statePk fetched (mkChPoller (cp_poller c) true opts) = (c1, Ok tt) /\
    registerPolled me uuid timer (cp_poller c1) ld = (p1, ld1) /\ ld' = load ld1 /\
    cp_optionalExtraSubscriptions c' = cp_optionalExtraSubscriptions c1 /\
    cp_isSubscribing c' = false /\ pl_isSubscribed (cp_poller c') = true /\
    pl_accountsToPoll (cp_poller c') = pl_accountsToPoll p1 /\
    pl_errorCallbackId (cp_poller c') = pl_errorCallbackId p1 /\
    readAll (pl_accountsToPoll p1) ld'
      (observe me (drop (length (l_log ld1)) (l_log ld')) (pl_fields p1)) =
      (pl_fields (cp_poller c'), Ok tt).
Proof.
  intros Hs. unfold chSubscribe, subscribeBegin. rewrite Hs.
  destruct (cp_isSubscribing c); [done |].
  destruct (updateAccountsToPoll _ _ _) as [c1 [[] |]] eqn:E1; [| done].
  destruct (registerPolled _ _ _ _ _) as [p1 ld1] eqn:E2. unfold fetchDone.
  destruct (readAll _ _ _) as [f [[] |]] eqn:E3; [| done].
  unfold subscribeEnd. destruct (emit_run me "update"); [done |].
  intros [= <- <-]. exists c1, p1, ld1. by split_and!.
Qed.

Lemma updateAccountsToPoll_optional statePk fetched c :
  cp_optionalExtraSubscriptions (updateAccountsToPoll statePk fetched c).1 =
  cp_optionalExtraSubscriptions c.
Proof. unfold updateAccountsToPoll. destruct (pl_accountsToPoll _); [| done]. by destruct fetched. Qed.

Lemma pollUnsubscribe_registered p ld k id : loader_inv ld -> pl_isSubscribed p = true ->
  registered (pollUnsubscribe p ld).2 k id <->
  ~ owns (pl_accountsToPoll p) k id /\ registered ld k id.
Proof.
  intros Hi Hs. unfold pollUnsubscribe. rewrite Hs. cbn.
  rewrite removeErrorCallbacks_registered.
  apply (removeAll_registered (pl_accountsToPoll p) ld k id Hi).
Qed.

Lemma removeEntry_errorCallbacks a ld : l_errorCallbacks (removeEntry a ld) = l_errorCallbacks ld.
Proof.
  unfold removeEntry. destruct (atp_callbackId a) as [id |]; [apply removeAccount_errorCallbacks |].
  destruct (_ =? _)%nat; [apply stopPolling_errorCallbacks | done].
Qed.

Lemma removeAll_errorCallbacks m ld :
  l_errorCallbacks (foldl (fun l e => removeEntry e.2 l) ld m) = l_errorCallbacks ld.
Proof.
  revert ld. induction m as [| e m IH]; intros ld; cbn; [done |].
  by rewrite IH, removeEntry_errorCallbacks.
Qed.

(** [unsubscribe] of a poller whose error callback is the last added. *)
Lemma pollUnsubscribe_takes_back p ld ecbs id cb : loader_inv ld -> pl_isSubscribed p = true ->
  pl_errorCallbackId p = Some id -> l_errorCallbacks ld = ecbs ++ [(id, cb)] ->
  js_get id ecbs = None ->
  let '(p', ld') := pollUnsubscribe p ld in
  loader_inv ld' /\
  (forall k i, registered ld' k i <-> ~ owns (pl_accountsToPoll p) k i /\ registered ld k i) /\
  l_errorCallbacks ld' = ecbs /\
  pl_accountsToPoll p' = [] /\ pl_errorCallbackId p' = None /\ pl_isSubscribed p' = false.
Proof.
  intros Hi Hs Hid Hecb Hn. pose proof (fun k i => pollUnsubscribe_registered p ld k i Hi Hs) as Hr.
  pose proof (proj1 (removeAll_registered (pl_accountsToPoll p) ld "" "" Hi)) as Hi'.
  unfold pollUnsubscribe in *. rewrite Hs, Hid in *. split_and!; [by destruct Hi' | exact Hr | | done..].
  cbn. rewrite removeAll_errorCallbacks, Hecb, <- (js_set_fresh id cb) by (by apply js_get_None).
  by apply js_delete_set.
Qed.

(** A getter of an optional account. *)
Lemma getOptional_spec name key c :
  getOptional name key c =
  (if pl_isSubscribed (cp_poller c) then
     match cp_optionalExtraSubscriptions c with
     | None => Throw TypeError
     | Some l =>
         if bool_decide (name ∈ l) then Ok (pl_fields (cp_poller c) !! key)
         else Throw (NotSubscribedError (optionalMessage name))
     end
   else Throw NOT_SUBSCRIBED).
Proof.
  unfold getOptional, assertOptionalIsSubscribed, assertIsSubscribed.
  destruct (pl_isSubscribed (cp_poller c)); cbn; [| done].
  destruct (cp_optionalExtraSubscriptions c); cbn; [| done]. by case_bool_decide.
Qed.
End PollingFacts.

(** ** Properties *)
Section PollingProperties.
Context {Account : Type} {P : Program Account}.
#[local] Abbreviation Loader := (BulkAccountLoader PollCallback).
Implicit Types (p : Poller Account) (c : ChPoller Account) (ld : Loader).

(** C39: a subscription that succeeds, whatever loads start, are answered and end
    while it waits, leaves every polled account registered with the loader under the
    identifier it remembers, one error callback more, the timer running, and, for
    every account the loader holds, the property decoded from that buffer;
    unsubscribing takes back exactly these registrations and the error callback, stops the
    timer if nothing else is polled, and forgets them. *)
Theorem subscribe_unsubscribe Buffer_from me opts statePk fetched uuid timer load c ld c' ld' :
  loader_inv ld -> (forall l, loads Buffer_from l (load l)) ->
  (forall k j, ~ registered ld k (uuid j)) ->
  (forall j, js_get (uuid j) (l_errorCallbacks ld) = None) ->
  pl_isSubscribed (cp_poller c) = false ->
  chSubscribe me opts statePk fetched uuid timer load c ld = (c', ld', Some (Ok true)) ->
  NoDup ((fun e => atp_key e.2) <$> pl_accountsToPoll (cp_poller c')) ->
  (forall k id, registered ld' k id <->
    owns (pl_accountsToPoll (cp_poller c')) k id \/ registered ld k id) /\
  (exists id, pl_errorCallbackId (cp_poller c') = Some id /\
    l_errorCallbacks ld' = l_errorCallbacks ld ++ [(id, ErrorCallback me)]) /\
  l_intervalId ld' <> None /\
  (forall e buffer, e ∈ pl_accountsToPoll (cp_poller c') ->
    getAccountData (atp_publicKey e.2) ld' = Some buffer ->
    exists account, decodeAccount (atp_key e.2) (Some buffer) = Ok account /\
      pl_fields (cp_poller c') !! atp_key e.2 = Some account) /\
  let '(c2, ld2) := chUnsubscribe c' ld' in
  (forall k id, registered ld2 k id <-> registered ld k id) /\
  l_errorCallbacks ld2 = l_errorCallbacks ld /\
  (l_intervalId ld2 = None <-> l_accountsToLoad ld2 = []) /\
  pl_accountsToPoll (cp_poller c2) = [] /\ pl_errorCallbackId (cp_poller c2) = None /\
  pl_isSubscribed (cp_poller c2) = false.
Proof.
  intros Hi Hload Hfresh Hfe Hs Hrun Hnd.
  destruct (chSubscribe_stages _ _ _ _ _ _ _ _ _ _ _ Hs Hrun) as
    (c1 & p1 & ld1 & E1 & E2 & -> & _ & _ & Hsub & Hm & He & Hread).
  pose proof (registerPolled_spec me uuid timer (cp_poller c1) ld Hi) as Hr.
  pose proof (registerPolled_error me uuid timer (cp_poller c1) ld Hfe) as (id & Herr & Hecb & Hid).
  rewrite E2 in Hr, Herr, Hecb. cbn in Hr, Herr, Hecb. destruct Hr as (Hi1 & _ & _ & Hreg & Hids).
  pose proof (loads_keep_accounts _ _ _ (Hload ld1)) as Hsame.
  pose proof (same_accounts_inv _ _ Hsame Hi1) as Hi2.
  assert (l_errorCallbacks (load ld1) = l_errorCallbacks ld ++ [(id, ErrorCallback me)]) as Hecb'.
  { destruct Hsame as (_ & _ & _ & _ & ->). exact Hecb. }
  assert (forall k i, registered (load ld1) k i <->
    owns (pl_accountsToPoll (cp_poller c')) k i \/ registered ld k i) as Hreg'.
  { intros k i. destruct Hsame as (Ha & Hh & _).
    by rewrite (registered_same ld1), Hreg, Hm. }
  split_and!; [exact Hreg' | exists id; by rewrite He | | |].
  - apply updateAccountsToPoll_some in E1 as Hne.
    pose proof (registerPolled_owns me uuid timer (cp_poller c1) ld Hne) as (k & i & Ho).
    rewrite E2 in Ho. cbn in Ho. rewrite <- Hm in Ho. intros Hx. apply (inv_polling _ Hi2) in Hx.
    destruct (proj2 (Hreg' k i) (or_introl Ho)) as (addr & a & Hk & _). by rewrite Hx in Hk.
  - intros e buffer Hin Hb. rewrite Hm in Hin, Hnd.
    destruct (readAll_reads (pl_accountsToPoll p1) (load ld1) _ e buffer Hnd
      (f_equal snd Hread) Hin Hb) as (acc & H1 & H2).
    exists acc. split; [done |]. by rewrite Hread in H2.
  - unfold chUnsubscribe.
    pose proof (pollUnsubscribe_takes_back (cp_poller c') (load ld1) _ id (ErrorCallback me) Hi2 Hsub
      ltac:(by rewrite He) Hecb' Hid) as Hu.
    destruct (pollUnsubscribe _ _) as [p2 ld2]. cbn in *. destruct Hu as (Hi3 & Hu & Hue & Hp & Hpe & Hps).
    split_and!; [| done | apply Hi3 | done..].
    intros k i. rewrite Hu, Hreg'. split; [tauto |]. intros Hx. split; [| by right]. rewrite Hm.
    intros Ho. destruct (Hids _ _ Ho) as [j ->]. by apply (Hfresh k j).
Qed.

(** the accounts polled are the state, the markets and exactly the
    requested ones of the six optional accounts, at the addresses the state
    account names; a failed fetch of the state polls nothing. *)
Theorem accounts_polled statePk fetched c :
  pl_accountsToPoll (cp_poller c) = [] ->
  match fetched with
  | Throw e => updateAccountsToPoll statePk fetched c = (c, Throw e)
  | Ok state =>
      NoDup (statePk :: st_markets state :: optionalAddresses state) ->
      (updateAccountsToPoll statePk fetched c).2 = Ok tt /\
      pl_accountsToPoll (cp_poller (updateAccountsToPoll statePk fetched c).1) =
        (statePk, entry "state" statePk "stateAccountUpdate") ::
        (st_markets state, entry "markets" (st_markets state) "marketsAccountUpdate") ::
        requested (cp_optionalExtraSubscriptions c) state
  end.
Proof.
  intros Hm. unfold updateAccountsToPoll. rewrite Hm. destruct fetched as [state |]; [| done].
  intros Hnd. split; [done |]. cbn [cp_poller set_poller pl_accountsToPoll set_polled fst].
  rewrite (js_set_fresh (st_markets state)).
  - by rewrite requested_foldl.
  - cbn. apply not_elem_of_cons. split; [| apply not_elem_of_nil].
    apply NoDup_cons in Hnd as [Hn _]. intros Heq. apply Hn. rewrite <- Heq. by left.
Qed.

(** the six optional getters throw [NotSubscribedError] before the
    subscription and for an account that was not asked for, and give the
    property otherwise; but when [subscribe] was called without an argument
    they throw a [TypeError], because the list they search is undefined. *)
Theorem optional_getter_outcomes name key c :
  (pl_isSubscribed (cp_poller c) = false -> getOptional name key c = Throw NOT_SUBSCRIBED) /\
  (forall l, pl_isSubscribed (cp_poller c) = true -> cp_optionalExtraSubscriptions c = Some l ->
    getOptional name key c =
      (if bool_decide (name ∈ l) then Ok (pl_fields (cp_poller c) !! key)
       else Throw (NotSubscribedError (optionalMessage name)))) /\
  (forall me statePk fetched uuid timer load ld c' ld',
    pl_isSubscribed (cp_poller c) = false ->
    chSubscribe me None statePk fetched uuid timer load c ld = (c', ld', Some (Ok true)) ->
    getOptional name key c' = Throw TypeError /\
    getStateAccount c' = Ok (pl_fields (cp_poller c') !! "state")).
Proof.
  rewrite !getOptional_spec. split_and!.
  - by intros ->.
  - by intros l -> ->.
  - intros me statePk fetched uuid timer load ld c' ld' Hs Hrun.
    destruct (chSubscribe_stages _ _ _ _ _ _ _ _ _ _ _ Hs Hrun) as
      (c1 & p1 & ld1 & E1 & _ & _ & Ho & _ & Hsub & _).
    pose proof (updateAccountsToPoll_optional statePk fetched (mkChPoller (cp_poller c) true None)) as Hu.
    rewrite E1 in Hu. cbn in Hu. rewrite getOptional_spec, Hsub, Ho, Hu.
    split; [done |]. unfold getStateAccount, getField, assertIsSubscribed. by rewrite Hsub.
Qed.

(** when the fetch of the state account fails, [subscribe] rejects but
    leaves [isSubscribing] set: every later call, whatever its arguments,
    joins a promise nobody will resolve, [unsubscribe] does nothing, and the
    getters go on throwing. *)
Theorem failed_subscribe_is_permanent me opts statePk e uuid timer load c ld :
  pl_isSubscribed (cp_poller c) = false -> cp_isSubscribing c = false ->
  pl_accountsToPoll (cp_poller c) = [] ->
  exists c', chSubscribe me opts statePk (Throw e) uuid timer load c ld = (c', ld, Some (Throw e)) /\
    (forall opts' statePk' fetched' uuid' timer' load' ld',
      chSubscribe me opts' statePk' fetched' uuid' timer' load' c' ld' = (c', ld', None) /\
      chUnsubscribe c' ld' = (c', ld')) /\
    getStateAccount c' = Throw NOT_SUBSCRIBED.
Proof.
  intros Hs Hg Hm. exists (mkChPoller (cp_poller c) true opts).
  unfold chSubscribe, subscribeBegin, updateAccountsToPoll. rewrite Hs, Hg. cbn. rewrite Hm.
  split_and!; [done | |].
  - intros. rewrite Hs. cbn. split; [done |].
    unfold chUnsubscribe, pollUnsubscribe. cbn. rewrite Hs. by unfold set_poller.
  - unfold getStateAccount, getField, assertIsSubscribed. cbn. by rewrite Hs.
Qed.

(** two overlapping [subscribe] calls of a user both pass the guard of
    [addToAccountLoader] and register their own callbacks; the second
    overwrites the identifiers of the first, which [unsubscribe] therefore
    leaves registered with the loader. *)
Theorem overlapping_user_subscribe_leaks me user positions uuid1 uuid2 timer p ld :
  loader_inv ld -> userNeedsAccounts p = true -> user <> positions ->
  (forall i j, uuid1 i <> uuid2 j) ->
  let '(p1, ld1) := userAddToAccountLoader me user positions uuid1 timer p ld in
  let '(p2, ld2) := userAddToAccountLoader me user positions uuid2 timer p1 ld1 in
  let '(p3, ld3) := pollUnsubscribe (set_subscribed p2 true) ld2 in
  pl_accountsToPoll p3 = [] /\ registered ld3 user (uuid1 0%nat) /\
  registered ld3 positions (uuid1 1%nat).
Proof.
  intros Hi Hn Hne Hids. apply length_zero_nil in Hn.
  unfold userAddToAccountLoader. rewrite Hn.
  set (m := js_set positions _ (js_set user _ [])).
  assert (m = [(user, entry "user" user "userAccountData");
               (positions, entry "userPositions" positions "userPositionsData")]) as Em.
  { unfold m. cbn. by rewrite decide_False. }
  pose proof (registerPolled_spec me uuid1 timer (set_polled p m (pl_errorCallbackId p)) ld Hi) as H1.
  assert (owns (pl_accountsToPoll (registerPolled me uuid1 timer
      (set_polled p m (pl_errorCallbackId p)) ld).1) user (uuid1 0%nat) /\
    owns (pl_accountsToPoll (registerPolled me uuid1 timer
      (set_polled p m (pl_errorCallbackId p)) ld).1) positions (uuid1 1%nat)) as [O1 O2].
  { unfold registerPolled. cbn [pl_accountsToPoll set_polled]. rewrite Em.
    cbn [registerAll atp_publicKey atp_key atp_eventType entry addAccount].
    split; [eexists; split; [by left | done] | eexists; split; [right; by left | done]]. }
  destruct (registerPolled me uuid1 timer _ ld) as [p1 ld1]. cbn in H1, O1, O2.
  destruct H1 as (Hi1 & _ & _ & R1 & _).
  match goal with |- context [registerPolled me uuid2 timer ?q ld1] =>
    pose proof (registerPolled_spec me uuid2 timer q ld1 Hi1) as H2;
    destruct (registerPolled me uuid2 timer q ld1) as [p2 ld2] end.
  cbn in H2. destruct H2 as (Hi2 & _ & _ & R2 & I2).
  pose proof (fun k id => pollUnsubscribe_registered (set_subscribed p2 true) ld2 k id Hi2 eq_refl) as R3.
  assert (pl_accountsToPoll (pollUnsubscribe (set_subscribed p2 true) ld2).1 = []) as H3 by done.
  destruct (pollUnsubscribe _ _) as [p3 ld3]. cbn in R3, H3.
  split_and!; [done | |]; apply R3; (split; [intros Ho; destruct (I2 _ _ Ho) as [j Hj];
    by apply Hids in Hj | apply R2; right; apply R1; by left]).
Qed.
End PollingProperties.
