(* ===== verification/Bulk.v ===== *)
(** * Subscribing many users at once (accounts/bulkUserSubscription.ts)

    [bulkPollingUserSubscribe] registers the accounts of all the users with the
    loader, loads them in one request, and only then subscribes each
    [ClearingHouseUser]; the subscribers find their accounts loaded and send no
    request of their own.  The calls of a [Promise.all] settle in any order: the
    orders of the two phases are arguments.  The users of the array are distinct
    objects; user [i] is the [i]-th of them and the subscriber number [i] of
    Polling.v. *)
From S2P Require Import Prelude BN Types JsMap Slots Loader LoaderSpec Polling PollingSpec.

#[local] Open Scope string_scope.

(** What the calls for user [i] read: its derived address, the answer to the
    fetch of its account, the identifiers it draws, and the result of
    [clearingHouse.subscribe()]. *)
Class BulkEnv := {
  be_publicKey : nat -> PubKey;
  be_fetched : nat -> result UserAccount;
  be_uuid : nat -> nat -> string;
  be_timer : nat;
  be_clearingHouse : nat -> result bool
}.

(** The users (their polling subscriber and the flag [_isSubscribed]) and the
    loader they share. *)
Record BulkState (Account : Type) := mkBulkState {
  bs_users : list (Poller Account * bool);
  bs_loader : BulkAccountLoader PollCallback
}.
Arguments mkBulkState {Account}.
Arguments bs_users {Account}.
Arguments bs_loader {Account}.

Section Bulk.
Context {Account : Type} {P : Program Account} {E : BulkEnv}.
#[local] Abbreviation Loader := (BulkAccountLoader PollCallback).
#[local] Abbreviation State := (BulkState Account).
Implicit Types (s : State) (ld : Loader) (p : Poller Account).

(** [Promise.all] rejects with the first rejection; the other calls go on. *)
Definition firstError (r r' : result unit) : result unit :=
  match r with Throw e => Throw e | Ok _ => r' end.

(** One [addToAccountLoader], its fetch answered; [needs] is its guard, taken
    when the call is made. *)
Definition bulkAddOne (needs : nat -> bool) (x : State * result unit) (i : nat)
    : State * result unit :=
  let '(s, r) := x in
  match bs_users s !! i with
  | None => (s, r)
  | Some (p, flag) =>
      if needs i then
        match be_fetched i with
        | Throw e => (s, firstError r (Throw e))
        | Ok userAccount =>
            let '(p', ld') := userAddToAccountLoader i (be_publicKey i) (ua_positions userAccount)
                                (be_uuid i) be_timer p (bs_loader s) in
            (mkBulkState (<[i:=(p', flag)]> (bs_users s)) ld', r)
        end
      else (s, r)
  end.
Definition needsAccounts s (i : nat) : bool :=
  match bs_users s !! i with Some (p, _) => userNeedsAccounts p | None => false end.
Definition bulkAdd (order : list nat) s : State * result unit :=
  foldl (bulkAddOne (needsAccounts s)) (s, Ok tt) order.

(** The callbacks the loader has run since [ld], in every subscriber. *)
Definition observeAll ld ld' (users : list (Poller Account * bool)) :=
  imap (fun i '(p, flag) =>
    (set_fields p (observe i (drop (length (l_log ld)) (l_log ld')) (pl_fields p)), flag)) users.

(** [await accountLoader.load()] *)
Definition bulkLoad (load : Loader -> Loader) s : State :=
  mkBulkState (observeAll (bs_loader s) (load (bs_loader s)) (bs_users s)) (load (bs_loader s)).

(** [user.subscribe()]: the clearing house, then the account subscriber, whose
    result is the flag. [load] is what a further [load] does. *)
Definition bulkSubscribeOne (load : nat -> Loader -> Loader) (x : State * result unit) (i : nat)
    : State * result unit :=
  let '(s, r) := x in
  match bs_users s !! i with
  | None => (s, r)
  | Some (p, flag) =>
      match be_clearingHouse i with
      | Throw e => (s, firstError r (Throw e))
      | Ok _ =>
          let '(p', ld', r') := userSubscribe i (be_publicKey i) (be_fetched i) (be_uuid i) be_timer
                                  (load i) p (bs_loader s) in
          let users := observeAll (bs_loader s) ld' (bs_users s) in
          match r' with
          | Ok b => (mkBulkState (<[i:=(p', b)]> users) ld', r)
          | Throw e => (mkBulkState (<[i:=(p', flag)]> users) ld', firstError r (Throw e))
          end
      end
  end.

(** [bulkPollingUserSubscribe]: its result, and the state once every call it has
    made is settled *)
Definition bulkPollingUserSubscribe (order order' : list nat) (load : Loader -> Loader)
    (loads : nat -> Loader -> Loader) s : State * result unit :=
  match bulkAdd order s with
  | (s, Throw e) => (s, Throw e)
  | (s, Ok _) => foldl (bulkSubscribeOne loads) (bulkLoad load s, Ok tt) order'
  end.

(** ** One user *)

(** The entries a user's registration leaves. *)
Definition polledBy (i : nat) : list (string * AccountToPoll) :=
  match be_fetched i with
  | Throw _ => []
  | Ok ua =>
      [(be_publicKey i, mkAccountToPoll "user" (be_publicKey i) "userAccountData" (Some (be_uuid i 0)));
       (ua_positions ua, mkAccountToPoll "userPositions" (ua_positions ua) "userPositionsData"
                           (Some (be_uuid i 1)))]
  end.

Definition distinct_accounts (i : nat) : Prop :=
  match be_fetched i with Ok ua => be_publicKey i <> ua_positions ua | Throw _ => True end.

Lemma userAdd_spec i ua p ld : loader_inv ld -> be_fetched i = Ok ua -> distinct_accounts i ->
  pl_accountsToPoll p = [] ->
  let r := userAddToAccountLoader i (be_publicKey i) (ua_positions ua) (be_uuid i) be_timer p ld in
  loader_inv r.2 /\ pl_accountsToPoll r.1 = polledBy i /\
  pl_isSubscribed r.1 = pl_isSubscribed p /\ pl_fields r.1 = pl_fields p /\
  (forall k id, registered r.2 k id <-> owns (polledBy i) k id \/ registered ld k id).
Proof.
  intros Hi Ef Hd Hp. unfold distinct_accounts in Hd. rewrite Ef in Hd. cbn zeta.
  unfold userAddToAccountLoader. rewrite Hp.
  match goal with |- context [registerPolled _ _ _ ?q _] =>
    destruct (registerPolled_spec i (be_uuid i) be_timer q ld Hi) as (H1 & H2 & H3 & H4 & _) end.
  assert (Em : pl_accountsToPoll (registerPolled i (be_uuid i) be_timer (set_polled p
      (js_set (ua_positions ua) (entry "userPositions" (ua_positions ua) "userPositionsData")
        (js_set (be_publicKey i) (entry "user" (be_publicKey i) "userAccountData") []))
      (pl_errorCallbackId p)) ld).1 = polledBy i).
  { unfold polledBy. rewrite Ef. cbn. by rewrite decide_False. }
  rewrite Em in H4. by split_and!.
Qed.

(** What the loader's callbacks read stays read. *)
Lemma observe_keeps i evs fields k : is_Some (fields !! k) ->
  is_Some (observe (Account := Account) i evs fields !! k).
Proof.
  unfold observe. revert fields. induction evs as [| ev evs IH]; intros fields Hk; cbn; [done |].
  apply IH. destruct ev as [k0 cb b | cb err]; [| done]. destruct cb as [m key ev |]; [| done]. cbn.
  destruct (Nat.eqb m i); [| done]. destruct (decodeAccount key b); [| done].
  destruct (decide (key = k)) as [-> |]; [rewrite lookup_insert_eq; by eexists |].
  by rewrite lookup_insert_ne.
Qed.

(** The registrations a user remembers are with the loader. *)
Definition watched ld (i : nat) : Prop :=
  forall k id, owns (polledBy i) k id -> registered ld k id.

(** When they are, [load] ends with both accounts of the user, and they decode. *)
Definition delivers (load : Loader -> Loader) (i : nat) : Prop :=
  match be_fetched i with
  | Throw _ => True
  | Ok ua => forall ld, watched ld i -> exists b a b' a',
      getAccountData (be_publicKey i) (load ld) = Some b /\ decodeAccount "user" (Some b) = Ok a /\
      getAccountData (ua_positions ua) (load ld) = Some b' /\
      decodeAccount "userPositions" (Some b') = Ok a'
  end.

(** A user whose accounts are registered: [subscribe] reads what is missing. *)
Definition loaded p : Prop :=
  is_Some (pl_fields p !! "user") /\ is_Some (pl_fields p !! "userPositions").

Lemma userSubscribe_registered i ua load p ld : be_fetched i = Ok ua -> delivers load i ->
  emit_run i "update" = None -> (forall l, same_accounts l (load l)) ->
  pl_isSubscribed p = false -> pl_accountsToPoll p = polledBy i -> watched ld i ->
  exists p' ld',
    userSubscribe i (be_publicKey i) (be_fetched i) (be_uuid i) be_timer load p ld = (p', ld', Ok true) /\
    same_accounts ld ld' /\ pl_accountsToPoll p' = polledBy i /\ pl_isSubscribed p' = true /\
    loaded p' /\ (loaded p -> ld' = ld).
Proof.
  intros Ef Hl Hemit Hreg Hs Hp Hw. unfold delivers in Hl. rewrite Ef in Hl.
  destruct (Hl ld Hw) as (b & x & b' & x' & D1 & D2 & D3 & D4).
  unfold polledBy in *. rewrite Ef in *. clear Hl Hw.
  unfold userSubscribe, userNeedsAccounts, loaded. rewrite Hs, Hp. cbn [length Nat.eqb].
  unfold fetchIfUnloaded, shouldFetch. rewrite Hp. cbn [existsb atp_key snd].
  destruct (decide (is_Some (pl_fields p !! "user") /\ is_Some (pl_fields p !! "userPositions"))) as [[[a E1] [a' E2]] | Hn].
  - rewrite E1, E2. cbn. rewrite Hemit. exists (set_subscribed p true), ld.
    split_and!; try done; cbn; rewrite ?E1, ?E2; by eexists.
  - assert (F : (match pl_fields p !! "user" with None => true | Some _ => false end ||
      (match pl_fields p !! "userPositions" with None => true | Some _ => false end || false))%bool
      = true).
    { destruct (pl_fields p !! "user"), (pl_fields p !! "userPositions"); try done.
      exfalso. by apply Hn; split; eexists. }
    rewrite F. unfold fetchDone. rewrite Hp. cbn [readAll atp_publicKey atp_key].
    rewrite D1, D2, D3, D4. cbn. rewrite Hemit. eexists _, _. split; [reflexivity |].
    split; [apply Hreg |]. split; [done |]. split; [done |]. split; [| by intros ?].
    split; cbn; [rewrite lookup_insert_ne by done |]; rewrite lookup_insert_eq; by eexists.
Qed.

(** ** The phases *)
Lemma bulkAdd_fold needs order s r0 : loader_inv (bs_loader s) -> NoDup order ->
  (forall i, i ∈ order -> needs i = true /\ distinct_accounts i /\
     exists p f, bs_users s !! i = Some (p, f) /\ pl_accountsToPoll p = []) ->
  let x := foldl (bulkAddOne needs) (s, r0) order in
  loader_inv (bs_loader x.1) /\
  (forall i, i ∉ order -> bs_users x.1 !! i = bs_users s !! i) /\
  (forall i p f, i ∈ order -> bs_users s !! i = Some (p, f) ->
     exists p', bs_users x.1 !! i = Some (p', f) /\ pl_accountsToPoll p' = polledBy i /\
       pl_isSubscribed p' = pl_isSubscribed p) /\
  (forall k id, registered (bs_loader x.1) k id <->
     (exists i, i ∈ order /\ owns (polledBy i) k id) \/ registered (bs_loader s) k id) /\
  x.2 = foldl (fun r i => firstError r (_ ← be_fetched i; Ok tt)) r0 order.
Proof.
  revert s r0. induction order as [| i order IH]; intros s r0 Hi Hnd Hu; cbn [foldl].
  { split_and!; try done; [by intros i p f ?%not_elem_of_nil |].
    intros k id. split; [by right |]. by intros [(i & ?%not_elem_of_nil & _) |]. }
  apply NoDup_cons in Hnd as [Hn Hnd].
  destruct (Hu i ltac:(by left)) as (Hneeds & Hd & p & f & Hp & Hpoll).
  assert (St : exists s1, bulkAddOne needs (s, r0) i = (s1, firstError r0 (_ ← be_fetched i; Ok tt)) /\
    loader_inv (bs_loader s1) /\ (forall j, j <> i -> bs_users s1 !! j = bs_users s !! j) /\
    (exists p', bs_users s1 !! i = Some (p', f) /\ pl_accountsToPoll p' = polledBy i /\
       pl_isSubscribed p' = pl_isSubscribed p) /\
    (forall k id, registered (bs_loader s1) k id <->
       owns (polledBy i) k id \/ registered (bs_loader s) k id)).
  { unfold bulkAddOne. rewrite Hp, Hneeds. destruct (be_fetched i) as [ua | e] eqn:Ef; cbn.
    - destruct (userAdd_spec i ua p (bs_loader s) Hi Ef Hd Hpoll) as (H1 & H2 & H3 & _ & H4).
      destruct (userAddToAccountLoader _ _ _ _ _ _ _) as [p' ld']. cbn in *.
      eexists. split; [by destruct r0 as [[] |] |]. split; [exact H1 |]. cbn.
      split; [by intros j Hj; rewrite list_lookup_insert_ne by done |].
      split; [| exact H4]. exists p'.
      rewrite list_lookup_insert_eq; [done | by eapply lookup_lt_Some].
    - exists s. split; [done |]. split; [done |]. split; [done |]. unfold polledBy. rewrite Ef.
      split; [by exists p |]. intros k id. split; [by right |].
      by intros [(x & ?%not_elem_of_nil & _) |]. }
  destruct St as (s1 & -> & Hi1 & Hoth & (p' & Hp' & Hpoll' & Hsub') & Hreg).
  destruct (IH s1 (firstError r0 (_ ← be_fetched i; Ok tt)) Hi1 Hnd) as (I1 & I2 & I3 & I4 & I5).
  { intros j Hj. destruct (Hu j ltac:(by right)) as (? & ? & Hx). split_and!; [done | done |].
    rewrite Hoth; [done | by intros ->]. }
  split_and!; [exact I1 | | | | exact I5].
  - intros j Hj. apply not_elem_of_cons in Hj as [Hj1 Hj2]. by rewrite I2, Hoth.
  - intros j q g Hj Hq. apply elem_of_cons in Hj as [-> | Hj].
    + rewrite Hp in Hq. injection Hq as <- <-. exists p'. by rewrite I2.
    + apply (I3 j q g Hj). rewrite Hoth; [done | by intros ->].
  - intros k id. rewrite I4, Hreg. split.
    + intros [(j & Hj & Ho) | [Ho | Hr]]; [left; exists j | left; exists i | by right];
        (split; [by constructor |]; done).
    + intros [(j & Hj & Ho) | Hr]; [| by right; right].
      apply elem_of_cons in Hj as [-> | Hj]; [by right; left | by left; exists j].
Qed.

Lemma bulkAdd_length needs order x :
  length (bs_users (foldl (bulkAddOne needs) x order).1) = length (bs_users x.1).
Proof.
  revert x. induction order as [| i order IH]; intros [s r]; cbn [foldl]; [done |].
  rewrite IH. unfold bulkAddOne. destruct (bs_users s !! i) as [[p f] |]; [| done].
  destruct (needs i), (be_fetched i); try done.
  destruct (userAddToAccountLoader _ _ _ _ _ _ _) as [p' ld']. apply length_insert.
Qed.

Lemma observeAll_lookup ld ld' users i p f : users !! i = Some (p, f) ->
  exists p', observeAll ld ld' users !! i = Some (p', f) /\
    pl_accountsToPoll p' = pl_accountsToPoll p /\ pl_isSubscribed p' = pl_isSubscribed p /\
    (loaded p -> loaded p').
Proof.
  intros Hi. unfold observeAll. rewrite list_lookup_imap, Hi. cbn. eexists. split; [reflexivity |].
  split; [done |]. split; [done |]. intros [H1 H2]. split; by apply observe_keeps.
Qed.

Lemma watched_same ld ld' i : same_accounts ld ld' -> watched ld i -> watched ld' i.
Proof. intros (Ha & Hh & _) Hw k id Ho. rewrite (registered_same ld); auto. Qed.

(** Nothing goes wrong in the calls for user [i]. *)
Record untroubled (loads : nat -> Loader -> Loader) (i : nat) : Prop := {
  ut_fetched : exists ua, be_fetched i = Ok ua;
  ut_clearingHouse : exists b, be_clearingHouse i = Ok b;
  ut_emit : emit_run i "update" = None;
  ut_loads : delivers (loads i) i;
  ut_registry : forall l, same_accounts l (loads i l)
}.

(** One user's [subscribe]: it is subscribed; the others have read more. *)
Lemma bulkSubscribeOne_spec loads s r i p f : untroubled loads i ->
  bs_users s !! i = Some (p, f) -> pl_accountsToPoll p = polledBy i -> pl_isSubscribed p = false ->
  watched (bs_loader s) i ->
  exists s', bulkSubscribeOne loads (s, r) i = (s', r) /\
    same_accounts (bs_loader s) (bs_loader s') /\ (loaded p -> bs_loader s' = bs_loader s) /\
    (exists p', bs_users s' !! i = Some (p', true) /\ pl_accountsToPoll p' = polledBy i /\
       pl_isSubscribed p' = true /\ loaded p') /\
    (forall j q g, j <> i -> bs_users s !! j = Some (q, g) ->
       exists q', bs_users s' !! j = Some (q', g) /\ pl_accountsToPoll q' = pl_accountsToPoll q /\
         pl_isSubscribed q' = pl_isSubscribed q /\ (loaded q -> loaded q')).
Proof.
  intros [[ua Ef] [b Ec] Hemit Hl Hreg] Hp Hpoll Hs Hw.
  destruct (userSubscribe_registered i ua (loads i) p (bs_loader s) Ef Hl Hemit Hreg Hs Hpoll Hw)
    as (p' & ld' & Eu & H1 & H2 & H3 & H4 & H5).
  unfold bulkSubscribeOne. rewrite Hp, Ec, Eu. eexists. split; [reflexivity |]. cbn.
  split; [exact H1 |]. split; [exact H5 |]. split.
  - exists p'. rewrite list_lookup_insert_eq; [done |].
    unfold observeAll. rewrite length_imap. by eapply lookup_lt_Some.
  - intros j q g Hj Hq. rewrite list_lookup_insert_ne by done. by apply observeAll_lookup.
Qed.

Lemma bulkSubscribe_length loads order x :
  length (bs_users (foldl (bulkSubscribeOne loads) x order).1) = length (bs_users x.1).
Proof.
  revert x. induction order as [| i order IH]; intros [s r]; cbn [foldl]; [done |].
  rewrite IH. unfold bulkSubscribeOne. destruct (bs_users s !! i) as [[p f] |]; [| done].
  destruct (be_clearingHouse i); [| done].
  destruct (userSubscribe _ _ _ _ _ _ _ _) as [[p' ld'] [b | e]]; cbn;
    by rewrite length_insert; unfold observeAll; rewrite length_imap.
Qed.

Lemma bulkSubscribe_fold loads order s r : NoDup order ->
  (forall i, i ∈ order -> untroubled loads i /\ watched (bs_loader s) i /\
     exists p f, bs_users s !! i = Some (p, f) /\ pl_accountsToPoll p = polledBy i /\
       pl_isSubscribed p = false) ->
  let x := foldl (bulkSubscribeOne loads) (s, r) order in
  x.2 = r /\ same_accounts (bs_loader s) (bs_loader x.1) /\
  (forall i p f, bs_users s !! i = Some (p, f) ->
     exists p' f', bs_users x.1 !! i = Some (p', f') /\
       pl_accountsToPoll p' = pl_accountsToPoll p /\ (loaded p -> loaded p') /\
       (i ∈ order -> pl_isSubscribed p' = true /\ f' = true /\ loaded p') /\
       (i ∉ order -> pl_isSubscribed p' = pl_isSubscribed p /\ f' = f)) /\
  ((forall i p f, i ∈ order -> bs_users s !! i = Some (p, f) -> loaded p) ->
     bs_loader x.1 = bs_loader s).
Proof.
  revert s. induction order as [| i order IH]; intros s Hnd Hu; cbn [foldl].
  { split_and!; try done. intros i p f Hp. exists p, f. by split_and!; try done; intros ?%not_elem_of_nil. }
  apply NoDup_cons in Hnd as [Hn Hnd].
  destruct (Hu i ltac:(by left)) as (Hut & Hw & p & f & Hp & Hpoll & Hs).
  destruct (bulkSubscribeOne_spec loads s r i p f Hut Hp Hpoll Hs Hw)
    as (s1 & -> & R1 & L1 & (p1 & U1 & A1 & S1 & D1) & O1).
  destruct (IH s1 Hnd) as (I1 & I2 & I3 & I4).
  { intros j Hj. destruct (Hu j ltac:(by right)) as (Hj' & Hwj & q & g & Hq & Q1 & Q2). split; [done |].
    split; [by apply (watched_same (bs_loader s)) |].
    destruct (O1 j q g) as (q' & E1 & E2 & E3 & _); [by intros -> | done |].
    exists q', g. rewrite E2, E3. by split_and!. }
  split_and!; [exact I1 | by etrans | |].
  - intros j q g Hq. destruct (decide (j = i)) as [-> | Hj].
    + rewrite Hp in Hq. injection Hq as <- <-. destruct (I3 i p1 true U1) as (p2 & f2 & V1 & V2 & V3 & _ & V5).
      destruct (V5 Hn) as [V6 ->]. exists p2, true. rewrite V2, A1, V6, S1.
      split_and!; auto. intros Hni. exfalso. apply Hni. by left.
    + destruct (O1 j q g Hj Hq) as (q' & E1 & E2 & E3 & E4).
      destruct (I3 j q' g E1) as (p2 & f2 & V1 & V2 & V3 & V4 & V5). exists p2, f2.
      rewrite V2, E2. split_and!; auto.
      * intros Hin. apply V4. by apply elem_of_cons in Hin as [-> | ?].
      * intros Hni. apply not_elem_of_cons in Hni as [_ Hni]. rewrite <- E3. by apply V5.
  - intros Hall. rewrite I4; [apply L1; eapply Hall; [by left | done] |].
    intros j q g Hj Hq.
    destruct (Hu j ltac:(by right)) as (_ & _ & q0 & g0 & Hq0 & _).
    destruct (O1 j q0 g0) as (q' & E1 & _ & _ & E4); [by intros -> | done |].
    rewrite Hq in E1. injection E1 as -> ->. apply E4. eapply Hall; [by right | done].
Qed.

(** The first failed fetch, in the order of the answers. *)
Lemma first_error_ok order :
  (forall i, i ∈ order -> exists ua, be_fetched i = Ok ua) ->
  foldl (fun r i => firstError r (_ ← be_fetched i; Ok tt)) (Ok tt) order = Ok tt.
Proof.
  induction order as [| i order IH]; intros H; cbn; [done |].
  destruct (H i ltac:(by left)) as [ua ->]. cbn. apply IH. intros j Hj. apply H. by right.
Qed.
Lemma first_error_throws order r0 :
  match foldl (fun r i => firstError r (_ ← be_fetched i; Ok tt)) r0 order with
  | Throw e => r0 = Throw e \/ exists i, i ∈ order /\ be_fetched i = Throw e
  | Ok _ => r0 = Ok tt /\ forall i, i ∈ order -> exists ua, be_fetched i = Ok ua
  end.
Proof.
  revert r0. induction order as [| i order IH]; intros r0; cbn [foldl].
  { destruct r0 as [[] | e]; [| by left]. split; [done |]. by intros i ?%not_elem_of_nil. }
  specialize (IH (firstError r0 (_ ← be_fetched i; Ok tt))).
  destruct (foldl _ _ order) as [[] | e]; destruct r0 as [[] | e0]; cbn in IH.
  - destruct IH as [H1 H2]. split; [done |]. intros j Hj.
    apply elem_of_cons in Hj as [-> | Hj]; [| by apply H2].
    destruct (be_fetched i); [by eexists | done].
  - by destruct IH.
  - destruct IH as [H | (j & Hj & H)]; right; [exists i | exists j].
    + destruct (be_fetched i); [done |]. injection H as ->. split; [by left | done].
    + split; [by right | done].
  - destruct IH as [[= ->] | (j & Hj & H)]; [by left | right; exists j].
    split; [by right | done].
Qed.

(** Unsubscribing all the users. *)
Lemma pollUnsubscribe_inv p ld : loader_inv ld -> loader_inv (pollUnsubscribe p ld).2.
Proof.
  intros Hi. unfold pollUnsubscribe. destruct (pl_isSubscribed p); [| done]. cbn.
  destruct (removeAll_registered (pl_accountsToPoll p) ld "" "" Hi) as [[H1 H2 H3 H4] _].
  by destruct (pl_errorCallbackId p).
Qed.

Definition unsubscribeAll (users : list (Poller Account * bool)) ld : Loader :=
  foldl (fun l u => (pollUnsubscribe u.1 l).2) ld users.

Lemma unsubscribeAll_registered users ld k id : loader_inv ld ->
  (forall u, u ∈ users -> pl_isSubscribed u.1 = true) ->
  registered (unsubscribeAll users ld) k id <->
  (forall u, u ∈ users -> ~ owns (pl_accountsToPoll u.1) k id) /\ registered ld k id.
Proof.
  unfold unsubscribeAll. revert ld. induction users as [| u users IH]; intros ld Hi Hs; cbn.
  { split; [| by intros []]. intros H. split; [by intros u ?%not_elem_of_nil | done]. }
  assert (Hsu : pl_isSubscribed u.1 = true) by (apply Hs; by left).
  assert (Hi1 : loader_inv (pollUnsubscribe u.1 ld).2) by (by apply pollUnsubscribe_inv).
  rewrite IH, pollUnsubscribe_registered; [| done | done | done |].
  2: { intros v Hv. apply Hs. by right. }
  split.
  - intros (H1 & H2 & H3). split; [| done]. intros v Hv.
    apply elem_of_cons in Hv as [-> | Hv]; [done | by apply H1].
  - intros (H1 & H2). split_and!; [| | done]; [intros v Hv; apply H1; by right | apply H1; by left].
Qed.

(** The first phase on users that have not been registered yet. *)
Definition all_new s : Prop :=
  forall u, u ∈ bs_users s -> pl_accountsToPoll u.1 = [] /\ pl_isSubscribed u.1 = false.

Lemma all_new_lookup s i : all_new s -> (i < length (bs_users s))%nat ->
  exists p f, bs_users s !! i = Some (p, f) /\ pl_accountsToPoll p = [] /\ pl_isSubscribed p = false.
Proof.
  intros Hnew Hlt. destruct (lookup_lt_is_Some_2 _ _ Hlt) as [[p f] Hp].
  exists p, f. split; [done |]. exact (Hnew (p, f) (list_elem_of_lookup_2 _ _ _ Hp)).
Qed.

(** The identifiers of a user's registrations are its own. *)
Lemma polledBy_ids i k id : owns (polledBy i) k id -> exists j, id = be_uuid i j.
Proof.
  unfold polledBy. destruct (be_fetched i); [| by intros (x & ?%not_elem_of_nil & _)].
  rewrite !owns_cons. cbn. intros [[_ [= <-]] | [[_ [= <-]] | (x & ?%not_elem_of_nil & _)]]; eauto; done.
Qed.

Lemma in_permutation order n i : order ≡ₚ seq 0 n -> i ∈ order <-> (i < n)%nat.
Proof. intros ->. rewrite elem_of_seq. lia. Qed.

Lemma bulkAdd_new order s : loader_inv (bs_loader s) -> all_new s ->
  order ≡ₚ seq 0 (length (bs_users s)) ->
  (forall i, (i < length (bs_users s))%nat -> distinct_accounts i) ->
  let x := bulkAdd order s in
  loader_inv (bs_loader x.1) /\
  length (bs_users x.1) = length (bs_users s) /\
  (forall i, (i < length (bs_users s))%nat -> exists p f,
     bs_users x.1 !! i = Some (p, f) /\ pl_accountsToPoll p = polledBy i /\
     pl_isSubscribed p = false) /\
  (forall k id, registered (bs_loader x.1) k id <->
     (exists i, (i < length (bs_users s))%nat /\ owns (polledBy i) k id) \/
     registered (bs_loader s) k id) /\
  x.2 = foldl (fun r i => firstError r (_ ← be_fetched i; Ok tt)) (Ok tt) order.
Proof.
  intros Hi Hnew Ho Hd. cbn zeta.
  destruct (bulkAdd_fold (needsAccounts s) order s (Ok tt) Hi) as (H1 & _ & H3 & H4 & H5).
  { rewrite Ho. apply NoDup_seq. }
  { intros i Hin. apply (in_permutation _ _ _ Ho) in Hin.
    destruct (all_new_lookup s i Hnew Hin) as (p & f & Hp & Hpoll & _).
    split; [| split; [by apply Hd | by exists p, f] ].
    unfold needsAccounts. rewrite Hp. unfold userNeedsAccounts. by rewrite Hpoll. }
  split; [exact H1 |]. split.
  { apply bulkAdd_length. }
  split.
  { intros i Hlt. destruct (all_new_lookup s i Hnew Hlt) as (p & f & Hp & _ & Hs).
    destruct (H3 i p f) as (p' & E1 & E2 & E3); [by apply (in_permutation _ _ _ Ho) | done |].
    exists p', f. rewrite E3. by split_and!. }
  split; [| exact H5]. intros k id. unfold bulkAdd. rewrite H4.
  by setoid_rewrite (in_permutation order _ _ Ho).
Qed.

(** ** Properties *)

(** *** A run in which nothing goes wrong *)
Section Calm.
Context (order order' : list nat) (load : Loader -> Loader) (loads : nat -> Loader -> Loader) (s : State).
Context (Hi : loader_inv (bs_loader s)) (Hnew : all_new s)
  (Ho : order ≡ₚ seq 0 (length (bs_users s))) (Ho' : order' ≡ₚ seq 0 (length (bs_users s)))
  (Hu : forall i, (i < length (bs_users s))%nat -> untroubled loads i /\ distinct_accounts i)
  (Hload : forall l, same_accounts l (load l)).
#[local] Abbreviation n := (length (bs_users s)).

(** The users at the end, the loader and its registrations. *)
Lemma bulk_settled :
  let '(s', r) := bulkPollingUserSubscribe order order' load loads s in
  let all_loaded := bulkLoad load (bulkAdd order s).1 in
  r = Ok tt /\ loader_inv (bs_loader s') /\ length (bs_users s') = n /\
  (forall i, (i < n)%nat -> exists p, bs_users s' !! i = Some (p, true) /\
     pl_accountsToPoll p = polledBy i /\ pl_isSubscribed p = true /\ loaded p) /\
  (forall k id, registered (bs_loader s') k id <->
     (exists i, (i < n)%nat /\ owns (polledBy i) k id) \/ registered (bs_loader s) k id) /\
  ((forall u, u ∈ bs_users all_loaded -> loaded u.1) -> bs_loader s' = bs_loader all_loaded).
Proof.
  destruct (bulkAdd_new order s Hi Hnew Ho ltac:(intros; by apply Hu)) as (A1 & A5 & A2 & A3 & A4).
  rewrite first_error_ok in A4.
  2: { intros i Hin. apply (in_permutation _ _ _ Ho) in Hin. exact (ut_fetched _ _ (proj1 (Hu i Hin))). }
  unfold bulkPollingUserSubscribe. destruct (bulkAdd order s) as [s1 r1]. cbn in A1, A2, A3, A4, A5 |- *.
  subst r1. set (s2 := bulkLoad load s1).
  assert (U2 : forall i, (i < n)%nat -> exists p f, bs_users s2 !! i = Some (p, f) /\
    pl_accountsToPoll p = polledBy i /\ pl_isSubscribed p = false).
  { intros i Hlt. destruct (A2 i Hlt) as (p & f & Hp & B1 & B2).
    destruct (observeAll_lookup (bs_loader s1) (load (bs_loader s1)) _ i p f Hp)
      as (p' & E1 & E2 & E3 & _). exists p', f. by rewrite E2, E3. }
  destruct (bulkSubscribe_fold loads order' s2 (Ok tt)) as (C1 & C2 & C3 & C4).
  { rewrite Ho'. apply NoDup_seq. }
  { intros i Hin. apply (in_permutation _ _ _ Ho') in Hin. split_and!; [by apply Hu | | by apply U2].
    apply (watched_same (bs_loader s1)); [apply Hload |]. intros k id Hown. apply A3. eauto. }
  pose proof (bulkSubscribe_length loads order' (s2, Ok tt)) as C0.
  destruct (foldl (bulkSubscribeOne loads) (s2, Ok tt) order') as [s' r]. cbn in C0, C1, C2, C3, C4.
  assert (U3 : forall i, (i < n)%nat -> exists p, bs_users s' !! i = Some (p, true) /\
    pl_accountsToPoll p = polledBy i /\ pl_isSubscribed p = true /\ loaded p).
  { intros i Hlt. destruct (U2 i Hlt) as (p & f & Hp & B1 & _).
    destruct (C3 i p f Hp) as (p' & f' & E1 & E2 & _ & E4 & _).
    destruct (E4 (proj2 (in_permutation _ _ _ Ho') Hlt)) as (E5 & -> & E6).
    exists p'. rewrite E2, B1. by split_and!. }
  assert (Hlen : length (bs_users s') = n) by (rewrite C0; unfold s2, bulkLoad, observeAll; cbn;
    rewrite length_imap; exact A5).
  pose proof (transitivity (Hload (bs_loader s1)) C2) as Hsame.
  assert (R : forall k id, registered (bs_loader s') k id <->
    (exists i, (i < n)%nat /\ owns (polledBy i) k id) \/ registered (bs_loader s) k id).
  { intros k id. rewrite <- A3. destruct Hsame as (Ha & Hh & _). by apply registered_same. }
  split; [done |]. split; [by apply (same_accounts_inv (bs_loader s1)) |].
  split; [exact Hlen |]. split; [exact U3 |]. split; [exact R |].
  intros Hall. apply C4. intros i p f _ Hp. exact (Hall (p, f) (list_elem_of_lookup_2 _ _ _ Hp)).
Qed.

(** When nothing goes wrong, subscribing many users subscribes them all, in
    whatever order their calls settle: both accounts of each can be read and each
    is registered with the loader under the identifiers it remembers; if the one
    request made for all of them brought every account, no user sends another;
    and unsubscribing them all leaves the loader's registrations as they were. *)
Theorem bulk_subscription :
  (forall k i j, ~ registered (bs_loader s) k (be_uuid i j)) ->
  let '(s', r) := bulkPollingUserSubscribe order order' load loads s in
  let all_loaded := bulkLoad load (bulkAdd order s).1 in
  r = Ok tt /\
  (forall i, (i < length (bs_users s))%nat -> exists p a b,
     bs_users s' !! i = Some (p, true) /\ pl_accountsToPoll p = polledBy i /\
     getUserAccount p = Ok (Some a) /\ getUserPositionsAccount p = Ok (Some b)) /\
  (forall k id, registered (bs_loader s') k id <->
     (exists i, (i < length (bs_users s))%nat /\ owns (polledBy i) k id) \/
     registered (bs_loader s) k id) /\
  ((forall u, u ∈ bs_users all_loaded -> loaded u.1) -> bs_loader s' = bs_loader all_loaded) /\
  (forall k id, registered (unsubscribeAll (bs_users s') (bs_loader s')) k id <->
     registered (bs_loader s) k id).
Proof.
  intros Hfresh. pose proof bulk_settled as H.
  destruct (bulkPollingUserSubscribe _ _ _ _ _) as [s' r]. destruct H as (Hr & Hinv & Hlen & U & R & One).
  assert (Hu' : forall u, u ∈ bs_users s' -> exists i p, (i < n)%nat /\ u = (p, true) /\
    pl_accountsToPoll p = polledBy i /\ pl_isSubscribed p = true).
  { intros u [i Hui]%list_elem_of_lookup. pose proof (lookup_lt_Some _ _ _ Hui) as Hlt.
    rewrite Hlen in Hlt. destruct (U i Hlt) as (p & E1 & E2 & E3 & _). exists i, p.
    rewrite Hui in E1. injection E1 as ->. done. }
  split; [done |]. split; [| split; [exact R | split; [exact One |] ] ].
  - intros i Hlt. destruct (U i Hlt) as (p & E1 & E2 & E3 & [a Ea] & [b Eb]).
    exists p, a, b. split; [done |]. split; [done |].
    unfold getUserAccount, getUserPositionsAccount, getField, assertIsSubscribed.
    by rewrite E3; cbn; rewrite Ea, Eb.
  - intros k id. rewrite unsubscribeAll_registered, R.
    2: { exact Hinv. }
    2: { intros u Hin. by destruct (Hu' u Hin) as (i & p & _ & -> & _ & Hsub). }
    split.
    + intros [H1 [(i & Hlt & Ho1) | H2] ]; [| done]. exfalso.
      destruct (U i Hlt) as (p & E1 & E2 & _).
      apply (H1 (p, true)); [by eapply list_elem_of_lookup_2 | by cbn; rewrite E2].
    + intros H. split; [| by right]. intros u Hin Ho1.
      destruct (Hu' u Hin) as (i & p & _ & -> & Hpoll & _). cbn in Ho1. rewrite Hpoll in Ho1.
      destruct (polledBy_ids _ _ _ Ho1) as [j ->]. by apply (Hfresh k i j).
Qed.
End Calm.

(** When the account of one user cannot be fetched, subscribing rejects with
    such an error and subscribes nobody; but the accounts of the other users stay
    registered with the loader, which goes on polling them, and unsubscribing
    these users does not take them back. *)
Theorem bulk_failed_fetch order order' load loads s :
  loader_inv (bs_loader s) ->
  all_new s ->
  order ≡ₚ seq 0 (length (bs_users s)) ->
  (forall i, (i < length (bs_users s))%nat -> distinct_accounts i) ->
  (exists i e, (i < length (bs_users s))%nat /\ be_fetched i = Throw e) ->
  let '(s', r) := bulkPollingUserSubscribe order order' load loads s in
  (exists i e, r = Throw e /\ be_fetched i = Throw e) /\
  forall i ua, (i < length (bs_users s))%nat -> be_fetched i = Ok ua ->
    registered (bs_loader s') (be_publicKey i) (be_uuid i 0) /\
    registered (bs_loader s') (ua_positions ua) (be_uuid i 1) /\
    exists p flag, bs_users s' !! i = Some (p, flag) /\ getUserAccount p = Throw NOT_SUBSCRIBED /\
      forall ld, pollUnsubscribe p ld = (p, ld).
Proof.
  intros Hi Hnew Ho Hd (i0 & e0 & Hlt0 & He0).
  destruct (bulkAdd_new order s Hi Hnew Ho Hd) as (_ & _ & A2 & A3 & A4).
  unfold bulkPollingUserSubscribe. destruct (bulkAdd order s) as [s1 r1]. cbn in A2, A3, A4.
  pose proof (first_error_throws order (Ok tt)) as Hf. rewrite <- A4 in Hf.
  destruct r1 as [[] | e].
  - destruct Hf as [_ Hf]. destruct (Hf i0) as [ua Hua]; [by apply (in_permutation _ _ _ Ho) | congruence].
  - destruct Hf as [Hf | (i & _ & Hf)]; [done |]. split; [by exists i, e |].
    intros j ua Hlt Hua. destruct (A2 j Hlt) as (p & f & Hp & B1 & B2).
    unfold polledBy in A3. split; [| split].
    + apply A3. left. exists j. split; [done |]. rewrite Hua. eexists. split; [by left | done].
    + apply A3. left. exists j. split; [done |]. rewrite Hua.
      eexists. split; [right; by left | done].
    + exists p, f. split; [done |]. unfold getUserAccount, getField, assertIsSubscribed.
      unfold pollUnsubscribe. by rewrite B2.
Qed.
End Bulk.
