(* ===== verification/History.v ===== *)
(** * The program's histories (programs/clearing_house: state/history)

    Trades, deposits, funding payments, funding rates, liquidations and changes of
    the curve are each recorded in a ring of a fixed number of records, numbered
    through the record written last.  [Recorded] says what a ring holds after a
    sequence of records: the refinement the handlers' logs rely on. *)
From S2P Require Import Prelude BN Types Checked.

(** What the rings need of a record: its number. *)
Class Numbered (R : Type) := record_id : R -> Z.

(** A Rust array indexed by a [u64]; [index_of] converts, out of bounds panics. *)
Record History (R : Type) := mkHistory { head : Z; records : list R }.
Arguments mkHistory {R} head records.
Arguments head {R} _.
Arguments records {R} _.

Section History.
Context {R : Type} `{Numbered R}.

Definition at_index (rs : list R) (i : Z) : ClearingHouseResult R :=
  match js_index rs i with Some r => ROk r | None => RErr Panic end.

(** [append] with the constant of its modulo, which is the length of the array but
    for the extended history of the curve, of 1024 records, where it is 1023. *)
Definition append_mod (modulus : Z) (h : History R) (pos : R) : ClearingHouseResult (History R) :=
  _ ← at_index (records h) (head h);
  ROk (mkHistory ((head h + 1) mod modulus) (<[Z.to_nat (head h) := pos]> (records h))).
Definition append (h : History R) (pos : R) : ClearingHouseResult (History R) :=
  append_mod (Z.of_nat (length (records h))) h pos.

(** [next_record_id]; the addition of the release build wraps. *)
Definition next_record_id (h : History R) : ClearingHouseResult Z :=
  let prev_record_id :=
    if head h =? 0 then Z.of_nat (length (records h)) - 1 else head h - 1 in
  prev_record ← at_index (records h) prev_record_id;
  ROk ((record_id prev_record + 1) mod 2 ^ 128).

(** ** What a ring holds

    [Recorded n h log]: the ring of [n] slots holds the last [n] records of [log],
    whose numbers are 1, 2, ..., and unwritten slots hold the number 0. *)
Record Recorded (n : nat) (h : History R) (log : list R) : Prop := {
  rec_length : length (records h) = n;
  rec_head : head h = Z.of_nat (length log mod n)%nat;
  rec_ids : forall i r, log !! i = Some r -> record_id r = Z.of_nat i + 1;
  rec_held : forall i, (i < length log)%nat -> (length log <= i + n)%nat ->
    records h !! (i mod n)%nat = log !! i;
  rec_fresh : forall i, (length log <= i < n)%nat ->
    exists r, records h !! i = Some r /\ record_id r = 0
}.

Lemma js_index_Some (l : list R) (i : nat) r :
  l !! i = Some r -> js_index l (Z.of_nat i) = Some r.
Proof.
  intros Hi. unfold js_index. rewrite (proj2 (Z.leb_le 0 _)) by lia. by rewrite Nat2Z.id.
Qed.

(** The slot before the head. *)
Lemma ring_prev (n len : nat) : (0 < n)%nat ->
  (if Z.of_nat (len mod n)%nat =? 0 then Z.of_nat n - 1 else Z.of_nat (len mod n)%nat - 1) =
  Z.of_nat ((len + n - 1) mod n)%nat.
Proof.
  intros Hn. pose proof (Nat.div_mod len n ltac:(lia)) as E.
  pose proof (Nat.mod_upper_bound len n ltac:(lia)).
  destruct (Z.eqb_spec (Z.of_nat (len mod n)%nat) 0) as [Z0 | NZ].
  - rewrite <- (Nat.mod_unique (len + n - 1) n (len `div` n) (n - 1)); nia.
  - rewrite <- (Nat.mod_unique (len + n - 1) n (len `div` n + 1) (len mod n - 1)); nia.
Qed.

Lemma recorded_next (n : nat) h log : (0 < n)%nat -> Recorded n h log ->
  Z.of_nat (length log) + 1 < 2 ^ 128 ->
  next_record_id h = ROk (Z.of_nat (length log) + 1).
Proof.
  intros Hn [Hlen Hhead Hids Hheld Hfresh] Hbig. unfold next_record_id.
  rewrite Hlen, Hhead, ring_prev by done. unfold at_index.
  assert (exists r, records h !! ((length log + n - 1) mod n)%nat = Some r /\
            record_id r = Z.of_nat (length log)) as (r & Hr & Hid).
  { destruct log as [| r0 log0] eqn:E using rev_ind.
    - cbn. rewrite (Nat.mod_small (n - 1)) by lia.
      destruct (Hfresh (n - 1)%nat) as (r & ? & ?); [cbn; lia | eauto].
    - clear IHlog0. exists r0. rewrite length_app in *. cbn in *.
      replace (length log0 + 1 + n - 1)%nat with (length log0 + 1 * n)%nat by lia.
      rewrite Nat.Div0.mod_add. rewrite Hheld by (rewrite ?length_app; cbn; lia).
      rewrite lookup_app_r, Nat.sub_diag by lia. split; [done |].
      rewrite (Hids (length log0) r0); [lia |].
      by rewrite lookup_app_r, Nat.sub_diag by lia. }
  erewrite js_index_Some by exact Hr. cbn. rewrite Hid. f_equal. apply Z.mod_small. lia.
Qed.

Lemma recorded_append (n : nat) h log r : (0 < n)%nat -> Recorded n h log ->
  record_id r = Z.of_nat (length log) + 1 ->
  exists h', append h r = ROk h' /\ Recorded n h' (log ++ [r]).
Proof.
  intros Hn [Hlen Hhead Hids Hheld Hfresh] Hid. unfold append, append_mod, at_index.
  pose proof (Nat.mod_upper_bound (length log) n ltac:(lia)) as Hb.
  destruct (lookup_lt_is_Some_2 (records h) (length log mod n)%nat) as [x Hx]; [lia |].
  rewrite Hhead. erewrite js_index_Some by exact Hx. cbn. eexists. split; [reflexivity |].
  rewrite Nat2Z.id. split; cbn [head records].
  - by rewrite length_insert.
  - rewrite Hlen, length_app. cbn [length].
    rewrite <- (Nat.Div0.add_mod_idemp_l (length log)), (Nat2Z.inj_mod (_ + _)), Nat2Z.inj_add. done.
  - intros i y Hi. destruct (decide (i = length log)) as [-> | Hne].
    + rewrite lookup_app_r, Nat.sub_diag in Hi by lia. by injection Hi as <-.
    + apply Hids. rewrite lookup_app_l in Hi; [done |].
      apply lookup_lt_Some in Hi. rewrite length_app in Hi. cbn in Hi. lia.
  - intros i Hi Hle. rewrite length_app in Hi, Hle. cbn in Hi, Hle.
    destruct (decide (i = length log)) as [-> | Hne].
    + rewrite list_lookup_insert_eq by lia. by rewrite lookup_app_r, Nat.sub_diag by lia.
    + rewrite list_lookup_insert_ne.
      * rewrite Hheld by lia. by rewrite lookup_app_l by lia.
      * intros Heq. apply Hne. pose proof (Nat.div_mod i n ltac:(lia)).
        pose proof (Nat.div_mod (length log) n ltac:(lia)).
        assert (i `div` n = length log `div` n)%nat as Hd by nia. nia.
  - intros i Hi. rewrite length_app in Hi. cbn in Hi.
    rewrite Nat.mod_small by lia. rewrite list_lookup_insert_ne by lia. apply Hfresh. lia.
Qed.

(** [Default]: zeroed records. *)
Lemma recorded_default (n : nat) r : record_id r = 0 ->
  Recorded n (mkHistory 0 (replicate n r)) [].
Proof.
  intros Hr. split; cbn.
  - apply length_replicate.
  - destruct n; [done |]. by rewrite Nat.Div0.mod_0_l.
  - intros i x Hi. by rewrite lookup_nil in Hi.
  - intros; lia.
  - intros i Hi. exists r. split; [| done]. apply lookup_replicate_2. lia.
Qed.

(** What a handler does to record: it asks for the number, then appends. *)
Definition record_next (h : History R) (mk : Z -> R) : ClearingHouseResult (History R) :=
  id ← next_record_id h;
  append h (mk id).

Fixpoint record_all (h : History R) (mks : list (Z -> R)) : ClearingHouseResult (History R) :=
  match mks with
  | [] => ROk h
  | mk :: mks => h ← record_next h mk; record_all h mks
  end.

Lemma record_all_log (n : nat) mks : forall h log, (0 < n)%nat -> Recorded n h log ->
  Forall (fun mk => forall id, record_id (mk id) = id) mks ->
  Z.of_nat (length log + length mks) < 2 ^ 128 ->
  exists h', record_all h mks = ROk h' /\
    Recorded n h' (log ++ imap (fun i mk => mk (Z.of_nat (length log + i) + 1)) mks).
Proof.
  induction mks as [| mk mks IH]; intros h log Hn Hrec Hmk Hlt; cbn [length] in Hlt.
  { exists h. cbn. by rewrite app_nil_r. }
  apply Forall_cons in Hmk as [Hid Hmk]. cbn [record_all]. unfold record_next.
  rewrite (recorded_next n h log) by (done || lia).
  destruct (recorded_append n h log (mk (Z.of_nat (length log) + 1)) Hn Hrec (Hid _)) as (h1 & Ha & H1).
  cbn -[Z.add]. rewrite Ha. cbn -[Z.add].
  destruct (IH h1 _ Hn H1 Hmk) as (h2 & -> & H2); [rewrite length_app; cbn; lia |].
  exists h2. split; [done |]. rewrite <- app_assoc in H2. cbn in H2. rewrite Nat.add_0_r.
  erewrite imap_ext; [exact H2 |]. intros i mk' _. cbn. rewrite length_app. cbn. f_equal. lia.
Qed.

(** ** The extended history of the curve

    Its head goes round in [n] slots of an array of [n + 1]: the last slot is never
    written, and what precedes slot 0 is that slot. *)
Definition record_next_short (n : Z) (h : History R) (mk : Z -> R) : ClearingHouseResult (History R) :=
  id ← next_record_id h;
  append_mod n h (mk id).

Fixpoint record_all_short (n : Z) (h : History R) (mks : list (Z -> R))
    : ClearingHouseResult (History R) :=
  match mks with
  | [] => ROk h
  | mk :: mks => h ← record_next_short n h mk; record_all_short n h mks
  end.

Record Short (n : nat) (h : History R) (count : nat) : Prop := {
  sh_length : length (records h) = S n;
  sh_head : head h = Z.of_nat (count mod n)%nat;
  sh_last : exists r, records h !! n = Some r /\ record_id r = 0;
  sh_ids : forall i, (i < count mod n)%nat ->
    exists r, records h !! i = Some r /\ record_id r = Z.of_nat i + 1
}.

Lemma short_next (n : nat) h count : (0 < n)%nat -> Short n h count -> Z.of_nat n < 2 ^ 128 ->
  next_record_id h = ROk (Z.of_nat (count mod n)%nat + 1).
Proof.
  intros Hn [Hlen Hhead (r & Hr & Hid) Hids] Hbig. unfold next_record_id. rewrite Hhead, Hlen.
  pose proof (Nat.mod_upper_bound count n ltac:(lia)) as Hb.
  destruct (Z.eqb_spec (Z.of_nat (count mod n)%nat) 0) as [E | NE].
  - replace (Z.of_nat (S n) - 1) with (Z.of_nat n) by lia. unfold at_index.
    rewrite (js_index_Some _ _ _ Hr). cbn -[Z.add]. by rewrite Hid, E.
  - destruct (Hids (count mod n - 1)%nat) as (r' & Hr' & Hid'); [lia |].
    replace (Z.of_nat (count mod n)%nat - 1) with (Z.of_nat (count mod n - 1)%nat) by lia.
    unfold at_index. rewrite (js_index_Some _ _ _ Hr'). cbn -[Z.add]. rewrite Hid'. f_equal.
    rewrite Z.mod_small by lia. lia.
Qed.

Lemma short_append (n : nat) h count r : (0 < n)%nat -> Short n h count ->
  record_id r = Z.of_nat (count mod n)%nat + 1 ->
  exists h', append_mod (Z.of_nat n) h r = ROk h' /\ Short n h' (S count).
Proof.
  intros Hn [Hlen Hhead Hlast Hids] Hid. unfold append_mod, at_index. rewrite Hhead.
  pose proof (Nat.mod_upper_bound count n ltac:(lia)) as Hb.
  destruct (lookup_lt_is_Some_2 (records h) (count mod n)%nat) as [x Hx]; [lia |].
  rewrite (js_index_Some _ _ _ Hx). cbn -[Z.add Z.modulo]. eexists. split; [reflexivity |].
  rewrite Nat2Z.id. split; cbn [head records].
  - by rewrite length_insert.
  - rewrite <- Nat.add_1_r, <- (Nat.Div0.add_mod_idemp_l count), (Nat2Z.inj_mod (_ + _)), Nat2Z.inj_add.
    done.
  - destruct Hlast as (y & ? & ?). exists y. by rewrite list_lookup_insert_ne by lia.
  - intros i Hi. destruct (decide (i = (count mod n)%nat)) as [-> | Hne].
    + exists r. by rewrite list_lookup_insert_eq by lia.
    + rewrite list_lookup_insert_ne by done. apply Hids.
      rewrite <- Nat.add_1_r, <- Nat.Div0.add_mod_idemp_l in Hi.
      destruct (Nat.eq_dec (count mod n + 1)%nat n) as [E | NE].
      * rewrite E, Nat.Div0.mod_same in Hi. lia.
      * rewrite (Nat.mod_small (count mod n + 1)%nat) in Hi by lia. lia.
Qed.

Lemma record_all_short_count (n : nat) mks : forall h count, (0 < n)%nat -> Short n h count ->
  Z.of_nat n < 2 ^ 128 -> Forall (fun mk => forall id, record_id (mk id) = id) mks ->
  exists h', record_all_short (Z.of_nat n) h mks = ROk h' /\ Short n h' (count + length mks)%nat.
Proof.
  induction mks as [| mk mks IH]; intros h count Hn Hs Hbig Hmk.
  { exists h. cbn. by rewrite Nat.add_0_r. }
  apply Forall_cons in Hmk as [Hid Hmk]. cbn [record_all_short]. unfold record_next_short.
  rewrite (short_next n h count) by done.
  destruct (short_append n h count _ Hn Hs (Hid _)) as (h1 & Ha & H1).
  cbn -[Z.add]. rewrite Ha. cbn -[Z.add].
  destruct (IH h1 _ Hn H1 Hbig Hmk) as (h2 & -> & H2). exists h2. split; [done |].
  cbn [length]. by rewrite <- Nat.add_succ_comm.
Qed.

Lemma short_default (n : nat) r : (0 < n)%nat -> record_id r = 0 ->
  Short n (mkHistory 0 (replicate (S n) r)) 0.
Proof.
  intros Hn Hr. split; cbn [head records].
  - apply length_replicate.
  - by rewrite Nat.Div0.mod_0_l.
  - exists r. split; [| done]. apply lookup_replicate_2. lia.
  - intros i Hi. rewrite Nat.Div0.mod_0_l in Hi. lia.
Qed.
End History.

(** The extended history of the curve loses count: the head of its 1024 records goes round
    after 1023, past a slot that is never written, so the update number [i] (from 0)
    is given the number [i mod 1023 + 1]: the 1024th update is number 1 again. *)
Theorem curve_numbers_restart {R} `{Numbered R} (zeroed : R) (mks : list (Z -> R)) :
  record_id zeroed = 0 -> Forall (fun mk => forall id, record_id (mk id) = id) mks ->
  exists h, record_all_short 1023 (mkHistory 0 (replicate 1024 zeroed)) mks = ROk h /\
    next_record_id h = ROk (Z.of_nat (length mks) mod 1023 + 1).
Proof.
  intros Hz Hmk.
  destruct (record_all_short_count 1023 mks _ 0 ltac:(lia) (short_default 1023 zeroed ltac:(lia) Hz))
    as (h & Hh & Hs); [done | done |].
  exists h. split; [exact Hh |]. rewrite (short_next 1023 h _ ltac:(lia) Hs) by done.
  by rewrite Nat2Z.inj_mod.
Qed.

(** C30: A history of the program never loses count: recording any number of events in
    a zeroed ring of [n] slots succeeds, event number [i] (from 0) is given the number [i + 1], and
    the ring then holds the last [n] events, each in the slot of its number. *)
Theorem history_keeps_the_last {R} `{Numbered R} (n : nat) (zeroed : R) (mks : list (Z -> R)) :
  (0 < n)%nat -> record_id zeroed = 0 ->
  Forall (fun mk => forall id, record_id (mk id) = id) mks ->
  Z.of_nat (length mks) < 2 ^ 128 ->
  exists h, record_all (mkHistory 0 (replicate n zeroed)) mks = ROk h /\
  length (records h) = n /\
  forall i mk, mks !! i = Some mk -> (length mks <= i + n)%nat ->
    records h !! (i mod n)%nat = Some (mk (Z.of_nat i + 1)).
Proof.
  intros Hn Hz Hmk Hlt.
  destruct (record_all_log n mks _ [] Hn (recorded_default n zeroed Hz) Hmk Hlt) as (h & Hh & Hrec).
  exists h. split; [exact Hh |]. destruct Hrec as [Hlen _ _ Hheld _]. split; [exact Hlen |].
  cbn in Hheld. intros i mk Hi Hlast. rewrite Hheld.
  - by rewrite list_lookup_imap, Hi.
  - rewrite length_imap. by eapply lookup_lt_Some.
  - by rewrite length_imap.
Qed.
