(* ===== verification/ChainAmm.v ===== *)
(** * The program's curve (programs/clearing_house: math/amm.rs, math/quote_asset.rs,
    controller/amm.rs)

    The accounts are those the SDK reads, so the records are the SDK's: [AMM] and
    [Market] of Types.v, whose integers here have the widths of state/market.rs.
    [&mut] arguments are arguments and results. *)
From S2P Require Import Prelude BN Types Checked.

Definition PRICE_TO_PEG_PRECISION_RATIO : Z := MARK_PRICE_PRECISION `quot` PEG_PRECISION.

(** ** Copies with some fields replaced *)
Definition with_mark_twap (a : AMM) (twap ts : Z) : AMM :=
  {| amm_baseAssetReserve := amm_baseAssetReserve a;
     amm_sqrtK := amm_sqrtK a;
     amm_cumulativeFundingRate := amm_cumulativeFundingRate a;
     amm_lastFundingRate := amm_lastFundingRate a;
     amm_lastFundingRateTs := amm_lastFundingRateTs a;
     amm_lastMarkPriceTwap := twap;
     amm_lastMarkPriceTwapTs := ts;
     amm_lastOraclePriceTwap := amm_lastOraclePriceTwap a;
     amm_lastOraclePriceTwapTs := amm_lastOraclePriceTwapTs a;
     amm_oracle := amm_oracle a;
     amm_oracleSource := amm_oracleSource a;
     amm_fundingPeriod := amm_fundingPeriod a;
     amm_quoteAssetReserve := amm_quoteAssetReserve a;
     amm_pegMultiplier := amm_pegMultiplier a;
     amm_cumulativeFundingRateLong := amm_cumulativeFundingRateLong a;
     amm_cumulativeFundingRateShort := amm_cumulativeFundingRateShort a;
     amm_cumulativeRepegRebateLong := amm_cumulativeRepegRebateLong a;
     amm_cumulativeRepegRebateShort := amm_cumulativeRepegRebateShort a;
     amm_totalFeeMinusDistributions := amm_totalFeeMinusDistributions a;
     amm_totalFeeWithdrawn := amm_totalFeeWithdrawn a;
     amm_totalFee := amm_totalFee a;
     amm_minimumTradeSize := amm_minimumTradeSize a;
     amm_lastOraclePrice := amm_lastOraclePrice a |}.

Definition with_oracle_twap (a : AMM) (price twap ts : Z) : AMM :=
  {| amm_baseAssetReserve := amm_baseAssetReserve a;
     amm_sqrtK := amm_sqrtK a;
     amm_cumulativeFundingRate := amm_cumulativeFundingRate a;
     amm_lastFundingRate := amm_lastFundingRate a;
     amm_lastFundingRateTs := amm_lastFundingRateTs a;
     amm_lastMarkPriceTwap := amm_lastMarkPriceTwap a;
     amm_lastMarkPriceTwapTs := amm_lastMarkPriceTwapTs a;
     amm_lastOraclePriceTwap := twap;
     amm_lastOraclePriceTwapTs := ts;
     amm_oracle := amm_oracle a;
     amm_oracleSource := amm_oracleSource a;
     amm_fundingPeriod := amm_fundingPeriod a;
     amm_quoteAssetReserve := amm_quoteAssetReserve a;
     amm_pegMultiplier := amm_pegMultiplier a;
     amm_cumulativeFundingRateLong := amm_cumulativeFundingRateLong a;
     amm_cumulativeFundingRateShort := amm_cumulativeFundingRateShort a;
     amm_cumulativeRepegRebateLong := amm_cumulativeRepegRebateLong a;
     amm_cumulativeRepegRebateShort := amm_cumulativeRepegRebateShort a;
     amm_totalFeeMinusDistributions := amm_totalFeeMinusDistributions a;
     amm_totalFeeWithdrawn := amm_totalFeeWithdrawn a;
     amm_totalFee := amm_totalFee a;
     amm_minimumTradeSize := amm_minimumTradeSize a;
     amm_lastOraclePrice := price |}.

(** ** math/quote_asset.rs *)
Definition reserve_to_asset_amount (quote_asset_reserve peg_multiplier : Z) : ClearingHouseResult Z :=
  x ← checked_mul U128 quote_asset_reserve peg_multiplier;
  div x AMM_TIMES_PEG_TO_QUOTE_PRECISION_RATIO.
Definition asset_to_reserve_amount (quote_asset_amount peg_multiplier : Z) : ClearingHouseResult Z :=
  x ← checked_mul U128 quote_asset_amount AMM_TIMES_PEG_TO_QUOTE_PRECISION_RATIO;
  div x peg_multiplier.

(** ** math/amm.rs: prices and swaps *)
Definition calculate_price (quote_asset_reserve base_asset_reserve peg_multiplier : Z)
    : ClearingHouseResult Z :=
  peg_quote_asset_amount ← checked_mul U128 quote_asset_reserve peg_multiplier;
  x ← checked_mul U192 peg_quote_asset_amount PRICE_TO_PEG_PRECISION_RATIO;
  y ← checked_div U192 x base_asset_reserve;
  try_to_u128 y.

(** [AMM::mark_price] *)
Definition mark_price (amm : AMM) : ClearingHouseResult Z :=
  calculate_price (amm_quoteAssetReserve amm) (amm_baseAssetReserve amm) (amm_pegMultiplier amm).

(** The new output and input amounts. *)
Definition calculate_swap_output (swap_amount input_asset_amount : Z) (direction : SwapDirection)
    (invariant_sqrt : Z) : ClearingHouseResult (Z * Z) :=
  invariant ← checked_mul U192 invariant_sqrt invariant_sqrt;
  new_input_amount ←
    match direction with
    | ADD => checked_add U128 input_asset_amount swap_amount
    | REMOVE => checked_sub U128 input_asset_amount swap_amount
    end;
  x ← checked_div U192 invariant new_input_amount;
  new_output_amount ← try_to_u128 x;
  ROk (new_output_amount, new_input_amount).

Definition calculate_terminal_price (market : Market) : ClearingHouseResult Z :=
  let swap_direction := if 0 <? mkt_baseAssetAmount market then ADD else REMOVE in
  '(new_quote_asset_amount, new_base_asset_amount) ←
    calculate_swap_output (Z.abs (mkt_baseAssetAmount market))
      (amm_baseAssetReserve (mkt_amm market)) swap_direction (amm_sqrtK (mkt_amm market));
  calculate_price new_quote_asset_amount new_base_asset_amount (amm_pegMultiplier (mkt_amm market)).

Definition calculate_quote_asset_amount_swapped (quote_asset_reserve_before
    quote_asset_reserve_after : Z) (swap_direction : SwapDirection) (peg_multiplier : Z)
    : ClearingHouseResult Z :=
  quote_asset_reserve_change ←
    match swap_direction with
    | ADD => checked_sub U128 quote_asset_reserve_before quote_asset_reserve_after
    | REMOVE => checked_sub U128 quote_asset_reserve_after quote_asset_reserve_before
    end;
  reserve_to_asset_amount quote_asset_reserve_change peg_multiplier.

Definition should_round_trade (amm : AMM) (quote_asset_amount base_asset_value : Z)
    : ClearingHouseResult bool :=
  difference ←
    (if base_asset_value <? quote_asset_amount
     then checked_sub U128 quote_asset_amount base_asset_value
     else checked_sub U128 base_asset_value quote_asset_amount);
  quote_asset_reserve_amount ← asset_to_reserve_amount difference (amm_pegMultiplier amm);
  ROk (quote_asset_reserve_amount <? amm_minimumTradeSize amm).

(** ** math/amm.rs: time-weighted prices *)
Definition calculate_twap (new_data old_data new_weight old_weight : Z) : ClearingHouseResult Z :=
  denominator ← checked_add I128 new_weight old_weight;
  prev_twap_99 ← checked_mul I128 old_data old_weight;
  latest_price_01 ← checked_mul I128 new_data new_weight;
  x ← checked_add I128 prev_twap_99 latest_price_01;
  checked_div I128 x denominator.

(** The weights of the new and of the old value. *)
Definition twap_weights (now last_ts funding_period : Z) : ClearingHouseResult (Z * Z) :=
  elapsed ← checked_sub I64 now last_ts;
  since_last ← cast I128 (Z.max 1 elapsed);
  period ← cast I128 funding_period;
  x ← checked_sub I128 period since_last;
  ROk (since_last, Z.max 1 x).

Definition calculate_new_mark_twap (amm : AMM) (now : Z) (precomputed_mark_price : option Z)
    : ClearingHouseResult Z :=
  '(since_last, from_start) ←
    twap_weights now (amm_lastMarkPriceTwapTs amm) (amm_fundingPeriod amm);
  current_price ←
    match precomputed_mark_price with Some mark_price => ROk mark_price | None => mark_price amm end;
  current ← cast I128 current_price;
  last ← cast I128 (amm_lastMarkPriceTwap amm);
  t ← calculate_twap current last since_last from_start;
  cast U128 t.

Definition update_mark_twap (amm : AMM) (now : Z) (precomputed_mark_price : option Z)
    : ClearingHouseResult (AMM * Z) :=
  mark_twap ← calculate_new_mark_twap amm now precomputed_mark_price;
  ROk (with_mark_twap amm mark_twap now, mark_twap).

Definition calculate_new_oracle_price_twap (amm : AMM) (now oracle_price : Z)
    : ClearingHouseResult Z :=
  '(since_last, from_start) ←
    twap_weights now (amm_lastOraclePriceTwapTs amm) (amm_fundingPeriod amm);
  let capped_last_oracle_price :=
    if 0 <? amm_lastOraclePrice amm then amm_lastOraclePrice amm else oracle_price in
  capped_last_oracle_price_10bp ← checked_div I128 capped_last_oracle_price 1000;
  upper ← checked_add I128 capped_last_oracle_price capped_last_oracle_price_10bp;
  lower ← checked_sub I128 capped_last_oracle_price capped_last_oracle_price_10bp;
  let interpolated_oracle_price := Z.min upper (Z.max lower oracle_price) in
  calculate_twap interpolated_oracle_price (amm_lastOraclePriceTwap amm) since_last from_start.

Definition update_oracle_price_twap (amm : AMM) (now oracle_price : Z)
    : ClearingHouseResult (AMM * Z) :=
  new_oracle_price_spread ← checked_sub I128 oracle_price (amm_lastOraclePriceTwap amm);
  oracle_price_33pct ← checked_div I128 oracle_price 3;
  capped_oracle_update_price ←
    (if Z.abs oracle_price_33pct <? Z.abs new_oracle_price_spread then
       if amm_lastOraclePriceTwap amm <? oracle_price
       then checked_add I128 (amm_lastOraclePriceTwap amm) oracle_price_33pct
       else checked_sub I128 (amm_lastOraclePriceTwap amm) oracle_price_33pct
     else ROk oracle_price);
  if (0 <? capped_oracle_update_price) && (0 <? oracle_price) then
    oracle_price_twap ← calculate_new_oracle_price_twap amm now capped_oracle_update_price;
    ROk (with_oracle_twap amm capped_oracle_update_price oracle_price_twap now, oracle_price_twap)
  else ROk (amm, amm_lastOraclePriceTwap amm).

(** ** controller/amm.rs *)

(** The base amount acquired, negative for a removal. *)
Definition swap_quote_asset (amm : AMM) (quote_asset_amount : Z) (direction : SwapDirection)
    (now : Z) (precomputed_mark_price : option Z) : ClearingHouseResult (AMM * Z) :=
  '(amm, _) ← update_mark_twap amm now precomputed_mark_price;
  quote_asset_reserve_amount ← asset_to_reserve_amount quote_asset_amount (amm_pegMultiplier amm);
  _ ← ensure (amm_minimumTradeSize amm <=? quote_asset_reserve_amount) TradeSizeTooSmall;
  let initial_base_asset_reserve := amm_baseAssetReserve amm in
  '(new_base_asset_reserve, new_quote_asset_reserve) ←
    calculate_swap_output quote_asset_reserve_amount (amm_quoteAssetReserve amm) direction
      (amm_sqrtK amm);
  initial ← cast I128 initial_base_asset_reserve;
  after ← cast I128 new_base_asset_reserve;
  base_asset_amount ← checked_sub I128 initial after;
  ROk (with_curve amm new_base_asset_reserve new_quote_asset_reserve (amm_sqrtK amm)
         (amm_pegMultiplier amm), base_asset_amount).

Definition swap_base_asset (amm : AMM) (base_asset_swap_amount : Z) (direction : SwapDirection)
    (now : Z) : ClearingHouseResult (AMM * Z) :=
  '(amm, _) ← update_mark_twap amm now None;
  let initial_quote_asset_reserve := amm_quoteAssetReserve amm in
  '(new_quote_asset_reserve, new_base_asset_reserve) ←
    calculate_swap_output base_asset_swap_amount (amm_baseAssetReserve amm) direction
      (amm_sqrtK amm);
  quote_asset_amount ←
    calculate_quote_asset_amount_swapped initial_quote_asset_reserve new_quote_asset_reserve
      direction (amm_pegMultiplier amm);
  ROk (with_curve amm new_base_asset_reserve new_quote_asset_reserve (amm_sqrtK amm)
         (amm_pegMultiplier amm), quote_asset_amount).

(** [integer_sqrt] is the method of the uint crate. *)
Definition move_price (integer_sqrt : Z -> Z) (amm : AMM)
    (base_asset_reserve quote_asset_reserve : Z) : ClearingHouseResult AMM :=
  k ← checked_mul U256 base_asset_reserve quote_asset_reserve;
  sqrt_k ← try_to_u128 (integer_sqrt k);
  ROk (with_curve amm base_asset_reserve quote_asset_reserve sqrt_k (amm_pegMultiplier amm)).

(** Nothing calls it. *)
Definition move_to_price (integer_sqrt : Z -> Z) (amm : AMM) (target_price : Z) : ClearingHouseResult AMM :=
  k ← checked_mul U256 (amm_sqrtK amm) (amm_sqrtK amm);
  x ← checked_mul U256 k (amm_pegMultiplier amm);
  y ← checked_mul U256 x PRICE_TO_PEG_PRECISION_RATIO;
  new_base_asset_amount_squared ← checked_div U256 y target_price;
  let new_base_asset_amount := integer_sqrt new_base_asset_amount_squared in
  new_quote_asset_amount ← checked_div U256 k new_base_asset_amount;
  base ← try_to_u128 new_base_asset_amount;
  quote ← try_to_u128 new_quote_asset_amount;
  ROk (with_curve amm base quote (amm_sqrtK amm) (amm_pegMultiplier amm)).
