(* ===== verification/ChainOracle.v ===== *)
(** * The program's oracle (programs/clearing_house: state/market.rs, math/oracle.rs,
    math/amm.rs)

    How a Pyth price is brought to the precision of the mark price, when it is
    trusted, and how far it is from the mark price.  The contents of the price
    account, which the pyth_client crate reads, are a record. *)
From S2P Require Import Prelude BN Types Checked.
From S2P Require Import ChainAmm.

(** [pyth_client::Price]: the fields the program reads. *)
Record Price := mkPrice {
  px_agg_price : Z;
  px_agg_conf : Z;
  px_twap_val : Z;
  px_twac_val : Z;
  px_expo : Z;
  px_valid_slot : Z
}.

Record OraclePrice := mkOraclePrice {
  op_price : Z; op_twap : Z; op_conf : Z; op_twac : Z; op_delay : Z
}.

(** The low [w] bits: [pow] and [checked_shl] do not check the result. *)
Definition wrap_u128 (z : Z) : Z := z mod 2 ^ 128.
Definition wrap_i128 (z : Z) : Z := (z + 2 ^ 127) mod 2 ^ 128 - 2 ^ 127.
Definition checked_shl_10 (w : Z -> Z) (z : Z) : Z := w (Z.shiftl z 10).

Definition rescaled (w : width) (z oracle_scale_mult oracle_scale_div : Z) : ClearingHouseResult Z :=
  x ← checked_mul w z oracle_scale_mult;
  checked_div w x oracle_scale_div.

(** [AMM::get_pyth_price] *)
Definition get_pyth_price (price_data : Price) (clock_slot : Z) : ClearingHouseResult OraclePrice :=
  oracle_price ← cast I128 (px_agg_price price_data);
  oracle_conf ← cast U128 (px_agg_conf price_data);
  oracle_twap ← cast I128 (px_twap_val price_data);
  oracle_twac ← cast U128 (px_twac_val price_data);
  let oracle_precision := wrap_u128 (10 ^ Z.abs (px_expo price_data)) in
  '(mult, scale_div) ←
    (if MARK_PRICE_PRECISION <? oracle_precision then
       d ← checked_div U128 oracle_precision MARK_PRICE_PRECISION; ROk (1, d)
     else m ← checked_div U128 MARK_PRICE_PRECISION oracle_precision; ROk (m, 1));
  mult_i ← cast I128 mult; div_i ← cast I128 scale_div;
  oracle_price_scaled ← rescaled I128 oracle_price mult_i div_i;
  oracle_twap_scaled ← rescaled I128 oracle_twap mult_i div_i;
  oracle_conf_scaled ← rescaled U128 oracle_conf mult scale_div;
  oracle_twac_scaled ← rescaled U128 oracle_twac mult scale_div;
  now ← cast I64 clock_slot; valid ← cast I64 (px_valid_slot price_data);
  oracle_delay ← checked_sub I64 now valid;
  ROk (mkOraclePrice oracle_price_scaled oracle_twap_scaled oracle_conf_scaled
         oracle_twac_scaled oracle_delay).

(** [AMM::get_oracle_price] *)
Definition get_oracle_price (amm : AMM) (price_oracle : Price) (clock_slot : Z)
    : ClearingHouseResult OraclePrice :=
  match amm_oracleSource amm with
  | PYTH => get_pyth_price price_oracle clock_slot
  | SWITCHBOARD => ROk (mkOraclePrice 0 0 0 0 0)
  end.

(** The oracle's price moved towards the mark price within its confidence. *)
Definition normalised (mark_price oracle_price conf_int : Z) : ClearingHouseResult Z :=
  mark_price_1bp ← checked_div I128 mark_price 10000;
  if oracle_price <? mark_price then
    x ← checked_sub I128 mark_price mark_price_1bp;
    y ← checked_add I128 oracle_price conf_int;
    ROk (Z.min (Z.max x oracle_price) y)
  else
    x ← checked_add I128 mark_price mark_price_1bp;
    y ← checked_sub I128 oracle_price conf_int;
    ROk (Z.max (Z.min x oracle_price) y).

(** The price to compare with and the spread; with a window the time-weighted
    prices.  The failed [assert!] is a panic. *)
Definition calculate_oracle_mark_spread (amm : AMM) (price_oracle : Price) (window clock_slot : Z)
    (precomputed_mark_price : option Z) (normalise : bool) : ClearingHouseResult (Z * Z) :=
  o ← get_oracle_price amm price_oracle clock_slot;
  if 0 <? window then
    mark_price ← cast I128 (amm_lastMarkPriceTwap amm);
    _ ← checked_div I128 mark_price 10000;
    conf_int ← cast I128 (op_twac o);
    oracle_processed ←
      (if normalise then normalised mark_price (op_twap o) conf_int else ROk (op_twap o));
    price_spread ← checked_sub I128 mark_price (op_twap o);
    ROk (oracle_processed, price_spread)
  else
    price ← match precomputed_mark_price with Some p => ROk p | None => mark_price amm end;
    mark_price ← cast I128 price;
    oracle_processed ←
      (if normalise then
         conf_int ← cast I128 (op_conf o); normalised mark_price (op_price o) conf_int
       else ROk (op_price o));
    price_spread ← checked_sub I128 mark_price (op_price o);
    if 0 <? oracle_processed then ROk (oracle_processed, price_spread) else RErr Panic.

Definition calculate_oracle_mark_spread_pct (amm : AMM) (price_oracle : Price)
    (window clock_slot : Z) (precomputed_mark_price : option Z) : ClearingHouseResult (Z * Z * Z) :=
  '(oracle_price, price_spread) ←
    calculate_oracle_mark_spread amm price_oracle window clock_slot precomputed_mark_price true;
  price_spread_pct ← checked_div I128 (checked_shl_10 wrap_i128 price_spread) oracle_price;
  ROk (oracle_price, price_spread, price_spread_pct).

Definition is_oracle_mark_too_divergent (price_spread_pct : Z) (oracle_guard_rails : OracleGuardRails)
    : ClearingHouseResult bool :=
  max_divergence ←
    checked_div U128
      (checked_shl_10 wrap_u128 (ogr_markOracleDivergenceNumerator oracle_guard_rails))
      (ogr_markOracleDivergenceDenominator oracle_guard_rails);
  ROk (max_divergence <? Z.abs price_spread_pct).

Definition is_oracle_valid (amm : AMM) (price_oracle : Price) (clock_slot : Z)
    (valid_oracle_guard_rails : OracleGuardRails) : ClearingHouseResult bool :=
  o ← get_oracle_price amm price_oracle clock_slot;
  let is_oracle_price_nonpositive := (op_twap o <=? 0) || (op_price o <=? 0) in
  r1 ← checked_div I128 (op_price o) (Z.max 1 (op_twap o));
  is_oracle_price_too_volatile ←
    (if ogr_tooVolatileRatio valid_oracle_guard_rails <? r1 then ROk true
     else r2 ← checked_div I128 (op_twap o) (Z.max 1 (op_price o));
          ROk (ogr_tooVolatileRatio valid_oracle_guard_rails <? r2));
  price ← cast U128 (op_price o);
  conf_denom_of_price ← checked_div U128 price (Z.max 1 (op_conf o));
  twap ← cast U128 (op_twap o);
  conf_denom_of_twap_price ← checked_div U128 twap (Z.max 1 (op_twac o));
  let is_conf_too_large :=
    (conf_denom_of_price <? ogr_confidenceIntervalMaxSize valid_oracle_guard_rails)
    || (conf_denom_of_twap_price <? ogr_confidenceIntervalMaxSize valid_oracle_guard_rails) in
  let is_stale := ogr_slotsBeforeStale valid_oracle_guard_rails <? op_delay o in
  ROk (negb (is_stale || is_conf_too_large || is_oracle_price_nonpositive
             || is_oracle_price_too_volatile)).

(** math/oracle.rs: whether an operation is blocked, and the oracle's price. *)
Definition block_operation (amm : AMM) (oracle_account_info : Price) (clock_slot : Z)
    (guard_rails : OracleGuardRails) (precomputed_mark_price : option Z)
    : ClearingHouseResult (bool * Z) :=
  oracle_is_valid ← is_oracle_valid amm oracle_account_info clock_slot guard_rails;
  '(oracle_price, _, oracle_mark_spread_pct) ←
    calculate_oracle_mark_spread_pct amm oracle_account_info 0 clock_slot precomputed_mark_price;
  is_oracle_mark_too_divergent ← is_oracle_mark_too_divergent oracle_mark_spread_pct guard_rails;
  ROk (negb oracle_is_valid || is_oracle_mark_too_divergent, oracle_price).
