(* ===== verification/ChainPosition.v ===== *)
(** * Positions in the program (programs/clearing_house: math/position.rs, math/pnl.rs,
    math/collateral.rs, math/margin.rs, math/repeg.rs, math/withdrawal.rs,
    controller/position.rs)

    What a position is worth, and how opening, reducing and closing one changes
    the position, its market and its owner's collateral. *)
From S2P Require Import Prelude BN Types Checked ChainAmm.

(** ** state/user.rs

    The stop-loss, transfer and padding fields are never read. *)
Record MarketPosition := mkMarketPosition {
  mp_marketIndex : Z;
  mp_baseAssetAmount : Z;
  mp_quoteAssetAmount : Z;
  mp_lastCumulativeFundingRate : Z;
  mp_lastFundingRateTs : Z
}.

Record User := mkUser {
  usr_authority : PublicKey;
  usr_collateral : Z;
  usr_cumulativeDeposits : Z;
  usr_totalFeePaid : Z;
  usr_totalTokenDiscount : Z;
  usr_totalReferralReward : Z;
  usr_totalRefereeDiscount : Z
}.

Definition is_open_position (p : MarketPosition) : bool := negb (mp_baseAssetAmount p =? 0).
Definition is_for (market_index : Z) (p : MarketPosition) : bool :=
  (mp_marketIndex p =? market_index) && is_open_position p.

Definition with_collateral (u : User) (collateral : Z) : User :=
  mkUser (usr_authority u) collateral (usr_cumulativeDeposits u) (usr_totalFeePaid u)
    (usr_totalTokenDiscount u) (usr_totalReferralReward u) (usr_totalRefereeDiscount u).

Definition with_amounts (p : MarketPosition) (base_asset_amount quote_asset_amount : Z) :=
  mkMarketPosition (mp_marketIndex p) base_asset_amount quote_asset_amount
    (mp_lastCumulativeFundingRate p) (mp_lastFundingRateTs p).
Definition with_funding_rate (p : MarketPosition) (rate ts : Z) : MarketPosition :=
  mkMarketPosition (mp_marketIndex p) (mp_baseAssetAmount p) (mp_quoteAssetAmount p) rate ts.

(** A market with another curve and other totals of its users' positions. *)
Definition with_positions (m : Market) (amm : AMM) (net long short open_interest : Z) : Market :=
  mkMarket amm net long short (mkt_initialized m) open_interest.

(** ** math/pnl.rs, math/collateral.rs *)
Definition calculate_pnl (exit_value entry_value : Z) (swap_direction_to_close : SwapDirection)
    : ClearingHouseResult Z :=
  match swap_direction_to_close with
  | ADD =>
      x ← cast I128 exit_value; y ← cast I128 entry_value; checked_sub I128 x y
  | REMOVE =>
      x ← cast I128 entry_value; y ← cast I128 exit_value;
      d ← checked_sub I128 x y; checked_sub I128 d 1
  end.

Definition calculate_updated_collateral (collateral pnl : Z) : ClearingHouseResult Z :=
  if (pnl <? 0) && (collateral <? Z.abs pnl) then ROk 0
  else if 0 <? pnl then checked_add U128 collateral (Z.abs pnl)
  else checked_sub U128 collateral (Z.abs pnl).

(** ** math/position.rs *)
Definition swap_direction_to_close_position (base_asset_amount : Z) : SwapDirection :=
  if 0 <=? base_asset_amount then ADD else REMOVE.
Definition direction_to_close_position (base_asset_amount : Z) : PositionDirection :=
  if 0 <? base_asset_amount then SHORT else LONG.

(** [_calculate_base_asset_value_and_pnl] *)
Definition base_asset_value_and_pnl (base_asset_amount quote_asset_amount : Z) (amm : AMM)
    : ClearingHouseResult (Z * Z) :=
  if base_asset_amount =? 0 then ROk (0, 0)
  else
    let swap_direction := swap_direction_to_close_position base_asset_amount in
    '(new_quote_asset_reserve, _) ←
      calculate_swap_output (Z.abs base_asset_amount) (amm_baseAssetReserve amm) swap_direction
        (amm_sqrtK amm);
    base_asset_value ←
      calculate_quote_asset_amount_swapped (amm_quoteAssetReserve amm) new_quote_asset_reserve
        swap_direction (amm_pegMultiplier amm);
    pnl ← calculate_pnl base_asset_value quote_asset_amount swap_direction;
    ROk (base_asset_value, pnl).
Definition calculate_base_asset_value_and_pnl (market_position : MarketPosition) (amm : AMM) :=
  base_asset_value_and_pnl (mp_baseAssetAmount market_position)
    (mp_quoteAssetAmount market_position) amm.

(** ** math/repeg.rs [adjust_peg_cost], math/amm.rs [adjust_k_cost]: the market
    after, and the cost *)
Definition adjust_peg_cost (market : Market) (new_peg : Z) : ClearingHouseResult (Market * Z) :=
  let amm := mkt_amm market in
  '(current_net_market_value, _) ← base_asset_value_and_pnl (mkt_baseAssetAmount market) 0 amm;
  let amm := with_curve amm (amm_baseAssetReserve amm) (amm_quoteAssetReserve amm)
               (amm_sqrtK amm) new_peg in
  '(_, cost) ← base_asset_value_and_pnl (mkt_baseAssetAmount market) current_net_market_value amm;
  ROk (with_amm market amm, cost).

(** [try_to_u128().unwrap()] *)
Definition unwrap_u128 (z : Z) : ClearingHouseResult Z :=
  if fits U128 z then ROk z else RErr Panic.

Definition adjust_k_cost (market : Market) (new_sqrt_k : Z) : ClearingHouseResult (Market * Z) :=
  let amm := mkt_amm market in
  '(current_net_market_value, _) ← base_asset_value_and_pnl (mkt_baseAssetAmount market) 0 amm;
  x ← checked_mul U256 new_sqrt_k MARK_PRICE_PRECISION;
  sqrt_k_ratio ← checked_div U256 x (amm_sqrtK amm);
  y ← checked_mul U256 MARK_PRICE_PRECISION 975;
  lowest_ratio ← checked_div U256 y 1000;
  _ ← ensure (lowest_ratio <=? sqrt_k_ratio) InvalidUpdateK;
  sqrt_k ← unwrap_u128 new_sqrt_k;
  b ← checked_mul U256 (amm_baseAssetReserve amm) sqrt_k_ratio;
  b ← checked_div U256 b MARK_PRICE_PRECISION;
  base_asset_reserve ← unwrap_u128 b;
  q ← checked_mul U256 (amm_quoteAssetReserve amm) sqrt_k_ratio;
  q ← checked_div U256 q MARK_PRICE_PRECISION;
  quote_asset_reserve ← unwrap_u128 q;
  let amm := with_curve amm base_asset_reserve quote_asset_reserve sqrt_k (amm_pegMultiplier amm) in
  '(_, cost) ← base_asset_value_and_pnl (mkt_baseAssetAmount market) current_net_market_value amm;
  ROk (with_amm market amm, cost).

(** ** math/margin.rs *)

(** [&markets.markets[Markets::index_from_u64(i)]] panics out of bounds. *)
Definition market_at (markets : list Market) (market_index : Z) : ClearingHouseResult Market :=
  match js_index markets market_index with Some m => ROk m | None => RErr Panic end.

Fixpoint position_totals (positions : list MarketPosition) (markets : list Market)
    (base_asset_value unrealized_pnl : Z) : ClearingHouseResult (Z * Z) :=
  match positions with
  | [] => ROk (base_asset_value, unrealized_pnl)
  | market_position :: rest =>
      if mp_baseAssetAmount market_position =? 0
      then position_totals rest markets base_asset_value unrealized_pnl
      else
        market ← market_at markets (mp_marketIndex market_position);
        '(position_base_asset_value, position_unrealized_pnl) ←
          calculate_base_asset_value_and_pnl market_position (mkt_amm market);
        base_asset_value ← checked_add U128 base_asset_value position_base_asset_value;
        unrealized_pnl ← checked_add I128 unrealized_pnl position_unrealized_pnl;
        position_totals rest markets base_asset_value unrealized_pnl
  end.

Definition MARGIN_PRECISION : Z := 10000.

Record MarginRatio := mkMarginRatio {
  mr_totalCollateral : Z; mr_unrealizedPnl : Z; mr_baseAssetValue : Z; mr_marginRatio : Z
}.

Definition calculate_margin_ratio (user : User) (positions : list MarketPosition)
    (markets : list Market) : ClearingHouseResult MarginRatio :=
  '(base_asset_value, unrealized_pnl) ← position_totals positions markets 0 0;
  if base_asset_value =? 0
  then ROk (mkMarginRatio (highest U128) unrealized_pnl base_asset_value (highest U128))
  else
    total_collateral ← calculate_updated_collateral (usr_collateral user) unrealized_pnl;
    x ← checked_mul U128 total_collateral MARGIN_PRECISION;
    margin_ratio ← checked_div U128 x base_asset_value;
    ROk (mkMarginRatio total_collateral unrealized_pnl base_asset_value margin_ratio).

(** ** math/withdrawal.rs: from the collateral vault and from the insurance vault *)
Definition calculate_withdrawal_amounts (amount collateral_token_amount insurance_token_amount : Z)
    : ClearingHouseResult (Z * Z) :=
  if amount <=? collateral_token_amount then ROk (amount, 0)
  else
    rest ← checked_sub U64 amount collateral_token_amount;
    if rest <? insurance_token_amount
    then ROk (collateral_token_amount, rest)
    else ROk (collateral_token_amount, insurance_token_amount).

(** ** controller/position.rs *)
Definition swap_direction_of (direction : PositionDirection) : SwapDirection :=
  match direction with LONG => ADD | SHORT => REMOVE end.

Definition increase (direction : PositionDirection) (new_quote_asset_notional_amount : Z)
    (market : Market) (market_position : MarketPosition) (now : Z)
    : ClearingHouseResult (Market * MarketPosition * Z) :=
  if new_quote_asset_notional_amount =? 0 then ROk (market, market_position, 0)
  else
    let amm := mkt_amm market in
    '(market_position, open_interest) ←
      (if mp_baseAssetAmount market_position =? 0 then
         let rate := match direction with
                     | LONG => amm_cumulativeFundingRateLong amm
                     | SHORT => amm_cumulativeFundingRateShort amm
                     end in
         open_interest ← checked_add U128 (mkt_openInterest market) 1;
         ROk (with_funding_rate market_position rate (mp_lastFundingRateTs market_position),
              open_interest)
       else ROk (market_position, mkt_openInterest market));
    quote_asset_amount ←
      checked_add U128 (mp_quoteAssetAmount market_position) new_quote_asset_notional_amount;
    '(amm, base_asset_acquired) ←
      swap_quote_asset amm new_quote_asset_notional_amount (swap_direction_of direction) now None;
    base_asset_amount ← checked_add I128 (mp_baseAssetAmount market_position) base_asset_acquired;
    net ← checked_add I128 (mkt_baseAssetAmount market) base_asset_acquired;
    '(long, short) ←
      (if 0 <? base_asset_amount then
         long ← checked_add I128 (mkt_baseAssetAmountLong market) base_asset_acquired;
         ROk (long, mkt_baseAssetAmountShort market)
       else
         short ← checked_add I128 (mkt_baseAssetAmountShort market) base_asset_acquired;
         ROk (mkt_baseAssetAmountLong market, short));
    ROk (with_positions market amm net long short open_interest,
         with_amounts market_position base_asset_amount quote_asset_amount, base_asset_acquired).

Definition reduce (direction : PositionDirection) (quote_asset_swap_amount : Z) (user : User)
    (market : Market) (market_position : MarketPosition) (now : Z)
    (precomputed_mark_price : option Z)
    : ClearingHouseResult (User * Market * MarketPosition * Z) :=
  '(amm, base_asset_swapped) ←
    swap_quote_asset (mkt_amm market) quote_asset_swap_amount (swap_direction_of direction) now
      precomputed_mark_price;
  let base_asset_amount_before := mp_baseAssetAmount market_position in
  base_asset_amount ← checked_add I128 base_asset_amount_before base_asset_swapped;
  open_interest ←
    checked_sub U128 (mkt_openInterest market) (if base_asset_amount =? 0 then 1 else 0);
  net ← checked_add I128 (mkt_baseAssetAmount market) base_asset_swapped;
  '(long, short) ←
    (if 0 <? base_asset_amount then
       long ← checked_add I128 (mkt_baseAssetAmountLong market) base_asset_swapped;
       ROk (long, mkt_baseAssetAmountShort market)
     else
       short ← checked_add I128 (mkt_baseAssetAmountShort market) base_asset_swapped;
       ROk (mkt_baseAssetAmountLong market, short));
  change ← checked_sub I128 base_asset_amount_before base_asset_amount;
  x ← checked_mul U128 (mp_quoteAssetAmount market_position) (Z.abs change);
  initial_quote_asset_amount_closed ← checked_div U128 x (Z.abs base_asset_amount_before);
  quote_asset_amount ←
    checked_sub U128 (mp_quoteAssetAmount market_position) initial_quote_asset_amount_closed;
  pnl ←
    (if 0 <? base_asset_amount then
       x ← cast I128 quote_asset_swap_amount;
       y ← cast I128 initial_quote_asset_amount_closed; checked_sub I128 x y
     else
       x ← cast I128 initial_quote_asset_amount_closed;
       y ← cast I128 quote_asset_swap_amount; checked_sub I128 x y);
  collateral ← calculate_updated_collateral (usr_collateral user) pnl;
  ROk (with_collateral user collateral, with_positions market amm net long short open_interest,
       with_amounts market_position base_asset_amount quote_asset_amount, base_asset_swapped).

(** The value of the position closed and its size. *)
Definition close (user : User) (market : Market) (market_position : MarketPosition) (now : Z)
    : ClearingHouseResult (User * Market * MarketPosition * (Z * Z)) :=
  let base_asset_amount := mp_baseAssetAmount market_position in
  if base_asset_amount =? 0 then ROk (user, market, market_position, (0, 0))
  else
    let swap_direction := if 0 <? base_asset_amount then ADD else REMOVE in
    '(amm, base_asset_value) ←
      swap_base_asset (mkt_amm market) (Z.abs base_asset_amount) swap_direction now;
    pnl ← calculate_pnl base_asset_value (mp_quoteAssetAmount market_position) swap_direction;
    collateral ← calculate_updated_collateral (usr_collateral user) pnl;
    open_interest ← checked_sub U128 (mkt_openInterest market) 1;
    net ← checked_sub I128 (mkt_baseAssetAmount market) base_asset_amount;
    '(long, short) ←
      (if 0 <? base_asset_amount then
         long ← checked_sub I128 (mkt_baseAssetAmountLong market) base_asset_amount;
         ROk (long, mkt_baseAssetAmountShort market)
       else
         short ← checked_sub I128 (mkt_baseAssetAmountShort market) base_asset_amount;
         ROk (mkt_baseAssetAmountLong market, short));
    ROk (with_collateral user collateral, with_positions market amm net long short open_interest,
         mkMarketPosition (mp_marketIndex market_position) 0 0 0 0,
         (base_asset_value, base_asset_amount)).
