(* ===== verification/Idl.v ===== *)
(** * The program's interface (idl/clearing_house.json)

    The instructions of the on-chain program as the IDL beside the SDK lists
    them, and what it means for a request built by the SDK to conform to it.
    The SDK hands a request (an instruction's name, its arguments, its accounts
    by name and the remaining accounts) to the anchor library, which lays the
    accounts out in the IDL's order and encodes the arguments by the IDL's
    types. *)
From S2P Require Import Prelude BN Types Checked.
From S2P Require Import ChainPosition.

(** ** Types of arguments *)
Inductive IdlType :=
  | TU8 | TU64 | TU128 | TI64 | TBool | TPublicKey
  | TDefined (name : string).

#[export] Instance IdlType_eq_dec : EqDecision IdlType.
Proof. solve_decision. Defined.

Record IdlAccount := mkIdlAccount { ida_name : string; ida_isMut : bool; ida_isSigner : bool }.

Record IdlInstruction := mkIdlInstruction {
  idl_name : string;
  idl_accounts : list IdlAccount;
  idl_args : list (string * IdlType)
}.

(** ** The instructions *)
#[local] Open Scope string_scope.
(** Read-only, writable, signing and writable signing accounts. *)
Definition ro (n : string) : IdlAccount := mkIdlAccount n false false.
Definition rw (n : string) : IdlAccount := mkIdlAccount n true false.
Definition signer (n : string) : IdlAccount := mkIdlAccount n false true.
Definition rwSigner (n : string) : IdlAccount := mkIdlAccount n true true.

Definition clearingHouseIDL : list IdlInstruction := [
  mkIdlInstruction "initialize"
    [signer "admin"; rw "state"; ro "collateralMint"; rw "collateralVault";
     ro "collateralVaultAuthority"; rw "insuranceVault"; ro "insuranceVaultAuthority";
     rw "markets"; ro "rent"; ro "systemProgram"; ro "tokenProgram"]
    [("clearingHouseNonce", TU8); ("collateralVaultNonce", TU8); ("insuranceVaultNonce",
     TU8); ("adminControlsPrices", TBool)];
  mkIdlInstruction "initializeHistory"
    [signer "admin"; rw "state"; rw "fundingPaymentHistory"; rw "tradeHistory";
     rw "liquidationHistory"; rw "depositHistory"; rw "fundingRateHistory"; rw "curveHistory"]
    [];
  mkIdlInstruction "initializeMarket"
    [signer "admin"; ro "state"; rw "markets"; ro "oracle"]
    [("marketIndex", TU64); ("ammBaseAssetReserve", TU128); ("ammQuoteAssetReserve", TU128);
     ("ammPeriodicity", TI64); ("ammPegMultiplier", TU128)];
  mkIdlInstruction "depositCollateral"
    [rw "state"; rw "user"; signer "authority"; rw "collateralVault";
     rw "userCollateralAccount"; ro "tokenProgram"; ro "markets"; rw "userPositions";
     rw "fundingPaymentHistory"; rw "depositHistory"]
    [("amount", TU64)];
  mkIdlInstruction "withdrawCollateral"
    [rw "state"; rw "user"; signer "authority"; rw "collateralVault";
     ro "collateralVaultAuthority"; rw "insuranceVault"; ro "insuranceVaultAuthority";
     rw "userCollateralAccount"; ro "tokenProgram"; ro "markets"; rw "userPositions";
     rw "fundingPaymentHistory"; rw "depositHistory"]
    [("amount", TU64)];
  mkIdlInstruction "openPosition"
    [rw "state"; rw "user"; signer "authority"; rw "markets"; rw "userPositions";
     rw "tradeHistory"; rw "fundingPaymentHistory"; rw "fundingRateHistory"; ro "oracle"]
    [("direction", TDefined "PositionDirection"); ("quoteAssetAmount", TU128);
     ("marketIndex", TU64); ("limitPrice", TU128); ("optionalAccounts", TDefined
     "ManagePositionOptionalAccounts")];
  mkIdlInstruction "closePosition"
    [rw "state"; rw "user"; signer "authority"; rw "markets"; rw "userPositions";
     rw "tradeHistory"; rw "fundingPaymentHistory"; rw "fundingRateHistory"; ro "oracle"]
    [("marketIndex", TU64); ("optionalAccounts", TDefined "ManagePositionOptionalAccounts")];
  mkIdlInstruction "liquidate"
    [ro "state"; signer "authority"; rw "liquidator"; rw "user"; rw "collateralVault";
     ro "collateralVaultAuthority"; rw "insuranceVault"; ro "insuranceVaultAuthority";
     ro "tokenProgram"; rw "markets"; rw "userPositions"; rw "tradeHistory";
     rw "liquidationHistory"; rw "fundingPaymentHistory"]
    [];
  mkIdlInstruction "moveAmmPrice"
    [ro "state"; signer "admin"; rw "markets"]
    [("baseAssetReserve", TU128); ("quoteAssetReserve", TU128); ("marketIndex", TU64)];
  mkIdlInstruction "withdrawFees"
    [ro "state"; signer "admin"; rw "collateralVault"; ro "collateralVaultAuthority";
     rw "markets"; rw "recipient"; ro "tokenProgram"]
    [("marketIndex", TU64); ("amount", TU64)];
  mkIdlInstruction "withdrawFromInsuranceVault"
    [ro "state"; signer "admin"; rw "insuranceVault"; ro "insuranceVaultAuthority";
     rw "recipient"; ro "tokenProgram"]
    [("amount", TU64)];
  mkIdlInstruction "withdrawFromInsuranceVaultToMarket"
    [rw "state"; rw "markets"; signer "admin"; rw "insuranceVault";
     ro "insuranceVaultAuthority"; rw "collateralVault"; ro "tokenProgram"]
    [("marketIndex", TU64); ("amount", TU64)];
  mkIdlInstruction "repegAmmCurve"
    [ro "state"; rw "markets"; ro "oracle"; signer "admin"; rw "curveHistory"]
    [("newPegCandidate", TU128); ("marketIndex", TU64)];
  mkIdlInstruction "updateAmmOracleTwap"
    [ro "state"; rw "markets"; ro "oracle"; signer "admin"; rw "curveHistory"]
    [("marketIndex", TU64)];
  mkIdlInstruction "resetAmmOracleTwap"
    [ro "state"; rw "markets"; ro "oracle"; signer "admin"; rw "curveHistory"]
    [("marketIndex", TU64)];
  mkIdlInstruction "initializeUser"
    [rw "user"; ro "state"; rwSigner "userPositions"; rwSigner "authority"; ro "rent";
     ro "systemProgram"]
    [("userNonce", TU8); ("optionalAccounts", TDefined "InitializeUserOptionalAccounts")];
  mkIdlInstruction "initializeUserWithExplicitPayer"
    [rw "user"; ro "state"; rwSigner "userPositions"; signer "authority"; rwSigner "payer";
     ro "rent"; ro "systemProgram"]
    [("userNonce", TU8); ("optionalAccounts", TDefined "InitializeUserOptionalAccounts")];
  mkIdlInstruction "deleteUser"
    [rw "user"; rw "userPositions"; signer "authority"]
    [];
  mkIdlInstruction "settleFundingPayment"
    [ro "state"; rw "user"; ro "markets"; rw "userPositions"; rw "fundingPaymentHistory"]
    [];
  mkIdlInstruction "updateFundingRate"
    [ro "state"; rw "markets"; ro "oracle"; rw "fundingRateHistory"]
    [("marketIndex", TU64)];
  mkIdlInstruction "updateK"
    [signer "admin"; ro "state"; rw "markets"; ro "oracle"; rw "curveHistory"]
    [("sqrtK", TU128); ("marketIndex", TU64)];
  mkIdlInstruction "updateCurveHistory"
    [signer "admin"; rw "state"; rw "extendedCurveHistory"; ro "curveHistory"]
    [];
  mkIdlInstruction "updateMarginRatio"
    [signer "admin"; rw "state"]
    [("marginRatioInitial", TU128); ("marginRatioPartial", TU128);
     ("marginRatioMaintenance", TU128)];
  mkIdlInstruction "updatePartialLiquidationClosePercentage"
    [signer "admin"; rw "state"]
    [("numerator", TU128); ("denominator", TU128)];
  mkIdlInstruction "updatePartialLiquidationPenaltyPercentage"
    [signer "admin"; rw "state"]
    [("numerator", TU128); ("denominator", TU128)];
  mkIdlInstruction "updateFullLiquidationPenaltyPercentage"
    [signer "admin"; rw "state"]
    [("numerator", TU128); ("denominator", TU128)];
  mkIdlInstruction "updatePartialLiquidationLiquidatorShareDenominator"
    [signer "admin"; rw "state"]
    [("denominator", TU64)];
  mkIdlInstruction "updateFullLiquidationLiquidatorShareDenominator"
    [signer "admin"; rw "state"]
    [("denominator", TU64)];
  mkIdlInstruction "updateFee"
    [signer "admin"; rw "state"]
    [("fees", TDefined "FeeStructure")];
  mkIdlInstruction "updateOracleGuardRails"
    [signer "admin"; rw "state"]
    [("oracleGuardRails", TDefined "OracleGuardRails")];
  mkIdlInstruction "updateMarketOracle"
    [signer "admin"; ro "state"; rw "markets"]
    [("marketIndex", TU64); ("oracle", TPublicKey); ("oracleSource", TDefined
     "OracleSource")];
  mkIdlInstruction "updateMarketMinimumTradeSize"
    [signer "admin"; ro "state"; rw "markets"]
    [("marketIndex", TU64); ("minimumTradeSize", TU128)];
  mkIdlInstruction "updateAdmin"
    [signer "admin"; rw "state"]
    [("admin", TPublicKey)];
  mkIdlInstruction "updateWhitelistMint"
    [signer "admin"; rw "state"]
    [("whitelistMint", TPublicKey)];
  mkIdlInstruction "updateDiscountMint"
    [signer "admin"; rw "state"]
    [("discountMint", TPublicKey)];
  mkIdlInstruction "updateMaxDeposit"
    [signer "admin"; rw "state"]
    [("maxDeposit", TU128)];
  mkIdlInstruction "updateExchangePaused"
    [signer "admin"; rw "state"]
    [("exchangePaused", TBool)];
  mkIdlInstruction "disableAdminControlsPrices"
    [signer "admin"; rw "state"]
    [];
  mkIdlInstruction "updateFundingPaused"
    [signer "admin"; rw "state"]
    [("fundingPaused", TBool)]
].

(** ** Requests *)

(** The values the SDK passes as arguments. *)
Inductive Arg :=
  | ANumber (z : Z)                     (** a number, encoded as a u8 *)
  | ABN (z : Z)                         (** a [BN] *)
  | ABool (b : bool)
  | AKey (k : PublicKey)
  | ADirection (d : PositionDirection)
  | AOracleSource (s : OracleSource)
  | AFlags (flags : list (string * bool))  (** an object of booleans *)
  | AFeeStructure (f : FeeStructure)
  | AOracleGuardRails (g : OracleGuardRails)
  | AUndefined.

Record AccountMeta := mkAccountMeta { am_pubkey : PublicKey; am_isWritable : bool; am_isSigner : bool }.

(** What [program.instruction.<name>(args, { accounts, remainingAccounts })]
    is given. *)
Record Instruction := mkInstruction {
  ix_name : string;
  ix_args : list Arg;
  ix_accounts : list (string * PublicKey);
  ix_remainingAccounts : list AccountMeta
}.

(** The fields of the flag objects, as the IDL's types list them. *)
Definition flagFields (name : string) : option (list string) :=
  if decide (name = "ManagePositionOptionalAccounts") then Some ["discountToken"; "referrer"]
  else if decide (name = "InitializeUserOptionalAccounts") then Some ["whitelistToken"]
  else None.

(** Whether a value can be encoded at a type. *)
Definition argFits (v : Arg) (t : IdlType) : bool :=
  match v, t with
  | ANumber _, TU8 | ABN _, (TU64 | TU128 | TI64) | ABool _, TBool | AKey _, TPublicKey => true
  | ADirection _, TDefined n => bool_decide (n = "PositionDirection")
  | AOracleSource _, TDefined n => bool_decide (n = "OracleSource")
  | AFlags fs, TDefined n => bool_decide (flagFields n = Some (fst <$> fs))
  | AFeeStructure _, TDefined n => bool_decide (n = "FeeStructure")
  | AOracleGuardRails _, TDefined n => bool_decide (n = "OracleGuardRails")
  | _, _ => false
  end.

Fixpoint argsFit (vs : list Arg) (ts : list (string * IdlType)) : bool :=
  match vs, ts with
  | [], [] => true
  | v :: vs', (_, t) :: ts' => argFits v t && argsFit vs' ts'
  | _, _ => false
  end.

Definition findInstruction (name : string) : option IdlInstruction :=
  snd <$> list_find (fun i => idl_name i = name) clearingHouseIDL.

(** A request conforms: the program has the instruction, the arguments fit, and
    every account the program declares is given, by a name given once. *)
Definition conforms (ix : Instruction) : bool :=
  match findInstruction (ix_name ix) with
  | None => false
  | Some i =>
      argsFit (ix_args ix) (idl_args i) &&
      forallb (fun a => bool_decide (ida_name a ∈ (fst <$> ix_accounts ix))) (idl_accounts i) &&
      bool_decide (NoDup (fst <$> ix_accounts ix))
  end.

(** The account a request gives for a name. *)
Definition accountOf (ix : Instruction) (name : string) : option PublicKey :=
  (fun r => r.2.2) <$> list_find (fun p => p.1 = name) (ix_accounts ix).

(** The arguments of a request by the IDL's names. *)
Definition namedArgs (ix : Instruction) : list (string * Arg) :=
  match findInstruction (ix_name ix) with
  | None => []
  | Some i => zip (fst <$> idl_args i) (ix_args ix)
  end.

(** The accounts a request gives where the program asks for a signature. *)
Definition signerKeys (ix : Instruction) : list PublicKey :=
  match findInstruction (ix_name ix) with
  | None => []
  | Some i => omap (fun a => if ida_isSigner a then accountOf ix (ida_name a) else None)
                (idl_accounts i)
  end.

(** ** How the program reads the remaining accounts of a position request
    (optional_accounts.rs) *)

(** A token account's data, and an account as the runtime passes it to the
    program; [ai_token] and [ai_user] are what unpacking its data as a token
    account and as a user give. *)
Record TokenAccount := mkTokenAccount {
  ta_mint : PublicKey;
  ta_owner : PublicKey;
  ta_amount : Z;
  ta_isInitialized : bool
}.
Record AccountInfo := mkAccountInfo {
  ai_key : PublicKey;
  ai_owner : PublicKey;
  ai_token : option TokenAccount;
  ai_user : option User
}.
(** The checks on the discount token. *)
Definition checkDiscountToken (spl_token_id discount_mint authority : PublicKey)
    (info : AccountInfo) : ErrorCode + TokenAccount :=
  if negb (bool_decide (ai_owner info = spl_token_id)) then inl InvalidDiscountToken
  else match ai_token info with
       | None => inl InvalidDiscountToken
       | Some token =>
           if negb (ta_isInitialized token) then inl InvalidDiscountToken
           else if negb (bool_decide (ta_mint token = discount_mint)) then inl InvalidDiscountToken
           else if negb (bool_decide (ta_owner token = authority)) then inl InvalidDiscountToken
           else inr token
       end.

(** The referrer, unless it is the user itself. *)
Definition checkReferrer (user_public_key : PublicKey) (info : AccountInfo)
    : ErrorCode + option User :=
  if bool_decide (ai_key info = user_public_key) then inr None
  else match ai_user info with
       | None => inl InvalidReferrer
       | Some u => inr (Some u)
       end.

Definition get_discount_token_and_referrer (spl_token_id : PublicKey)
    (discount_token referrer : bool) (accounts : list AccountInfo)
    (discount_mint user_public_key authority : PublicKey)
    : ErrorCode + (option TokenAccount * option User) :=
  let readReferrer (token : option TokenAccount) (rest : list AccountInfo) :=
    if referrer then
      match rest with
      | [] => inl ReferrerNotFound
      | info :: _ =>
          match checkReferrer user_public_key info with
          | inl e => inl e
          | inr r => inr (token, r)
          end
      end
    else inr (token, None) in
  if discount_token then
    match accounts with
    | [] => inl DiscountTokenNotFound
    | info :: rest =>
        match checkDiscountToken spl_token_id discount_mint authority info with
        | inl e => inl e
        | inr token => readReferrer (Some token) rest
        end
    end
  else readReferrer None accounts.
