(* ===== verification/ChainFunding.v ===== *)
(** * Fees and funding in the program (programs/clearing_house: math/fees.rs,
    math/funding.rs, controller/funding.rs)

    The fee of a trade and its shares, the funding rate the two sides of a market
    are charged, and the lazy settlement of a user's funding payments. *)
From S2P Require Import Prelude BN Types Checked History.
From S2P Require Import ChainAmm ChainOracle.
From S2P Require Import ChainPosition.
From S2P Require Import Idl.

(** ** math/fees.rs *)
Definition calculate_token_discount_for_tier (fee : Z) (tier : DiscountTier)
    (discount_token : TokenAccount) : option Z :=
  if tier_minimumBalance tier <=? ta_amount discount_token
  then ok (x ← checked_mul U128 fee (tier_discountNumerator tier);
           checked_div U128 x (tier_discountDenominator tier))
  else None.

Definition calculate_token_discount (fee : Z) (fee_structure : FeeStructure)
    (discount_token : option TokenAccount) : Z :=
  match discount_token with
  | None => 0
  | Some discount_token =>
      match calculate_token_discount_for_tier fee (fee_firstTier fee_structure) discount_token with
      | Some discount => discount
      | None =>
      match calculate_token_discount_for_tier fee (fee_secondTier fee_structure) discount_token with
      | Some discount => discount
      | None =>
      match calculate_token_discount_for_tier fee (fee_thirdTier fee_structure) discount_token with
      | Some discount => discount
      | None =>
      match calculate_token_discount_for_tier fee (fee_fourthTier fee_structure) discount_token with
      | Some discount => discount
      | None => 0
      end end end end
  end.

(** The referrer's reward and the referee's discount; of the referrer only its
    presence is read. *)
Definition calculate_referral_reward_and_referee_discount {A} (fee : Z)
    (fee_structure : FeeStructure) (referrer : option A) : ClearingHouseResult (Z * Z) :=
  match referrer with
  | None => ROk (0, 0)
  | Some _ =>
      x ← checked_mul U128 fee (fee_referrerRewardNumerator fee_structure);
      referrer_reward ← checked_div U128 x (fee_referrerRewardDenominator fee_structure);
      y ← checked_mul U128 fee (fee_refereeDiscountNumerator fee_structure);
      referee_discount ← checked_div U128 y (fee_refereeDiscountDenominator fee_structure);
      ROk (referrer_reward, referee_discount)
  end.

Record Fees := mkFees {
  fe_user_fee : Z; fe_fee_to_market : Z; fe_token_discount : Z; fe_referrer_reward : Z;
  fe_referee_discount : Z
}.

(** [fees::calculate] *)
Definition calculate_fees {A} (quote_asset_amount : Z) (fee_structure : FeeStructure)
    (discount_token : option TokenAccount) (referrer : option A) : ClearingHouseResult Fees :=
  x ← checked_mul U128 quote_asset_amount (fee_feeNumerator fee_structure);
  fee ← checked_div U128 x (fee_feeDenominator fee_structure);
  let token_discount := calculate_token_discount fee fee_structure discount_token in
  '(referrer_reward, referee_discount) ←
    calculate_referral_reward_and_referee_discount fee fee_structure referrer;
  y ← checked_sub U128 fee token_discount;
  user_fee ← checked_sub U128 y referee_discount;
  fee_to_market ← checked_sub U128 user_fee referrer_reward;
  ROk (mkFees user_fee fee_to_market token_discount referrer_reward referee_discount).

(** ** math/funding.rs *)
Definition QUOTE_TO_BASE_AMT_FUNDING_PRECISION : Z :=
  AMM_RESERVE_PRECISION * MARK_PRICE_PRECISION * FUNDING_PAYMENT_PRECISION `quot` QUOTE_PRECISION.
Definition SHARE_OF_FEES_ALLOCATED_TO_CLEARING_HOUSE_NUMERATOR : Z := 1.
Definition SHARE_OF_FEES_ALLOCATED_TO_CLEARING_HOUSE_DENOMINATOR : Z := 2.

(** [_calculate_funding_payment] *)
Definition funding_payment (funding_rate_delta base_asset_amount : Z) : ClearingHouseResult Z :=
  let funding_rate_delta_sign := if 0 <? funding_rate_delta then 1 else -1 in
  x ← checked_mul U192 (Z.abs funding_rate_delta) (Z.abs base_asset_amount);
  y ← checked_div U192 x MARK_PRICE_PRECISION;
  z ← checked_div U192 y FUNDING_PAYMENT_PRECISION;
  u ← try_to_u128 z;
  funding_rate_payment_magnitude ← cast I128 u;
  let funding_rate_payment_sign := if 0 <? base_asset_amount then -1 else 1 in
  v ← checked_mul I128 funding_rate_payment_magnitude funding_rate_payment_sign;
  checked_mul I128 v funding_rate_delta_sign.

Definition calculate_funding_payment (amm_cumulative_funding_rate : Z)
    (market_position : MarketPosition) : ClearingHouseResult Z :=
  funding_rate_delta ←
    checked_sub I128 amm_cumulative_funding_rate (mp_lastCumulativeFundingRate market_position);
  funding_payment funding_rate_delta (mp_baseAssetAmount market_position).

Definition calculate_funding_payment_in_quote_precision (funding_rate_delta base_asset_amount : Z)
    : ClearingHouseResult Z :=
  payment ← funding_payment funding_rate_delta base_asset_amount;
  ratio ← cast I128 AMM_TO_QUOTE_PRECISION_RATIO;
  checked_div I128 payment ratio.

Definition calculate_funding_rate_from_pnl_limit (pnl_limit base_asset_amount : Z)
    : ClearingHouseResult Z :=
  if base_asset_amount =? 0 then ROk 0
  else
    pnl_limit_biased ← (if pnl_limit <? 0 then checked_add I128 pnl_limit 1 else ROk pnl_limit);
    x ← checked_mul I128 pnl_limit_biased QUOTE_TO_BASE_AMT_FUNDING_PRECISION;
    checked_div I128 x base_asset_amount.

(** The fees that stay with the clearing house. *)
Definition total_fee_minus_distributions_lower_bound (amm : AMM) : ClearingHouseResult Z :=
  x ← checked_mul U128 (amm_totalFee amm) SHARE_OF_FEES_ALLOCATED_TO_CLEARING_HOUSE_NUMERATOR;
  checked_div U128 x SHARE_OF_FEES_ALLOCATED_TO_CLEARING_HOUSE_DENOMINATOR.

(** The fees one funding period may use, negative. *)
Definition funding_rate_pnl_limit (amm : AMM) : ClearingHouseResult Z :=
  lower_bound ← total_fee_minus_distributions_lower_bound amm;
  if lower_bound <? amm_totalFeeMinusDistributions amm then
    x ← checked_sub U128 (amm_totalFeeMinusDistributions amm) lower_bound;
    y ← checked_mul U128 x 2;
    z ← checked_div U128 y 3;
    limit ← cast I128 z;
    ROk (- limit)
  else ROk 0.

(** The capped rate and what the clearing house then pays. *)
Definition calculate_capped_funding_rate (market : Market) (uncapped_funding_pnl funding_rate : Z)
    : ClearingHouseResult (Z * Z) :=
  limit ← funding_rate_pnl_limit (mkt_amm market);
  let capped_funding_pnl := Z.max uncapped_funding_pnl limit in
  capped_funding_rate ←
    (if uncapped_funding_pnl <? limit then
       funding_payment_from_users ←
         (if 0 <? funding_rate
          then calculate_funding_payment_in_quote_precision funding_rate (mkt_baseAssetAmountLong market)
          else calculate_funding_payment_in_quote_precision funding_rate (mkt_baseAssetAmountShort market));
       limit ← checked_sub I128 limit (Z.abs funding_payment_from_users);
       if funding_rate <? 0
       then calculate_funding_rate_from_pnl_limit limit (mkt_baseAssetAmountLong market)
       else calculate_funding_rate_from_pnl_limit limit (mkt_baseAssetAmountShort market)
     else ROk funding_rate);
  ROk (capped_funding_rate, capped_funding_pnl).

Definition with_fees (a : AMM) (minus_distributions total : Z) : AMM :=
  {| amm_baseAssetReserve := amm_baseAssetReserve a;
     amm_sqrtK := amm_sqrtK a;
     amm_cumulativeFundingRate := amm_cumulativeFundingRate a;
     amm_lastFundingRate := amm_lastFundingRate a;
     amm_lastFundingRateTs := amm_lastFundingRateTs a;
     amm_lastMarkPriceTwap := amm_lastMarkPriceTwap a;
     amm_lastMarkPriceTwapTs := amm_lastMarkPriceTwapTs a;
     amm_lastOraclePriceTwap := amm_lastOraclePriceTwap a;
     amm_lastOraclePriceTwapTs := amm_lastOraclePriceTwapTs a;
     amm_oracle := amm_oracle a;
     amm_oracleSource := amm_oracleSource a;
     amm_fundingPeriod := amm_fundingPeriod a;
     amm_quoteAssetReserve := amm_quoteAssetReserve a;
     amm_pegMultiplier := amm_pegMultiplier a;
     amm_cumulativeFundingRateLong := amm_cumulativeFundingRateLong a;
     amm_cumulativeFundingRateShort := amm_cumulativeFundingRateShort a;
     amm_cumulativeRepegRebateLong := amm_cumulativeRepegRebateLong a;
     amm_cumulativeRepegRebateShort := amm_cumulativeRepegRebateShort a;
     amm_totalFeeMinusDistributions := minus_distributions;
     amm_totalFeeWithdrawn := amm_totalFeeWithdrawn a;
     amm_totalFee := total;
     amm_minimumTradeSize := amm_minimumTradeSize a;
     amm_lastOraclePrice := amm_lastOraclePrice a |}.

(** The market after, and the rates of the long and of the short side. *)
Definition calculate_funding_rate_long_short (market : Market) (funding_rate : Z)
    : ClearingHouseResult (Market * (Z * Z)) :=
  let amm := mkt_amm market in
  let pool := amm_totalFeeMinusDistributions amm in
  let paid pool := with_amm market (with_fees amm pool (amm_totalFee amm)) in
  payment ← calculate_funding_payment_in_quote_precision funding_rate (mkt_baseAssetAmount market);
  let uncapped_funding_pnl := - payment in
  if 0 <=? uncapped_funding_pnl then
    pool ← checked_add U128 pool (Z.abs uncapped_funding_pnl);
    ROk (paid pool, (funding_rate, funding_rate))
  else
    '(capped_funding_rate, capped_funding_pnl) ←
      calculate_capped_funding_rate market uncapped_funding_pnl funding_rate;
    new_pool ← checked_sub U128 pool (Z.abs capped_funding_pnl);
    _ ← (if capped_funding_pnl =? 0 then ROk tt
         else
           lower_bound ← total_fee_minus_distributions_lower_bound amm;
           ensure (lower_bound <=? new_pool) InvalidFundingProfitability);
    ROk (paid new_pool,
         (if funding_rate <? 0 then capped_funding_rate else funding_rate,
          if 0 <? funding_rate then capped_funding_rate else funding_rate)).

(** ** controller/funding.rs [settle_funding_payment] *)
Record FundingPaymentRecord := mkFundingPaymentRecord {
  fp_ts : Z;
  fp_record_id : Z;
  fp_user_authority : PublicKey;
  fp_user : PublicKey;
  fp_market_index : Z;
  fp_funding_payment : Z;
  fp_base_asset_amount : Z;
  fp_user_last_cumulative_funding : Z;
  fp_user_last_funding_rate_ts : Z;
  fp_amm_cumulative_funding_long : Z;
  fp_amm_cumulative_funding_short : Z
}.

#[export] Instance FundingPaymentRecord_numbered : Numbered FundingPaymentRecord := fp_record_id.

Definition FundingPaymentHistory := History FundingPaymentRecord.

(** The rate of the side of a position. *)
Definition cumulative_rate (amm : AMM) (base_asset_amount : Z) : Z :=
  if 0 <? base_asset_amount then amm_cumulativeFundingRateLong amm
  else amm_cumulativeFundingRateShort amm.

Section Settle.
Variables (user_authority user_key : PublicKey) (markets : list Market) (now : Z).

(** The body of the loop, on one position. *)
Definition settle_position (market_position : MarketPosition) (history : FundingPaymentHistory)
    (payment : Z) : ClearingHouseResult (MarketPosition * FundingPaymentHistory * Z) :=
  if mp_baseAssetAmount market_position =? 0 then ROk (market_position, history, payment)
  else
    market ← market_at markets (mp_marketIndex market_position);
    let amm := mkt_amm market in
    let rate := cumulative_rate amm (mp_baseAssetAmount market_position) in
    if rate =? mp_lastCumulativeFundingRate market_position
    then ROk (market_position, history, payment)
    else
      market_funding_rate_payment ← calculate_funding_payment rate market_position;
      record_id ← next_record_id history;
      history ← append history
        {| fp_ts := now;
           fp_record_id := record_id;
           fp_user_authority := user_authority;
           fp_user := user_key;
           fp_market_index := mp_marketIndex market_position;
           fp_funding_payment := market_funding_rate_payment;
           fp_base_asset_amount := mp_baseAssetAmount market_position;
           fp_user_last_cumulative_funding := mp_lastCumulativeFundingRate market_position;
           fp_user_last_funding_rate_ts := mp_lastFundingRateTs market_position;
           fp_amm_cumulative_funding_long := amm_cumulativeFundingRateLong amm;
           fp_amm_cumulative_funding_short := amm_cumulativeFundingRateShort amm |};
      payment ← checked_add I128 payment market_funding_rate_payment;
      ROk (with_funding_rate market_position rate (amm_lastFundingRateTs amm), history, payment).

Fixpoint settle_positions (positions : list MarketPosition) (history : FundingPaymentHistory)
    (payment : Z) : ClearingHouseResult (list MarketPosition * FundingPaymentHistory * Z) :=
  match positions with
  | [] => ROk ([], history, payment)
  | p :: rest =>
      '(p, history, payment) ← settle_position p history payment;
      '(rest, history, payment) ← settle_positions rest history payment;
      ROk (p :: rest, history, payment)
  end.
End Settle.

Definition settle_funding_payment (user : User) (user_key : PublicKey)
    (positions : list MarketPosition) (markets : list Market) (history : FundingPaymentHistory)
    (now : Z) : ClearingHouseResult (User * list MarketPosition * FundingPaymentHistory) :=
  '(positions, history, payment) ←
    settle_positions (usr_authority user) user_key markets now positions history 0;
  funding_payment_collateral ← checked_div I128 payment AMM_TO_QUOTE_PRECISION_RATIO;
  collateral ← calculate_updated_collateral (usr_collateral user) funding_payment_collateral;
  ROk (with_collateral user collateral, positions, history).

(** ** controller/funding.rs [update_funding_rate] *)
Record FundingRateRecord := mkFundingRateRecord {
  fr_ts : Z;
  fr_record_id : Z;
  fr_market_index : Z;
  fr_funding_rate : Z;
  fr_cumulative_funding_rate_long : Z;
  fr_cumulative_funding_rate_short : Z;
  fr_mark_price_twap : Z;
  fr_oracle_price_twap : Z
}.

#[export] Instance FundingRateRecord_numbered : Numbered FundingRateRecord := fr_record_id.

Definition ONE_HOUR : Z := 3600.

(** How long to wait after the last update: to the hour, or to the one after. *)
Definition next_update_wait (amm : AMM) : ClearingHouseResult Z :=
  let funding_period := amm_fundingPeriod amm in
  if 1 <? funding_period then
    let last_update_delay := amm_lastFundingRateTs amm mod funding_period in
    if last_update_delay =? 0 then ROk funding_period
    else
      max_delay_for_next_period ← checked_div I64 funding_period 3;
      if max_delay_for_next_period <? last_update_delay then
        x ← checked_mul I64 funding_period 2;
        checked_sub I64 x last_update_delay
      else checked_sub I64 funding_period last_update_delay
  else ROk funding_period.

Definition with_funding (a : AMM) (long short last ts : Z) : AMM :=
  {| amm_baseAssetReserve := amm_baseAssetReserve a;
     amm_sqrtK := amm_sqrtK a;
     amm_cumulativeFundingRate := amm_cumulativeFundingRate a;
     amm_lastFundingRate := last;
     amm_lastFundingRateTs := ts;
     amm_lastMarkPriceTwap := amm_lastMarkPriceTwap a;
     amm_lastMarkPriceTwapTs := amm_lastMarkPriceTwapTs a;
     amm_lastOraclePriceTwap := amm_lastOraclePriceTwap a;
     amm_lastOraclePriceTwapTs := amm_lastOraclePriceTwapTs a;
     amm_oracle := amm_oracle a;
     amm_oracleSource := amm_oracleSource a;
     amm_fundingPeriod := amm_fundingPeriod a;
     amm_quoteAssetReserve := amm_quoteAssetReserve a;
     amm_pegMultiplier := amm_pegMultiplier a;
     amm_cumulativeFundingRateLong := long;
     amm_cumulativeFundingRateShort := short;
     amm_cumulativeRepegRebateLong := amm_cumulativeRepegRebateLong a;
     amm_cumulativeRepegRebateShort := amm_cumulativeRepegRebateShort a;
     amm_totalFeeMinusDistributions := amm_totalFeeMinusDistributions a;
     amm_totalFeeWithdrawn := amm_totalFeeWithdrawn a;
     amm_totalFee := amm_totalFee a;
     amm_minimumTradeSize := amm_minimumTradeSize a;
     amm_lastOraclePrice := amm_lastOraclePrice a |}.

(** The rate for a price spread, clamped to 3% of the oracle's. *)
Definition funding_rate_of (amm : AMM) (mark_price_twap oracle_price_twap : Z)
    : ClearingHouseResult Z :=
  one_hour_i64 ← cast I64 ONE_HOUR;
  x ← checked_mul I64 24 one_hour_i64;
  period_adjustment ← checked_div I64 x (Z.max one_hour_i64 (amm_fundingPeriod amm));
  m ← cast I128 mark_price_twap;
  price_spread ← checked_sub I128 m oracle_price_twap;
  max_price_spread ← checked_div I128 oracle_price_twap 33;
  let clamped_price_spread := Z.max (- max_price_spread) (Z.min price_spread max_price_spread) in
  y ← checked_mul I128 clamped_price_spread FUNDING_PAYMENT_PRECISION;
  checked_div I128 y period_adjustment.

Definition update_funding_rate (market_index : Z) (market : Market) (price_oracle : Price)
    (now clock_slot : Z) (funding_rate_history : History FundingRateRecord)
    (guard_rails : OracleGuardRails) (funding_paused : bool)
    : ClearingHouseResult (Market * History FundingRateRecord) :=
  let amm := mkt_amm market in
  time_since_last_update ← checked_sub I64 now (amm_lastFundingRateTs amm);
  '(block_funding_rate_update, oracle_price) ←
    block_operation amm price_oracle clock_slot guard_rails None;
  wait ← next_update_wait amm;
  if negb funding_paused && negb block_funding_rate_update && (wait <=? time_since_last_update) then
    '(amm, oracle_price_twap) ← update_oracle_price_twap amm now oracle_price;
    '(amm, mark_price_twap) ← update_mark_twap amm now None;
    funding_rate ← funding_rate_of amm mark_price_twap oracle_price_twap;
    '(market, (funding_rate_long, funding_rate_short)) ←
      calculate_funding_rate_long_short (with_amm market amm) funding_rate;
    let amm := mkt_amm market in
    long ← checked_add I128 (amm_cumulativeFundingRateLong amm) funding_rate_long;
    short ← checked_add I128 (amm_cumulativeFundingRateShort amm) funding_rate_short;
    let market := with_amm market (with_funding amm long short funding_rate now) in
    record_id ← next_record_id funding_rate_history;
    history ← append funding_rate_history
      {| fr_ts := now;
         fr_record_id := record_id;
         fr_market_index := market_index;
         fr_funding_rate := funding_rate;
         fr_cumulative_funding_rate_long := long;
         fr_cumulative_funding_rate_short := short;
         fr_mark_price_twap := mark_price_twap;
         fr_oracle_price_twap := oracle_price_twap |};
    ROk (market, history)
  else ROk (market, funding_rate_history).
