(* ===== verification/ChainTrade.v ===== *)
(** * The program's trades (programs/clearing_house/src/lib.rs)

    The handlers of open_position, close_position, deposit_collateral,
    withdraw_collateral and liquidate.  [Accounts] are the accounts an instruction may change;
    what it reads of the others (the state, the oracle, the clock, the vaults'
    balances) are arguments.  The token transfers are the job of the token program:
    a handler returns the transfers it asks for. *)
From S2P Require Import Prelude BN Types Checked History.
From S2P Require Import ChainAmm ChainOracle ChainPosition.
From S2P Require Import Idl.
From S2P Require Import ChainFunding.

(** ** state/history *)
Record TradeRecord := mkTradeRecord {
  tr_ts : Z;
  tr_record_id : Z;
  tr_user_authority : PublicKey;
  tr_user : PublicKey;
  tr_direction : PositionDirection;
  tr_base_asset_amount : Z;
  tr_quote_asset_amount : Z;
  tr_mark_price_before : Z;
  tr_mark_price_after : Z;
  tr_fee : Z;
  tr_referrer_reward : Z;
  tr_referee_discount : Z;
  tr_token_discount : Z;
  tr_liquidation : bool;
  tr_market_index : Z;
  tr_oracle_price : Z
}.
#[export] Instance TradeRecord_numbered : Numbered TradeRecord := tr_record_id.

Inductive DepositDirection := DEPOSIT | WITHDRAW.

Record DepositRecord := mkDepositRecord {
  dr_ts : Z;
  dr_record_id : Z;
  dr_user_authority : PublicKey;
  dr_user : PublicKey;
  dr_direction : DepositDirection;
  dr_collateral_before : Z;
  dr_cumulative_deposits_before : Z;
  dr_amount : Z
}.
#[export] Instance DepositRecord_numbered : Numbered DepositRecord := dr_record_id.

(** ** Accounts *)
Record Accounts := mkAccounts {
  ac_user_key : PublicKey;
  ac_user : User;
  ac_positions : list MarketPosition;
  ac_markets : list Market;
  ac_fundingPayments : FundingPaymentHistory;
  ac_fundingRates : History FundingRateRecord;
  ac_trades : History TradeRecord;
  ac_deposits : History DepositRecord
}.

Definition settle_user (c : Accounts) (now : Z) : ClearingHouseResult Accounts :=
  '(user, positions, history) ←
    settle_funding_payment (ac_user c) (ac_user_key c) (ac_positions c) (ac_markets c)
      (ac_fundingPayments c) now;
  ROk (mkAccounts (ac_user_key c) user positions (ac_markets c) history (ac_fundingRates c)
         (ac_trades c) (ac_deposits c)).

(** The three accounts a trade writes. *)
Definition with_trade (c : Accounts) (user : User) (positions : list MarketPosition)
    (market_index : Z) (market : Market) : Accounts :=
  mkAccounts (ac_user_key c) user positions
    (<[Z.to_nat market_index := market]> (ac_markets c)) (ac_fundingPayments c)
    (ac_fundingRates c) (ac_trades c) (ac_deposits c).

(** ** The checks of [access_control] *)
Definition market_initialized (markets : list Market) (market_index : Z)
    : ClearingHouseResult unit :=
  market ← market_at markets market_index;
  ensure (mkt_initialized market) MarketIndexNotInitialized.
Definition exchange_not_paused (state : StateAccount) : ClearingHouseResult unit :=
  ensure (negb (st_exchangePaused state)) ExchangePaused.
Definition valid_oracle_for_market (oracle : PublicKey) (markets : list Market) (market_index : Z)
    : ClearingHouseResult unit :=
  market ← market_at markets market_index;
  ensure (bool_decide (amm_oracle (mkt_amm market) = oracle)) InvalidOracle.
Definition trade_allowed (state : StateAccount) (oracle : PublicKey) (markets : list Market)
    (market_index : Z) : ClearingHouseResult unit :=
  _ ← market_initialized markets market_index;
  _ ← exchange_not_paused state;
  valid_oracle_for_market oracle markets market_index.

(** ** open_position, up to the trade *)

(** The first position of a list that satisfies [f], and its place. *)
Definition position_where (f : MarketPosition -> bool) (positions : list MarketPosition)
    : option (nat * MarketPosition) := list_find (fun p => f p = true) positions.

(** The user's position in the market, or a free slot made one. *)
Definition find_position (positions : list MarketPosition) (market_index : Z)
    : ClearingHouseResult (nat * MarketPosition) :=
  match position_where (is_for market_index) positions with
  | Some r => ROk r
  | None =>
      match position_where (fun p => negb (is_open_position p)) positions with
      | None => err MaxNumberOfPositions
      | Some (i, _) => ROk (i, mkMarketPosition market_index 0 0 0 0)
      end
  end.

(** What a trade did. *)
Record TradeResult := mkTradeResult {
  td_user : User;
  td_market : Market;
  td_position : MarketPosition;
  td_base_asset_amount : Z;
  td_quote_asset_amount : Z;
  td_risk_increasing : bool
}.

(** Increase, reduce, or close and reverse. *)
Definition execute (direction : PositionDirection) (quote_asset_amount : Z) (user : User)
    (market : Market) (market_position : MarketPosition) (now : Z)
    : ClearingHouseResult TradeResult :=
  let size := mp_baseAssetAmount market_position in
  let increase_position :=
    (size =? 0) || ((0 <? size) && bool_decide (direction = LONG))
    || ((size <? 0) && bool_decide (direction = SHORT)) in
  if increase_position then
    '(market, market_position, base_asset_amount) ←
      increase direction quote_asset_amount market market_position now;
    ROk (mkTradeResult user market market_position (Z.abs base_asset_amount) quote_asset_amount true)
  else
    '(base_asset_value, _) ←
      calculate_base_asset_value_and_pnl market_position (mkt_amm market);
    round ← should_round_trade (mkt_amm market) quote_asset_amount base_asset_value;
    let quote_asset_amount := if (round : bool) then base_asset_value else quote_asset_amount in
    if quote_asset_amount <? base_asset_value then
      '(user, market, market_position, base_asset_amount) ←
        reduce direction quote_asset_amount user market market_position now None;
      ROk (mkTradeResult user market market_position (Z.abs base_asset_amount) quote_asset_amount
             false)
    else
      quote_asset_amount_after_close ← checked_sub U128 quote_asset_amount base_asset_value;
      '(user, market, market_position, (_, base_asset_amount_closed)) ←
        close user market market_position now;
      '(market, market_position, base_asset_amount_opened) ←
        increase direction quote_asset_amount_after_close market market_position now;
      base_asset_amount ←
        checked_add U128 (Z.abs base_asset_amount_closed) (Z.abs base_asset_amount_opened);
      ROk (mkTradeResult user market market_position base_asset_amount quote_asset_amount
             (negb (quote_asset_amount_after_close <? base_asset_value))).

(** ** Fees: the market and the user after the fee, and the referrer if there is one *)
Definition charge (quote_asset_amount : Z) (state : StateAccount)
    (optional : ErrorCode + (option TokenAccount * option User)) (market : Market) (user : User)
    : ClearingHouseResult (Market * User * option User * Fees) :=
  '(discount_token, referrer) ← match optional with inl e => err e | inr r => ROk r end;
  fees ← calculate_fees quote_asset_amount (st_feeStructure state) discount_token referrer;
  total_fee ← checked_add U128 (amm_totalFee (mkt_amm market)) (fe_fee_to_market fees);
  pool ← checked_add U128 (amm_totalFeeMinusDistributions (mkt_amm market)) (fe_fee_to_market fees);
  let collateral :=
    match checked_sub U128 (usr_collateral user) (fe_user_fee fees) with
    | ROk c => c | RErr _ => 0
    end in
  paid ← checked_add U128 (usr_totalFeePaid user) (fe_user_fee fees);
  token_discount ← checked_add U128 (usr_totalTokenDiscount user) (fe_token_discount fees);
  referee_discount ← checked_add U128 (usr_totalRefereeDiscount user) (fe_referee_discount fees);
  referrer ←
    match referrer with
    | None => ROk None
    | Some r =>
        reward ← checked_add U128 (usr_totalReferralReward r) (fe_referrer_reward fees);
        ROk (Some (mkUser (usr_authority r) (usr_collateral r) (usr_cumulativeDeposits r)
                     (usr_totalFeePaid r) (usr_totalTokenDiscount r) reward
                     (usr_totalRefereeDiscount r)))
    end;
  ROk (with_amm market (with_fees (mkt_amm market) pool total_fee),
       mkUser (usr_authority user) collateral (usr_cumulativeDeposits user) paid token_discount
         (usr_totalReferralReward user) referee_discount,
       referrer, fees).

(** The entry price of the trade against the limit. *)
Definition within_limit (direction : PositionDirection) (quote_asset_amount base_asset_amount
    limit_price : Z) (amm : AMM) : ClearingHouseResult unit :=
  if limit_price =? 0 then ROk tt
  else
    quote_asset_reserve_amount ← asset_to_reserve_amount quote_asset_amount (amm_pegMultiplier amm);
    entry_price ←
      calculate_price quote_asset_reserve_amount base_asset_amount (amm_pegMultiplier amm);
    ensure (match direction with
            | LONG => entry_price <=? limit_price
            | SHORT => limit_price <=? entry_price
            end) SlippageOutsideLimit.

(** The oracle as an instruction reads it: the account's key and its data. *)
Record OracleAccount := mkOracleAccount { oa_key : PublicKey; oa_price : Price }.

Section Handlers.
Variables (state : StateAccount) (oracle : OracleAccount) (now clock_slot : Z).

Let spread_pct amm precomputed :=
  calculate_oracle_mark_spread_pct amm (oa_price oracle) 0 clock_slot precomputed.

(** The end of a trade: record it and update the funding rate. *)
Definition record_trade (c : Accounts) (record : Z -> TradeRecord) : ClearingHouseResult Accounts :=
  record_id ← next_record_id (ac_trades c);
  trades ← append (ac_trades c) (record record_id);
  ROk (mkAccounts (ac_user_key c) (ac_user c) (ac_positions c) (ac_markets c)
         (ac_fundingPayments c) (ac_fundingRates c) trades (ac_deposits c)).

Definition update_rate (c : Accounts) (market_index : Z) (market : Market)
    : ClearingHouseResult Accounts :=
  '(market, rates) ←
    update_funding_rate market_index market (oa_price oracle) now clock_slot (ac_fundingRates c)
      (st_oracleGuardRails state) (st_fundingPaused state);
  ROk (mkAccounts (ac_user_key c) (ac_user c) (ac_positions c)
         (<[Z.to_nat market_index := market]> (ac_markets c)) (ac_fundingPayments c) rates
         (ac_trades c) (ac_deposits c)).

(** [optional] is what [get_discount_token_and_referrer] makes of the remaining
    accounts. *)
Definition open_position (optional : ErrorCode + (option TokenAccount * option User))
    (direction : PositionDirection) (quote_asset_amount market_index limit_price : Z)
    (c : Accounts) : ClearingHouseResult (Accounts * option User) :=
  _ ← trade_allowed state (oa_key oracle) (ac_markets c) market_index;
  c ← settle_user c now;
  '(i, market_position) ← find_position (ac_positions c) market_index;
  market ← market_at (ac_markets c) market_index;
  mark_price_before ← mark_price (mkt_amm market);
  '(oracle_price, _, spread_before) ← spread_pct (mkt_amm market) None;
  is_oracle_valid ←
    is_oracle_valid (mkt_amm market) (oa_price oracle) clock_slot (st_oracleGuardRails state);
  amm ←
    (if (is_oracle_valid : bool) then
       '(amm, _) ← update_oracle_price_twap (mkt_amm market) now oracle_price; ROk amm
     else ROk (mkt_amm market));
  t ← execute direction quote_asset_amount (ac_user c) (with_amm market amm) market_position now;
  let c := with_trade c (td_user t) (<[i := td_position t]> (ac_positions c)) market_index
             (td_market t) in
  mark_price_after ← mark_price (mkt_amm (td_market t));
  '(oracle_price_after, _, spread_after) ←
    spread_pct (mkt_amm (td_market t)) (Some mark_price_after);
  margin ← calculate_margin_ratio (td_user t) (ac_positions c) (ac_markets c);
  _ ← ensure (negb ((mr_marginRatio margin <? st_marginRatioInitial state)
                    && td_risk_increasing t)) InsufficientCollateral;
  '(market, user, referrer, fees) ←
    charge (td_quote_asset_amount t) state optional (td_market t) (td_user t);
  let c := with_trade c user (ac_positions c) market_index market in
  divergent_before ← is_oracle_mark_too_divergent spread_before (st_oracleGuardRails state);
  divergent_after ← is_oracle_mark_too_divergent spread_after (st_oracleGuardRails state);
  _ ← ensure (negb (divergent_after && negb divergent_before && is_oracle_valid))
        OracleMarkSpreadLimit;
  _ ← ensure (negb (divergent_after && (Z.abs spread_before <=? Z.abs spread_after)
                    && is_oracle_valid && td_risk_increasing t)) OracleMarkSpreadLimit;
  c ← record_trade c (fun record_id =>
    {| tr_ts := now;
       tr_record_id := record_id;
       tr_user_authority := usr_authority user;
       tr_user := ac_user_key c;
       tr_direction := direction;
       tr_base_asset_amount := td_base_asset_amount t;
       tr_quote_asset_amount := td_quote_asset_amount t;
       tr_mark_price_before := mark_price_before;
       tr_mark_price_after := mark_price_after;
       tr_fee := fe_user_fee fees;
       tr_referrer_reward := fe_referrer_reward fees;
       tr_referee_discount := fe_referee_discount fees;
       tr_token_discount := fe_token_discount fees;
       tr_liquidation := false;
       tr_market_index := market_index;
       tr_oracle_price := oracle_price_after |});
  _ ← within_limit direction (td_quote_asset_amount t) (td_base_asset_amount t) limit_price
        (mkt_amm market);
  c ← update_rate c market_index market;
  ROk (c, referrer).

Definition close_position (optional : ErrorCode + (option TokenAccount * option User))
    (market_index : Z) (c : Accounts) : ClearingHouseResult (Accounts * option User) :=
  _ ← trade_allowed state (oa_key oracle) (ac_markets c) market_index;
  c ← settle_user c now;
  '(i, market_position) ←
    match position_where (is_for market_index) (ac_positions c) with
    | None => err UserHasNoPositionInMarket
    | Some r => ROk r
    end;
  market ← market_at (ac_markets c) market_index;
  mark_price_before ← mark_price (mkt_amm market);
  '(_, _, spread_before) ← spread_pct (mkt_amm market) (Some mark_price_before);
  let direction_to_close := direction_to_close_position (mp_baseAssetAmount market_position) in
  '(user, market, market_position, (quote_asset_amount, base_asset_amount)) ←
    close (ac_user c) market market_position now;
  '(market, user, referrer, fees) ← charge quote_asset_amount state optional market user;
  mark_price_after ← mark_price (mkt_amm market);
  '(oracle_price_after, _, spread_after) ← spread_pct (mkt_amm market) (Some mark_price_after);
  is_oracle_valid ←
    is_oracle_valid (mkt_amm market) (oa_price oracle) clock_slot (st_oracleGuardRails state);
  amm ←
    (if (is_oracle_valid : bool) then
       '(amm, _) ← update_oracle_price_twap (mkt_amm market) now oracle_price_after; ROk amm
     else ROk (mkt_amm market));
  let market := with_amm market amm in
  divergent_before ← is_oracle_mark_too_divergent spread_before (st_oracleGuardRails state);
  divergent_after ← is_oracle_mark_too_divergent spread_after (st_oracleGuardRails state);
  _ ← ensure (negb (divergent_after && negb divergent_before && is_oracle_valid))
        OracleMarkSpreadLimit;
  let c := with_trade c user (<[i := market_position]> (ac_positions c)) market_index market in
  c ← record_trade c (fun record_id =>
    {| tr_ts := now;
       tr_record_id := record_id;
       tr_user_authority := usr_authority user;
       tr_user := ac_user_key c;
       tr_direction := direction_to_close;
       tr_base_asset_amount := Z.abs base_asset_amount;
       tr_quote_asset_amount := quote_asset_amount;
       tr_mark_price_before := mark_price_before;
       tr_mark_price_after := mark_price_after;
       tr_fee := fe_user_fee fees;
       tr_referrer_reward := fe_referrer_reward fees;
       tr_referee_discount := fe_referee_discount fees;
       tr_token_discount := fe_token_discount fees;
       tr_liquidation := false;
       tr_market_index := market_index;
       tr_oracle_price := oracle_price_after |});
  c ← update_rate c market_index market;
  ROk (c, referrer).

(** ** Collateral

    What an instruction asks the token program to move. *)
Inductive Transfer :=
  | UserToCollateralVault (amount : Z)
  | CollateralVaultToUser (amount : Z)
  | InsuranceVaultToUser (amount : Z)
  | CollateralVaultToInsuranceVault (amount : Z)
  | CollateralVaultToRecipient (amount : Z)
  | InsuranceVaultToRecipient (amount : Z)
  | InsuranceVaultToCollateralVault (amount : Z).

Definition with_deposits (user : User) (collateral cumulative_deposits : Z) : User :=
  mkUser (usr_authority user) collateral cumulative_deposits (usr_totalFeePaid user)
    (usr_totalTokenDiscount user) (usr_totalReferralReward user) (usr_totalRefereeDiscount user).
Definition with_user (c : Accounts) (user : User) : Accounts :=
  mkAccounts (ac_user_key c) user (ac_positions c) (ac_markets c) (ac_fundingPayments c)
    (ac_fundingRates c) (ac_trades c) (ac_deposits c).

(** The record both instructions append; [before] is the user at their start. *)
Definition record_deposit (c : Accounts) (before : User) (direction : DepositDirection) (amount : Z)
    : ClearingHouseResult Accounts :=
  record_id ← next_record_id (ac_deposits c);
  deposits ← append (ac_deposits c)
    {| dr_ts := now;
       dr_record_id := record_id;
       dr_user_authority := usr_authority (ac_user c);
       dr_user := ac_user_key c;
       dr_direction := direction;
       dr_collateral_before := usr_collateral before;
       dr_cumulative_deposits_before := usr_cumulativeDeposits before;
       dr_amount := amount |};
  ROk (mkAccounts (ac_user_key c) (ac_user c) (ac_positions c) (ac_markets c)
         (ac_fundingPayments c) (ac_fundingRates c) (ac_trades c) deposits).

Definition deposit_collateral (amount : Z) (c : Accounts)
    : ClearingHouseResult (Accounts * list Transfer) :=
  let before := ac_user c in
  _ ← ensure (negb (amount =? 0)) InsufficientDeposit;
  collateral ← checked_add U128 (usr_collateral before) amount;
  cumulative ← checked_add I128 (usr_cumulativeDeposits before) amount;
  c ← settle_user (with_user c (with_deposits before collateral cumulative)) now;
  c ← record_deposit c before DEPOSIT amount;
  _ ← (if 0 <? st_maxDeposit state then
         max_deposit ← cast I128 (st_maxDeposit state);
         ensure (usr_cumulativeDeposits (ac_user c) <=? max_deposit) UserMaxDeposit
       else ROk tt);
  ROk (c, [UserToCollateralVault amount]).

(** The arguments are the balances of the two vaults. *)
Definition withdraw_collateral (collateral_vault insurance_vault amount : Z) (c : Accounts)
    : ClearingHouseResult (Accounts * list Transfer) :=
  _ ← exchange_not_paused state;
  let before := ac_user c in
  c ← settle_user c now;
  _ ← ensure (amount <=? usr_collateral (ac_user c)) InsufficientCollateral;
  '(collateral_account_withdrawal, insurance_account_withdrawal) ←
    calculate_withdrawal_amounts amount collateral_vault insurance_vault;
  amount_withdraw ← checked_add U64 collateral_account_withdrawal insurance_account_withdrawal;
  cumulative ← checked_sub I128 (usr_cumulativeDeposits (ac_user c)) amount_withdraw;
  x ← checked_sub U128 (usr_collateral (ac_user c)) collateral_account_withdrawal;
  collateral ← checked_sub U128 x insurance_account_withdrawal;
  let c := with_user c (with_deposits (ac_user c) collateral cumulative) in
  margin ← calculate_margin_ratio (ac_user c) (ac_positions c) (ac_markets c);
  _ ← ensure (st_marginRatioInitial state <=? mr_marginRatio margin) InsufficientCollateral;
  c ← record_deposit c before WITHDRAW amount_withdraw;
  ROk (c, CollateralVaultToUser collateral_account_withdrawal ::
          (if 0 <? insurance_account_withdrawal
           then [InsuranceVaultToUser insurance_account_withdrawal] else [])).

(** ** Liquidation

    The loop over the positions threads the user, the markets, the history and the
    value closed; a closed or reduced position replaces the one it was. *)
Record Liquidation := mkLiquidation {
  lq_user : User;
  lq_markets : list Market;
  lq_trades : History TradeRecord;
  lq_closed : Z
}.

Definition oracle_of (remaining : list OracleAccount) (market : Market)
    : ClearingHouseResult OracleAccount :=
  match list_find (fun o => oa_key o = amm_oracle (mkt_amm market)) remaining with
  | Some (_, o) => ROk o
  | None => err OracleNotFound
  end.

Definition liquidate_position (user_key : PublicKey) (remaining : list OracleAccount)
    (is_full : bool) (p : MarketPosition) (l : Liquidation)
    : ClearingHouseResult (MarketPosition * Liquidation) :=
  if mp_baseAssetAmount p =? 0 then ROk (p, l)
  else
    market ← market_at (lq_markets l) (mp_marketIndex p);
    precomputed ← (if is_full then ROk None else p ← mark_price (mkt_amm market); ROk (Some p));
    o ← oracle_of remaining market;
    '(liquidations_blocked, oracle_price) ←
      block_operation (mkt_amm market) (oa_price o) clock_slot (st_oracleGuardRails state) precomputed;
    _ ← ensure (negb liquidations_blocked) LiquidationsBlockedByOracle;
    mark_price_before ←
      match precomputed with Some p => ROk p | None => mark_price (mkt_amm market) end;
    let direction := direction_to_close_position (mp_baseAssetAmount p) in
    '(user, market', p', value, size, closed) ←
      (if is_full then
         '(user, market, p, (value, size)) ← close (lq_user l) market p now;
         closed ← checked_add U128 (lq_closed l) value;
         ROk (user, market, p, value, size, closed)
       else
         '(base_asset_value, _) ← calculate_base_asset_value_and_pnl p (mkt_amm market);
         x ← checked_mul U128 base_asset_value (st_partialLiquidationClosePercentageNumerator state);
         value ← checked_div U128 x (st_partialLiquidationClosePercentageDenominator state);
         closed ← checked_add U128 (lq_closed l) value;
         '(user, market, p, size) ←
           reduce direction value (lq_user l) market p now (Some mark_price_before);
         ROk (user, market, p, value, size, closed));
    mark_price_after ← mark_price (mkt_amm market');
    record_id ← next_record_id (lq_trades l);
    trades ← append (lq_trades l)
      {| tr_ts := now;
         tr_record_id := record_id;
         tr_user_authority := usr_authority user;
         tr_user := user_key;
         tr_direction := direction;
         tr_base_asset_amount := Z.abs size;
         tr_quote_asset_amount := value;
         tr_mark_price_before := mark_price_before;
         tr_mark_price_after := mark_price_after;
         tr_fee := 0;
         tr_referrer_reward := 0;
         tr_referee_discount := 0;
         tr_token_discount := 0;
         tr_liquidation := true;
         tr_market_index := mp_marketIndex p';
         tr_oracle_price := oracle_price |};
    ROk (p', mkLiquidation user (<[Z.to_nat (mp_marketIndex p) := market']> (lq_markets l)) trades
               closed).

Fixpoint liquidate_positions (user_key : PublicKey) (remaining : list OracleAccount)
    (is_full : bool) (positions : list MarketPosition) (l : Liquidation)
    : ClearingHouseResult (list MarketPosition * Liquidation) :=
  match positions with
  | [] => ROk ([], l)
  | p :: rest =>
      '(p, l) ← liquidate_position user_key remaining is_full p l;
      '(rest, l) ← liquidate_positions user_key remaining is_full rest l;
      ROk (p :: rest, l)
  end.

(** The fields of the liquidation record. *)
Record LiquidationRecord := mkLiquidationRecord {
  lr_partial : bool;
  lr_base_asset_value : Z;
  lr_base_asset_value_closed : Z;
  lr_liquidation_fee : Z;
  lr_fee_to_liquidator : Z;
  lr_fee_to_insurance_fund : Z;
  lr_total_collateral : Z;
  lr_collateral : Z;
  lr_unrealized_pnl : Z;
  lr_margin_ratio : Z
}.

(** [liquidate]: the accounts and the liquidator's user after it, the transfers and
    what the liquidation history is told. *)
Definition liquidate_handler (remaining : list OracleAccount) (collateral_vault insurance_vault : Z)
    (liquidator : User) (c : Accounts)
    : ClearingHouseResult (Accounts * User * list Transfer * LiquidationRecord) :=
  _ ← exchange_not_paused state;
  c ← settle_user c now;
  let collateral := usr_collateral (ac_user c) in
  margin ← calculate_margin_ratio (ac_user c) (ac_positions c) (ac_markets c);
  _ ← ensure (mr_marginRatio margin <=? st_marginRatioPartial state) SufficientCollateral;
  let is_full := mr_marginRatio margin <=? st_marginRatioMaintenance state in
  '(positions, l) ←
    liquidate_positions (ac_user_key c) remaining is_full (ac_positions c)
      (mkLiquidation (ac_user c) (ac_markets c) (ac_trades c) 0);
  let '(penalised, num, den, share) :=
    if is_full
    then (usr_collateral (lq_user l), st_fullLiquidationPenaltyPercentageNumerator state,
          st_fullLiquidationPenaltyPercentageDenominator state,
          st_fullLiquidationLiquidatorShareDenominator state)
    else (mr_totalCollateral margin, st_partialLiquidationPenaltyPercentageNumerator state,
          st_partialLiquidationPenaltyPercentageDenominator state,
          st_partialLiquidationLiquidatorShareDenominator state) in
  x ← checked_mul U128 penalised num;
  liquidation_fee ← checked_div U128 x den;
  fee ← cast U64 liquidation_fee;
  '(withdrawal_amount, _) ← calculate_withdrawal_amounts fee collateral_vault insurance_vault;
  user_collateral ← checked_sub U128 (usr_collateral (lq_user l)) liquidation_fee;
  fee_to_liquidator ← checked_div U64 withdrawal_amount share;
  fee_to_insurance_fund ← checked_sub U64 withdrawal_amount fee_to_liquidator;
  liquidator ←
    (if 0 <? fee_to_liquidator then
       x ← checked_add U128 (usr_collateral liquidator) fee_to_liquidator;
       ROk (with_collateral liquidator x)
     else ROk liquidator);
  ROk (mkAccounts (ac_user_key c) (with_collateral (lq_user l) user_collateral) positions
         (lq_markets l) (ac_fundingPayments c) (ac_fundingRates c) (lq_trades l) (ac_deposits c),
       liquidator,
       (if 0 <? fee_to_insurance_fund
        then [CollateralVaultToInsuranceVault fee_to_insurance_fund] else []),
       mkLiquidationRecord (negb is_full) (mr_baseAssetValue margin) (lq_closed l) liquidation_fee
         fee_to_liquidator fee_to_insurance_fund (mr_totalCollateral margin) collateral
         (mr_unrealizedPnl margin) (mr_marginRatio margin)).
End Handlers.
