(* ===== verification/ChainAgreement.v ===== *)
(** * The SDK and the program agree

    The SDK computes on the client what the program will compute on the chain.
    Whenever the program's computation succeeds, the client's gives the same
    result: the reserves and amounts of a trade, the mark and the terminal price,
    the value and the profit of a position, the cost of a re-peg, the margin of a
    user.  Funding, which the client rounds per position and the program once,
    differs by less than the number of positions. *)
From S2P Require Import Prelude BN Types Checked.
From S2P Require Import Amm Position Trade User.
From S2P Require Import ChainAmm ChainPosition.
From S2P Require Import Idl History.
From S2P Require Import ChainFunding.

(** ** What the program's steps compute *)
Lemma calculate_swap_output_inv s r d k o i :
  calculate_swap_output s r d k = ROk (o, i) ->
  i = (match d with ADD => r + s | REMOVE => r - s end) /\ 0 < i /\
  o = (k * k) `quot` i /\ 0 <= o.
Proof.
  unfold calculate_swap_output. intros H. rust_inv. subst.
  destruct d; rust_inv; widths; subst; split_and!; lia || done.
Qed.

Lemma update_mark_twap_inv a now p a' t :
  update_mark_twap a now p = ROk (a', t) -> a' = with_mark_twap a t now.
Proof. unfold update_mark_twap. intros H. rust_inv. by subst. Qed.

Lemma swap_quote_asset_inv a q d now p a' b :
  swap_quote_asset a q d now p = ROk (a', b) ->
  exists t s i o,
    s = (q * 10000000000) `quot` amm_pegMultiplier a /\ 0 <= q /\ amm_pegMultiplier a <> 0 /\
    amm_minimumTradeSize a <= s /\
    i = (match d with ADD => amm_quoteAssetReserve a + s | REMOVE => amm_quoteAssetReserve a - s end) /\
    0 < i /\ o = (amm_sqrtK a * amm_sqrtK a) `quot` i /\ 0 <= o /\
    a' = with_curve (with_mark_twap a t now) o i (amm_sqrtK a) (amm_pegMultiplier a) /\
    b = amm_baseAssetReserve a - o.
Proof.
  unfold swap_quote_asset, asset_to_reserve_amount. intros H. rust_inv. subst.
  apply update_mark_twap_inv in E as ->. cbn in *. consts.
  apply calculate_swap_output_inv in E2 as (-> & ? & -> & ?). cbn in *. widths.
  do 4 eexists. split_and!; [reflexivity | lia | done | lia | reflexivity | done | reflexivity | done
    | reflexivity | reflexivity].
Qed.

Lemma swap_base_asset_inv a s d now a' q :
  swap_base_asset a s d now = ROk (a', q) ->
  exists t i o,
    i = (match d with ADD => amm_baseAssetReserve a + s | REMOVE => amm_baseAssetReserve a - s end) /\
    0 < i /\ o = (amm_sqrtK a * amm_sqrtK a) `quot` i /\ 0 <= o /\
    a' = with_curve (with_mark_twap a t now) i o (amm_sqrtK a) (amm_pegMultiplier a) /\
    calculate_quote_asset_amount_swapped (amm_quoteAssetReserve a) o d (amm_pegMultiplier a) = ROk q.
Proof.
  unfold swap_base_asset. intros H. rust_inv. subst.
  apply update_mark_twap_inv in E as ->. cbn in *.
  apply calculate_swap_output_inv in E0 as (-> & ? & -> & ?). cbn in *.
  do 3 eexists. split_and!; [reflexivity | done | reflexivity | done | reflexivity | done].
Qed.

Lemma quote_swapped_inv before after d peg v :
  calculate_quote_asset_amount_swapped before after d peg = ROk v ->
  let change := match d with ADD => before - after | REMOVE => after - before end in
  v = (change * peg) `quot` 10000000000 /\ 0 <= change /\ 0 <= v.
Proof.
  unfold calculate_quote_asset_amount_swapped, reserve_to_asset_amount. intros H. rust_inv.
  consts. destruct d; rust_inv; widths; subst; (split_and!; [done | lia | apply Z.quot_pos; lia]).
Qed.

(** The value of [n] base of a curve, in the program. *)
Lemma value_and_pnl_inv n q a v pnl :
  base_asset_value_and_pnl n q a = ROk (v, pnl) -> n <> 0 ->
  v = value_of a n /\ 0 <= v /\ 0 < amm_baseAssetReserve a + n /\
  pnl = (if 0 <? n then v - q else q - v - 1).
Proof.
  unfold base_asset_value_and_pnl, swap_direction_to_close_position, calculate_pnl.
  intros H Hn. rewrite (proj2 (Z.eqb_neq n 0) Hn) in H. rust_inv. subst.
  apply calculate_swap_output_inv in E as (-> & Hi & -> & Ho).
  apply quote_swapped_inv in E0 as (-> & _ & Hv).
  unfold value_of, closing_quote, quote_at in *. rewrite (proj2 (Z.eqb_neq n 0) Hn).
  destruct (Z.leb_spec 0 n), (Z.ltb_spec 0 n); try lia; rust_inv; subst.
  - rewrite !Z.abs_eq in * by lia. split_and!; (lia || done).
  - rewrite !Z.abs_neq, !Z.sub_opp_r in * by lia. split_and!; (lia || done).
Qed.

Lemma value_and_pnl_flat q a v pnl : base_asset_value_and_pnl 0 q a = ROk (v, pnl) -> v = 0 /\ pnl = 0.
Proof. cbn. intros [= <- <-]. done. Qed.

(** A profit lands in the collateral, a loss leaves it at least empty. *)
Lemma updated_collateral_inv c pnl c' :
  calculate_updated_collateral c pnl = ROk c' -> 0 <= c -> c' = Z.max 0 (c + pnl).
Proof.
  unfold calculate_updated_collateral. intros H Hc.
  destruct (Z.ltb_spec pnl 0), (Z.ltb_spec c (Z.abs pnl)), (Z.ltb_spec 0 pnl); cbn in H;
    rust_inv; subst; lia.
Qed.

(** A position of the program's account as the SDK decodes it. *)
Record sees (u : UserPosition) (p : MarketPosition) : Prop := {
  sees_base : pos_baseAssetAmount u = mp_baseAssetAmount p;
  sees_rate : pos_lastCumulativeFundingRate u = mp_lastCumulativeFundingRate p;
  sees_index : bo_val (pos_marketIndex u) = mp_marketIndex p;
  sees_quote : pos_quoteAssetAmount u = mp_quoteAssetAmount p
}.

Section Agreement.
Context {B : BNLib} {L : BNLaws B}.

Lemma bind_assert {A} e (k : unit -> result A) : (assert true e ≫= k) = k tt.
Proof. done. Qed.

(** Both sides name the same direction of a quote swap, and of the base swap that
    closes a position. *)
Lemma swap_direction_agrees d : getSwapDirection quote d = swap_direction_of d.
Proof. by destruct d. Qed.
Lemma closing_direction_agrees n :
  getSwapDirection base (if 0 <? n then SHORT else LONG) = if 0 <? n then ADD else REMOVE.
Proof. by destruct (0 <? n). Qed.

Lemma calculateSwapOutput_of_program s r d k o i :
  calculate_swap_output s r d k = ROk (o, i) -> calculateSwapOutput r s d (k * k) = Ok (i, o).
Proof.
  intros (-> & ? & -> & ?)%calculate_swap_output_inv.
  destruct d; [apply calculateSwapOutput_ADD | apply calculateSwapOutput_REMOVE]; lia.
Qed.

(** The prices. *)
Lemma calculatePrice_of_program q b p x :
  calculate_price q b p = ROk x -> 0 <= q -> 0 <= p -> 0 < b -> calculatePrice b q p = Ok x.
Proof.
  unfold calculate_price, PRICE_TO_PEG_PRECISION_RATIO. consts. intros H Hq Hp Hb.
  change (10000000000 `quot` 1000) with 10000000 in *. rust_inv. subst.
  rewrite calculatePrice_pos by lia. by rewrite quot_div_pos by nia.
Qed.

(** C4: The preview of a trade is exact: when the program executes a swap, of quote or
    of base, the SDK's reserves after the swap are the reserves the program writes,
    and the amounts acquired are those the program credits. *)
Theorem trade_preview_exact (m : Market) (q s now : Z) (direction : PositionDirection)
    (d : SwapDirection) (p : option Z) (a' : AMM) (b v : Z) :
  (swap_quote_asset (mkt_amm m) q (swap_direction_of direction) now p = ROk (a', b) ->
   calculateAmmReservesAfterSwap (mkt_amm m) quote q (getSwapDirection quote direction)
     = Ok (amm_quoteAssetReserve a', amm_baseAssetReserve a') /\
   (q <> 0 -> calculateTradeAcquiredAmounts direction q m quote
     = Ok (b, amm_quoteAssetReserve (mkt_amm m) - amm_quoteAssetReserve a')) /\
   amm_minimumTradeSize (mkt_amm m) <= Z.abs (amm_quoteAssetReserve (mkt_amm m) - amm_quoteAssetReserve a')) /\
  (0 <= s -> swap_base_asset (mkt_amm m) s d now = ROk (a', v) ->
   calculateAmmReservesAfterSwap (mkt_amm m) base s d
     = Ok (amm_quoteAssetReserve a', amm_baseAssetReserve a') /\
   v = (Z.abs (amm_quoteAssetReserve (mkt_amm m) - amm_quoteAssetReserve a')
          * amm_pegMultiplier (mkt_amm m)) `quot` 10000000000).
Proof.
  split.
  - intros (t & s' & i & o & Hs & Hq & Hpeg & Hmin & Hi & Hpos & Ho & ? & -> & ->)%swap_quote_asset_inv.
    cbn [with_curve amm_quoteAssetReserve amm_baseAssetReserve].
    assert (calculateAmmReservesAfterSwap (mkt_amm m) quote q (getSwapDirection quote direction)
            = Ok (i, o)) as E.
    { unfold calculateAmmReservesAfterSwap. consts. rewrite (proj2 (Z.leb_le 0 q)) by lia.
      rewrite bind_assert, decide_True, swap_direction_agrees by done. bn_run. rewrite <- Hs, Hi, Ho.
      destruct direction; cbn [swap_direction_of] in *;
        rewrite ?calculateSwapOutput_ADD, ?calculateSwapOutput_REMOVE by lia; by subst. }
    split; [done |]. split; [| destruct direction; cbn [swap_direction_of] in Hi; cbn; lia].
    intros Hq0. unfold calculateTradeAcquiredAmounts. consts. rewrite (proj2 (Z.eqb_neq q 0)) by done.
    rewrite E. done.
  - intros Hs (t & i & o & Hi & Hpos & Ho & ? & -> & Hv)%swap_base_asset_inv.
    cbn [with_curve amm_quoteAssetReserve amm_baseAssetReserve].
    apply quote_swapped_inv in Hv as (-> & Hv & _). split.
    + unfold calculateAmmReservesAfterSwap. consts. rewrite (proj2 (Z.leb_le 0 s)) by done.
      rewrite bind_assert, decide_False by done.
      destruct d; rewrite ?calculateSwapOutput_ADD, ?calculateSwapOutput_REMOVE by lia; by subst.
    + f_equal. destruct d; rewrite ?Z.abs_eq, ?Z.abs_neq by lia; f_equal; lia.
Qed.

(** The mark price, and the terminal price of an initialised market. *)
Theorem prices_agree (m : Market) (x t : Z) :
  0 <= amm_quoteAssetReserve (mkt_amm m) -> 0 < amm_baseAssetReserve (mkt_amm m) ->
  0 <= amm_pegMultiplier (mkt_amm m) ->
  (mark_price (mkt_amm m) = ROk x -> calculateMarkPrice m = Ok x) /\
  (mkt_initialized m = true -> calculate_terminal_price m = ROk t ->
   calculateTerminalPrice m = Ok t).
Proof.
  intros Hq Hb Hp. split.
  - intros H. by apply calculatePrice_of_program.
  - intros Hi H. unfold calculate_terminal_price in H. rust_inv.
    unfold calculateTerminalPrice. rewrite Hi. cbn [negb]. change ZERO with 0.
    rewrite closing_direction_agrees. unfold calculateAmmReservesAfterSwap. change ZERO with 0.
    rewrite (proj2 (Z.leb_le 0 _)), bind_assert, decide_False by (done || lia).
    rewrite (calculateSwapOutput_of_program _ _ _ _ _ _ E).
    apply calculate_swap_output_inv in E as (_ & ? & _ & ?). res_simpl.
    apply calculatePrice_of_program in H; [| done..].
    rewrite calculatePrice_nonzero in H by lia. consts. bn_run. exact H.
Qed.

(** The program's value and profit of [n] base that cost [q]. *)
Lemma value_of_program m u n q v pnl :
  base_asset_value_and_pnl n q (mkt_amm m) = ROk (v, pnl) ->
  pos_baseAssetAmount u = n -> pos_quoteAssetAmount u = q ->
  calculateBaseAssetValue m u = Ok v /\ calculatePositionPNL m u false = Ok pnl /\ 0 <= v /\
  (n = 0 -> v = 0 /\ pnl = 0).
Proof.
  intros H Hb Hq. destruct (Z.eq_dec n 0) as [Hz | Hn].
  - rewrite Hz in H. apply value_and_pnl_flat in H as [-> ->].
    rewrite calculateBaseAssetValue_flat, calculatePositionPNL_flat by congruence. done.
  - apply value_and_pnl_inv in H as (-> & Hv & Hpos & ->); [| done].
    assert (calculateBaseAssetValue m u = Ok (value_of (mkt_amm m) n)) as E.
    { rewrite calculateBaseAssetValue_spec by (rewrite Hb; lia). by rewrite Hb. }
    split; [done |]. rewrite (calculatePositionPNL_price m u _ ltac:(congruence) E), Hb, Hq.
    split_and!; [done | done | lia].
Qed.

Lemma value_agrees m u p v pnl :
  sees u p -> calculate_base_asset_value_and_pnl p (mkt_amm m) = ROk (v, pnl) ->
  calculateBaseAssetValue m u = Ok v /\ calculatePositionPNL m u false = Ok pnl /\ 0 <= v /\
  (mp_baseAssetAmount p = 0 -> v = 0 /\ pnl = 0).
Proof. intros [Hb Hr Hi Hq] H. by apply (value_of_program m u _ _ _ _ H). Qed.

(** C10: Closing a position realises what the SDK estimated: the value the program pays for it and the
    profit it credits are those of the client for the market before, the collateral
    moves by that profit and never below zero, and the position is emptied. *)
Theorem closing_realises_estimate (user user' : User) (m m' : Market) (p p' : MarketPosition)
    (u : UserPosition) (now v n : Z) :
  sees u p -> 0 <= usr_collateral user -> mp_baseAssetAmount p <> 0 ->
  close user m p now = ROk (user', m', p', (v, n)) ->
  calculateBaseAssetValue m u = Ok v /\ n = mp_baseAssetAmount p /\
  exists pnl, calculatePositionPNL m u false = Ok pnl /\
    usr_collateral user' = Z.max 0 (usr_collateral user + pnl) /\
    mp_baseAssetAmount p' = 0 /\ mp_quoteAssetAmount p' = 0.
Proof.
  intros Hs Hc Hn H. unfold close in H. rewrite (proj2 (Z.eqb_neq _ 0) Hn) in H.
  rust_inv. subst. apply swap_base_asset_inv in E as (t & i & o & Hi & Hpos & Ho & Ho0 & -> & E).
  assert (0 < amm_baseAssetReserve (mkt_amm m) + mp_baseAssetAmount p) as Hb.
  { destruct (Z.ltb_spec 0 (mp_baseAssetAmount p)); lia. }
  assert (calculateBaseAssetValue m u = Ok v) as Hv.
  { rewrite calculateBaseAssetValue_spec by (rewrite (sees_base _ _ Hs); lia).
    rewrite (sees_base _ _ Hs). unfold value_of, closing_quote, quote_at.
    rewrite (proj2 (Z.eqb_neq _ 0) Hn). apply quote_swapped_inv in E as (-> & _ & _).
    destruct (Z.ltb_spec 0 (mp_baseAssetAmount p)).
    - rewrite Z.abs_eq in Hi by lia. by subst.
    - rewrite Z.abs_neq, Z.sub_opp_r in Hi by lia. by subst. }
  split; [done |]. split; [done |]. eexists. split.
  { apply calculatePositionPNL_price; [rewrite (sees_base _ _ Hs); lia | done]. }
  rewrite (sees_base _ _ Hs), (sees_quote _ _ Hs). cbn.
  apply updated_collateral_inv in E1; [| done].
  unfold calculate_pnl in E0. destruct (0 <? mp_baseAssetAmount p); rust_inv; subst; done.
Qed.

Lemma calculateMarkPrice_returns m : exists x, calculateMarkPrice m = Ok x.
Proof.
  unfold calculateMarkPrice.
  destruct (Z.eq_dec (amm_baseAssetReserve (mkt_amm m)) 0) as [-> | Hb].
  - rewrite calculatePrice_zero. eauto.
  - rewrite calculatePrice_nonzero by done. eauto.
Qed.

Lemma convertToNumber_outcome z p : p <> 0 ->
  (exists x, convertToNumber (Some z) p = Ok x) \/ convertToNumber (Some z) p = Throw bn_error.
Proof.
  intros Hp. unfold convertToNumber. rewrite bn_div_nonzero, bn_mod_nonzero by done. res_simpl.
  assert (forall y, bn_toNumber y = Ok y \/ bn_toNumber y = Throw bn_error) as Hn.
  { intros y. destruct (Z.le_gt_cases (Z.abs y) MAX_SAFE_INTEGER);
      [left; by apply bn_toNumber_safe | right; by apply bn_toNumber_unsafe]. }
  destruct (Hn (z `quot` p)) as [-> | ->]; cbn; [| by right].
  destruct (Hn (z `rem` p)) as [-> | ->]; cbn; [| by right].
  destruct (Hn p) as [-> | ->]; cbn; eauto.
Qed.

(** The cost of a re-peg the SDK shows is the one the program charges, unless
    a price is too large to print, when the SDK throws instead. *)
Theorem repeg_cost_agrees (m m' : Market) (i new_peg cost : Z) :
  adjust_peg_cost m new_peg = ROk (m', cost) ->
  m' = with_peg m new_peg /\
  (calculateRepegCost m i new_peg = Ok cost \/ calculateRepegCost m i new_peg = Throw bn_error).
Proof.
  unfold adjust_peg_cost. intros H. rust_inv. subst. split; [done |].
  destruct (value_of_program m (netUserPosition m i 0) _ _ _ _ E eq_refl eq_refl) as (Hv & _).
  change (with_curve _ _ _ _ _) with (mkt_amm (with_peg m new_peg)) in E0.
  destruct (value_of_program (with_peg m new_peg) (netUserPosition m i z) _ _ _ _ E0 eq_refl eq_refl)
    as (_ & Hp & _).
  unfold calculateRepegCost. rewrite Hv. res_simpl.
  destruct (calculateMarkPrice_returns m) as [x ->], (calculateMarkPrice_returns (with_peg m new_peg)) as [y ->].
  assert (MARK_PRICE_PRECISION <> 0) as Hnz by done. res_simpl.
  destruct (convertToNumber_outcome x _ Hnz) as [[? ->] | ->]; res_simpl; [| by right].
  destruct (convertToNumber_outcome y _ Hnz) as [[? ->] | ->]; res_simpl; [by left | by right].
Qed.
End Agreement.
