(* ===== verification/ChainMargin.v ===== *)
(** * Margin, liquidation, funding and fees: the SDK and the program

    What a user of the SDK reads of its own account, against what the program
    decides from the same accounts: the margin ratio and whether the user can be
    liquidated, the funding that is still to be settled, the fee of a trade. *)
From S2P Require Import Prelude BN Types Checked History.
From S2P Require Import Amm Position Trade Funding User.
From S2P Require Import ChainAmm ChainOracle ChainPosition.
From S2P Require Import Idl.
From S2P Require Import ChainFunding ChainTrade ChainAgreement.

(** ** Settling *)

(** A position that owes no funding and is owed none. *)
Definition funding_settled (markets : list Market) (p : MarketPosition) : Prop :=
  mp_baseAssetAmount p <> 0 -> forall m, js_index markets (mp_marketIndex p) = Some m ->
  cumulative_rate (mkt_amm m) (mp_baseAssetAmount p) = mp_lastCumulativeFundingRate p.

(** What a position is owed, in units of the curve's reserves. *)
Definition owed (markets : list Market) (p : MarketPosition) : Z :=
  match js_index markets (mp_marketIndex p) with
  | Some m =>
      - (((cumulative_rate (mkt_amm m) (mp_baseAssetAmount p) - mp_lastCumulativeFundingRate p)
            * mp_baseAssetAmount p) `quot` 100000000000000)
  | None => 0
  end.

Lemma owed_flat markets p : mp_baseAssetAmount p = 0 -> owed markets p = 0.
Proof. intros H. unfold owed. destruct (js_index _ _); [| done]. by rewrite H, Z.mul_0_r. Qed.

Lemma market_at_inv markets i m : market_at markets i = ROk m -> js_index markets i = Some m.
Proof. unfold market_at. destruct (js_index markets i); [by intros [= ->] | done]. Qed.

Lemma abs_div_quot x y a b : 0 < a -> 0 < b ->
  ((Z.abs x * Z.abs y) `quot` a) `quot` b = Z.abs ((x * y) `quot` (a * b)).
Proof.
  intros Ha Hb. rewrite <- Z.abs_mul. rewrite Z.quot_quot by lia.
  rewrite <- Z.quot_abs by lia. by rewrite (Z.abs_eq (a * b)) by nia.
Qed.

Lemma funding_payment_inv d b v :
  funding_payment d b = ROk v -> v = - ((d * b) `quot` 100000000000000).
Proof.
  unfold funding_payment. consts. intros H. rust_inv. subst.
  rewrite abs_div_quot by lia. change (10000000000 * 10000) with 100000000000000.
  destruct (Z.ltb_spec 0 d), (Z.ltb_spec 0 b).
  - rewrite Z.abs_eq by (apply Z.quot_pos; nia). lia.
  - rewrite Z.abs_neq; [lia |]. replace (d * b) with (- (d * - b)) by lia.
    rewrite Z.quot_opp_l by lia. pose proof (Z.quot_pos (d * - b) 100000000000000). nia.
  - rewrite Z.abs_neq; [lia |]. replace (d * b) with (- (- d * b)) by lia.
    rewrite Z.quot_opp_l by lia. pose proof (Z.quot_pos (- d * b) 100000000000000). nia.
  - rewrite Z.abs_eq by (apply Z.quot_pos; nia). lia.
Qed.

Section Settling.
Variables (authority key : PublicKey) (markets : list Market) (now : Z).

(** One position: nothing but its reference rate moves. *)
Lemma settle_position_inv p h pay p' h' pay' :
  settle_position authority key markets now p h pay = ROk (p', h', pay') ->
  mp_marketIndex p' = mp_marketIndex p /\ mp_baseAssetAmount p' = mp_baseAssetAmount p /\
  mp_quoteAssetAmount p' = mp_quoteAssetAmount p /\ funding_settled markets p' /\
  pay' = pay + owed markets p.
Proof.
  unfold settle_position. intros H.
  destruct (Z.eqb_spec (mp_baseAssetAmount p) 0) as [Hz | Hn].
  { rust_inv. subst. split_and!; [done.. | by intros ? |]. rewrite owed_flat; [lia | done]. }
  rust_inv. apply market_at_inv in E. unfold owed. rewrite E.
  destruct (Z.eqb_spec (cumulative_rate (mkt_amm v) (mp_baseAssetAmount p))
              (mp_lastCumulativeFundingRate p)) as [Hr | Hr]; rust_inv; subst.
  - split_and!; [done.. | |].
    + intros _ m Hm. congruence.
    + rewrite <- Hr, Z.sub_diag. rewrite Z.mul_0_l. rewrite Z.quot_0_l; lia.
  - split_and!; [done.. | |].
    + intros _ m Hm. cbn in *. congruence.
    + unfold calculate_funding_payment in E0. rust_inv. subst.
      apply funding_payment_inv in E0 as ->. lia.
Qed.

Lemma settle_positions_inv ps h pay ps' h' pay' :
  settle_positions authority key markets now ps h pay = ROk (ps', h', pay') ->
  Forall2 (fun p p' => mp_marketIndex p' = mp_marketIndex p /\
    mp_baseAssetAmount p' = mp_baseAssetAmount p /\ mp_quoteAssetAmount p' = mp_quoteAssetAmount p /\
    funding_settled markets p') ps ps' /\
  pay' = pay + foldr Z.add 0 (owed markets <$> ps).
Proof.
  revert h pay ps' h' pay'. induction ps as [| p ps IH]; cbn; intros h pay ps' h' pay' H; rust_inv; subst.
  - split; [constructor | lia].
  - apply settle_position_inv in E as (? & ? & ? & ? & ->). apply IH in E0 as [? ->].
    split; [by constructor | lia].
Qed.
End Settling.

(** ** Sums of truncated quotients *)
Lemma quot_add_close a b c : 0 < c -> Z.abs (a `quot` c + b `quot` c - (a + b) `quot` c) <= 1.
Proof.
  intros Hc. pose proof (Z.quot_rem a c ltac:(lia)). pose proof (Z.quot_rem b c ltac:(lia)).
  pose proof (Z.quot_rem (a + b) c ltac:(lia)).
  assert (forall x, (0 <= x -> 0 <= x `rem` c < c) /\ (x <= 0 -> - c < x `rem` c <= 0)) as Hr.
  { intros x. split; intros; [apply Z.rem_bound_pos_pos; lia | apply Z.rem_bound_pos_neg; lia]. }
  pose proof (Hr a). pose proof (Hr b). pose proof (Hr (a + b)).
  destruct (Z.le_ge_cases 0 a), (Z.le_ge_cases 0 b), (Z.le_ge_cases 0 (a + b)); nia.
Qed.

(** Truncating each of [n] amounts instead of their sum loses less than [n] units. *)
Lemma quot_sum_close (l : list Z) c : 0 < c ->
  Z.abs (foldr Z.add 0 l `quot` c - foldr Z.add 0 ((fun x => x `quot` c) <$> l))
    < Z.max 1 (Z.of_nat (length l)).
Proof.
  intros Hc. induction l as [| x l IH]; [done |]. cbn [foldr fmap list_fmap length].
  destruct l as [| y l].
  - cbn [foldr fmap list_fmap length]. rewrite !Z.add_0_r, Z.sub_diag. cbn. lia.
  - pose proof (quot_add_close x (foldr Z.add 0 (y :: l)) c Hc). cbn [length] in *. lia.
Qed.

Lemma reduceM_sum_inv {A} (g : A -> result Z) (l : list A) init r :
  reduceM (fun acc x => v ← g x; Ok (acc + v)) l init = Ok r ->
  exists vs, Forall2 (fun x v => g x = Ok v) l vs /\ r = init + foldr Z.add 0 vs.
Proof.
  revert init. induction l as [| x l IH]; cbn; intros init H.
  - injection H as <-. exists []. split; [constructor | cbn; lia].
  - destruct (g x) as [v |] eqn:E; [| done]. apply IH in H as (vs & ? & ->).
    exists (v :: vs). split; [by constructor | cbn; lia].
Qed.

(** The accounts of the program as a user of the SDK reads them. *)
Record sees_user (U : ClearingHouseUser) (user : User) (ps : list MarketPosition)
    (markets : list Market) : Prop := {
  su_account : exists ua, chu_userAccount U = Ok ua /\ ua_collateral ua = usr_collateral user;
  su_markets : exists ma, chu_marketsAccount U = Ok ma /\ ma_markets ma = markets;
  su_positions : exists upa, chu_userPositionsAccount U = Ok upa /\
    Forall2 sees (upa_positions upa) ps;
  su_indices : Forall (fun p => 0 <= mp_marketIndex p <= MAX_SAFE_INTEGER) ps
}.

Section Margin.
Context {B : BNLib} {L : BNLaws B}.
Variable U : ClearingHouseUser.

(** What the reducer of [getUnrealizedPNL] adds for one position. *)
Definition position_pnl (withFunding : bool) (p : UserPosition) : result Z :=
  market ← getMarket U (bo_val (pos_marketIndex p));
  on_market (fun m p => calculatePositionPNL m p withFunding) market p.

Lemma getUnrealizedPNL_sum w r upa : chu_userPositionsAccount U = Ok upa ->
  getUnrealizedPNL U w None = Ok r <->
  exists vs, Forall2 (fun p v => position_pnl w p = Ok v) (upa_positions upa) vs /\
    r = foldr Z.add 0 vs.
Proof.
  intros Hu. unfold getUnrealizedPNL. rewrite (positions_spec U upa Hu). res_simpl.
  rewrite filter_selected_all. split.
  - by intros (vs & ? & ->)%reduceM_sum_inv; exists vs.
  - intros (vs & Hvs & ->). by apply (reduceM_sum (position_pnl w) _ vs ZERO).
Qed.

Lemma getMarket_of_program user ps markets p :
  sees_user U user ps markets -> 0 <= mp_marketIndex p <= MAX_SAFE_INTEGER ->
  getMarket U (mp_marketIndex p) = Ok (js_index markets (mp_marketIndex p)).
Proof.
  intros [_ (ma & Hma & <-) _ _] Hi. rewrite (getMarket_spec U ma) by done.
  unfold js_index. by rewrite (proj2 (Z.leb_le 0 _)) by lia.
Qed.

(** Funding of one position: the SDK's and the program's, both truncated. *)
Lemma position_funding user ps markets u p a b :
  sees_user U user ps markets -> 0 <= mp_marketIndex p <= MAX_SAFE_INTEGER -> sees u p ->
  position_pnl true u = Ok a -> position_pnl false u = Ok b ->
  a - b = owed markets p `quot` 10000000.
Proof.
  intros HU Hi [Hb Hr Hx Hq]. unfold position_pnl. rewrite Hx, (getMarket_of_program _ _ _ _ HU Hi).
  res_simpl. unfold on_market. change ZERO with 0. rewrite Hb.
  destruct (Z.eqb_spec (mp_baseAssetAmount p) 0) as [Hz | Hn].
  { rewrite owed_flat by done. destruct (js_index markets _); rewrite ?calculatePositionPNL_flat by congruence;
      intros [= <-] [= <-]; done. }
  unfold owed. destruct (js_index markets _) as [m |]; [| done].
  unfold calculatePositionPNL. change ZERO with 0. rewrite Hb, (proj2 (Z.eqb_neq _ 0) Hn).
  rewrite calculatePositionFundingPNL_spec by congruence.
  destruct (calculateBaseAssetValue m u); [| done]. cbn. consts. bn_run. cbn.
  intros [= <-] [= <-]. rewrite Hb, Hr. unfold cumulative_rate.
  set (x := _ * mp_baseAssetAmount p). rewrite !Z.quot_opp_l, !Z.quot_quot by lia.
  change (10000000000000 * (10000 * 10000)) with (100000000000000 * 10000000). lia.
Qed.

(** C17: Funding estimates: what settling a user's funding pays is, within less than
    one unit per position, the difference the SDK shows between the profit with
    and without funding; after it no position owes anything, and no other field of
    a position moved. *)
Theorem funding_estimate_close (user user' : User) (key : PublicKey)
    (ps ps' : list MarketPosition) (markets : list Market) (h h' : FundingPaymentHistory)
    (now with_funding without : Z) :
  sees_user U user ps markets -> 0 <= usr_collateral user ->
  getUnrealizedPNL U true None = Ok with_funding ->
  getUnrealizedPNL U false None = Ok without ->
  settle_funding_payment user key ps markets h now = ROk (user', ps', h') ->
  (exists paid, usr_collateral user' = Z.max 0 (usr_collateral user + paid) /\
    Z.abs (paid - (with_funding - without)) < Z.max 1 (Z.of_nat (length ps))) /\
  Forall2 (fun p p' => mp_marketIndex p' = mp_marketIndex p /\
    mp_baseAssetAmount p' = mp_baseAssetAmount p /\ mp_quoteAssetAmount p' = mp_quoteAssetAmount p /\
    funding_settled markets p') ps ps'.
Proof.
  intros HU Hc Ha Hb H. unfold settle_funding_payment in H. rust_inv. subst.
  apply settle_positions_inv in E as [Hps ->]. split; [| done]. cbn.
  apply updated_collateral_inv in E1 as ->; [| done]. eexists. split; [reflexivity |].
  destruct (su_positions _ _ _ _ HU) as (upa & Hupa & Hsees). pose proof (su_indices _ _ _ _ HU) as Hidx.
  apply (getUnrealizedPNL_sum _ _ _ Hupa) in Ha as (vs & Hvs & ->).
  apply (getUnrealizedPNL_sum _ _ _ Hupa) in Hb as (ws & Hws & ->).
  consts. rewrite Z.add_0_l.
  replace (foldr Z.add 0 vs - foldr Z.add 0 ws)
    with (foldr Z.add 0 ((fun x => x `quot` 10000000) <$> (owed markets <$> ps))).
  { rewrite <- (length_fmap (owed markets)). by apply quot_sum_close. }
  pose proof (fun u p a b => position_funding user ps markets u p a b HU) as Hone.
  clear - Hone Hsees Hidx Hvs Hws. revert vs ws Hvs Hws Hidx.
  induction Hsees as [| u p us ps0 Hup Hsees IH]; intros vs ws Hvs Hws Hidx.
  - inversion Hvs. by inversion Hws.
  - inversion Hvs as [| ? v ? vs' Hv Hvs']; subst. inversion Hws as [| ? w ? ws' Hw Hws']; subst.
    inversion Hidx as [| ? ? Hi Hidx']; subst. cbn [foldr fmap list_fmap].
    specialize (IH _ _ Hvs' Hws' Hidx').
    pose proof (Hone u p v w Hi Hup Hv Hw). lia.
Qed.

(** A settled position counts the same on both sides. *)
Lemma settled_position_agrees user ps markets u p m v pnl :
  sees_user U user ps markets -> 0 <= mp_marketIndex p <= MAX_SAFE_INTEGER -> sees u p ->
  funding_settled markets p -> market_at markets (mp_marketIndex p) = ROk m ->
  calculate_base_asset_value_and_pnl p (mkt_amm m) = ROk (v, pnl) ->
  positionValue U u = Ok v /\ position_pnl true u = Ok pnl /\ 0 <= v.
Proof.
  intros HU Hi Hs Hset Hm%market_at_inv H.
  destruct (value_agrees m u p v pnl Hs H) as (Hv & Hp & Hpos & Hflat).
  unfold positionValue, position_pnl.
  rewrite (sees_index _ _ Hs), (getMarket_of_program _ _ _ _ HU Hi), Hm. res_simpl. cbn [on_market].
  split_and!; [done | | done]. destruct (Z.eq_dec (mp_baseAssetAmount p) 0) as [Hz | Hn].
  - rewrite calculatePositionPNL_flat by (rewrite (sees_base _ _ Hs); done).
    f_equal. symmetry. by apply Hflat.
  - revert Hp. unfold calculatePositionPNL. change ZERO with 0.
    rewrite (sees_base _ _ Hs), (proj2 (Z.eqb_neq _ 0) Hn), Hv. res_simpl. intros [= <-].
    rewrite calculatePositionFundingPNL_spec by (rewrite (sees_base _ _ Hs); done).
    pose proof (Hset Hn m Hm) as Hr. unfold cumulative_rate in Hr.
    rewrite (sees_base _ _ Hs), (sees_rate _ _ Hs), Hr, Z.sub_diag, Z.mul_0_l. res_simpl. consts.
    bn_run. f_equal. match goal with |- _ + ?b = _ => change b with 0 end. lia.
Qed.

Lemma flat_position_agrees user ps markets u p :
  sees_user U user ps markets -> 0 <= mp_marketIndex p <= MAX_SAFE_INTEGER -> sees u p ->
  mp_baseAssetAmount p = 0 -> positionValue U u = Ok 0 /\ position_pnl true u = Ok 0.
Proof.
  intros HU Hi Hs Hz. unfold positionValue, position_pnl.
  rewrite (sees_index _ _ Hs), (getMarket_of_program _ _ _ _ HU Hi). res_simpl.
  unfold on_market. change ZERO with 0. rewrite (sees_base _ _ Hs), Hz. cbn.
  destruct (js_index _ _); [| done].
  by rewrite calculateBaseAssetValue_flat, calculatePositionPNL_flat by (rewrite (sees_base _ _ Hs); done).
Qed.

Lemma position_totals_agree user ps0 markets us ps v0 p0 v p :
  sees_user U user ps0 markets -> Forall2 sees us ps ->
  Forall (fun p => 0 <= mp_marketIndex p <= MAX_SAFE_INTEGER) ps -> Forall (funding_settled markets) ps ->
  position_totals ps markets v0 p0 = ROk (v, p) ->
  exists vs pnls, Forall2 (fun u v => positionValue U u = Ok v) us vs /\
    Forall2 (fun u p => position_pnl true u = Ok p) us pnls /\
    v = v0 + foldr Z.add 0 vs /\ p = p0 + foldr Z.add 0 pnls /\ Forall (fun v => 0 <= v) vs.
Proof.
  intros HU Hs. revert v0 p0. induction Hs as [| u q us ps Hq Hs IH]; cbn; intros v0 p0 Hi Hset H.
  - rust_inv. subst. exists [], []. split_and!; try constructor; cbn; lia.
  - inversion Hi as [| ? ? Hi1 Hi2]; subst. inversion Hset as [| ? ? Hs1 Hs2]; subst.
    destruct (Z.eqb_spec (mp_baseAssetAmount q) 0) as [Hz | Hn].
    + destruct (flat_position_agrees _ _ _ _ _ HU Hi1 Hq Hz) as [? ?].
      destruct (IH _ _ Hi2 Hs2 H) as (vs & pnls & ? & ? & -> & -> & ?).
      exists (0 :: vs), (0 :: pnls). split_and!; [by constructor | by constructor | done | done |].
      constructor; [lia | done].
    + rust_inv.
      destruct (settled_position_agrees _ _ _ _ _ _ _ _ HU Hi1 Hq Hs1 E E0) as (? & ? & ?).
      destruct (IH _ _ Hi2 Hs2 H) as (vs & pnls & ? & ? & -> & -> & ?).
      exists (z :: vs), (z0 :: pnls).
      split_and!; [by constructor | by constructor | cbn; lia | cbn; lia | by constructor].
Qed.

(** C11: Margin: when nothing is left to settle, the position value, the profit and
    the margin ratio of the SDK are those the program computes (which counts a negative
    collateral as none), and [canBeLiquidated] says exactly whether the program's
    ratio is at most 625, its initial [margin_ratio_partial]. *)
Theorem margin_agrees (user : User) (ps : list MarketPosition) (markets : list Market)
    (mr : MarginRatio) :
  sees_user U user ps markets -> 0 <= usr_collateral user -> Forall (funding_settled markets) ps ->
  calculate_margin_ratio user ps markets = ROk mr ->
  getTotalPositionValue U = Ok (mr_baseAssetValue mr) /\
  getUnrealizedPNL U true None = Ok (mr_unrealizedPnl mr) /\
  exists ratio, canBeLiquidated U = Ok (mr_marginRatio mr <=? 625, ratio) /\
    (mr_baseAssetValue mr <> 0 -> mr_marginRatio mr = Z.max 0 ratio).
Proof.
  intros HU Hc Hset H. destruct (su_positions _ _ _ _ HU) as (upa & Hupa & Hsees).
  destruct (su_account _ _ _ _ HU) as (ua & Hua & Hcol).
  unfold calculate_margin_ratio in H. rust_inv.
  destruct (position_totals_agree _ _ _ _ _ _ _ _ _ HU Hsees (su_indices _ _ _ _ HU) Hset E)
    as (vs & pnls & Hvs & Hpnls & -> & -> & Hpos). rewrite !Z.add_0_l in *.
  pose proof (getTotalPositionValue_sum U upa vs Hupa Hvs) as Htpv.
  assert (getUnrealizedPNL U true None = Ok (foldr Z.add 0 pnls)) as Hpnl
    by (apply (getUnrealizedPNL_sum true _ upa Hupa); by exists pnls).
  assert (0 <= foldr Z.add 0 vs) as Hv by (clear - Hpos; induction Hpos; cbn; lia).
  destruct (Z.eqb_spec (foldr Z.add 0 vs) 0) as [Hz | Hn]; rust_inv; subst; cbn.
  - split; [done |]. split; [done |]. exists BN_MAX. split; [| done].
    unfold canBeLiquidated, getMarginRatio. rewrite Htpv. res_simpl. by rewrite Hz.
  - split; [done |]. split; [done |]. exists (((usr_collateral user + foldr Z.add 0 pnls) * 10000) `quot` foldr Z.add 0 vs).
    apply updated_collateral_inv in E0 as ->; [| done]. unfold MARGIN_PRECISION in *.
    assert ((Z.max 0 (usr_collateral user + foldr Z.add 0 pnls) * 10000) `quot` foldr Z.add 0 vs
      = Z.max 0 (((usr_collateral user + foldr Z.add 0 pnls) * 10000) `quot` foldr Z.add 0 vs)) as Hr.
    { destruct (Z.le_ge_cases 0 (usr_collateral user + foldr Z.add 0 pnls)) as [Hs | Hs].
      - rewrite !Z.max_r; [done | apply Z.quot_pos; lia | done].
      - rewrite (Z.max_l 0 (_ + _)) by done. rewrite Z.max_l; [by rewrite Z.quot_0_l by lia |].
        set (x := _ + _) in *. replace (x * 10000) with (- (- x * 10000)) by lia.
        rewrite Z.quot_opp_l by lia. pose proof (Z.quot_pos (- x * 10000) (foldr Z.add 0 vs)). lia. }
    split; [| by rewrite Hr]. rewrite Hr.
    unfold canBeLiquidated, getMarginRatio, getTotalCollateral. rewrite Htpv, Hua, Hpnl. res_simpl.
    change ZERO with 0. rewrite (proj2 (Z.eqb_neq _ 0) Hn), Hcol. consts.
    rewrite bn_div_nonzero by done. res_simpl. do 2 f_equal.
    destruct (Z.leb_spec (Z.max 0 (((usr_collateral user + foldr Z.add 0 pnls) * 10000) `quot` foldr Z.add 0 vs)) 625);
      (apply Z.leb_le || apply Z.leb_gt); lia.
Qed.
End Margin.

(** ** Liquidation *)

(** Settling does nothing to positions without pending funding. *)
Lemma settle_positions_settled authority key markets now ps h pay v0 p0 t :
  Forall (funding_settled markets) ps -> position_totals ps markets v0 p0 = ROk t ->
  settle_positions authority key markets now ps h pay = ROk (ps, h, pay).
Proof.
  revert v0 p0. induction ps as [| p ps IH]; cbn [settle_positions position_totals];
    intros v0 p0 Hs Ht; [done |].
  inversion Hs as [| ? ? Hp Hps]; subst. unfold settle_position.
  destruct (Z.eqb_spec (mp_baseAssetAmount p) 0) as [Hz | Hn].
  - cbn. by rewrite (IH _ _ Hps Ht).
  - rust_inv. rewrite E. apply market_at_inv in E. cbn.
    rewrite (proj2 (Z.eqb_eq _ _) (Hp Hn _ E)). cbn. by rewrite (IH _ _ Hps Ht).
Qed.

Lemma settle_settled user key ps ms h now mr :
  0 <= usr_collateral user <= highest U128 -> Forall (funding_settled ms) ps ->
  calculate_margin_ratio user ps ms = ROk mr ->
  settle_funding_payment user key ps ms h now = ROk (user, ps, h).
Proof.
  intros Hc Hset Ht. unfold calculate_margin_ratio in Ht. apply rust_bind_inv in Ht as (t & Ht & _).
  unfold settle_funding_payment.
  rewrite (settle_positions_settled _ _ _ _ _ _ _ _ _ _ Hset Ht). cbn [mbind rust_bind].
  assert (checked_div I128 0 AMM_TO_QUOTE_PRECISION_RATIO = ROk 0) as -> by (vm_compute; reflexivity).
  assert (calculate_updated_collateral (usr_collateral user) 0 = ROk (usr_collateral user)) as Hu.
  { unfold calculate_updated_collateral, checked_sub. cbn [Z.ltb Z.compare andb Z.abs].
    rewrite Z.sub_0_r. apply checked_fits. cbn [lowest]. lia. }
  cbn [mbind rust_bind]. rewrite Hu. by destruct user.
Qed.

(** C12: When the SDK says that a user with settled funding cannot be liquidated, the
    program refuses the liquidation: nothing is closed and nobody is paid. *)
Theorem liquidation_refused {B : BNLib} {L : BNLaws B} (U : ClearingHouseUser) (c : Accounts)
    (state : StateAccount) (now slot vault insurance ratio : Z) (remaining : list OracleAccount)
    (liquidator : User) (mr : MarginRatio) :
  sees_user U (ac_user c) (ac_positions c) (ac_markets c) ->
  0 <= usr_collateral (ac_user c) <= highest U128 ->
  Forall (funding_settled (ac_markets c)) (ac_positions c) ->
  calculate_margin_ratio (ac_user c) (ac_positions c) (ac_markets c) = ROk mr ->
  st_exchangePaused state = false -> st_marginRatioPartial state = PARTIAL_LIQUIDATION_RATIO ->
  canBeLiquidated U = Ok (false, ratio) ->
  liquidate_handler state now slot remaining vault insurance liquidator c = err SufficientCollateral.
Proof.
  intros HU Hc Hset Hmr Hp Hpart Hcan.
  destruct (margin_agrees U _ _ _ _ HU ltac:(lia) Hset Hmr) as (_ & _ & r & Hr & _).
  rewrite Hcan in Hr. injection Hr as Hle <-.
  assert (settle_user c now = ROk c) as Hsettle.
  { unfold settle_user. rewrite (settle_settled _ _ _ _ _ _ _ Hc Hset Hmr). by destruct c. }
  unfold liquidate_handler, exchange_not_paused. rewrite Hp. cbn [negb ensure mbind rust_bind].
  rewrite Hsettle. cbn [mbind rust_bind]. rewrite Hmr. cbn [mbind rust_bind]. rewrite Hpart.
  change PARTIAL_LIQUIDATION_RATIO with 625. by rewrite <- Hle.
Qed.

(** ** Fees *)
Lemma token_discount_nonneg fee fs tok : 0 <= calculate_token_discount fee fs tok.
Proof.
  assert (forall t a x, calculate_token_discount_for_tier fee t a = Some x -> 0 <= x) as Ht.
  { unfold calculate_token_discount_for_tier. intros t a x H. destruct (_ <=? _); [| done].
    destruct (_ ≫= _) eqn:E in H; [| done]. injection H as <-. rust_inv. widths. lia. }
  unfold calculate_token_discount. destruct tok as [a |]; [| done].
  do 4 (destruct (calculate_token_discount_for_tier fee _ a) eqn:E; [exact (Ht _ _ _ E) | clear E]).
  done.
Qed.

(** Fees: the fee the SDK shows is the undiscounted one. What the user is charged
    is that fee less the token's and the referee's discounts, what the market books is
    the charge less the referrer's reward; no part is negative, so the SDK's figure
    is never below the charge. *)
Theorem fees_accounted {B : BNLib} {L : BNLaws B} {R} (U : ClearingHouseUser) (st : StateAccount)
    (q : Z) (token : option TokenAccount) (referrer : option R) (f : Fees) :
  chu_stateAccount U = Ok st ->
  calculate_fees q (st_feeStructure st) token referrer = ROk f ->
  exists fee, calculateFeeForQuoteAmount U q = Ok fee /\
    fe_user_fee f + fe_token_discount f + fe_referee_discount f = fee /\
    fe_fee_to_market f + fe_referrer_reward f = fe_user_fee f /\
    0 <= fe_fee_to_market f /\ 0 <= fe_referrer_reward f /\
    0 <= fe_token_discount f /\ 0 <= fe_referee_discount f /\ fe_user_fee f <= fee.
Proof.
  intros Hst H. unfold calculate_fees in H. rust_inv. subst. cbn.
  unfold calculateFeeForQuoteAmount. rewrite Hst. res_simpl. rewrite bn_div_nonzero by done.
  eexists. split; [reflexivity |].
  pose proof (token_discount_nonneg
    ((q * fee_feeNumerator (st_feeStructure st)) `quot` fee_feeDenominator (st_feeStructure st))
    (st_feeStructure st) token).
  assert (0 <= z /\ 0 <= z0) as [? ?].
  { destruct referrer; cbn in E1; rust_inv; subst; [| lia]. widths. lia. }
  widths. lia.
Qed.

Lemma calculate_fees_nonneg {R} q fs token (referrer : option R) f :
  calculate_fees q fs token referrer = ROk f -> 0 <= fe_user_fee f.
Proof. unfold calculate_fees. intros H. rust_inv. subst. cbn. widths. lia. Qed.

(** What charging them changes: the user pays what it has, the market books the
    whole fee, the referrer's reward is only counted. *)
Theorem fees_charged (q : Z) (st : StateAccount)
    (optional : ErrorCode + (option TokenAccount * option User)) (m m' : Market) (u u' : User)
    (r : option User) (f : Fees) :
  0 <= usr_collateral u <= highest U128 -> 
  charge q st optional m u = ROk (m', u', r, f) ->
  usr_collateral u' = Z.max 0 (usr_collateral u - fe_user_fee f) /\
  amm_totalFee (mkt_amm m') = amm_totalFee (mkt_amm m) + fe_fee_to_market f /\
  amm_totalFeeMinusDistributions (mkt_amm m') =
    amm_totalFeeMinusDistributions (mkt_amm m) + fe_fee_to_market f /\
  usr_totalFeePaid u' = usr_totalFeePaid u + fe_user_fee f /\
  (forall t r0, optional = inr (t, Some r0) -> exists r', r = Some r' /\
     usr_collateral r' = usr_collateral r0 /\
     usr_totalReferralReward r' = usr_totalReferralReward r0 + fe_referrer_reward f).
Proof.
  intros Hc H. unfold charge in H. rust_inv.
  match goal with E : calculate_fees _ _ _ _ = ROk _ |- _ =>
    apply calculate_fees_nonneg in E as Hf end.
  subst. cbn. split_and!; try done.
  - unfold checked_sub, checked, fits. cbn [lowest].
    destruct (Z.leb_spec 0 (usr_collateral u - fe_user_fee f)); cbn [andb err]; [| lia].
    rewrite (proj2 (Z.leb_le _ _)) by lia. lia.
  - intros t r0 ->. cbn in E. rust_inv. subst. rust_inv. subst. eauto.
Qed.

(** ** The funding pool *)
Lemma lower_bound_inv a x :
  total_fee_minus_distributions_lower_bound a = ROk x -> x = amm_totalFee a `quot` 2.
Proof.
  unfold total_fee_minus_distributions_lower_bound. intros H. rust_inv. by rewrite Z.mul_1_r.
Qed.

Lemma funding_limit_agrees {B : BNLib} {L : BNLaws B} m l :
  funding_rate_pnl_limit (mkt_amm m) = ROk l -> calculateFundingPool m = Ok (- l) /\ l <= 0.
Proof.
  unfold funding_rate_pnl_limit, calculateFundingPool. intros H.
  apply rust_bind_inv in H as (lb & Hlb & H). apply lower_bound_inv in Hlb as ->. bn_run. res_simpl.
  change ZERO with 0. set (lb := amm_totalFee _ `quot` 2) in *.
  destruct (Z.ltb_spec lb (amm_totalFeeMinusDistributions (mkt_amm m))) as [Hlt | Hge]; rust_inv; subst.
  - pose proof (Z.quot_pos ((amm_totalFeeMinusDistributions (mkt_amm m) - lb) * 2) 3). split; [f_equal |]; lia.
  - split; [| lia]. f_equal. apply Z.max_l.
    set (d := _ - lb). replace (d * 2) with (- (- d * 2)) by lia. rewrite Z.quot_opp_l by lia.
    pose proof (Z.quot_pos (- d * 2) 3). lia.
Qed.

(** C18: Funding is paid out of the pool the SDK shows: one update takes from the market's fees at
    most [calculateFundingPool] and leaves at least half of all fees ever booked; the
    side that pays is charged the whole rate, and both are when the market itself
    receives. *)
Theorem funding_within_pool {B : BNLib} {L : BNLaws B} (m m' : Market) (rate long short pool : Z) :
  calculateFundingPool m = Ok pool ->
  calculate_funding_rate_long_short m rate = ROk (m', (long, short)) ->
  let fees m := amm_totalFeeMinusDistributions (mkt_amm m) in
  fees m - pool <= fees m' /\
  (fees m' < fees m -> amm_totalFee (mkt_amm m) `quot` 2 <= fees m') /\
  amm_totalFee (mkt_amm m') = amm_totalFee (mkt_amm m) /\
  (0 < rate -> long = rate) /\ (rate < 0 -> short = rate) /\
  (fees m < fees m' -> long = rate /\ short = rate).
Proof.
  intros Hpool H fees. unfold calculate_funding_rate_long_short in H.
  apply rust_bind_inv in H as (pay & Hpay & H).
  assert (0 <= pool) as Hpos.
  { revert Hpool. unfold calculateFundingPool. bn_run. res_simpl. intros [= <-].
    change ZERO with 0. lia. }
  destruct (Z.leb_spec 0 (- pay)) as [Hge | Hlt].
  { rust_inv. subst. unfold fees. cbn. split_and!; (done || lia || intros; lia). }
  apply rust_bind_inv in H as ([capped_rate capped] & Hcap & H).
  unfold calculate_capped_funding_rate in Hcap. apply rust_bind_inv in Hcap as (l & Hl & Hcap).
  apply funding_limit_agrees in Hl as [Hl Hl0]. rewrite Hpool in Hl. injection Hl as Hl.
  apply rust_bind_inv in Hcap as (cr & _ & Hcap). rust_inv. subst. unfold fees. cbn.
  split_and!; try lia.
  - intros Hdec. destruct (Z.eqb_spec (Z.max (- pay) l) 0) as [Hz | Hn]; [lia |].
    rust_inv. match goal with E : total_fee_minus_distributions_lower_bound _ = ROk _ |- _ =>
      apply lower_bound_inv in E as -> end.
    match goal with E : (_ <=? _) = true |- _ => apply Z.leb_le in E end. lia.
  - intros Hr. by rewrite (proj2 (Z.ltb_ge rate 0)) by lia.
  - intros Hr. by rewrite (proj2 (Z.ltb_ge 0 rate)) by lia.
Qed.

(** ** Withdrawals *)
Definition transferred (t : Transfer) : Z :=
  match t with
  | UserToCollateralVault x | CollateralVaultToUser x | InsuranceVaultToUser x
  | CollateralVaultToInsuranceVault x | CollateralVaultToRecipient x | InsuranceVaultToRecipient x
  | InsuranceVaultToCollateralVault x => x
  end.
Definition paid_out (ts : list Transfer) : Z := foldr Z.add 0 (transferred <$> ts).

(** C19: Withdrawing: the vaults never pay more than they hold or than was asked, less
    only when both are empty after it; the settled collateral falls by exactly what
    is paid, and what is left keeps the margin ratio at the initial requirement. *)
Theorem withdraw_accounted (state : StateAccount) (now vault insurance amount : Z)
    (c c' : Accounts) (ts : list Transfer) :
  0 <= amount -> 0 <= vault -> 0 <= insurance ->
  withdraw_collateral state now vault insurance amount c = ROk (c', ts) ->
  exists settled_user,
    ac_user <$> ok (settle_user c now) = Some settled_user /\
    usr_collateral (ac_user c') = usr_collateral settled_user - paid_out ts /\
    0 <= paid_out ts <= amount /\ paid_out ts <= vault + insurance /\
    (paid_out ts < amount -> paid_out ts = vault + insurance) /\
    exists mr, calculate_margin_ratio (ac_user c') (ac_positions c') (ac_markets c') = ROk mr /\
      st_marginRatioInitial state <= mr_marginRatio mr.
Proof.
  intros Ha Hv Hi H. unfold withdraw_collateral in H.
  apply rust_bind_inv in H as (_ & _ & H). apply rust_bind_inv in H as (c0 & Hs & H).
  rewrite Hs. cbn. exists (ac_user c0). split; [done |].
  apply rust_bind_inv in H as (_ & _ & H). apply rust_bind_inv in H as ([x y] & Hxy & H).
  assert (0 <= x /\ 0 <= y /\ x + y <= amount /\ x <= vault /\ y <= insurance /\
    (x + y < amount -> x = vault /\ y = insurance)) as (Hx & Hy & Hle' & ? & ? & Hall).
  { unfold calculate_withdrawal_amounts in Hxy. destruct (Z.leb_spec amount vault); rust_inv; subst.
    - lia.
    - destruct (Z.ltb_spec (amount - vault) insurance); rust_inv; subst; lia. }
  assert (paid_out (CollateralVaultToUser x :: (if 0 <? y then [InsuranceVaultToUser y] else [])) = x + y)
    as Hpaid by (unfold paid_out; destruct (Z.ltb_spec 0 y); cbn; lia).
  unfold record_deposit in H. rust_inv. subst.
  rewrite Hpaid. clear Hpaid. cbn. split_and!; try lia. eexists. split; [eassumption |].
  match goal with E : (_ <=? _) = true |- _ <= _ => apply Z.leb_le in E; exact E end.
Qed.
