(* ===== verification/ChainBooks.v ===== *)
(** * The books of a market (programs/clearing_house)

    A market keeps the users' net, long and short positions and the number of
    open ones.  [good] says when a curve is fine enough for its smallest trade;
    [booked] says that a position and its market moved together, which every
    increase, reduction, closing and trade does.  [Exchange] lifts it to whole
    instructions and runs. *)
From S2P Require Import Prelude BN Types Checked History.
From S2P Require Import Amm Position User.
From S2P Require Import ChainAmm ChainPosition.
From S2P Require Import Idl.
From S2P Require Import ChainFunding ChainTrade ChainAgreement ChainMargin.

(** ** What one position contributes *)
Definition open_count (n : Z) : Z := if n =? 0 then 0 else 1.

(** A change of a position and the change of its market agree. *)
Record booked (m m' : Market) (b b' : Z) : Prop := {
  bk_net : mkt_baseAssetAmount m' - mkt_baseAssetAmount m = b' - b;
  bk_long : mkt_baseAssetAmountLong m' - mkt_baseAssetAmountLong m = Z.max 0 b' - Z.max 0 b;
  bk_short : mkt_baseAssetAmountShort m' - mkt_baseAssetAmountShort m = Z.min 0 b' - Z.min 0 b;
  bk_open : mkt_openInterest m' - mkt_openInterest m = open_count b' - open_count b
}.

Lemma booked_trans m m1 m2 b b1 b2 : booked m m1 b b1 -> booked m1 m2 b1 b2 -> booked m m2 b b2.
Proof. intros [] []. split; lia. Qed.

Lemma booked_refl m m' b : mkt_baseAssetAmount m' = mkt_baseAssetAmount m ->
  mkt_baseAssetAmountLong m' = mkt_baseAssetAmountLong m ->
  mkt_baseAssetAmountShort m' = mkt_baseAssetAmountShort m ->
  mkt_openInterest m' = mkt_openInterest m -> booked m m' b b.
Proof. intros. split; lia. Qed.

Definition invariant_k (a : AMM) : Z := amm_sqrtK a * amm_sqrtK a.

Lemma invariant_k_nonneg a : 0 <= invariant_k a.
Proof. apply Z.square_nonneg. Qed.

(** The invariant is not below the product of the reserves and not above what the
    smallest trade of quote would make it; the smallest trade moves the base
    reserve; a unit of quote asset is at least a unit of the quote reserve. *)
Record good (a : AMM) : Prop := {
  good_base : 0 < amm_baseAssetReserve a;
  good_below : amm_baseAssetReserve a * amm_quoteAssetReserve a <= invariant_k a;
  good_above : invariant_k a
    < amm_baseAssetReserve a * (amm_quoteAssetReserve a + amm_minimumTradeSize a);
  good_deep : amm_quoteAssetReserve a <= (amm_baseAssetReserve a + 1) * amm_minimumTradeSize a;
  good_min : 0 < amm_minimumTradeSize a;
  good_peg : 0 < amm_pegMultiplier a <= 10000000000
}.

(** ** Swaps *)

(** Quote in gives base out, quote out takes base in. *)
Lemma swap_quote_direction a q d now p a' b : 
  0 < amm_baseAssetReserve a ->
  amm_baseAssetReserve a * amm_quoteAssetReserve a <= invariant_k a ->
  (d = ADD -> invariant_k a < amm_baseAssetReserve a * (amm_quoteAssetReserve a + amm_minimumTradeSize a)) ->
  (d = REMOVE -> amm_quoteAssetReserve a <= (amm_baseAssetReserve a + 1) * amm_minimumTradeSize a) ->
  swap_quote_asset a q d now p = ROk (a', b) ->
  match d with ADD => 0 < b | REMOVE => b < 0 end.
Proof.
  intros Hb Hlow Hadd Hrem (t & s & i & o & _ & _ & _ & Hmin & Hi & Hpos & Ho & Ho0 & _ & ->)%swap_quote_asset_inv.
  fold (invariant_k a) in Ho. pose proof (quot_bounds (invariant_k a) i (invariant_k_nonneg a) Hpos) as Hq.
  rewrite <- Ho in Hq. destruct d.
  - specialize (Hadd eq_refl). nia.
  - specialize (Hrem eq_refl). nia.
Qed.

(** Reducing a position by less than it is worth does not take it past zero: a
    long stays long, a short stays short or closes. *)
Lemma swap_quote_keeps_side a q now p a' b n v pnl entry :
  amm_baseAssetReserve a * amm_quoteAssetReserve a <= invariant_k a ->
  0 < amm_pegMultiplier a <= 10000000000 -> n <> 0 ->
  base_asset_value_and_pnl n entry a = ROk (v, pnl) -> q < v ->
  swap_quote_asset a q (if 0 <? n then REMOVE else ADD) now p = ROk (a', b) ->
  if 0 <? n then 0 < n + b else n + b <= 0.
Proof.
  intros Hlow Hpeg Hn Hv Hq (t & s & i & o & Hs & Hq0 & _ & _ & Hi & Hpos & Ho & Ho0 & _ & ->)%swap_quote_asset_inv.
  apply value_and_pnl_inv in Hv as (Hv & Hv0 & Hbn & _); [| done].
  unfold value_of, closing_quote in Hv. rewrite (proj2 (Z.eqb_neq n 0) Hn) in Hv.
  pose proof (invariant_k_nonneg a) as Hk.
  fold (invariant_k a) in Ho. pose proof (quot_bounds (invariant_k a) i Hk Hpos) as Hio.
  rewrite <- Ho in Hio. unfold quote_at in Hv. fold (invariant_k a) in Hv.
  pose proof (quot_bounds (invariant_k a) (amm_baseAssetReserve a + n) Hk Hbn) as Hc.
  set (c := invariant_k a `quot` (amm_baseAssetReserve a + n)) in *.
  assert (forall dq, v = (dq * amm_pegMultiplier a) `quot` 10000000000 -> 0 <= dq -> s <= dq - 1) as Hsmall.
  { intros dq Hdq Hdq0. rewrite Hs.
    pose proof (quot_bounds (dq * amm_pegMultiplier a) 10000000000 ltac:(nia) ltac:(lia)).
    rewrite quot_div_pos by lia. apply Z.lt_succ_r, Z.div_lt_upper_bound; nia. }
  assert (forall dq, v = (dq * amm_pegMultiplier a) `quot` 10000000000 -> 0 <= dq) as Hdq0.
  { intros dq Hdq. destruct (Z.le_gt_cases 0 dq) as [? | Hneg]; [done | exfalso].
    pose proof (Z.quot_pos (- dq * amm_pegMultiplier a) 10000000000) as Hp.
    rewrite Z.mul_opp_l, Z.quot_opp_l in Hp by lia. nia. }
  destruct (Z.ltb_spec 0 n).
  - pose proof (Hsmall _ Hv (Hdq0 _ Hv)). nia.
  - pose proof (Hsmall _ Hv (Hdq0 _ Hv)). nia.
Qed.

(** ** Operations on one position *)

(** [increase], of a flat position or on its own side. *)
Lemma increase_booked direction q m p now m' p' b :
  increase direction q m p now = ROk (m', p', b) ->
  (q <> 0 -> match direction with LONG => 0 < b | SHORT => b < 0 end) ->
  match direction with LONG => 0 <= mp_baseAssetAmount p | SHORT => mp_baseAssetAmount p <= 0 end ->
  booked m m' (mp_baseAssetAmount p) (mp_baseAssetAmount p') /\
  mp_marketIndex p' = mp_marketIndex p /\ mp_baseAssetAmount p' = mp_baseAssetAmount p + b /\ 0 <= q.
Proof.
  unfold increase. intros H Hsign Hside. destruct (Z.eqb_spec q 0) as [-> | Hq].
  { rust_inv. subst. split_and!; [by apply booked_refl | done | lia | lia]. }
  specialize (Hsign Hq). rust_inv. subst.
  assert (0 <= q) as Hq0 by (by apply swap_quote_asset_inv in E1 as (? & ? & ? & ? & ? & ? & _)).
  assert (mp_marketIndex m0 = mp_marketIndex p /\ mp_baseAssetAmount m0 = mp_baseAssetAmount p /\
    z = mkt_openInterest m + 1 - open_count (mp_baseAssetAmount p)) as (Hi & Hb & ->).
  { unfold open_count. destruct (Z.eqb_spec (mp_baseAssetAmount p) 0); rust_inv; subst;
      split_and!; (done || lia). }
  clear E. split_and!; [| done | cbn; lia | done].
  assert (mp_baseAssetAmount m0 + b <> 0) as Hnz by (destruct direction; cbn in *; lia).
  destruct (Z.ltb_spec 0 (mp_baseAssetAmount m0 + b)); rust_inv; subst; split; cbn; unfold open_count;
    rewrite ?(proj2 (Z.eqb_neq _ 0) Hnz); destruct direction; cbn in *; lia.
Qed.

Lemma increase_curve direction q m p now m' p' b :
  increase direction q m p now = ROk (m', p', b) -> q <> 0 ->
  exists n, swap_quote_asset (mkt_amm m) q (swap_direction_of direction) n None = ROk (mkt_amm m', b).
Proof.
  unfold increase. intros H Hq. rewrite (proj2 (Z.eqb_neq q 0) Hq) in H. rust_inv. subst. eauto.
Qed.

(** [close] of an open position. *)
Lemma close_booked user m p now user' m' p' v n :
  close user m p now = ROk (user', m', p', (v, n)) -> mp_baseAssetAmount p <> 0 ->
  booked m m' (mp_baseAssetAmount p) (mp_baseAssetAmount p') /\
  mp_marketIndex p' = mp_marketIndex p /\ mp_baseAssetAmount p' = 0 /\ n = mp_baseAssetAmount p /\
  swap_base_asset (mkt_amm m) (Z.abs (mp_baseAssetAmount p))
    (if 0 <? mp_baseAssetAmount p then ADD else REMOVE) now = ROk (mkt_amm m', v).
Proof.
  unfold close. intros H Hn. rewrite (proj2 (Z.eqb_neq _ 0) Hn) in H. rust_inv. subst. cbn.
  split_and!; [| done | done | done | done]. split; cbn; unfold open_count;
    rewrite ?(proj2 (Z.eqb_neq _ 0) Hn); cbn; try lia;
    destruct (Z.ltb_spec 0 (mp_baseAssetAmount p)); rust_inv; subst; lia.
Qed.

(** [reduce] that does not take the position past zero. *)
Lemma reduce_booked direction q user m p now pre user' m' p' b :
  reduce direction q user m p now pre = ROk (user', m', p', b) -> mp_baseAssetAmount p <> 0 ->
  (if 0 <? mp_baseAssetAmount p then 0 < mp_baseAssetAmount p + b
   else mp_baseAssetAmount p + b <= 0) ->
  booked m m' (mp_baseAssetAmount p) (mp_baseAssetAmount p') /\
  mp_marketIndex p' = mp_marketIndex p /\ mp_baseAssetAmount p' = mp_baseAssetAmount p + b.
Proof.
  unfold reduce. intros H Hn Hside. rust_inv. subst. cbn. split_and!; [| done | done].
  destruct (Z.ltb_spec 0 (mp_baseAssetAmount p)), (Z.ltb_spec 0 (mp_baseAssetAmount p + b));
    try lia; rust_inv; subst; split; cbn; unfold open_count;
    rewrite ?(proj2 (Z.eqb_neq _ 0) Hn); try lia;
    destruct (Z.eqb_spec (mp_baseAssetAmount p + b) 0); lia.
Qed.

Lemma reduce_swap direction q user m p now pre user' m' p' b :
  reduce direction q user m p now pre = ROk (user', m', p', b) ->
  exists a, swap_quote_asset (mkt_amm m) q (swap_direction_of direction) now pre = ROk (a, b).
Proof. unfold reduce. intros H. rust_inv. subst. eauto. Qed.

(** After a base swap that closes a position the curve still moves the right way
    for a trade on the other side. *)
Lemma reversed_direction a n now a1 v q p a2 b now' :
  good a -> n <> 0 ->
  swap_base_asset a (Z.abs n) (if 0 <? n then ADD else REMOVE) now = ROk (a1, v) ->
  swap_quote_asset a1 q (if 0 <? n then REMOVE else ADD) now' p = ROk (a2, b) ->
  if 0 <? n then b < 0 else 0 < b.
Proof.
  intros [Hb Hlow Habove Hdeep Hmin Hpeg] Hn H1 H2.
  apply swap_base_asset_inv in H1 as (t & i & o & Hi & Hpos & Ho & Ho0 & -> & Hv).
  apply quote_swapped_inv in Hv as (_ & Hchange & _). fold (invariant_k a) in Ho.
  pose proof (quot_bounds (invariant_k a) i (invariant_k_nonneg a) Hpos) as Hio. rewrite <- Ho in Hio.
  assert (i = amm_baseAssetReserve a + n) as Hi' by (destruct (Z.ltb_spec 0 n); lia).
  apply swap_quote_direction in H2; cbn in *; unfold invariant_k in *; cbn in *; [| lia | lia | |].
  - by destruct (0 <? n).
  - intros _. nia.
  - destruct (Z.ltb_spec 0 n); [| done]. intros _. nia.
Qed.

(** Trading on one's own side, reducing, and reversing. *)
Lemma increase_good direction q m p now m' p' b :
  good (mkt_amm m) -> increase direction q m p now = ROk (m', p', b) ->
  match direction with LONG => 0 <= mp_baseAssetAmount p | SHORT => mp_baseAssetAmount p <= 0 end ->
  booked m m' (mp_baseAssetAmount p) (mp_baseAssetAmount p') /\ mp_marketIndex p' = mp_marketIndex p.
Proof.
  intros [] E Hside. pose proof E as E0. apply increase_booked in E as (? & ? & _); [done | | done].
  intros Hq. destruct (increase_curve _ _ _ _ _ _ _ _ E0 Hq) as [n Hs].
  apply swap_quote_direction in Hs; [by destruct direction | done..].
Qed.

Lemma reverse_booked user m p now user' m1 p1 v n q now' m2 p2 b :
  good (mkt_amm m) -> mp_baseAssetAmount p <> 0 ->
  close user m p now = ROk (user', m1, p1, (v, n)) ->
  increase (if 0 <? mp_baseAssetAmount p then SHORT else LONG) q m1 p1 now' = ROk (m2, p2, b) ->
  booked m m2 (mp_baseAssetAmount p) (mp_baseAssetAmount p2) /\ mp_marketIndex p2 = mp_marketIndex p.
Proof.
  intros Hg Hn Hc Hi. pose proof Hi as Hi0.
  apply close_booked in Hc as (Hb1 & Hx1 & Hz1 & _ & Hs); [| done].
  apply increase_booked in Hi as (Hb2 & Hx2 & _).
  - split; [by eapply booked_trans | congruence].
  - intros Hq. destruct (increase_curve _ _ _ _ _ _ _ _ Hi0 Hq) as [t Hs2].
    pose proof (reversed_direction _ _ _ _ _ q None (mkt_amm m2) b t Hg Hn Hs) as Hd.
    destruct (0 <? mp_baseAssetAmount p); by apply Hd.
  - rewrite Hz1. by destruct (0 <? mp_baseAssetAmount p).
Qed.

Lemma reduce_good q user m p now pre user' m' p' b v pnl :
  good (mkt_amm m) -> mp_baseAssetAmount p <> 0 ->
  calculate_base_asset_value_and_pnl p (mkt_amm m) = ROk (v, pnl) -> q < v ->
  reduce (if 0 <? mp_baseAssetAmount p then SHORT else LONG) q user m p now pre
    = ROk (user', m', p', b) ->
  booked m m' (mp_baseAssetAmount p) (mp_baseAssetAmount p') /\ mp_marketIndex p' = mp_marketIndex p.
Proof.
  intros [] Hn Hv Hq H. pose proof H as H0. destruct (reduce_swap _ _ _ _ _ _ _ _ _ _ _ H) as [a Hs].
  apply reduce_booked in H as (? & ? & _); [done | done |].
  eapply (swap_quote_keeps_side (mkt_amm m)); try eassumption.
  by destruct (0 <? mp_baseAssetAmount p).
Qed.

(** [increase_position] of open_position: the user is flat or on the trade's side. *)
Lemma increase_position_spec direction n :
  (n =? 0) || ((0 <? n) && bool_decide (direction = LONG))
    || ((n <? 0) && bool_decide (direction = SHORT)) =
  match direction with LONG => 0 <=? n | SHORT => n <=? 0 end.
Proof.
  destruct direction; cbn; destruct (Z.eqb_spec n 0), (Z.ltb_spec 0 n), (Z.ltb_spec n 0);
    cbn; symmetry; (apply Z.leb_le || apply Z.leb_gt); lia.
Qed.

(** One trade of one user. *)
Lemma execute_booked direction q user m p now t :
  good (mkt_amm m) -> execute direction q user m p now = ROk t ->
  booked m (td_market t) (mp_baseAssetAmount p) (mp_baseAssetAmount (td_position t)) /\
  mp_marketIndex (td_position t) = mp_marketIndex p.
Proof.
  intros Hg H. unfold execute in H. rewrite increase_position_spec in H.
  destruct (match direction with LONG => _ | SHORT => _ end) eqn:Hinc.
  { rust_inv. subst. apply increase_good in E as []; [done | done |]. destruct direction; lia. }
  assert (mp_baseAssetAmount p <> 0 /\ direction = if 0 <? mp_baseAssetAmount p then SHORT else LONG)
    as [Hn Hd] by (destruct (Z.ltb_spec 0 (mp_baseAssetAmount p)), direction; lia || (split; [lia | done])).
  rust_inv. destruct (_ <? z) eqn:Hlt in H; rust_inv; subst; cbn.
  - eapply reduce_good; [done | done | exact E | by apply Z.ltb_lt | exact E1].
  - eapply reverse_booked; [done | done | exact E2 | exact E3].
Qed.

(** ** A round trip *)
Lemma increase_flat direction q m p now m' p' b :
  increase direction q m p now = ROk (m', p', b) -> q <> 0 -> mp_baseAssetAmount p = 0 ->
  mp_quoteAssetAmount p = 0 -> mp_quoteAssetAmount p' = q.
Proof.
  unfold increase. intros H Hq Hb He. rewrite (proj2 (Z.eqb_neq q 0) Hq), Hb, Z.eqb_refl in H. rust_inv.
  subst. cbn. by rewrite He.
Qed.

Lemma close_pays user m p now user' m' p' v n :
  close user m p now = ROk (user', m', p', (v, n)) -> mp_baseAssetAmount p <> 0 ->
  0 <= usr_collateral user ->
  usr_collateral user' = Z.max 0 (usr_collateral user +
    (if 0 <? mp_baseAssetAmount p then v - mp_quoteAssetAmount p else mp_quoteAssetAmount p - v - 1)).
Proof.
  unfold close, calculate_pnl. intros H Hn Hc. rewrite (proj2 (Z.eqb_neq _ 0) Hn) in H. rust_inv. subst.
  cbn. apply updated_collateral_inv in E1 as ->; [| done].
  destruct (0 <? mp_baseAssetAmount p); rust_inv; by subst.
Qed.

(** What a swap of [q] and the swap back are worth. *)
Lemma swap_back a q d now a1 b now' a2 v :
  0 < amm_baseAssetReserve a -> amm_baseAssetReserve a * amm_quoteAssetReserve a <= invariant_k a ->
  0 < amm_pegMultiplier a <= 10000000000 -> b <> 0 ->
  (d = ADD <-> 0 < b) ->
  swap_quote_asset a q d now None = ROk (a1, b) ->
  swap_base_asset a1 (Z.abs b) (if 0 <? b then ADD else REMOVE) now' = ROk (a2, v) ->
  amm_baseAssetReserve a2 = amm_baseAssetReserve a /\
  amm_quoteAssetReserve a <= amm_quoteAssetReserve a2 /\
  match d with ADD => v <= q | REMOVE => q <= v + 1 end.
Proof.
  intros HB Hlow Hpeg Hb Hd H1 H2.
  apply swap_quote_asset_inv in H1 as (t & s & i & o & Hs & Hq & _ & _ & Hi & Hipos & Ho & _ & -> & Hb').
  apply swap_base_asset_inv in H2 as (t' & i2 & o2 & Hi2 & _ & Ho2 & _ & -> & Hv).
  apply quote_swapped_inv in Hv as (Hv & Hchange & _). cbn in *.
  assert (i2 = amm_baseAssetReserve a) as -> by (destruct (Z.ltb_spec 0 b); lia).
  fold (invariant_k a) in Ho2.
  pose proof (quot_bounds (invariant_k a) (amm_baseAssetReserve a) (invariant_k_nonneg a) HB) as Hk.
  rewrite <- Ho2 in Hk. assert (amm_quoteAssetReserve a <= o2) as Hge by nia.
  split; [done |]. split; [exact Hge |].
  pose proof (quot_bounds (q * 10000000000) (amm_pegMultiplier a) ltac:(nia) ltac:(lia)) as Hsb.
  rewrite <- Hs in Hsb. destruct d.
  - rewrite (proj2 (Z.ltb_lt 0 b)) in * by tauto. rewrite Hv, Hi.
    assert ((amm_quoteAssetReserve a + s - o2) * amm_pegMultiplier a <= q * 10000000000) by nia.
    rewrite quot_div_pos by nia. apply Z.div_le_upper_bound; lia.
  - assert ((0 <? b) = false) as Hf by (apply Z.ltb_ge; destruct (Z.le_gt_cases b 0); [done |]; by apply Hd in H).
    rewrite Hf in *. rewrite Hv, Hi.
    assert (0 <= (o2 - (amm_quoteAssetReserve a - s)) * amm_pegMultiplier a) as Hnn by nia.
    pose proof (quot_bounds ((o2 - (amm_quoteAssetReserve a - s)) * amm_pegMultiplier a) 10000000000
      Hnn ltac:(lia)). nia.
Qed.

(** C9: No free round trip: on a good curve, opening a position in the program and
    closing it again never leaves the user with more collateral, even before fees; it
    brings the base reserve back, leaves the quote reserve at least as high, and the
    market's totals as they were. *)
Theorem round_trip_no_profit (user user' : User) (m m1 m2 : Market) (p p1 p2 : MarketPosition)
    (direction : PositionDirection) (q b now now' v n : Z) :
  good (mkt_amm m) -> 0 <= usr_collateral user ->
  mp_baseAssetAmount p = 0 -> mp_quoteAssetAmount p = 0 ->
  increase direction q m p now = ROk (m1, p1, b) ->
  close user m1 p1 now' = ROk (user', m2, p2, (v, n)) ->
  usr_collateral user' <= usr_collateral user /\
  amm_baseAssetReserve (mkt_amm m2) = amm_baseAssetReserve (mkt_amm m) /\
  amm_quoteAssetReserve (mkt_amm m) <= amm_quoteAssetReserve (mkt_amm m2) /\
  booked m m2 0 0 /\ mp_baseAssetAmount p2 = 0.
Proof.
  intros [HB Hlow Habove Hdeep Hmin Hpeg] Hc Hb0 He0 Hinc Hclose. destruct (Z.eq_dec q 0) as [-> | Hq].
  { unfold increase in Hinc. cbn in Hinc. rust_inv. subst. unfold close in Hclose.
    rewrite Hb0 in Hclose. cbn in Hclose. rust_inv. subst.
    split_and!; [done | done | done | by apply booked_refl | done]. }
  pose proof (increase_flat _ _ _ _ _ _ _ _ Hinc Hq Hb0 He0) as He.
  destruct (increase_curve _ _ _ _ _ _ _ _ Hinc Hq) as [t Hs].
  pose proof (swap_quote_direction _ _ _ _ _ _ _ HB Hlow (fun _ => Habove) (fun _ => Hdeep) Hs) as Hdir.
  destruct (increase_booked _ _ _ _ _ _ _ _ Hinc) as (Hbk & _ & Hb1 & Hq0);
    [by destruct direction | rewrite Hb0; by destruct direction |].
  rewrite Hb0 in Hb1, Hbk. rewrite Z.add_0_l in Hb1.
  assert (b <> 0) as Hbnz by (destruct direction; cbn in Hdir; lia).
  destruct (close_booked _ _ _ _ _ _ _ _ _ Hclose) as (Hbk2 & _ & Hp2 & _ & Hsw); [lia |].
  rewrite Hb1 in Hsw, Hbk, Hbk2. rewrite Hp2 in Hbk2.
  pose proof (close_pays _ _ _ _ _ _ _ _ _ Hclose ltac:(lia) Hc) as Hpay. rewrite Hb1, He in Hpay.
  assert (swap_direction_of direction = ADD <-> 0 < b) as Hdb
    by (destruct direction; cbn in *; split; (done || lia)).
  destruct (swap_back _ _ _ _ _ _ _ _ _ HB Hlow Hpeg Hbnz Hdb Hs Hsw) as (Hbase & Hquote & Hv).
  split_and!; [| exact Hbase | exact Hquote | by eapply booked_trans | exact Hp2].
  rewrite Hpay. destruct direction; cbn in Hdir, Hv; destruct (Z.ltb_spec 0 b); lia.
Qed.
