(* ===== verification/ChainExchange.v ===== *)
(** * Runs of the exchange (programs/clearing_house/src/lib.rs)

    The instructions of lib.rs on the positions of all users and on all markets:
    each keeps the totals the markets hold of their users' positions ([books]) and
    keeps every user's open positions in different markets ([distinct]). *)
From S2P Require Import Prelude BN Types Checked History.
From S2P Require Import Amm Position User.
From S2P Require Import ChainAmm ChainPosition.
From S2P Require Import Idl.
From S2P Require Import ChainFunding ChainTrade ChainAgreement ChainMargin ChainBooks.

(** ** Totals over many positions

    Markets are indexed by the [u64] the positions hold. *)
Definition contribution (f : Z -> Z) (i : Z) (p : MarketPosition) : Z :=
  if mp_marketIndex p =? i then f (mp_baseAssetAmount p) else 0.
Definition tally (f : Z -> Z) (i : Z) (ps : list MarketPosition) : Z :=
  foldr Z.add 0 (contribution f i <$> ps).

(** The market's totals are [net], [long], [short] and [open] of the positions. *)
Record totals (m : Market) (t : (Z -> Z) -> Z) : Prop := {
  tt_net : mkt_baseAssetAmount m = t (fun b => b);
  tt_long : mkt_baseAssetAmountLong m = t (Z.max 0);
  tt_short : mkt_baseAssetAmountShort m = t (Z.min 0);
  tt_open : mkt_openInterest m = t open_count
}.

(** Between two states of one user and of the markets: every market's totals move
    as the user's positions in it do. *)
Definition kept (ps : list MarketPosition) (ms : list Market)
    (ps' : list MarketPosition) (ms' : list Market) : Prop :=
  length ms' = length ms /\
  forall i m m', js_index ms i = Some m -> js_index ms' i = Some m' ->
  forall t, totals m t -> totals m' (fun f => t f + tally f i ps' - tally f i ps).

Lemma tally_cons f i p ps : tally f i (p :: ps) = contribution f i p + tally f i ps.
Proof. done. Qed.

Lemma tally_insert f i k p p' ps : ps !! k = Some p ->
  tally f i (<[k := p']> ps) = tally f i ps - contribution f i p + contribution f i p'.
Proof.
  revert k. induction ps as [| q ps IH]; intros [| k] H; try done.
  - injection H as ->. change (<[0%nat := p']> (p :: ps)) with (p' :: ps).
    rewrite !tally_cons. lia.
  - change (<[S k := p']> (q :: ps)) with (q :: <[k := p']> ps).
    rewrite !tally_cons, (IH k H). lia.
Qed.

(** The functions the totals sum. *)
Definition counted (f : Z -> Z) : Prop := f 0 = 0.

Lemma totals_ext m t t' :
  totals m t -> (forall f, counted f -> t f = t' f) -> totals m t'.
Proof. intros [] H. split; rewrite <- H by done; done. Qed.

(** Changes of a market that leave its totals alone. *)
Definition same_totals (m m' : Market) : Prop := booked m m' 0 0.

Lemma same_totals_amm m a : same_totals m (with_amm m a).
Proof. by apply booked_refl. Qed.

Lemma booked_same m m1 m2 b b' : booked m m1 b b' -> same_totals m1 m2 -> booked m m2 b b'.
Proof. intros [] []. split; lia. Qed.

Lemma same_booked m m1 m2 b b' : same_totals m m1 -> booked m1 m2 b b' -> booked m m2 b b'.
Proof. intros [] []. split; lia. Qed.

Lemma js_index_insert {A} (l : list A) i j (x y : A) :
  0 <= j -> js_index (<[Z.to_nat j := x]> l) i = Some y -> is_Some (js_index l i) ->
  (i = j /\ y = x) \/ (i <> j /\ js_index l i = Some y).
Proof.
  unfold js_index. destruct (Z.leb_spec 0 i); [| done]. intros Hj Hy [z Hz].
  destruct (Z.eq_dec i j) as [-> | Hne].
  - left. split; [done |]. rewrite list_lookup_insert_eq in Hy; [congruence |].
    by apply lookup_lt_Some in Hz.
  - right. split; [done |]. by rewrite list_lookup_insert_ne in Hy by lia.
Qed.

Lemma js_index_nonneg {A} (l : list A) i x : js_index l i = Some x -> 0 <= i.
Proof. unfold js_index. by destruct (Z.leb_spec 0 i). Qed.

Lemma js_index_insert_ne {A} (l : list A) i j x :
  0 <= j -> i <> j -> js_index (<[Z.to_nat j := x]> l) i = js_index l i.
Proof.
  unfold js_index. intros. destruct (Z.leb_spec 0 i); [| done]. rewrite list_lookup_insert_ne; [done | lia].
Qed.

(** The user's position number [k] and market [j] changed together. *)
Lemma kept_update ps ms k p0 p p' j m m' :
  ps !! k = Some p0 -> js_index ms j = Some m -> mp_marketIndex p = j ->
  (p = p0 \/ (mp_baseAssetAmount p = 0 /\ mp_baseAssetAmount p0 = 0)) ->
  booked m m' (mp_baseAssetAmount p) (mp_baseAssetAmount p') -> mp_marketIndex p' = mp_marketIndex p ->
  kept ps ms (<[k := p']> ps) (<[Z.to_nat j := m']> ms).
Proof.
  intros Hk Hm Hj Hp Hbk Hx. split; [by rewrite length_insert |].
  intros i m1 m1' H1 H1' t Ht.
  pose proof (js_index_nonneg _ _ _ Hm) as Hj0.
  assert (forall f, counted f ->
    contribution f i p' - contribution f i p0 =
    if i =? j then f (mp_baseAssetAmount p') - f (mp_baseAssetAmount p) else 0) as Hc.
  { intros f Hf. unfold contribution. rewrite Hx, Hj, (Z.eqb_sym j i). destruct Hp as [<- | [Hz Hz0]].
    - rewrite Hj, (Z.eqb_sym j i). destruct (i =? j); lia.
    - rewrite Hz, Hz0. destruct (mp_marketIndex p0 =? i), (i =? j); unfold counted in Hf; lia. }
  apply (totals_ext _ (fun f => t f +
    (if i =? j then f (mp_baseAssetAmount p') - f (mp_baseAssetAmount p) else 0))).
  2: { intros f Hf. rewrite (tally_insert _ _ _ _ _ _ Hk), <- (Hc f Hf). lia. }
  destruct (js_index_insert _ _ _ _ _ Hj0 H1' ltac:(eauto)) as [[-> ->] | [Hne H2]].
  - rewrite Z.eqb_refl. assert (m1 = m) as -> by congruence. destruct Ht, Hbk. split; lia.
  - rewrite (proj2 (Z.eqb_neq i j) Hne). assert (m1' = m1) as -> by congruence.
    eapply totals_ext; [exact Ht |]. intros f _. lia.
Qed.

Lemma kept_trans ps1 ms1 ps2 ms2 ps3 ms3 :
  kept ps1 ms1 ps2 ms2 -> kept ps2 ms2 ps3 ms3 -> kept ps1 ms1 ps3 ms3.
Proof.
  intros [Hl1 H1] [Hl2 H2]. split; [congruence |]. intros i m m' Hm Hm' t Ht.
  destruct (js_index ms2 i) as [m2 |] eqn:Hm2.
  - eapply totals_ext; [by eapply H2, H1 |]. intros f _. cbn. lia.
  - unfold js_index in *. destruct (0 <=? i); [| done].
    apply lookup_lt_Some in Hm. apply lookup_ge_None in Hm2. lia.
Qed.

(** Nothing moved, or nothing but reference rates. *)
Lemma kept_positions ps ms ps' :
  Forall2 (fun p p' => mp_marketIndex p' = mp_marketIndex p /\
    mp_baseAssetAmount p' = mp_baseAssetAmount p) ps ps' -> kept ps ms ps' ms.
Proof.
  intros H. split; [done |]. intros i m m' Hm Hm' t Ht. assert (m' = m) as -> by congruence.
  eapply totals_ext; [exact Ht |]. intros f _.
  assert (tally f i ps' = tally f i ps); [| lia].
  clear - H. induction H as [| p p' ps ps' [Hx Hb] _ IH]; [done |].
  rewrite !tally_cons, IH. unfold contribution. by rewrite Hx, Hb.
Qed.

Lemma kept_refl ps ms : kept ps ms ps ms.
Proof. apply kept_positions. by induction ps; constructor. Qed.

(** A market written again with the same totals. *)
Lemma kept_market ps ms j m m' :
  js_index ms j = Some m -> same_totals m m' -> kept ps ms ps (<[Z.to_nat j := m']> ms).
Proof.
  intros Hm Hs. split; [by rewrite length_insert |]. intros i m1 m1' H1 H1' t Ht.
  pose proof (js_index_nonneg _ _ _ Hm) as Hj0.
  apply (totals_ext _ t); [| intros; lia].
  destruct (js_index_insert _ _ _ _ _ Hj0 H1' ltac:(eauto)) as [[-> ->] | [Hne H2]].
  - assert (m1 = m) as -> by congruence. destruct Hs, Ht. split; lia.
  - by assert (m1' = m1) as -> by congruence.
Qed.

(** ** One open position per market *)

(** At most one open position per market. *)
Definition distinct (ps : list MarketPosition) : Prop :=
  forall j k p q, ps !! j = Some p -> ps !! k = Some q -> mp_baseAssetAmount p <> 0 ->
  mp_baseAssetAmount q <> 0 -> mp_marketIndex p = mp_marketIndex q -> j = k.

Lemma distinct_tail p ps : distinct (p :: ps) -> distinct ps.
Proof.
  intros H j k q r Hj Hk Hq Hr Hx. cut (S j = S k); [lia |]. by apply (H (S j) (S k) q r).
Qed.

Lemma distinct_head p ps : distinct (p :: ps) -> mp_baseAssetAmount p <> 0 ->
  forall q, q ∈ ps -> mp_baseAssetAmount q <> 0 -> mp_marketIndex q <> mp_marketIndex p.
Proof.
  intros H Hp q [k Hk]%list_elem_of_lookup Hq Hx. discriminate (H (S k) 0%nat q p Hk eq_refl Hq Hp Hx).
Qed.

(** Positions that opened no other. *)
Definition shape (p p' : MarketPosition) : Prop :=
  mp_marketIndex p' = mp_marketIndex p /\ (mp_baseAssetAmount p' <> 0 -> mp_baseAssetAmount p <> 0).

Lemma distinct_shape ps ps' : Forall2 shape ps ps' -> distinct ps -> distinct ps'.
Proof.
  intros H Hd j k p' q' Hj Hk Hp Hq Hx.
  destruct (Forall2_lookup_r _ _ _ _ _ H Hj) as (p & Hpj & Hxp & Hbp).
  destruct (Forall2_lookup_r _ _ _ _ _ H Hk) as (q & Hqk & Hxq & Hbq).
  apply (Hd j k p q); [done | done | by apply Hbp | by apply Hbq | congruence].
Qed.

Lemma distinct_insert n p' ps : distinct ps ->
  (forall k q, k <> n -> ps !! k = Some q -> mp_baseAssetAmount q <> 0 -> mp_baseAssetAmount p' <> 0 ->
     mp_marketIndex q <> mp_marketIndex p') -> distinct (<[n := p']> ps).
Proof.
  intros Hd Ho j k p q Hj Hk Hp Hq Hx.
  apply list_lookup_insert_Some in Hj as [(-> & <- & _) | [Hnj Hj]],
        Hk as [(-> & <- & _) | [Hnk Hk]].
  - done.
  - exfalso. by apply (Ho k q).
  - exfalso. by apply (Ho j p).
  - by apply (Hd j k p q).
Qed.

(** ** Handlers *)

(** Funding, fees and the oracle leave the totals alone. *)
Lemma rate_long_short_same market rate market' r :
  calculate_funding_rate_long_short market rate = ROk (market', r) -> same_totals market market'.
Proof.
  unfold calculate_funding_rate_long_short. intros H. rust_inv.
  destruct (0 <=? _); rust_inv; subst; apply same_totals_amm.
Qed.

Lemma update_funding_rate_same i market px now slot h rails paused market' h' :
  update_funding_rate i market px now slot h rails paused = ROk (market', h') ->
  same_totals market market'.
Proof.
  unfold update_funding_rate. intros H. rust_inv. destruct (_ && _ && _); rust_inv; subst.
  - eapply booked_same; [| apply same_totals_amm].
    eapply same_booked; [apply same_totals_amm | by eapply rate_long_short_same].
  - by apply booked_refl.
Qed.

Lemma charge_same q st optional market user market' user' r f :
  charge q st optional market user = ROk (market', user', r, f) -> same_totals market market'.
Proof. unfold charge. intros H. rust_inv. subst. apply same_totals_amm. Qed.

Lemma settle_kept c now c' : settle_user c now = ROk c' ->
  kept (ac_positions c) (ac_markets c) (ac_positions c') (ac_markets c') /\ ac_markets c' = ac_markets c.
Proof.
  unfold settle_user, settle_funding_payment. intros H. rust_inv. subst. cbn. split; [| done].
  apply settle_positions_inv in E0 as [Hps _]. apply kept_positions.
  eapply Forall2_impl; [exact Hps |]. cbn. tauto.
Qed.

Lemma find_position_inv ps i k p : find_position ps i = ROk (k, p) ->
  mp_marketIndex p = i /\ exists p0, ps !! k = Some p0 /\
  (p = p0 \/ (mp_baseAssetAmount p = 0 /\ mp_baseAssetAmount p0 = 0)).
Proof.
  unfold find_position, position_where.
  destruct (list_find (fun p => is_for i p = true) ps) as [[k0 p0] |] eqn:E.
  - intros [= <- <-]. apply list_find_Some in E as (Hk & Hf & _).
    apply andb_true_iff in Hf as [Hx _]. split; [by apply Z.eqb_eq | eauto].
  - destruct (list_find (fun p => negb (is_open_position p) = true) ps) as [[k0 p0] |] eqn:E0; [| intros H; rust_inv]. intros [= <- <-]. split; [done |].
    apply list_find_Some in E0 as (Hk & Hf & _). exists p0. split; [done |]. right. split; [done |].
    unfold is_open_position in Hf. destruct (Z.eqb_spec (mp_baseAssetAmount p0) 0); done.
Qed.

Lemma settle_shape c now c' : settle_user c now = ROk c' ->
  Forall2 shape (ac_positions c) (ac_positions c').
Proof.
  unfold settle_user, settle_funding_payment. intros H. rust_inv. subst. cbn.
  apply settle_positions_inv in E0 as [Hps _].
  eapply Forall2_impl; [exact Hps |]. intros p p' (Hx & Hb & _). split; [done | by rewrite Hb].
Qed.

Lemma settle_distinct c now c' : settle_user c now = ROk c' ->
  distinct (ac_positions c) -> distinct (ac_positions c').
Proof. intros H. eapply distinct_shape, settle_shape, H. Qed.

(** The position a trade takes is the only open one of its market. *)
Lemma find_position_only ps i k p : distinct ps -> find_position ps i = ROk (k, p) ->
  mp_marketIndex p = i /\
  forall k' q, ps !! k' = Some q -> mp_baseAssetAmount q <> 0 -> mp_marketIndex q = i -> k' = k.
Proof.
  intros Hd H. split; [by apply find_position_inv in H as [? _] |]. intros k' q Hq Hn Hx.
  assert (is_for i q = true) as Hf.
  { unfold is_for, is_open_position. rewrite Hx, Z.eqb_refl. by rewrite (proj2 (Z.eqb_neq _ 0) Hn). }
  unfold find_position, position_where in H.
  destruct (list_find (fun p => is_for i p = true) ps) as [[k0 p0] |] eqn:E.
  - injection H as <- <-. apply list_find_Some in E as (Hk & Hf0 & _).
    apply andb_true_iff in Hf0 as [Hx0 Hn0]. apply (Hd k' k0 q p0); try done.
    + intros Hz. unfold is_open_position in Hn0. by rewrite Hz in Hn0.
    + rewrite Hx. symmetry. by apply Z.eqb_eq.
  - apply list_find_None in E. destruct (Forall_lookup_1 _ _ _ _ E Hq Hf).
Qed.

(** The curves of the markets that are in use are good. *)
Definition all_good (ms : list Market) : Prop :=
  Forall (fun m => mkt_initialized m = true -> good (mkt_amm m)) ms.

Lemma all_good_at ms i m :
  all_good ms -> js_index ms i = Some m -> mkt_initialized m = true -> good (mkt_amm m).
Proof.
  unfold all_good, js_index. intros H. destruct (0 <=? i); [| done].
  intros Hm. by eapply (Forall_lookup_1 _ _ _ _ H Hm).
Qed.

(** Open positions are in markets that are in use. *)
Definition initialized_at (ms : list Market) (i : Z) : bool :=
  match js_index ms i with Some m => mkt_initialized m | None => false end.
Definition opened (ps : list MarketPosition) (ms : list Market) : Prop :=
  Forall (fun p => mp_baseAssetAmount p <> 0 -> initialized_at ms (mp_marketIndex p) = true) ps.

Lemma initialized_at_inv ms i m :
  initialized_at ms i = true -> js_index ms i = Some m -> mkt_initialized m = true.
Proof. unfold initialized_at. intros H Hm. by rewrite Hm in H. Qed.

Lemma opened_shape ps ps' ms : Forall2 shape ps ps' -> opened ps ms -> opened ps' ms.
Proof.
  unfold opened. induction 1 as [| p p' ps ps' [Hx Hb] _ IH]; [done |].
  intros [Hp Hps]%Forall_cons. constructor; [| by apply IH]. intros Hn. rewrite Hx. auto.
Qed.

Lemma trade_allowed_inv st oracle ms i m :
  trade_allowed st oracle ms i = ROk tt -> js_index ms i = Some m -> mkt_initialized m = true.
Proof.
  unfold trade_allowed, market_initialized. intros H Hm. rust_inv.
  repeat match goal with E : market_at _ _ = ROk _ |- _ => apply market_at_inv in E end. congruence.
Qed.

Lemma traded_good ms ms' st oracle i u m : all_good ms -> ms' = ms ->
  trade_allowed st oracle ms i = ROk u -> js_index ms' i = Some m -> good (mkt_amm m).
Proof.
  intros Hg -> E Hm. destruct u. eapply all_good_at; [done | exact Hm | by eapply trade_allowed_inv].
Qed.

Lemma good_oracle_twap a price twap ts : good a -> good (with_oracle_twap a price twap ts).
Proof. intros []. by split. Qed.

Lemma update_oracle_price_twap_good a now price a' t :
  update_oracle_price_twap a now price = ROk (a', t) -> good a -> good a'.
Proof.
  unfold update_oracle_price_twap. intros H Hg. rust_inv.
  destruct (_ && _); rust_inv; subst; [by apply good_oracle_twap | done].
Qed.

Section Handlers.
Variables (state : StateAccount) (oracle : OracleAccount) (now clock_slot : Z).

Lemma oracle_update_good (valid : bool) a px a' :
  (if valid then '(amm, _) ← update_oracle_price_twap a now px; ROk amm else ROk a) = ROk a' ->
  good a -> good a'.
Proof.
  intros H Hg. destruct valid; rust_inv; subst; [by eapply update_oracle_price_twap_good | done].
Qed.

Lemma open_position_kept optional direction q i limit c c' r :
  all_good (ac_markets c) ->
  open_position state oracle now clock_slot optional direction q i limit c = ROk (c', r) ->
  kept (ac_positions c) (ac_markets c) (ac_positions c') (ac_markets c').
Proof.
  unfold open_position, record_trade, update_rate. intros Hg H. rust_inv. subst. cbn.
  repeat match goal with
  | E : settle_user _ _ = ROk _ |- _ => apply settle_kept in E as [Hk Hms]
  | E : find_position _ _ = ROk _ |- _ => apply find_position_inv in E as (Hx & p0 & Hp0 & Hor)
  | E : market_at _ _ = ROk _ |- _ => apply market_at_inv in E as Hmk; clear E
  | E : charge _ _ _ _ _ = ROk _ |- _ => apply charge_same in E as Hch; clear E
  | E : update_funding_rate _ _ _ _ _ _ _ _ = ROk _ |- _ =>
      apply update_funding_rate_same in E as Hup; clear E
  end.
  match goal with E : trade_allowed _ _ _ _ = ROk _ |- _ => pose proof (traded_good _ _ _ _ _ _ _ Hg Hms E Hmk) as Hm end.
  eapply kept_trans; [exact Hk |]. rewrite !list_insert_insert_eq.
  match goal with E : execute _ _ _ _ _ _ = ROk _ |- _ => apply execute_booked in E as [Hb Hi] end;
    [| by eapply oracle_update_good].
  eapply kept_update; [exact Hp0 | exact Hmk | done | exact Hor | | done].
  do 2 (eapply booked_same; [| eassumption]). by eapply same_booked; [apply same_totals_amm |].
Qed.

Lemma position_where_inv ps i k p :
  match position_where (is_for i) ps with
  | None => err UserHasNoPositionInMarket
  | Some r => ROk r
  end = ROk (k, p) -> mp_marketIndex p = i /\ ps !! k = Some p /\ mp_baseAssetAmount p <> 0.
Proof.
  unfold position_where. destruct (list_find (fun p => is_for i p = true) ps) as [[k0 p0] |] eqn:E;
    [| intros H; rust_inv].
  intros [= <- <-]. apply list_find_Some in E as (Hk & Hf & _).
  apply andb_true_iff in Hf as [Hx Hn]. split_and!; [by apply Z.eqb_eq | done |].
  intros Hz. unfold is_open_position in Hn. by rewrite Hz in Hn.
Qed.

Lemma close_position_kept optional i c c' r :
  close_position state oracle now clock_slot optional i c = ROk (c', r) ->
  kept (ac_positions c) (ac_markets c) (ac_positions c') (ac_markets c').
Proof.
  unfold close_position, record_trade, update_rate. intros H. rust_inv. subst. cbn.
  repeat match goal with
  | E : settle_user _ _ = ROk _ |- _ => apply settle_kept in E as [Hk Hms]
  | E : match position_where _ _ with _ => _ end = ROk _ |- _ =>
      apply position_where_inv in E as (Hx & Hp & Hn)
  | E : market_at _ _ = ROk _ |- _ => apply market_at_inv in E as Hmk; clear E
  | E : close _ _ _ _ = ROk _ |- _ => apply close_booked in E as (Hb & Hi & _); [| done]
  | E : charge _ _ _ _ _ = ROk _ |- _ => apply charge_same in E as Hch; clear E
  | E : update_funding_rate _ _ _ _ _ _ _ _ = ROk _ |- _ =>
      apply update_funding_rate_same in E as Hup; clear E
  end.
  eapply kept_trans; [exact Hk |]. rewrite !list_insert_insert_eq.
  eapply kept_update; [exact Hp | exact Hmk | done | by left | | done].
  eapply booked_same; [| eassumption]. eapply booked_same; [| apply same_totals_amm].
  by eapply booked_same.
Qed.

Lemma deposit_kept amount c c' ts :
  deposit_collateral state now amount c = ROk (c', ts) ->
  kept (ac_positions c) (ac_markets c) (ac_positions c') (ac_markets c').
Proof.
  unfold deposit_collateral, record_deposit. intros H. rust_inv. subst. cbn.
  by match goal with E : settle_user _ _ = ROk _ |- _ => apply settle_kept in E as [? ?] end.
Qed.

Lemma withdraw_kept vault insurance amount c c' ts :
  withdraw_collateral state now vault insurance amount c = ROk (c', ts) ->
  kept (ac_positions c) (ac_markets c) (ac_positions c') (ac_markets c').
Proof.
  unfold withdraw_collateral, record_deposit. intros H. rust_inv. subst. cbn.
  by match goal with E : settle_user _ _ = ROk _ |- _ => apply settle_kept in E as [? ?] end.
Qed.

(** ** Liquidation *)

(** A part of a positive value, and the least a swap accepts. *)
Lemma part_below v num den : 0 <= v -> 0 < num < den -> 0 < (v * num) `quot` den ->
  (v * num) `quot` den < v.
Proof.
  intros Hv Hd Hq. pose proof (quot_bounds (v * num) den ltac:(nia) ltac:(lia)). nia.
Qed.

Lemma reduced_positive direction q user m p now' pre user' m' p' b :
  good (mkt_amm m) -> reduce direction q user m p now' pre = ROk (user', m', p', b) -> 0 < q.
Proof.
  intros [] H. destruct (reduce_swap _ _ _ _ _ _ _ _ _ _ _ H) as [a Hs].
  apply swap_quote_asset_inv in Hs as (t & s & i & o & Hs & Hq & _ & Hmin & _).
  destruct (Z.eq_dec q 0) as [-> |]; [| lia]. rewrite Z.mul_0_l, Z.quot_0_l in Hs by lia. lia.
Qed.

(** The curves of a user's open positions are good. *)
Definition goods (ps : list MarketPosition) (ms : list Market) : Prop :=
  forall p m, p ∈ ps -> mp_baseAssetAmount p <> 0 -> js_index ms (mp_marketIndex p) = Some m ->
  good (mkt_amm m).

Lemma liquidate_position_inv key remaining full p l p' l' :
  goods [p] (lq_markets l) ->
  (0 < st_partialLiquidationClosePercentageNumerator state
     < st_partialLiquidationClosePercentageDenominator state) ->
  liquidate_position state now clock_slot key remaining full p l = ROk (p', l') ->
  (p' = p /\ lq_markets l' = lq_markets l) \/
  (mp_baseAssetAmount p <> 0 /\ mp_marketIndex p' = mp_marketIndex p /\
   exists m m', js_index (lq_markets l) (mp_marketIndex p) = Some m /\
     booked m m' (mp_baseAssetAmount p) (mp_baseAssetAmount p') /\
     lq_markets l' = <[Z.to_nat (mp_marketIndex p) := m']> (lq_markets l)).
Proof.
  unfold liquidate_position. intros Hg Hpart H.
  destruct (Z.eqb_spec (mp_baseAssetAmount p) 0) as [Hz | Hn]; [left; by rust_inv; subst |].
  right. rust_inv. subst. cbn.
  match goal with E : market_at _ _ = ROk _ |- _ => apply market_at_inv in E as Hmk end.
  pose proof (Hg p _ ltac:(set_solver) Hn Hmk) as Hm. destruct full; rust_inv; subst.
  - match goal with E : close _ _ _ _ = ROk _ |- _ => apply close_booked in E as (? & ? & _); [| done] end.
    split_and!; eauto.
  - match goal with
    | E : reduce _ _ _ _ _ _ _ = ROk _, Ev : calculate_base_asset_value_and_pnl _ _ = ROk _ |- _ =>
        pose proof (reduced_positive _ _ _ _ _ _ _ _ _ _ _ Hm E) as Hq;
        apply (reduce_good _ _ _ _ _ _ _ _ _ _ _ _ Hm Hn Ev) in E as [? ?]; [split_and!; eauto |];
        apply value_and_pnl_inv in Ev as (_ & Hv & _); [| done]
    end.
    by apply part_below.
Qed.

(** The loop. *)
Lemma liquidate_positions_kept key remaining full ps l ps' l' pre :
  distinct ps -> goods ps (lq_markets l) ->
  (0 < st_partialLiquidationClosePercentageNumerator state
     < st_partialLiquidationClosePercentageDenominator state) ->
  liquidate_positions state now clock_slot key remaining full ps l = ROk (ps', l') ->
  kept (pre ++ ps) (lq_markets l) (pre ++ ps') (lq_markets l').
Proof.
  intros Hd Hg Hpart. revert l ps' l' pre Hd Hg.
  induction ps as [| p ps IH]; cbn [liquidate_positions]; intros l ps' l' pre Hd Hg H.
  { rust_inv. subst. by apply kept_refl. }
  apply rust_bind_inv in H as ([p1 l1] & E1 & H). apply rust_bind_inv in H as ([ps1 l2] & E2 & H).
  rust_inv. subst.
  apply liquidate_position_inv in E1 as Hone; [| intros q m ? ?; apply Hg; set_solver | done].
  pose proof (fun G => IH _ _ _ (pre ++ [p1]) (distinct_tail _ _ Hd) G E2) as Hrest.
  rewrite <- !app_assoc in Hrest. cbn [app] in Hrest.
  destruct Hone as [[-> Hms] | (Hn & Hx & m1 & m2 & Hm1 & Hb & Hms)]; rewrite Hms in *.
  - apply Hrest. intros q mq Hq. apply Hg. set_solver.
  - eapply kept_trans; [| apply Hrest].
    + eapply (kept_update (pre ++ p :: ps) (lq_markets l) (length pre) p) in Hb; [| | exact Hm1 | done | by left | exact Hx].
      * rewrite insert_app_r_alt, Nat.sub_diag in Hb by lia. exact Hb.
      * by apply list_lookup_middle.
    + intros q mq Hq Hqn Hmq. apply (Hg q mq); [set_solver | done |].
      rewrite js_index_insert_ne in Hmq; [done | by apply (js_index_nonneg _ _ _ Hm1) |].
      by apply (distinct_head p ps).
Qed.

Lemma liquidate_positions_shape key remaining full ps l ps' l' :
  liquidate_positions state now clock_slot key remaining full ps l = ROk (ps', l') ->
  Forall2 shape ps ps'.
Proof.
  revert l ps' l'. induction ps as [| p ps IH]; cbn [liquidate_positions]; intros l ps' l' H.
  { rust_inv. subst. constructor. }
  apply rust_bind_inv in H as ([p1 l1] & E1 & H). apply rust_bind_inv in H as ([ps1 l2] & E2 & H).
  rust_inv. subst. constructor; [| by eapply IH].
  unfold liquidate_position in E1.
  destruct (Z.eqb_spec (mp_baseAssetAmount p) 0) as [Hz | Hn]; [by rust_inv; subst |].
  rust_inv. subst. split; [| done]. destruct full; rust_inv; subst.
  - match goal with E : close _ _ _ _ = ROk _ |- _ => by apply close_booked in E as (_ & ? & _) end.
  - match goal with E : reduce _ _ _ _ _ _ _ = ROk _ |- _ =>
      unfold reduce in E; rust_inv; subst; done end.
Qed.

Lemma liquidate_kept remaining vault insurance liquidator c c' lq ts rec :
  all_good (ac_markets c) -> distinct (ac_positions c) -> opened (ac_positions c) (ac_markets c) ->
  (0 < st_partialLiquidationClosePercentageNumerator state
     < st_partialLiquidationClosePercentageDenominator state) ->
  liquidate_handler state now clock_slot remaining vault insurance liquidator c = ROk (c', lq, ts, rec) ->
  kept (ac_positions c) (ac_markets c) (ac_positions c') (ac_markets c').
Proof.
  unfold liquidate_handler. intros Hg Hd Ho Hpart H. rust_inv. subst. cbn.
  match goal with E : settle_user _ _ = ROk _ |- _ =>
    apply settle_distinct in E as Hd'; [| done];
    pose proof (opened_shape _ _ _ (settle_shape _ _ _ E) Ho) as Hopen; apply settle_kept in E as [Hk Hms] end.
  eapply kept_trans; [exact Hk |].
  match goal with E : liquidate_positions _ _ _ _ _ _ _ _ = ROk _ |- _ =>
    apply (liquidate_positions_kept _ _ _ _ _ _ _ []) in E; [exact E | done | | done] end.
  cbn. rewrite Hms. intros p m [k Hp]%list_elem_of_lookup Hn Hm. eapply all_good_at; [done | done |].
  eapply initialized_at_inv; [| exact Hm]. by apply (Forall_lookup_1 _ _ _ _ Hopen Hp).
Qed.

(** The handlers keep a user's open positions in distinct markets. *)
Lemma open_position_distinct optional direction q i limit c c' r :
  distinct (ac_positions c) ->
  open_position state oracle now clock_slot optional direction q i limit c = ROk (c', r) ->
  all_good (ac_markets c) -> distinct (ac_positions c').
Proof.
  unfold open_position, record_trade, update_rate. intros Hd H Hg. rust_inv. subst. cbn.
  match goal with E : settle_user _ _ = ROk _ |- _ =>
    apply settle_distinct in E as Hd'; [| done]; apply settle_kept in E as [_ Hms] end.
  repeat match goal with
  | E : find_position _ _ = ROk _ |- _ => apply (find_position_only _ _ _ _ Hd') in E as [Hx Hother]
  | E : market_at _ _ = ROk _ |- _ => apply market_at_inv in E as Hmk; clear E
  end.
  match goal with E : trade_allowed _ _ _ _ = ROk _ |- _ => pose proof (traded_good _ _ _ _ _ _ _ Hg Hms E Hmk) as Hm end.
  match goal with E : execute _ _ _ _ _ _ = ROk _ |- _ => apply execute_booked in E as [_ Hi] end;
    [| by eapply oracle_update_good].
  apply distinct_insert; [done |]. intros k p Hk Hp Hn _. rewrite Hi, Hx.
  intros Hxp. by apply Hk, (Hother k p).
Qed.

Lemma close_position_distinct optional i c c' r :
  distinct (ac_positions c) ->
  close_position state oracle now clock_slot optional i c = ROk (c', r) -> distinct (ac_positions c').
Proof.
  unfold close_position, record_trade, update_rate. intros Hd H. rust_inv. subst. cbn.
  repeat match goal with
  | E : settle_user _ _ = ROk _ |- _ => apply settle_distinct in E; [| done]
  | E : match position_where _ _ with _ => _ end = ROk _ |- _ =>
      apply position_where_inv in E as (Hx & Hp & Hn)
  | E : close _ _ _ _ = ROk _ |- _ => apply close_booked in E as (_ & _ & Hz & _); [| done]
  end.
  apply distinct_insert; [done |]. by intros k p Hk Hkp Hn' [].
Qed.

Lemma deposit_distinct amount c c' ts :
  distinct (ac_positions c) ->
  deposit_collateral state now amount c = ROk (c', ts) -> distinct (ac_positions c').
Proof.
  unfold deposit_collateral, record_deposit. intros Hd H. rust_inv. subst. cbn.
  match goal with E : settle_user _ _ = ROk _ |- _ => by apply settle_distinct in E end.
Qed.

Lemma withdraw_distinct vault insurance amount c c' ts :
  distinct (ac_positions c) ->
  withdraw_collateral state now vault insurance amount c = ROk (c', ts) -> distinct (ac_positions c').
Proof.
  unfold withdraw_collateral, record_deposit. intros Hd H. rust_inv. subst. cbn.
  match goal with E : settle_user _ _ = ROk _ |- _ => by apply settle_distinct in E end.
Qed.

Lemma liquidate_distinct remaining vault insurance liquidator c c' lq ts rec :
  distinct (ac_positions c) ->
  liquidate_handler state now clock_slot remaining vault insurance liquidator c = ROk (c', lq, ts, rec) ->
  distinct (ac_positions c').
Proof.
  unfold liquidate_handler. intros Hd H. rust_inv. subst. cbn.
  match goal with E : settle_user _ _ = ROk _ |- _ => apply settle_distinct in E; [| done] end.
  match goal with E : liquidate_positions _ _ _ _ _ _ _ _ = ROk _ |- _ =>
    apply liquidate_positions_shape in E; by eapply distinct_shape end.
Qed.
End Handlers.

(** ** Runs of the exchange

    The positions of every user and the markets; an instruction changes those of
    one user.  What else it reads or writes (collateral, histories, the other
    accounts) is any. *)
Record Exchange := mkExchange { ex_users : list (list MarketPosition); ex_markets : list Market }.

Inductive instruction (c c' : Accounts) : Prop :=
  | in_open_position state oracle now slot optional direction amount i limit r :
      open_position state oracle now slot optional direction amount i limit c = ROk (c', r) ->
      instruction c c'
  | in_close_position state oracle now slot optional i r :
      close_position state oracle now slot optional i c = ROk (c', r) -> instruction c c'
  | in_deposit state now amount ts :
      deposit_collateral state now amount c = ROk (c', ts) -> instruction c c'
  | in_withdraw state now vault insurance amount ts :
      withdraw_collateral state now vault insurance amount c = ROk (c', ts) -> instruction c c'
  | in_liquidate state now slot remaining vault insurance liquidator l ts rec :
      0 < st_partialLiquidationClosePercentageNumerator state
        < st_partialLiquidationClosePercentageDenominator state ->
      liquidate_handler state now slot remaining vault insurance liquidator c = ROk (c', l, ts, rec) ->
      instruction c c'
  | in_settle now : settle_user c now = ROk c' -> instruction c c'.

Inductive exchange_step (x : Exchange) : Exchange -> Prop :=
  | ex_instruction j c c' :
      ex_users x !! j = Some (ac_positions c) -> ex_markets x = ac_markets c ->
      all_good (ac_markets c) -> opened (ac_positions c) (ac_markets c) -> instruction c c' ->
      exchange_step x (mkExchange (<[j := ac_positions c']> (ex_users x)) (ac_markets c'))
  | ex_join ps : Forall (fun p => mp_baseAssetAmount p = 0) ps ->
      exchange_step x (mkExchange (ex_users x ++ [ps]) (ex_markets x))
  | ex_leave j ps : ex_users x !! j = Some ps -> Forall (fun p => mp_baseAssetAmount p = 0) ps ->
      exchange_step x (mkExchange (delete j (ex_users x)) (ex_markets x))
  | ex_market i m m' : js_index (ex_markets x) i = Some m -> same_totals m m' ->
      exchange_step x (mkExchange (ex_users x) (<[Z.to_nat i := m']> (ex_markets x))).

Definition total (i : Z) (users : list (list MarketPosition)) (f : Z -> Z) : Z :=
  foldr Z.add 0 (tally f i <$> users).

(** The books of an exchange. *)
Record books (x : Exchange) : Prop := {
  bks_markets : forall i m, js_index (ex_markets x) i = Some m -> totals m (total i (ex_users x));
  bks_users : Forall distinct (ex_users x)
}.

Lemma total_insert i users j ps ps' f : users !! j = Some ps ->
  total i (<[j := ps']> users) f = total i users f + tally f i ps' - tally f i ps.
Proof.
  unfold total. revert j. induction users as [| u users IH]; intros [| j] H; try done.
  - injection H as ->. change (<[0%nat := ps']> (ps :: users)) with (ps' :: users).
    cbn [fmap list_fmap foldr]. lia.
  - change (<[S j := ps']> (u :: users)) with (u :: <[j := ps']> users).
    cbn [fmap list_fmap foldr]. rewrite (IH j H). lia.
Qed.

Lemma total_delete i users j ps f : users !! j = Some ps ->
  total i users f = total i (delete j users) f + tally f i ps.
Proof.
  unfold total. revert j. induction users as [| u users IH]; intros [| j] H; try done.
  - injection H as ->. change (delete 0%nat (ps :: users)) with users.
    cbn [fmap list_fmap foldr]. lia.
  - change (delete (S j) (u :: users)) with (u :: delete j users).
    cbn [fmap list_fmap foldr]. rewrite (IH j H). lia.
Qed.

Lemma tally_flat f i ps : counted f -> Forall (fun p => mp_baseAssetAmount p = 0) ps -> tally f i ps = 0.
Proof.
  intros Hf. induction 1 as [| p ps Hp _ IH]; [done |]. rewrite tally_cons, IH.
  unfold contribution. rewrite Hp, Hf. by destruct (_ =? _).
Qed.

Lemma instruction_keeps c c' : all_good (ac_markets c) -> distinct (ac_positions c) ->
  opened (ac_positions c) (ac_markets c) -> instruction c c' ->
  kept (ac_positions c) (ac_markets c) (ac_positions c') (ac_markets c') /\ distinct (ac_positions c').
Proof.
  intros Hg Hd Ho [].
  - split; [by eapply open_position_kept | by eapply open_position_distinct].
  - split; [by eapply close_position_kept | by eapply close_position_distinct].
  - split; [by eapply deposit_kept | by eapply deposit_distinct].
  - split; [by eapply withdraw_kept | by eapply withdraw_distinct].
  - split; [by eapply liquidate_kept | by eapply liquidate_distinct].
  - split; [by eapply settle_kept | by eapply settle_distinct].
Qed.

Lemma exchange_step_books x x' : exchange_step x x' -> books x -> books x'.
Proof.
  intros [j c c' Hj Hms Hg Ho Hi | ps Hps | j ps Hj Hps | i m m' Hm Hs] [Hb Hu].
  - pose proof (Forall_lookup_1 _ _ _ _ Hu Hj) as Hd.
    destruct (instruction_keeps _ _ Hg Hd Ho Hi) as [[Hlen Hk] Hd']. rewrite Hms in Hb. split; cbn.
    + intros i m' Hm'. destruct (js_index (ac_markets c) i) as [m |] eqn:Hm.
      * eapply totals_ext; [by eapply Hk, Hb |]. intros f _. by rewrite (total_insert _ _ _ _ _ _ Hj).
      * unfold js_index in *. destruct (0 <=? i); [| done].
        apply lookup_lt_Some in Hm'. apply lookup_ge_None in Hm. lia.
    + by apply Forall_insert.
  - split; cbn.
    + intros i m Hm. eapply totals_ext; [by apply Hb |]. intros f Hf. unfold total.
      rewrite fmap_app, foldr_add_app. cbn. rewrite (tally_flat _ _ _ Hf Hps). lia.
    + apply Forall_app. split; [done |]. constructor; [| constructor].
      intros j k p q Hj _ Hp. by rewrite (Forall_lookup_1 _ _ _ _ Hps Hj) in Hp.
  - split; cbn; [| by apply Forall_delete].
    intros i m Hm. eapply totals_ext; [by apply Hb |]. intros f Hf.
    rewrite (total_delete _ _ _ _ f Hj), (tally_flat _ _ _ Hf Hps). lia.
  - split; cbn; [| done]. intros k m1 Hm1. pose proof (js_index_nonneg _ _ _ Hm) as Hi0.
    destruct (Z.eq_dec k i) as [-> | Hne].
    + destruct (js_index_insert _ _ _ _ _ Hi0 Hm1 ltac:(eauto)) as [[_ ->] | [? _]]; [| done].
      destruct Hs, (Hb i m Hm). split; lia.
    + rewrite js_index_insert_ne in Hm1 by done. by apply Hb.
Qed.

(** What the books say of a market, in the words of the program. *)
Lemma books_market x i m : books x -> js_index (ex_markets x) i = Some m ->
  mkt_baseAssetAmount m = total i (ex_users x) (fun b => b) /\
  mkt_baseAssetAmountLong m = total i (ex_users x) (Z.max 0) /\
  mkt_baseAssetAmountShort m = total i (ex_users x) (Z.min 0) /\
  mkt_openInterest m = total i (ex_users x) open_count /\
  mkt_baseAssetAmount m = mkt_baseAssetAmountLong m + mkt_baseAssetAmountShort m.
Proof.
  intros [Hb Hu] Hm. destruct (Hb i m Hm) as [Hn Hl Hsh Ho]. split_and!; try done.
  rewrite Hn, Hl, Hsh. clear. unfold total. induction (ex_users x) as [| u us IH]; [done |].
  cbn [fmap list_fmap foldr]. rewrite IH.
  assert (tally (fun b => b) i u = tally (Z.max 0) i u + tally (Z.min 0) i u); [| lia].
  clear. induction u as [| p u IH]; [done |]. rewrite !tally_cons, IH. unfold contribution.
  clear IH. generalize (tally (Z.max 0) i u), (tally (Z.min 0) i u). destruct (_ =? i); lia.
Qed.

(** Nobody has a position in a market that is not in use. *)
Lemma total_unused ms users i f : counted f -> Forall (fun ps => opened ps ms) users ->
  initialized_at ms i = false -> total i users f = 0.
Proof.
  intros Hf H Hi. unfold total. induction H as [| ps users Hps _ IH]; [done |].
  cbn [fmap list_fmap foldr]. rewrite IH, Z.add_0_r. clear IH.
  induction Hps as [| p ps Hp _ IH]; [done |]. rewrite tally_cons, IH. unfold contribution.
  destruct (Z.eqb_spec (mp_marketIndex p) i) as [Hx |]; [| done].
  destruct (Z.eq_dec (mp_baseAssetAmount p) 0) as [-> | Hn]; [by rewrite Hf |].
  specialize (Hp Hn). congruence.
Qed.
