(* ===== verification/ChainRepeg.v ===== *)
(** * Changes of the curve (programs/clearing_house: controller/repeg.rs, lib.rs)

    The instructions by which the administrator moves a market's curve: a new peg, a
    new k, new reserves, and a corrected time-weighted oracle price.  Each is a whole
    handler of lib.rs on the markets and on the extended history of the curve. *)
From S2P Require Import Prelude BN Types Checked History Position.
From S2P Require Import ChainAmm ChainOracle ChainPosition.
From S2P Require Import Idl.
From S2P Require Import ChainFunding ChainTrade ChainAgreement ChainMargin ChainBooks ChainExchange.

(** ** state/history/curve.rs *)
Record ExtendedCurveRecord := mkExtendedCurveRecord {
  ec_ts : Z;
  ec_record_id : Z;
  ec_market_index : Z;
  ec_peg_multiplier_before : Z;
  ec_base_asset_reserve_before : Z;
  ec_quote_asset_reserve_before : Z;
  ec_sqrt_k_before : Z;
  ec_peg_multiplier_after : Z;
  ec_base_asset_reserve_after : Z;
  ec_quote_asset_reserve_after : Z;
  ec_sqrt_k_after : Z;
  ec_base_asset_amount_long : Z;
  ec_base_asset_amount_short : Z;
  ec_base_asset_amount : Z;
  ec_open_interest : Z;
  ec_total_fee : Z;
  ec_total_fee_minus_distributions : Z;
  ec_adjustment_cost : Z;
  ec_oracle_price : Z;
  ec_trade_record : Z
}.
#[export] Instance ExtendedCurveRecord_numbered : Numbered ExtendedCurveRecord := ec_record_id.

Definition ExtendedCurveHistory := History ExtendedCurveRecord.
Definition EXTENDED_CURVE_MODULUS : Z := 1023.

Definition curve_record (now market_index : Z) (before after : Market) (adjustment_cost oracle_price : Z)
    (record_id : Z) : ExtendedCurveRecord := {|
  ec_ts := now;
  ec_record_id := record_id;
  ec_market_index := market_index;
  ec_peg_multiplier_before := amm_pegMultiplier (mkt_amm before);
  ec_base_asset_reserve_before := amm_baseAssetReserve (mkt_amm before);
  ec_quote_asset_reserve_before := amm_quoteAssetReserve (mkt_amm before);
  ec_sqrt_k_before := amm_sqrtK (mkt_amm before);
  ec_peg_multiplier_after := amm_pegMultiplier (mkt_amm after);
  ec_base_asset_reserve_after := amm_baseAssetReserve (mkt_amm after);
  ec_quote_asset_reserve_after := amm_quoteAssetReserve (mkt_amm after);
  ec_sqrt_k_after := amm_sqrtK (mkt_amm after);
  ec_base_asset_amount_long := Z.abs (mkt_baseAssetAmountLong after);
  ec_base_asset_amount_short := Z.abs (mkt_baseAssetAmountShort after);
  ec_base_asset_amount := mkt_baseAssetAmount after;
  ec_open_interest := mkt_openInterest after;
  ec_total_fee := amm_totalFee (mkt_amm after);
  ec_total_fee_minus_distributions := amm_totalFeeMinusDistributions (mkt_amm after);
  ec_adjustment_cost := adjustment_cost;
  ec_oracle_price := oracle_price;
  ec_trade_record := 0
|}.

(** ** controller/repeg.rs *)

(** The checks on size and direction when the oracle is valid; [before] and [after]
    are the terminal prices. *)
Definition repeg_checks (oracle_price oracle_conf before after mark_price_after : Z)
    : ClearingHouseResult unit :=
  price ← cast U128 oracle_price;
  oracle_conf_band_top ← checked_add U128 price oracle_conf;
  oracle_conf_band_bottom ← checked_sub U128 price oracle_conf;
  _ ← (if after <? price then
         _ ← ensure (before <=? after) InvalidRepegDirection;
         _ ← ensure (after <=? oracle_conf_band_bottom) InvalidRepegProfitability;
         ensure (mark_price_after <=? oracle_conf_band_top) InvalidRepegProfitability
       else ROk tt);
  if price <? after then
    _ ← ensure (after <=? before) InvalidRepegDirection;
    _ ← ensure (oracle_conf_band_top <=? after) InvalidRepegProfitability;
    ensure (oracle_conf_band_bottom <=? mark_price_after) InvalidRepegProfitability
  else ROk tt.

Definition with_pool (m : Market) (total_fee_minus_distributions : Z) : Market :=
  with_amm m (with_fees (mkt_amm m) total_fee_minus_distributions (amm_totalFee (mkt_amm m))).

(** The fees pay for the cost, or receive it when negative. A cost above the pool
    empties it; [checked_sub(..).or(Some(0))]. *)
Definition charge_repeg (market : Market) (adjustment_cost : Z) : ClearingHouseResult Market :=
  let pool := amm_totalFeeMinusDistributions (mkt_amm market) in
  if 0 <? adjustment_cost then
    let new_pool := match checked_sub U128 pool (Z.abs adjustment_cost) with
                    | ROk p => p | RErr _ => 0 end in
    lower_bound ← total_fee_minus_distributions_lower_bound (mkt_amm market);
    _ ← ensure (lower_bound <=? new_pool) InvalidRepegProfitability;
    ROk (with_pool market new_pool)
  else
    new_pool ← checked_add U128 pool (Z.abs adjustment_cost);
    ROk (with_pool market new_pool).

Definition controller_repeg (market : Market) (price_oracle : Price) (new_peg_candidate clock_slot : Z)
    (oracle_guard_rails : OracleGuardRails) : ClearingHouseResult (Market * Z) :=
  _ ← ensure (negb (new_peg_candidate =? amm_pegMultiplier (mkt_amm market))) InvalidRepegRedundant;
  terminal_price_before ← calculate_terminal_price market;
  '(market, adjustment_cost) ← adjust_peg_cost market new_peg_candidate;
  o ← get_oracle_price (mkt_amm market) price_oracle clock_slot;
  oracle_is_valid ← is_oracle_valid (mkt_amm market) price_oracle clock_slot oracle_guard_rails;
  _ ← (if (oracle_is_valid : bool) then
         terminal_price_after ← calculate_terminal_price market;
         mark_price_after ← mark_price (mkt_amm market);
         repeg_checks (op_price o) (op_conf o) terminal_price_before terminal_price_after
           mark_price_after
       else ROk tt);
  market ← charge_repeg market adjustment_cost;
  ROk (market, adjustment_cost).

(** ** lib.rs *)
Section Handlers.
Variables (state : StateAccount) (oracle : OracleAccount) (now clock_slot : Z).

Definition with_market (markets : list Market) (market_index : Z) (m : Market) : list Market :=
  <[Z.to_nat market_index := m]> markets.

Definition record_curve (h : ExtendedCurveHistory) (mk : Z -> ExtendedCurveRecord)
    : ClearingHouseResult ExtendedCurveHistory := record_next_short EXTENDED_CURVE_MODULUS h mk.

Definition repeg_amm_curve (new_peg_candidate market_index : Z) (markets : list Market)
    (h : ExtendedCurveHistory) : ClearingHouseResult (list Market * ExtendedCurveHistory) :=
  _ ← trade_allowed state (oa_key oracle) markets market_index;
  market ← market_at markets market_index;
  o ← get_oracle_price (mkt_amm market) (oa_price oracle) 0;
  '(after, adjustment_cost) ←
    controller_repeg market (oa_price oracle) new_peg_candidate clock_slot (st_oracleGuardRails state);
  h ← record_curve h (curve_record now market_index market after adjustment_cost (op_price o));
  ROk (with_market markets market_index after, h).

Definition UPDATE_K_ALLOWED_PRICE_CHANGE : Z := MARK_PRICE_PRECISION `quot` 10.

(** A new k is paid out of the fees not withdrawn. *)
Definition charge_k (market : Market) (adjustment_cost : Z) : ClearingHouseResult Market :=
  let amm := mkt_amm market in
  let pool := amm_totalFeeMinusDistributions amm in
  if 0 <? adjustment_cost then
    max_cost ← checked_sub U128 pool (amm_totalFeeWithdrawn amm);
    _ ← ensure (Z.abs adjustment_cost <=? max_cost) InvalidUpdateK;
    new_pool ← checked_sub U128 pool (Z.abs adjustment_cost);
    ROk (with_pool market new_pool)
  else
    new_pool ← checked_add U128 pool (Z.abs adjustment_cost);
    ROk (with_pool market new_pool).

Definition update_k (sqrt_k market_index : Z) (markets : list Market) (h : ExtendedCurveHistory)
    : ClearingHouseResult (list Market * ExtendedCurveHistory) :=
  _ ← market_initialized markets market_index;
  _ ← valid_oracle_for_market (oa_key oracle) markets market_index;
  _ ← exchange_not_paused state;
  market ← market_at markets market_index;
  price_before ← mark_price (mkt_amm market);
  '(after, adjustment_cost) ← adjust_k_cost market sqrt_k;
  after ← charge_k after adjustment_cost;
  price_after ← mark_price (mkt_amm after);
  x ← cast I128 price_before; y ← cast I128 price_after;
  change ← checked_sub I128 x y;
  _ ← ensure (Z.abs change <=? UPDATE_K_ALLOWED_PRICE_CHANGE) InvalidUpdateK;
  o ← get_oracle_price (mkt_amm after) (oa_price oracle) 0;
  h ← record_curve h (curve_record now market_index market after adjustment_cost (op_price o));
  ROk (with_market markets market_index after, h).

Definition move_amm_price (integer_sqrt : Z -> Z) (base_asset_reserve quote_asset_reserve market_index : Z)
    (markets : list Market) : ClearingHouseResult (list Market) :=
  _ ← market_initialized markets market_index;
  _ ← exchange_not_paused state;
  _ ← ensure (st_adminControlsPrices state) AdminControlsPricesDisabled;
  market ← market_at markets market_index;
  amm ← move_price integer_sqrt (mkt_amm market) base_asset_reserve quote_asset_reserve;
  ROk (with_market markets market_index (with_amm market amm)).

(** The oracle's time-weighted price alone. *)
Definition with_twap (m : Market) (twap : Z) : Market :=
  with_amm m (with_oracle_twap (mkt_amm m) (amm_lastOraclePrice (mkt_amm m)) twap now).

(** Only towards the mark price; across it, to the mark price itself. *)
Definition update_amm_oracle_twap (market_index : Z) (markets : list Market)
    : ClearingHouseResult (list Market) :=
  _ ← market_initialized markets market_index;
  _ ← valid_oracle_for_market (oa_key oracle) markets market_index;
  market ← market_at markets market_index;
  let amm := mkt_amm market in
  o ← get_oracle_price amm (oa_price oracle) clock_slot;
  is_oracle_valid ← is_oracle_valid amm (oa_price oracle) clock_slot (st_oracleGuardRails state);
  _ ← ensure is_oracle_valid InvalidOracle;
  mark_twap ← cast I128 (amm_lastMarkPriceTwap amm);
  gap_before ← checked_sub I128 mark_twap (amm_lastOraclePriceTwap amm);
  gap_after ← checked_sub I128 mark_twap (op_twap o);
  if ((0 <? gap_after) && (gap_before <? 0)) || ((gap_after <? 0) && (0 <? gap_before))
  then ROk (with_market markets market_index (with_twap market mark_twap))
  else if Z.abs gap_after <=? Z.abs gap_before
  then ROk (with_market markets market_index (with_twap market (op_twap o)))
  else err OracleMarkSpreadLimit.

Definition reset_amm_oracle_twap (market_index : Z) (markets : list Market)
    : ClearingHouseResult (list Market) :=
  _ ← market_initialized markets market_index;
  _ ← valid_oracle_for_market (oa_key oracle) markets market_index;
  market ← market_at markets market_index;
  let amm := mkt_amm market in
  _ ← get_oracle_price amm (oa_price oracle) clock_slot;
  is_oracle_valid ← is_oracle_valid amm (oa_price oracle) clock_slot (st_oracleGuardRails state);
  if (is_oracle_valid : bool) then ROk markets
  else
    mark_twap ← cast I128 (amm_lastMarkPriceTwap amm);
    ROk (with_market markets market_index (with_twap market mark_twap)).
End Handlers.

(** ** What a change of the curve may do *)
Lemma charge_repeg_inv m cost m' :
  amm_totalFeeMinusDistributions (mkt_amm m) <= highest U128 ->
  charge_repeg m cost = ROk m' ->
  exists pool, m' = with_pool m pool /\
    (0 < cost -> pool = Z.max 0 (amm_totalFeeMinusDistributions (mkt_amm m) - cost) /\
                 amm_totalFee (mkt_amm m) `quot` 2 <= pool) /\
    (cost <= 0 -> pool = amm_totalFeeMinusDistributions (mkt_amm m) - cost).
Proof.
  intros Hw. unfold charge_repeg, checked_sub. destruct (Z.ltb_spec 0 cost) as [Hc | Hc]; intros H; rust_inv.
  - subst. eexists. split; [reflexivity |]. split; [| lia]. intros _.
    apply lower_bound_inv in E as ->. rewrite Z.abs_eq in * by lia.
    apply Z.leb_le in E0. split; [| exact E0].
    destruct (Z.le_gt_cases 0 (amm_totalFeeMinusDistributions (mkt_amm m) - cost)).
    + rewrite checked_fits by (widths; lia). cbv beta iota. by rewrite Z.max_r.
    + unfold checked. destruct (fits U128 _) eqn:Hf; [apply fits_iff in Hf; widths; lia | cbv beta iota; by rewrite Z.max_l by lia].
  - subst. eexists. split; [reflexivity |]. split; [lia |]. intros _. rewrite Z.abs_neq by lia. lia.
Qed.

Lemma repeg_checks_inv price conf before after mark :
  repeg_checks price conf before after mark = ROk tt ->
  (after < price -> before <= after <= price - conf /\ mark <= price + conf) /\
  (price < after -> price + conf <= after <= before /\ price - conf <= mark).
Proof.
  unfold repeg_checks. intros H. rust_inv. subst.
  destruct (Z.ltb_spec after price), (Z.ltb_spec price after); try lia; rust_inv;
    rewrite ?Z.leb_le in *; lia.
Qed.

(** C21: A re-peg is guarded: it changes the peg and the fee pool and nothing else; the
    pool is charged its cost, never below half of all fees, or receives its gain;
    and while the oracle is valid the terminal price moves towards the oracle's price and not
    into its confidence band, nor the mark price past the band. *)
Theorem repeg_guarded (m m' : Market) (px : Price) (peg slot cost : Z) (rails : OracleGuardRails)
    (o : OraclePrice) :
  amm_totalFeeMinusDistributions (mkt_amm m) <= highest U128 ->
  get_oracle_price (mkt_amm m) px slot = ROk o ->
  controller_repeg m px peg slot rails = ROk (m', cost) ->
  peg <> amm_pegMultiplier (mkt_amm m) /\
  (exists pool, m' = with_pool (with_peg m peg) pool /\
    (0 < cost -> pool = Z.max 0 (amm_totalFeeMinusDistributions (mkt_amm m) - cost) /\
                 amm_totalFee (mkt_amm m) `quot` 2 <= pool) /\
    (cost <= 0 -> pool = amm_totalFeeMinusDistributions (mkt_amm m) - cost)) /\
  (is_oracle_valid (mkt_amm m) px slot rails = ROk true ->
   exists before after mark,
     calculate_terminal_price m = ROk before /\ calculate_terminal_price m' = ROk after /\
     mark_price (mkt_amm m') = ROk mark /\
     (after < op_price o -> before <= after <= op_price o - op_conf o /\ mark <= op_price o + op_conf o) /\
     (op_price o < after -> op_price o + op_conf o <= after <= before /\ op_price o - op_conf o <= mark)).
Proof.
  intros Hw Ho H. unfold controller_repeg in H. rust_inv. subst.
  assert (m0 = with_peg m peg) as -> by (unfold adjust_peg_cost in E1; rust_inv; by subst).
  change (get_oracle_price (mkt_amm (with_peg m peg)) px slot) with (get_oracle_price (mkt_amm m) px slot) in E2.
  change (is_oracle_valid (mkt_amm (with_peg m peg)) px slot rails)
    with (is_oracle_valid (mkt_amm m) px slot rails) in E3.
  assert (v1 = o) as -> by congruence.
  apply charge_repeg_inv in E5 as (pool & -> & Hpos & Hneg); [| exact Hw].
  split; [by apply negb_true_iff, Z.eqb_neq in E |]. split; [by exists pool |].
  intros Hv. rewrite Hv in E3. rust_inv. subst.
  rust_inv. destruct v3. apply repeg_checks_inv in E4 as [Hlow Hhigh].
  do 3 eexists. split_and!; [exact E0 | eassumption | eassumption | exact Hlow | exact Hhigh].
Qed.

Lemma unwrap_u128_inv z r : unwrap_u128 z = ROk r -> r = z.
Proof. unfold unwrap_u128. destruct (fits U128 z); [by intros [= <-] | done]. Qed.

Lemma adjust_k_cost_inv m k m' cost : adjust_k_cost m k = ROk (m', cost) ->
  exists b q, m' = with_amm m (with_curve (mkt_amm m) b q k (amm_pegMultiplier (mkt_amm m))) /\
    9750000000 <= (k * 10000000000) `quot` amm_sqrtK (mkt_amm m).
Proof.
  unfold adjust_k_cost. intros H. rust_inv. subst. consts.
  repeat match goal with E : unwrap_u128 _ = ROk _ |- _ => apply unwrap_u128_inv in E as -> end.
  do 2 eexists. split; [reflexivity |].
  match goal with E : (_ <=? _) = true |- _ => apply Z.leb_le in E; exact E end.
Qed.

Lemma charge_k_inv m cost m' : charge_k m cost = ROk m' ->
  exists pool, m' = with_pool m pool /\ pool = amm_totalFeeMinusDistributions (mkt_amm m) - cost /\
    (0 < cost -> amm_totalFeeWithdrawn (mkt_amm m) <= pool).
Proof.
  unfold charge_k. destruct (Z.ltb_spec 0 cost); intros H'; rust_inv; subst.
  - eexists. split; [reflexivity |]. apply Z.leb_le in E0. rewrite Z.abs_eq in * by lia. lia.
  - eexists. split; [reflexivity |]. rewrite Z.abs_neq by lia. lia.
Qed.

(** C22: A change of k is guarded: k falls by at most 2.5 percent, the mark price moves by at most
    a tenth of a dollar, the fees are charged exactly the cost and keep what may be
    withdrawn, and the users' totals and the other markets are left alone. *)
Theorem k_update_guarded (state : StateAccount) (oracle : OracleAccount) (now k i : Z)
    (ms ms' : list Market) (h h' : ExtendedCurveHistory) :
  update_k state oracle now k i ms h = ROk (ms', h') ->
  exists m m' cost before after,
    js_index ms i = Some m /\ ms' = <[Z.to_nat i := m']> ms /\ same_totals m m' /\
    amm_sqrtK (mkt_amm m') = k /\
    9750000000 <= (k * 10000000000) `quot` amm_sqrtK (mkt_amm m) /\
    mark_price (mkt_amm m) = ROk before /\ mark_price (mkt_amm m') = ROk after /\
    Z.abs (before - after) <= 1000000000 /\
    amm_totalFeeMinusDistributions (mkt_amm m') = amm_totalFeeMinusDistributions (mkt_amm m) - cost /\
    (0 < cost -> amm_totalFeeWithdrawn (mkt_amm m') <= amm_totalFeeMinusDistributions (mkt_amm m')).
Proof.
  unfold update_k. intros H. rust_inv. subst.
  apply market_at_inv in E2. apply adjust_k_cost_inv in E4 as (b & q & -> & Hk).
  apply charge_k_inv in E5 as (pool & -> & Hpool & Hkeep).
  match goal with E : (Z.abs _ <=? _) = true |- _ => rename E into Hchange; apply Z.leb_le in Hchange end.
  do 5 eexists. split; [exact E2 |]. split; [reflexivity |]. split; [by apply booked_refl |].
  split; [reflexivity |]. split; [exact Hk |]. split; [eassumption |]. split; [eassumption |].
  split; [exact Hchange |]. split; [exact Hpool | exact Hkeep].
Qed.

(** The other instructions leave the users' totals alone too: with the history aside,
    each is a step of the exchange. *)
Lemma market_step users ms ms' i m m' :
  market_at ms i = ROk m -> same_totals m m' -> ms' = <[Z.to_nat i := m']> ms ->
  exchange_step (mkExchange users ms) (mkExchange users ms').
Proof. intros Hm Hs ->. apply market_at_inv in Hm. by apply (ex_market (mkExchange users ms) i m m'). Qed.

Lemma repeg_shape m px peg slot rails m' cost :
  controller_repeg m px peg slot rails = ROk (m', cost) -> exists a, m' = with_amm m a.
Proof.
  intros H. unfold controller_repeg, adjust_peg_cost, charge_repeg in H. rust_inv. subst.
  destruct (0 <? cost); rust_inv; subst; by eexists.
Qed.

Ltac curve_step :=
  match goal with
  | H : market_at ?ms ?i = ROk ?m |- exchange_step (mkExchange _ ?ms) (mkExchange _ (with_market ?ms ?i _)) =>
      eapply market_step; [exact H | | reflexivity]; by apply booked_refl
  end.

Section Steps.
Variables (state : StateAccount) (oracle : OracleAccount) (now slot : Z) (users : list (list MarketPosition)).

Lemma repeg_step peg i ms h ms' h' :
  repeg_amm_curve state oracle now slot peg i ms h = ROk (ms', h') ->
  exchange_step (mkExchange users ms) (mkExchange users ms').
Proof.
  unfold repeg_amm_curve. intros H. rust_inv. subst.
  match goal with E : controller_repeg _ _ _ _ _ = ROk _ |- _ => apply repeg_shape in E as [a ->] end.
  curve_step.
Qed.

Lemma update_k_step k i ms h ms' h' : update_k state oracle now k i ms h = ROk (ms', h') ->
  exchange_step (mkExchange users ms) (mkExchange users ms').
Proof.
  unfold update_k. intros H. rust_inv. subst.
  apply adjust_k_cost_inv in E4 as (b & q & -> & _). apply charge_k_inv in E5 as (pool & -> & _).
  curve_step.
Qed.

Lemma move_step integer_sqrt b q i ms ms' : move_amm_price state integer_sqrt b q i ms = ROk ms' ->
  exchange_step (mkExchange users ms) (mkExchange users ms').
Proof. unfold move_amm_price. intros H. rust_inv. subst. curve_step. Qed.

Lemma twap_step i ms ms' : update_amm_oracle_twap state oracle now slot i ms = ROk ms' ->
  exchange_step (mkExchange users ms) (mkExchange users ms').
Proof.
  unfold update_amm_oracle_twap. intros H. rust_inv. destruct (_ || _).
  - rust_inv. subst. curve_step.
  - destruct (_ <=? _); rust_inv; subst. curve_step.
Qed.

Lemma reset_step i ms ms' : reset_amm_oracle_twap state oracle now slot i ms = ROk ms' ->
  ms' = ms \/ exchange_step (mkExchange users ms) (mkExchange users ms').
Proof.
  unfold reset_amm_oracle_twap. intros H. rust_inv. destruct (_ : bool); rust_inv; subst; [by left |].
  right. curve_step.
Qed.
End Steps.

(** ** A re-peg nobody pays for *)

(** What a re-peg checks before it is paid for does not depend on the fee pool. *)
Lemma adjust_peg_cost_pool m pool peg :
  adjust_peg_cost (with_pool m pool) peg =
  ('(_, cost) ← adjust_peg_cost m peg; ROk (with_pool (with_peg m peg) pool, cost)).
Proof.
  unfold adjust_peg_cost.
  change (base_asset_value_and_pnl (mkt_baseAssetAmount (with_pool m pool)) 0 (mkt_amm (with_pool m pool)))
    with (base_asset_value_and_pnl (mkt_baseAssetAmount m) 0 (mkt_amm m)).
  destruct (base_asset_value_and_pnl _ 0 _) as [[v0 v1] |]; cbn [mbind rust_bind]; [| done].
  match goal with |- (_ ≫= _) = ((?x ≫= _) ≫= _) =>
    match goal with |- (?y ≫= _) = _ => change y with x end; by destruct x as [[? ?] |] end.
Qed.

Lemma controller_repeg_pool m px peg slot rails :
  exists checks : ClearingHouseResult Z, forall pool,
    controller_repeg (with_pool m pool) px peg slot rails =
    (cost ← checks; m' ← charge_repeg (with_pool (with_peg m peg) pool) cost; ROk (m', cost)).
Proof.
  exists (_ ← ensure (negb (peg =? amm_pegMultiplier (mkt_amm m))) InvalidRepegRedundant;
          before ← calculate_terminal_price m;
          '(_, cost) ← adjust_peg_cost m peg;
          o ← get_oracle_price (mkt_amm m) px slot;
          valid ← is_oracle_valid (mkt_amm m) px slot rails;
          _ ← (if (valid : bool) then
                 after ← calculate_terminal_price (with_peg m peg);
                 mark ← mark_price (mkt_amm (with_peg m peg));
                 repeg_checks (op_price o) (op_conf o) before after mark
               else ROk tt);
          ROk cost).
  intros pool. unfold controller_repeg. rewrite adjust_peg_cost_pool.
  change (amm_pegMultiplier (mkt_amm (with_pool m pool))) with (amm_pegMultiplier (mkt_amm m)).
  destruct (ensure _ _); cbn [mbind rust_bind]; [| done].
  change (calculate_terminal_price (with_pool m pool)) with (calculate_terminal_price m).
  destruct (calculate_terminal_price m) as [before |]; cbn [mbind rust_bind]; [| done].
  destruct (adjust_peg_cost m peg) as [[m1 cost] |]; cbn [mbind rust_bind]; [| done].
  set (m2 := with_pool (with_peg m peg) pool).
  change (get_oracle_price (mkt_amm m2) px slot) with (get_oracle_price (mkt_amm m) px slot).
  change (is_oracle_valid (mkt_amm m2) px slot rails) with (is_oracle_valid (mkt_amm m) px slot rails).
  change (calculate_terminal_price m2) with (calculate_terminal_price (with_peg m peg)).
  change (mark_price (mkt_amm m2)) with (mark_price (mkt_amm (with_peg m peg))).
  destruct (get_oracle_price _ _ _) as [o |]; cbn [mbind rust_bind]; [| done].
  destruct (is_oracle_valid _ _ _ _) as [valid |]; cbn [mbind rust_bind]; [| done].
  by destruct (if valid then _ else _).
Qed.

(** A cost above the pool passes when half of the fees ever taken is 0, and only then. *)
Lemma charge_unpaid m cost :
  0 <= amm_totalFee (mkt_amm m) <= highest U128 ->
  0 <= amm_totalFeeMinusDistributions (mkt_amm m) < cost ->
  charge_repeg m cost =
  (if amm_totalFee (mkt_amm m) <=? 1 then ROk (with_pool m 0) else err InvalidRepegProfitability).
Proof.
  intros Hfee Hcost. unfold charge_repeg, total_fee_minus_distributions_lower_bound.
  rewrite (proj2 (Z.ltb_lt 0 cost)) by lia. unfold checked_sub, checked_mul, checked_div.
  rewrite (Z.abs_eq cost) by lia.
  destruct (checked U128 (_ - cost)) as [p | e] eqn:Hp; [apply checked_inv in Hp; widths; lia |].
  change SHARE_OF_FEES_ALLOCATED_TO_CLEARING_HOUSE_NUMERATOR with 1.
  change SHARE_OF_FEES_ALLOCATED_TO_CLEARING_HOUSE_DENOMINATOR with 2.
  rewrite Z.mul_1_r, checked_fits by (widths; lia). cbn [mbind rust_bind Z.eqb].
  assert (0 <= amm_totalFee (mkt_amm m) `quot` 2 <= amm_totalFee (mkt_amm m)) as Hq
    by (rewrite Z.quot_div_nonneg by lia; split; [apply Z.div_pos; lia | apply Z.div_le_upper_bound; lia]).
  rewrite checked_fits by (widths; lia). cbn [mbind rust_bind]. unfold ensure.
  destruct (Z.leb_spec (amm_totalFee (mkt_amm m)) 1), (Z.leb_spec (amm_totalFee (mkt_amm m) `quot` 2) 0);
    [done | exfalso | exfalso | done]; rewrite Z.quot_div_nonneg in * by lia.
  - assert (amm_totalFee (mkt_amm m) / 2 < 1) by (apply Z.div_lt_upper_bound; lia). lia.
  - assert (1 <= amm_totalFee (mkt_amm m) / 2) by (apply Z.div_le_lower_bound; lia). lia.
Qed.

(** C24: A re-peg nobody pays for: take any market, oracle and peg for which the re-peg would be
    accepted if the fee pool were large enough. With a pool below its cost it is accepted
    all the same exactly when the market took at most one unit of fees, and then the
    pool is emptied and the rest of the cost is charged to nobody; otherwise it is refused
    as unprofitable. *)
Theorem unpaid_repeg_accepted (m m' : Market) (px : Price) (peg slot rich cost : Z) (rails : OracleGuardRails) :
  0 <= amm_totalFee (mkt_amm m) <= highest U128 ->
  0 <= amm_totalFeeMinusDistributions (mkt_amm m) < cost ->
  controller_repeg (with_pool m rich) px peg slot rails = ROk (m', cost) ->
  controller_repeg m px peg slot rails =
    if amm_totalFee (mkt_amm m) <=? 1 then ROk (with_pool m' 0, cost) else err InvalidRepegProfitability.
Proof.
  intros Hfee Hpool H. destruct (controller_repeg_pool m px peg slot rails) as [checks Hc].
  assert (with_pool m (amm_totalFeeMinusDistributions (mkt_amm m)) = m) as Hm by (by destruct m as [[]]).
  rewrite <- Hm at 1. rewrite Hc in *. destruct checks as [cost' |]; cbn [mbind rust_bind] in *; [| done].
  destruct (charge_repeg (with_pool (with_peg m peg) rich) cost') as [m1 |] eqn:E; cbn [mbind rust_bind] in H; [| done].
  injection H as -> ->. rewrite charge_unpaid; [| exact Hfee | exact Hpool]. cbn [mkt_amm with_pool with_amm amm_totalFee with_fees].
  change (amm_totalFee (mkt_amm (with_peg m peg))) with (amm_totalFee (mkt_amm m)).
  destruct (amm_totalFee (mkt_amm m) <=? 1); cbn [mbind rust_bind]; [| done]. do 2 f_equal.
  unfold charge_repeg in E. destruct (0 <? cost); rust_inv; by subst.
Qed.

(** ** A k whose curve is not good

    [adjust_k_cost] scales the reserves by a ratio truncated to ten digits but sets
    [sqrt_k] to the exact new value. *)
Lemma adjust_k_cost_reserves m k m' cost : adjust_k_cost m k = ROk (m', cost) ->
  let a := mkt_amm m in let ratio := (k * 10 ^ 10) `quot` amm_sqrtK a in
  m' = with_amm m (with_curve a ((amm_baseAssetReserve a * ratio) `quot` 10 ^ 10)
                     ((amm_quoteAssetReserve a * ratio) `quot` 10 ^ 10) k (amm_pegMultiplier a)).
Proof.
  unfold adjust_k_cost. intros H. rust_inv. subst. consts.
  by repeat match goal with E : unwrap_u128 _ = ROk _ |- _ => apply unwrap_u128_inv in E as -> end.
Qed.

Lemma update_k_market (state : StateAccount) (oracle : OracleAccount) now k i ms h ms' h' m m' :
  update_k state oracle now k i ms h = ROk (ms', h') ->
  js_index ms i = Some m -> js_index ms' i = Some m' ->
  let a := mkt_amm m in let a' := mkt_amm m' in let ratio := (k * 10 ^ 10) `quot` amm_sqrtK a in
  amm_baseAssetReserve a' = (amm_baseAssetReserve a * ratio) `quot` 10 ^ 10 /\
  amm_quoteAssetReserve a' = (amm_quoteAssetReserve a * ratio) `quot` 10 ^ 10 /\
  amm_sqrtK a' = k /\ amm_pegMultiplier a' = amm_pegMultiplier a.
Proof.
  unfold update_k. intros H Hm Hm'. rust_inv. subst.
  match goal with E : market_at _ _ = ROk ?x |- _ => apply market_at_inv in E; assert (x = m) as -> by congruence end.
  match goal with E : adjust_k_cost _ _ = ROk _ |- _ => apply adjust_k_cost_reserves in E; cbn zeta in E end.
  match goal with E : charge_k _ _ = ROk _ |- _ => apply charge_k_inv in E as (pool & -> & _) end.
  apply js_index_insert in Hm' as [[_ ->] | [? _]]; [| done | by eapply js_index_nonneg | by eexists].
  by subst.
Qed.

(** C23: A change of k can invert small trades: whenever [update_k] is accepted, for any market, oracle and
    new k, the reserves are scaled by a ratio cut to ten digits while the invariant is the
    exact new one; a later buy is then given a negative amount of base, so
    the buyer of the long is booked as short, exactly when the product of the base reserve
    plus one and of the quote reserve plus what the buy adds does not exceed the
    invariant; in particular when the old curve was not above its invariant and the cut took
    more base than one unit and at least what the buy adds to the quote reserve. *)
Theorem k_update_inverts_small_trades (state : StateAccount) (oracle : OracleAccount)
    (now k i amount later : Z) (ms ms' : list Market) (h h' : ExtendedCurveHistory) (m m' : Market)
    (p : option Z) (a'' : AMM) (acquired : Z) :
  update_k state oracle now k i ms h = ROk (ms', h') ->
  js_index ms i = Some m -> js_index ms' i = Some m' ->
  swap_quote_asset (mkt_amm m') amount (swap_direction_of LONG) later p = ROk (a'', acquired) ->
  let a := mkt_amm m in let a' := mkt_amm m' in
  let ratio := (k * 10 ^ 10) `quot` amm_sqrtK a in
  let adds := (amount * 10 ^ 10) `quot` amm_pegMultiplier a in
  amm_baseAssetReserve a' = (amm_baseAssetReserve a * ratio) `quot` 10 ^ 10 /\
  amm_quoteAssetReserve a' = (amm_quoteAssetReserve a * ratio) `quot` 10 ^ 10 /\
  (acquired < 0 <-> (amm_baseAssetReserve a' + 1) * (amm_quoteAssetReserve a' + adds) <= k * k) /\
  (0 <= amm_baseAssetReserve a' -> 0 < amm_sqrtK a ->
   amm_baseAssetReserve a * amm_quoteAssetReserve a <= amm_sqrtK a * amm_sqrtK a ->
   (amm_baseAssetReserve a' + 1) * amm_sqrtK a <= amm_baseAssetReserve a * k ->
   (amm_quoteAssetReserve a' + adds) * amm_sqrtK a <= amm_quoteAssetReserve a * k ->
   acquired < 0).
Proof.
  intros Hk Hm Hm' Hsw a a' ratio adds.
  destruct (update_k_market _ _ _ _ _ _ _ _ _ _ _ Hk Hm Hm') as (Hb & Hq & Hs & Hp).
  apply swap_quote_asset_inv in Hsw as (t & s & x & o & Hadds & _ & _ & _ & Hx & Hpos & Ho & _ & _ & ->).
  fold a a' in Hb, Hq, Hs, Hp, Hadds, Hx, Ho |- *. fold ratio in Hb, Hq.
  rewrite Hp in Hadds. change (s = adds) in Hadds. subst s. cbn [swap_direction_of] in Hx.
  rewrite Hs in Ho. rewrite <- Hx.
  assert (amm_baseAssetReserve a' - o < 0 <-> (amm_baseAssetReserve a' + 1) * x <= k * k) as Hiff.
  { pose proof (Z.square_nonneg k). rewrite Ho, Z.quot_div_nonneg by lia.
    pose proof (Z.mul_div_le (k * k) x Hpos). pose proof (Z.mul_succ_div_gt (k * k) x Hpos).
    split; intros; nia. }
  split_and!; [done | done | exact Hiff |].
  intros Hb0 Hk0 Hgood Hbase Hquote. apply Hiff.
  assert ((amm_baseAssetReserve a' + 1) * x * (amm_sqrtK a * amm_sqrtK a) <= k * k * (amm_sqrtK a * amm_sqrtK a)); [| nia].
  transitivity ((amm_baseAssetReserve a * k) * (amm_quoteAssetReserve a * k)); [| nia].
  transitivity (((amm_baseAssetReserve a' + 1) * amm_sqrtK a) * (x * amm_sqrtK a)); [nia |].
  apply Z.mul_le_mono_nonneg; nia.
Qed.

(** ** Moving to a price *)

(** The curve [move_to_price] makes: its base reserve is the largest whose square times the target
    does not exceed k times the peg, and its quote reserve the largest that keeps k, so the
    mark price before rounding is the target or just above it. *)
Theorem move_to_price_reaches (integer_sqrt : Z -> Z) amm target_price amm' :
  (forall n, 0 <= n -> 0 <= integer_sqrt n /\
     integer_sqrt n * integer_sqrt n <= n < (integer_sqrt n + 1) * (integer_sqrt n + 1)) ->
  0 < target_price -> move_to_price integer_sqrt amm target_price = ROk amm' ->
  let k := amm_sqrtK amm * amm_sqrtK amm in
  let b := amm_baseAssetReserve amm' in let q := amm_quoteAssetReserve amm' in
  let scaled_k := k * amm_pegMultiplier amm * PRICE_TO_PEG_PRECISION_RATIO in
  b * b * target_price <= scaled_k < (b + 1) * (b + 1) * target_price /\
  b * q <= k < b * (q + 1) /\ amm_pegMultiplier amm' = amm_pegMultiplier amm /\
  amm_sqrtK amm' = amm_sqrtK amm.
Proof.
  intros Hsqrt Ht H. unfold move_to_price in H. rust_inv. subst. cbn -[Z.mul Z.add].
  set (k := amm_sqrtK amm * amm_sqrtK amm) in *.
  set (n := k * amm_pegMultiplier amm * PRICE_TO_PEG_PRECISION_RATIO) in *. widths.
  assert (0 <= n) by lia. assert (0 <= k) by lia. rewrite Z.quot_div_nonneg in * by lia.
  assert (0 <= n / target_price) by (apply Z.div_pos; lia).
  destruct (Hsqrt (n / target_price) ltac:(lia)) as (Hb & Hlo & Hhi).
  set (b := integer_sqrt (n / target_price)) in *.
  rewrite Z.quot_div_nonneg by lia.
  pose proof (Z.div_mod n target_price ltac:(lia)). pose proof (Z.mod_pos_bound n target_price ltac:(lia)).
  pose proof (Z.div_mod k b ltac:(lia)). pose proof (Z.mod_pos_bound k b ltac:(lia)).
  split; [split; nia | split; [split; nia | done]].
Qed.
