(* ===== verification/ChainAdmin.v ===== *)
(** * Administration of the exchange (programs/clearing_house: lib.rs,
    user_initialization.rs, optional_accounts.rs)

    The instructions that set the exchange up and administer it: the state, the
    histories and the markets are initialised, users are created and deleted, the
    administrator changes the parameters, and takes fees and insurance out.  The
    validation of the accounts (context.rs) is part of [ChainProtocol]. *)
From S2P Require Import Prelude BN Types Checked History.
From S2P Require Import ChainAmm ChainOracle ChainPosition.
From S2P Require Import Idl.
From S2P Require Import ChainFunding ChainTrade ChainRepeg.

(** [Pubkey::default()]: 32 zero bytes. *)
Definition Pubkey_default : PublicKey := "11111111111111111111111111111111".

(** [if b { return Err(e) }] *)
Definition require_eq (x y : PublicKey) (e : ErrorCode) : ClearingHouseResult unit :=
  ensure (bool_decide (x = y)) e.

(** ** initialize *)

(** The fees of math/constants.rs. *)
Definition default_fee_structure : FeeStructure := {|
  fee_feeNumerator := 10;
  fee_feeDenominator := 10000;
  fee_firstTier := mkDiscountTier 1000000000000 20 100;
  fee_secondTier := mkDiscountTier 100000000000 15 100;
  fee_thirdTier := mkDiscountTier 10000000000 10 100;
  fee_fourthTier := mkDiscountTier 1000000000 5 100;
  fee_referrerRewardNumerator := 5;
  fee_referrerRewardDenominator := 100;
  fee_refereeDiscountNumerator := 5;
  fee_refereeDiscountDenominator := 100
|}.
Definition default_guard_rails : OracleGuardRails := mkOracleGuardRails 1 10 1000 4 5 true.

(** A market of a new account: all zeros. *)
Definition Market_default : Market := {|
  mkt_amm := {|
    amm_baseAssetReserve := 0; amm_sqrtK := 0; amm_cumulativeFundingRate := 0;
    amm_lastFundingRate := 0; amm_lastFundingRateTs := 0; amm_lastMarkPriceTwap := 0;
    amm_lastMarkPriceTwapTs := 0; amm_lastOraclePriceTwap := 0; amm_lastOraclePriceTwapTs := 0;
    amm_oracle := Pubkey_default; amm_oracleSource := PYTH; amm_fundingPeriod := 0;
    amm_quoteAssetReserve := 0; amm_pegMultiplier := 0; amm_cumulativeFundingRateLong := 0;
    amm_cumulativeFundingRateShort := 0; amm_cumulativeRepegRebateLong := 0;
    amm_cumulativeRepegRebateShort := 0; amm_totalFeeMinusDistributions := 0;
    amm_totalFeeWithdrawn := 0; amm_totalFee := 0; amm_minimumTradeSize := 0;
    amm_lastOraclePrice := 0 |};
  mkt_baseAssetAmount := 0; mkt_baseAssetAmountLong := 0; mkt_baseAssetAmountShort := 0;
  mkt_initialized := false; mkt_openInterest := 0 |}.
Definition Markets_default : list Market := replicate 64 Market_default.

(** The state of a new exchange.  The keys are those of the accounts of the call;
    [totalFee] and [totalFeeWithdrawn] are fields the SDK declares and the program does not
    have. *)
Definition initial_state (admin mint : PublicKey) (collateral : PublicKey * PublicKey * Z)
    (insurance : PublicKey * PublicKey * Z) (markets : PublicKey) (admin_controls_prices : bool)
    : StateAccount := {|
  st_admin := admin;
  st_fundingPaused := false;
  st_exchangePaused := false;
  st_adminControlsPrices := admin_controls_prices;
  st_collateralMint := mint;
  st_collateralVault := collateral.1.1;
  st_collateralVaultAuthority := collateral.1.2;
  st_collateralVaultNonce := collateral.2;
  st_insuranceVault := insurance.1.1;
  st_insuranceVaultAuthority := insurance.1.2;
  st_insuranceVaultNonce := insurance.2;
  st_marginRatioInitial := 2000;
  st_marginRatioMaintenance := 500;
  st_marginRatioPartial := 625;
  st_markets := markets;
  st_curveHistory := Pubkey_default;
  st_depositHistory := Pubkey_default;
  st_fundingRateHistory := Pubkey_default;
  st_fundingPaymentHistory := Pubkey_default;
  st_tradeHistory := Pubkey_default;
  st_liquidationHistory := Pubkey_default;
  st_partialLiquidationClosePercentageNumerator := 25;
  st_partialLiquidationClosePercentageDenominator := 100;
  st_partialLiquidationPenaltyPercentageNumerator := 25;
  st_partialLiquidationPenaltyPercentageDenominator := 1000;
  st_fullLiquidationPenaltyPercentageNumerator := 1;
  st_fullLiquidationPenaltyPercentageDenominator := 1;
  st_partialLiquidationLiquidatorShareDenominator := 2;
  st_fullLiquidationLiquidatorShareDenominator := 20;
  st_feeStructure := default_fee_structure;
  st_totalFee := 0;
  st_totalFeeWithdrawn := 0;
  st_whitelistMint := Pubkey_default;
  st_discountMint := Pubkey_default;
  st_oracleGuardRails := default_guard_rails;
  st_maxDeposit := 0;
  st_extendedCurveHistory := Pubkey_default
|}.

(** A vault as the instruction sees it: its key and the owner its data names. *)
Record Vault := mkVault { va_key : PublicKey; va_owner : PublicKey }.

(** [find_program_address] derives the authority of a vault, and its nonce, from the
    vault's key. *)
Definition initialize_exchange (find_program_address : PublicKey -> PublicKey * Z) (admin mint : PublicKey)
    (collateral_vault insurance_vault : Vault) (markets : PublicKey) (admin_controls_prices : bool)
    : ClearingHouseResult (StateAccount * list Market) :=
  let '(collateral_authority, collateral_nonce) := find_program_address (va_key collateral_vault) in
  _ ← require_eq (va_owner collateral_vault) collateral_authority InvalidCollateralAccountAuthority;
  let '(insurance_authority, insurance_nonce) := find_program_address (va_key insurance_vault) in
  _ ← require_eq (va_owner insurance_vault) insurance_authority InvalidInsuranceAccountAuthority;
  ROk (initial_state admin mint (va_key collateral_vault, collateral_authority, collateral_nonce)
         (va_key insurance_vault, insurance_authority, insurance_nonce) markets admin_controls_prices,
       Markets_default).

(** ** initialize_history *)

(** The keys of the six new accounts. *)
Record HistoryKeys := mkHistoryKeys {
  hk_deposit : PublicKey;
  hk_trade : PublicKey;
  hk_fundingRate : PublicKey;
  hk_fundingPayment : PublicKey;
  hk_liquidation : PublicKey;
  hk_extendedCurve : PublicKey
}.

(** ** The writes to the state

    The administrator's setters of lib.rs, and what the two instructions on histories
    write. *)
Inductive AdminUpdate :=
  | UpdateMarginRatio (initial partial maintenance : Z)
  | UpdatePartialLiquidationClosePercentage (numerator denominator : Z)
  | UpdatePartialLiquidationPenaltyPercentage (numerator denominator : Z)
  | UpdateFullLiquidationPenaltyPercentage (numerator denominator : Z)
  | UpdatePartialLiquidationLiquidatorShareDenominator (denominator : Z)
  | UpdateFullLiquidationLiquidatorShareDenominator (denominator : Z)
  | UpdateFee (fees : FeeStructure)
  | UpdateOracleGuardRails (oracle_guard_rails : OracleGuardRails)
  | UpdateAdmin (admin : PublicKey)
  | UpdateWhitelistMint (whitelist_mint : PublicKey)
  | UpdateDiscountMint (discount_mint : PublicKey)
  | UpdateMaxDeposit (max_deposit : Z)
  | UpdateExchangePaused (exchange_paused : bool)
  | DisableAdminControlsPrices
  | UpdateFundingPaused (funding_paused : bool).
Inductive StateUpdate :=
  | Admin (u : AdminUpdate)
  | SetHistories (keys : HistoryKeys)
  | SetExtendedCurveHistory (key : PublicKey).

Definition update_state (u : StateUpdate) (s : StateAccount) : StateAccount := {|
  st_admin := match u with Admin (UpdateAdmin admin) => admin | _ => st_admin s end;
  st_fundingPaused := match u with Admin (UpdateFundingPaused paused) => paused | _ => st_fundingPaused s end;
  st_exchangePaused := match u with Admin (UpdateExchangePaused paused) => paused | _ => st_exchangePaused s end;
  st_adminControlsPrices := match u with Admin DisableAdminControlsPrices => false | _ => st_adminControlsPrices s end;
  st_collateralMint := st_collateralMint s;
  st_collateralVault := st_collateralVault s;
  st_collateralVaultAuthority := st_collateralVaultAuthority s;
  st_collateralVaultNonce := st_collateralVaultNonce s;
  st_insuranceVault := st_insuranceVault s;
  st_insuranceVaultAuthority := st_insuranceVaultAuthority s;
  st_insuranceVaultNonce := st_insuranceVaultNonce s;
  st_marginRatioInitial := match u with Admin (UpdateMarginRatio initial _ _) => initial | _ => st_marginRatioInitial s end;
  st_marginRatioMaintenance := match u with Admin (UpdateMarginRatio _ _ maintenance) => maintenance | _ => st_marginRatioMaintenance s end;
  st_marginRatioPartial := match u with Admin (UpdateMarginRatio _ partial _) => partial | _ => st_marginRatioPartial s end;
  st_markets := st_markets s;
  st_curveHistory := st_curveHistory s;
  st_depositHistory := match u with SetHistories k => hk_deposit k | _ => st_depositHistory s end;
  st_fundingRateHistory := match u with SetHistories k => hk_fundingRate k | _ => st_fundingRateHistory s end;
  st_fundingPaymentHistory := match u with SetHistories k => hk_fundingPayment k | _ => st_fundingPaymentHistory s end;
  st_tradeHistory := match u with SetHistories k => hk_trade k | _ => st_tradeHistory s end;
  st_liquidationHistory := match u with SetHistories k => hk_liquidation k | _ => st_liquidationHistory s end;
  st_partialLiquidationClosePercentageNumerator := match u with Admin (UpdatePartialLiquidationClosePercentage n _) => n | _ => st_partialLiquidationClosePercentageNumerator s end;
  st_partialLiquidationClosePercentageDenominator := match u with Admin (UpdatePartialLiquidationClosePercentage _ d) => d | _ => st_partialLiquidationClosePercentageDenominator s end;
  st_partialLiquidationPenaltyPercentageNumerator := match u with Admin (UpdatePartialLiquidationPenaltyPercentage n _) => n | _ => st_partialLiquidationPenaltyPercentageNumerator s end;
  st_partialLiquidationPenaltyPercentageDenominator := match u with Admin (UpdatePartialLiquidationPenaltyPercentage _ d) => d | _ => st_partialLiquidationPenaltyPercentageDenominator s end;
  st_fullLiquidationPenaltyPercentageNumerator := match u with Admin (UpdateFullLiquidationPenaltyPercentage n _) => n | _ => st_fullLiquidationPenaltyPercentageNumerator s end;
  st_fullLiquidationPenaltyPercentageDenominator := match u with Admin (UpdateFullLiquidationPenaltyPercentage _ d) => d | _ => st_fullLiquidationPenaltyPercentageDenominator s end;
  st_partialLiquidationLiquidatorShareDenominator := match u with Admin (UpdatePartialLiquidationLiquidatorShareDenominator d) => d | _ => st_partialLiquidationLiquidatorShareDenominator s end;
  st_fullLiquidationLiquidatorShareDenominator := match u with Admin (UpdateFullLiquidationLiquidatorShareDenominator d) => d | _ => st_fullLiquidationLiquidatorShareDenominator s end;
  st_feeStructure := match u with Admin (UpdateFee fees) => fees | _ => st_feeStructure s end;
  st_totalFee := st_totalFee s;
  st_totalFeeWithdrawn := st_totalFeeWithdrawn s;
  st_whitelistMint := match u with Admin (UpdateWhitelistMint mint) => mint | _ => st_whitelistMint s end;
  st_discountMint := match u with Admin (UpdateDiscountMint mint) => mint | _ => st_discountMint s end;
  st_oracleGuardRails := match u with Admin (UpdateOracleGuardRails rails) => rails | _ => st_oracleGuardRails s end;
  st_maxDeposit := match u with Admin (UpdateMaxDeposit max_deposit) => max_deposit | _ => st_maxDeposit s end;
  st_extendedCurveHistory := match u with SetHistories k => hk_extendedCurve k | SetExtendedCurveHistory k => k | _ => st_extendedCurveHistory s end
|}.

Definition initialize_history (keys : HistoryKeys) (state : StateAccount)
    : ClearingHouseResult StateAccount :=
  let set key := negb (bool_decide (key = Pubkey_default)) in
  _ ← ensure (negb (set (st_depositHistory state) && set (st_tradeHistory state)
                    && set (st_liquidationHistory state) && set (st_fundingPaymentHistory state)
                    && set (st_fundingRateHistory state) && set (st_curveHistory state)))
        HistoryAlreadyInitialized;
  ROk (update_state (SetHistories keys) state).

(** ** update_curve_history

    The records of the 32-slot history are copied into a new one of 1024 slots, with the
    two fields it did not have. *)
Record CurveRecord := mkCurveRecord {
  cr_ts : Z;
  cr_record_id : Z;
  cr_market_index : Z;
  cr_peg_multiplier_before : Z;
  cr_base_asset_reserve_before : Z;
  cr_quote_asset_reserve_before : Z;
  cr_sqrt_k_before : Z;
  cr_peg_multiplier_after : Z;
  cr_base_asset_reserve_after : Z;
  cr_quote_asset_reserve_after : Z;
  cr_sqrt_k_after : Z;
  cr_base_asset_amount_long : Z;
  cr_base_asset_amount_short : Z;
  cr_base_asset_amount : Z;
  cr_open_interest : Z;
  cr_total_fee : Z;
  cr_total_fee_minus_distributions : Z;
  cr_adjustment_cost : Z
}.
#[export] Instance CurveRecord_numbered : Numbered CurveRecord := cr_record_id.

Definition extended_record (r : CurveRecord) : ExtendedCurveRecord := {|
  ec_ts := cr_ts r;
  ec_record_id := cr_record_id r;
  ec_market_index := cr_market_index r;
  ec_peg_multiplier_before := cr_peg_multiplier_before r;
  ec_base_asset_reserve_before := cr_base_asset_reserve_before r;
  ec_quote_asset_reserve_before := cr_quote_asset_reserve_before r;
  ec_sqrt_k_before := cr_sqrt_k_before r;
  ec_peg_multiplier_after := cr_peg_multiplier_after r;
  ec_base_asset_reserve_after := cr_base_asset_reserve_after r;
  ec_quote_asset_reserve_after := cr_quote_asset_reserve_after r;
  ec_sqrt_k_after := cr_sqrt_k_after r;
  ec_base_asset_amount_long := cr_base_asset_amount_long r;
  ec_base_asset_amount_short := cr_base_asset_amount_short r;
  ec_base_asset_amount := cr_base_asset_amount r;
  ec_open_interest := cr_open_interest r;
  ec_total_fee := cr_total_fee r;
  ec_total_fee_minus_distributions := cr_total_fee_minus_distributions r;
  ec_adjustment_cost := cr_adjustment_cost r;
  ec_oracle_price := 0;
  ec_trade_record := 0
|}.
Definition ExtendedCurveRecord_default : ExtendedCurveRecord :=
  mkExtendedCurveRecord 0 0 0 0 0 0 0 0 0 0 0 0 0 0 0 0 0 0 0 0.
Definition ExtendedCurveHistory_default : ExtendedCurveHistory :=
  mkHistory 0 (replicate 1024 ExtendedCurveRecord_default).

(** The loop over the old slots, in the order of the array. *)
Fixpoint copy_records (old : list CurveRecord) (h : ExtendedCurveHistory)
    : ClearingHouseResult ExtendedCurveHistory :=
  match old with
  | [] => ROk h
  | r :: old =>
      h ← (if cr_record_id r =? 0 then ROk h
           else append_mod EXTENDED_CURVE_MODULUS h (extended_record r));
      copy_records old h
  end.
Definition update_curve_history (old : History CurveRecord) (key : PublicKey) (state : StateAccount)
    : ClearingHouseResult (StateAccount * ExtendedCurveHistory) :=
  h ← copy_records (records old) ExtendedCurveHistory_default;
  ROk (update_state (SetExtendedCurveHistory key) state, h).

(** ** Markets *)

(** The market's parameters the administrator sets, and what was withdrawn. *)
Definition with_settings (a : AMM) (oracle : PublicKey) (source : OracleSource)
    (minimum_trade_size total_fee_withdrawn : Z) : AMM :=
  {| amm_baseAssetReserve := amm_baseAssetReserve a;
     amm_sqrtK := amm_sqrtK a;
     amm_cumulativeFundingRate := amm_cumulativeFundingRate a;
     amm_lastFundingRate := amm_lastFundingRate a;
     amm_lastFundingRateTs := amm_lastFundingRateTs a;
     amm_lastMarkPriceTwap := amm_lastMarkPriceTwap a;
     amm_lastMarkPriceTwapTs := amm_lastMarkPriceTwapTs a;
     amm_lastOraclePriceTwap := amm_lastOraclePriceTwap a;
     amm_lastOraclePriceTwapTs := amm_lastOraclePriceTwapTs a;
     amm_oracle := oracle;
     amm_oracleSource := source;
     amm_fundingPeriod := amm_fundingPeriod a;
     amm_quoteAssetReserve := amm_quoteAssetReserve a;
     amm_pegMultiplier := amm_pegMultiplier a;
     amm_cumulativeFundingRateLong := amm_cumulativeFundingRateLong a;
     amm_cumulativeFundingRateShort := amm_cumulativeFundingRateShort a;
     amm_cumulativeRepegRebateLong := amm_cumulativeRepegRebateLong a;
     amm_cumulativeRepegRebateShort := amm_cumulativeRepegRebateShort a;
     amm_totalFeeMinusDistributions := amm_totalFeeMinusDistributions a;
     amm_totalFeeWithdrawn := total_fee_withdrawn;
     amm_totalFee := amm_totalFee a;
     amm_minimumTradeSize := minimum_trade_size;
     amm_lastOraclePrice := amm_lastOraclePrice a |}.

(** [x.unwrap()] *)
Definition unwrap {A} (r : ClearingHouseResult A) : ClearingHouseResult A :=
  match r with ROk a => ROk a | RErr _ => RErr Panic end.

(** The new market. *)
Definition initial_market (oracle : PublicKey) (now base_asset_reserve quote_asset_reserve periodicity
    peg_multiplier mark_price : Z) (o : OraclePrice) : Market := {|
  mkt_amm := {|
    amm_baseAssetReserve := base_asset_reserve;
    amm_sqrtK := base_asset_reserve;
    amm_cumulativeFundingRate := 0;
    amm_lastFundingRate := 0;
    amm_lastFundingRateTs := now;
    amm_lastMarkPriceTwap := mark_price;
    amm_lastMarkPriceTwapTs := now;
    amm_lastOraclePriceTwap := op_twap o;
    amm_lastOraclePriceTwapTs := now;
    amm_oracle := oracle;
    amm_oracleSource := PYTH;
    amm_fundingPeriod := periodicity;
    amm_quoteAssetReserve := quote_asset_reserve;
    amm_pegMultiplier := peg_multiplier;
    amm_cumulativeFundingRateLong := 0;
    amm_cumulativeFundingRateShort := 0;
    amm_cumulativeRepegRebateLong := 0;
    amm_cumulativeRepegRebateShort := 0;
    amm_totalFeeMinusDistributions := 0;
    amm_totalFeeWithdrawn := 0;
    amm_totalFee := 0;
    amm_minimumTradeSize := 10000000;
    amm_lastOraclePrice := op_price o |};
  mkt_baseAssetAmount := 0;
  mkt_baseAssetAmountLong := 0;
  mkt_baseAssetAmountShort := 0;
  mkt_initialized := true;
  mkt_openInterest := 0
|}.

Definition initialize_market (oracle : OracleAccount) (now clock_slot market_index amm_base_asset_reserve
    amm_quote_asset_reserve amm_periodicity amm_peg_multiplier : Z) (markets : list Market)
    : ClearingHouseResult (list Market) :=
  market ← market_at markets market_index;
  _ ← ensure (negb (mkt_initialized market)) MarketIndexAlreadyInitialized;
  _ ← ensure (amm_base_asset_reserve =? amm_quote_asset_reserve) InvalidInitialPeg;
  init_mark_price ←
    calculate_price amm_quote_asset_reserve amm_base_asset_reserve amm_peg_multiplier;
  _ ← checked_mul U192 amm_base_asset_reserve amm_quote_asset_reserve;
  o ← unwrap (get_oracle_price (mkt_amm market) (oa_price oracle) clock_slot);
  ROk (with_market markets market_index
         (initial_market (oa_key oracle) now amm_base_asset_reserve amm_quote_asset_reserve
            amm_periodicity amm_peg_multiplier init_mark_price o)).

Definition update_market_oracle (market_index : Z) (oracle : PublicKey) (oracle_source : OracleSource)
    (markets : list Market) : ClearingHouseResult (list Market) :=
  _ ← market_initialized markets market_index;
  market ← market_at markets market_index;
  let amm := mkt_amm market in
  ROk (with_market markets market_index
         (with_amm market (with_settings amm oracle oracle_source (amm_minimumTradeSize amm)
                             (amm_totalFeeWithdrawn amm)))).

Definition update_market_minimum_trade_size (market_index minimum_trade_size : Z)
    (markets : list Market) : ClearingHouseResult (list Market) :=
  _ ← market_initialized markets market_index;
  market ← market_at markets market_index;
  let amm := mkt_amm market in
  ROk (with_market markets market_index
         (with_amm market (with_settings amm (amm_oracle amm) (amm_oracleSource amm) minimum_trade_size
                             (amm_totalFeeWithdrawn amm)))).

(** ** Fees and insurance *)

(** What the administrator may still take of a market's fees. *)
Definition max_withdraw (amm : AMM) : ClearingHouseResult Z :=
  x ← checked_mul U128 (amm_totalFee amm) SHARE_OF_FEES_ALLOCATED_TO_CLEARING_HOUSE_NUMERATOR;
  y ← checked_div U128 x SHARE_OF_FEES_ALLOCATED_TO_CLEARING_HOUSE_DENOMINATOR;
  checked_sub U128 y (amm_totalFeeWithdrawn amm).

Definition withdraw_fees (market_index amount : Z) (markets : list Market)
    : ClearingHouseResult (list Market * Transfer) :=
  _ ← market_initialized markets market_index;
  market ← market_at markets market_index;
  let amm := mkt_amm market in
  max ← max_withdraw amm;
  a ← cast U128 amount;
  _ ← ensure (a <=? max) AdminWithdrawTooLarge;
  withdrawn ← checked_add U128 (amm_totalFeeWithdrawn amm) a;
  ROk (with_market markets market_index
         (with_amm market (with_settings amm (amm_oracle amm) (amm_oracleSource amm)
                             (amm_minimumTradeSize amm) withdrawn)),
       CollateralVaultToRecipient amount).

Definition withdraw_from_insurance_vault (amount : Z) : Transfer := InsuranceVaultToRecipient amount.

Definition withdraw_from_insurance_vault_to_market (market_index amount : Z) (markets : list Market)
    : ClearingHouseResult (list Market * Transfer) :=
  _ ← market_initialized markets market_index;
  market ← market_at markets market_index;
  a ← cast U128 amount;
  pool ← checked_add U128 (amm_totalFeeMinusDistributions (mkt_amm market)) a;
  ROk (with_market markets market_index (with_pool market pool), InsuranceVaultToCollateralVault amount).

(** ** Users *)

Definition get_whitelist_token (spl_token_id : PublicKey) (whitelist_token : bool)
    (accounts : list AccountInfo) (whitelist_mint : PublicKey)
    : ClearingHouseResult (option TokenAccount) :=
  if negb whitelist_token then ROk None
  else
    match accounts with
    | [info] =>
        _ ← require_eq (ai_owner info) spl_token_id InvalidWhitelistToken;
        match ai_token info with
        | None => err InvalidWhitelistToken
        | Some token =>
            _ ← ensure (ta_isInitialized token) InvalidWhitelistToken;
            _ ← require_eq (ta_mint token) whitelist_mint InvalidWhitelistToken;
            ROk (Some token)
        end
    | _ => err WhitelistTokenNotFound
    end.

(** [user_initialization::initialize]: the new user; its positions account is new and so
    holds five empty positions. *)
Definition initialize_user (spl_token_id : PublicKey) (state : StateAccount) (authority : PublicKey)
    (whitelist_token : bool) (remaining_accounts : list AccountInfo)
    : ClearingHouseResult (User * list MarketPosition) :=
  _ ← (if bool_decide (st_whitelistMint state = Pubkey_default) then ROk tt
       else
         token ← get_whitelist_token spl_token_id whitelist_token remaining_accounts
                   (st_whitelistMint state);
         match token with
         | None => err WhitelistTokenNotFound
         | Some token =>
             _ ← require_eq (ta_owner token) authority InvalidWhitelistToken;
             ensure (negb (ta_amount token =? 0)) WhitelistTokenNotFound
         end);
  ROk (mkUser authority 0 0 0 0 0 0, replicate 5 (mkMarketPosition 0 0 0 0 0)).

Definition delete_user (user : User) : ClearingHouseResult unit :=
  ensure (negb (0 <? usr_collateral user)) CantDeleteUserWithCollateral.
