(* ===== verification/ChainMigration.v ===== *)
(** * The migration of the curve's history (programs/clearing_house: lib.rs, history/curve.rs)

    [update_curve_history] copies the 32-slot history of earlier versions into one of
    1024 slots.  The copy is in the order of the slots, and the next number is that of
    the record copied last, plus one. *)
From S2P Require Import Prelude BN Types Checked History.
From S2P Require Import ChainRepeg ChainAdmin.

Lemma filter_all `(P : A -> Prop) `{forall x, Decision (P x)} l : Forall P l -> filter P l = l.
Proof. induction 1; [done |]. rewrite filter_cons_True by done. by f_equal. Qed.
Lemma filter_none `(P : A -> Prop) `{forall x, Decision (P x)} l :
  Forall (fun x => ~ P x) l -> filter P l = [].
Proof. induction 1; [done |]. by rewrite filter_cons_False. Qed.

(** What the loop copies: the records with a number, in the order of
    the slots. *)
Definition numbered (rs : list CurveRecord) : list CurveRecord := filter (fun r => cr_record_id r <> 0) rs.

Lemma copy_records_slots rs h n :
  head h = Z.of_nat n -> length (records h) = 1024%nat -> (n + length (numbered rs) < 1023)%nat ->
  copy_records rs h =
    ROk (mkHistory (Z.of_nat (n + length (numbered rs)))
           (list_inserts n (extended_record <$> numbered rs) (records h))).
Proof.
  revert h n. induction rs as [| r rs IH]; intros [hd slots] n Hh Hl Hn; cbn [head records] in *.
  { cbn. by rewrite Nat.add_0_r, Hh. }
  cbn [copy_records]. unfold numbered in *. rewrite filter_cons in *. destruct (Z.eqb_spec (cr_record_id r) 0) as [E | NE].
  - rewrite decide_False in * by (intros ?; done). cbn [mbind rust_bind]. by rewrite (IH _ n).
  - rewrite decide_True in * by done. cbn [length fmap list_fmap list_inserts] in *.
    unfold append_mod, at_index. cbn [head records]. rewrite Hh.
    destruct (lookup_lt_is_Some_2 slots n) as [x Hx]; [lia |].
    rewrite (js_index_Some _ _ _ Hx). cbn [mbind rust_bind]. rewrite Nat2Z.id.
    rewrite (IH _ (S n)); cbn [head records].
    + rewrite list_insert_inserts_lt by lia. do 2 f_equal. lia.
    + rewrite Z.mod_small by (unfold EXTENDED_CURVE_MODULUS; lia). lia.
    + by rewrite length_insert.
    + lia.
Qed.

(** What slot [i] of a ring holds. *)
Lemma ring_slot (h : History CurveRecord) log i :
  Recorded 32 h log -> (i < 32)%nat -> (i < length log)%nat ->
  exists r, records h !! i = Some r /\
    cr_record_id r = Z.of_nat i + 32 * ((Z.of_nat (length log) - 1 - Z.of_nat i) / 32) + 1.
Proof.
  intros [_ _ Hids Hheld _] Hi Hlog.
  set (q := ((length log - 1 - i) / 32)%nat). set (j := (i + q * 32)%nat).
  pose proof (Nat.div_mod (length log - 1 - i) 32 ltac:(lia)) as Hq. fold q in Hq.
  pose proof (Nat.mod_upper_bound (length log - 1 - i) 32 ltac:(lia)).
  destruct (lookup_lt_is_Some_2 log j) as [r Hr]; [unfold j; lia |]. exists r.
  split.
  - rewrite <- Hr, <- Hheld by (unfold j; lia). f_equal. unfold j. rewrite Nat.Div0.mod_add.
    by rewrite Nat.mod_small.
  - change (cr_record_id r) with (record_id r). rewrite (Hids j r Hr). unfold j.
    replace (Z.of_nat (length log) - 1 - Z.of_nat i) with (Z.of_nat (length log - 1 - i)) by lia.
    change 32 with (Z.of_nat 32) at 2. rewrite <- Nat2Z.inj_div. fold q. lia.
Qed.

Lemma numbered_ring (h : History CurveRecord) log :
  Recorded 32 h log -> numbered (records h) = take (length log `min` 32) (records h).
Proof.
  intros Hr. pose proof Hr as [Hl _ _ _ Hfresh].
  rewrite <- (take_drop (length log `min` 32) (records h)) at 1. unfold numbered. rewrite filter_app.
  assert (Forall (fun r => cr_record_id r <> 0) (take (length log `min` 32) (records h))) as Hall.
  { apply Forall_lookup_2. intros i r Hi. apply lookup_take_Some in Hi as [Hi Hlt].
    destruct (ring_slot h log i Hr) as (r' & Hr' & Hid); [lia | lia |].
    rewrite Hi in Hr'. injection Hr' as <-. rewrite Hid.
    assert (0 <= (Z.of_nat (length log) - 1 - Z.of_nat i) / 32) by (apply Z.div_pos; lia). lia. }
  assert (Forall (fun r => ~ cr_record_id r <> 0) (drop (length log `min` 32) (records h))) as Hnone.
  { apply Forall_lookup_2. intros i r Hi. rewrite lookup_drop in Hi.
    pose proof (lookup_lt_Some _ _ _ Hi). destruct (Hfresh (length log `min` 32 + i)%nat) as (r' & Hr' & Hid); [lia |].
    rewrite Hi in Hr'. injection Hr' as <-. intros Hn. apply Hn. exact Hid. }
  by rewrite (filter_all _ _ Hall), (filter_none _ _ Hnone), app_nil_r.
Qed.

(** C28: The migration of the curve's history can lose count: of a history of n updates,
    numbered 1 to n, it keeps what the ring of 32 holds, and gives the next update the
    number after the one in the slot copied last. That number was already used
    exactly when n is above 32 and no multiple of 32; it is then one more than
    the multiple of 32 below n. *)
Theorem migration_reuses_numbers (zeroed : CurveRecord) (mks : list (Z -> CurveRecord)) old key s :
  cr_record_id zeroed = 0 -> Forall (fun mk => forall id, cr_record_id (mk id) = id) mks ->
  Z.of_nat (length mks) < 2 ^ 127 ->
  record_all (mkHistory 0 (replicate 32 zeroed)) mks = ROk old ->
  let n := Z.of_nat (length mks) in
  exists h, update_curve_history old key s = ROk (update_state (SetExtendedCurveHistory key) s, h) /\
    take (length mks `min` 32) (records h) = extended_record <$> take (length mks `min` 32) (records old) /\
    let next := (if n <? 32 then n else 32 * (n / 32)) + 1 in
    next_record_id h = ROk next /\ (1 <= next <= n <-> 32 < n /\ n mod 32 <> 0).
Proof.
  intros Hz Hmk Hlt Hall n.
  destruct (record_all_log 32 mks _ [] ltac:(lia) (recorded_default 32 zeroed Hz) Hmk) as (h0 & Hh & Hr);
    [cbn; lia |].
  rewrite Hall in Hh. injection Hh as <-. cbn [app] in Hr.
  set (log := imap _ mks) in Hr. assert (length log = length mks) as Hlog by apply length_imap.
  pose proof (numbered_ring _ _ Hr) as Hnum. rewrite Hlog in Hnum.
  assert (length (numbered (records old)) = length mks `min` 32)%nat as Hlen.
  { rewrite Hnum, length_take, (rec_length _ _ _ Hr). lia. }
  unfold update_curve_history.
  rewrite (copy_records_slots _ _ 0) by (first [done | apply length_replicate | lia]).
  cbn [mbind rust_bind]. eexists. split; [reflexivity |]. cbn [records].
  rewrite Hlen, Hnum. cbn [records ExtendedCurveHistory_default].
  set (m := (length mks `min` 32)%nat) in *. set (slots := replicate 1024 _).
  assert (length (take m (records old)) = m) as Hm by (by rewrite <- Hnum, Hlen).
  assert (forall i, (i < m)%nat ->
    list_inserts 0 (extended_record <$> take m (records old)) slots !! i =
    (extended_record <$> take m (records old)) !! i) as Hslot.
  { intros i Hi. rewrite list_lookup_inserts; [by rewrite Nat.sub_0_r | rewrite length_fmap, Hm; lia |].
    unfold slots. rewrite length_replicate. lia. }
  split; [| cbv zeta; split; [| pose proof (Z.div_mod n 32); pose proof (Z.mod_pos_bound n 32);
    destruct (Z.ltb_spec n 32); lia]].
  - apply list_eq. intros i. destruct (decide (i < m)%nat) as [Hi | Hi].
    + rewrite lookup_take_lt by done. by apply Hslot.
    + by rewrite lookup_take_ge, lookup_ge_None_2 by (rewrite ?length_fmap; lia).
  - unfold next_record_id. cbn [head records]. rewrite Nat.add_0_l, length_inserts.
    change (Z.of_nat (length slots)) with 1024.
    destruct (Z.eqb_spec (Z.of_nat m) 0) as [E | NE].
    + assert (n = 0) as -> by (unfold n; lia). assert (m = 0)%nat as -> by lia. reflexivity.
    + unfold at_index. replace (Z.of_nat m - 1) with (Z.of_nat (m - 1)) by lia.
      destruct (ring_slot old log (m - 1) Hr) as (r & Hrr & Hid); [lia | lia |].
      rewrite (js_index_Some _ _ (extended_record r)).
      2: { rewrite Hslot by lia. rewrite list_lookup_fmap, lookup_take_lt, Hrr by lia. done. }
      cbn [mbind rust_bind]. change (record_id (extended_record r)) with (cr_record_id r). rewrite Hid, Hlog.
      fold n. rewrite Z.mod_small.
      * f_equal. destruct (Z.ltb_spec n 32).
        -- rewrite Z.div_small by lia. lia.
        -- replace (n - 1 - Z.of_nat (m - 1)) with (n + (-1) * 32) by lia. rewrite Z.div_add by lia. lia.
      * assert (0 <= (n - 1 - Z.of_nat (m - 1)) / 32) by (apply Z.div_pos; lia).
        pose proof (Z.mul_div_le (n - 1 - Z.of_nat (m - 1)) 32 ltac:(lia)). lia.
Qed.
