(* ===== verification/ChainProtocol.v ===== *)
(** * The whole program (programs/clearing_house: lib.rs, context.rs)

    The accounts of the exchange and every instruction on them, as one executable
    machine: [exec] validates the accounts an instruction names as context.rs asks for and
    runs its handler; an instruction that fails changes nothing.

    The tokens are the token program's: an instruction is told the balances of the
    vaults and says what it transfers.  An account a transaction names by the key the
    state holds is the one of the ledger; naming another fails and is left out. *)
From S2P Require Import Prelude BN Types Checked History.
From S2P Require Import ChainAmm ChainOracle ChainPosition.
From S2P Require Import Idl.
From S2P Require Import ChainFunding ChainTrade ChainRepeg ChainAdmin.

(** ** The accounts *)

(** A user account with its positions account, which name each other. *)
Record UserEntry := mkUserEntry {
  ue_key : PublicKey;
  ue_user : User;
  ue_positions : list MarketPosition
}.

(** A record of the liquidation history: [LiquidationRecord] of liquidation.rs, whose amounts the
    handler gives. *)
Record LiquidationEntry := mkLiquidationEntry {
  le_ts : Z;
  le_record_id : Z;
  le_userAuthority : PublicKey;
  le_user : PublicKey;
  le_liquidator : PublicKey;
  le_amounts : LiquidationRecord
}.
#[export] Instance LiquidationEntry_numbered : Numbered LiquidationEntry := le_record_id.

Record Protocol := mkProtocol {
  pr_state : StateAccount;
  pr_markets : list Market;
  pr_users : list UserEntry;
  pr_fundingPayments : FundingPaymentHistory;
  pr_fundingRates : History FundingRateRecord;
  pr_trades : History TradeRecord;
  pr_deposits : History DepositRecord;
  pr_liquidations : History LiquidationEntry;
  pr_curve : ExtendedCurveHistory
}.

(** What a transaction brings: who signs, the clock, the oracle account or accounts, the
    other remaining accounts (key, owner, data as a token account), the balances of
    the vaults. *)
Record Context := mkContext {
  cx_signer : PublicKey;
  cx_now : Z;
  cx_slot : Z;
  cx_oracle : OracleAccount;
  cx_oracles : list OracleAccount;
  cx_remaining : list (PublicKey * PublicKey * option TokenAccount);
  cx_collateral_vault : Z;
  cx_insurance_vault : Z
}.

(** The instructions of lib.rs; [user] and [liquidator] are keys of user accounts. *)
Inductive ProgramInstruction :=
  | InitializeHistory (keys : HistoryKeys)
  | UpdateCurveHistory (old_key : PublicKey) (old : History CurveRecord) (key : PublicKey)
  | InitializeMarket (market_index amm_base_asset_reserve amm_quote_asset_reserve amm_periodicity
      amm_peg_multiplier : Z)
  | InitializeUser (whitelist_token : bool)
  | DeleteUser (user : PublicKey)
  | DepositCollateral (user : PublicKey) (amount : Z)
  | WithdrawCollateral (user : PublicKey) (amount : Z)
  | OpenPosition (user : PublicKey) (direction : PositionDirection)
      (quote_asset_amount market_index limit_price : Z) (discount_token referrer : bool)
  | ClosePosition (user : PublicKey) (market_index : Z) (discount_token referrer : bool)
  | Liquidate (user liquidator : PublicKey)
  | SettleFundingPayment (user : PublicKey)
  | UpdateFundingRate (market_index : Z)
  | MoveAmmPrice (base_asset_reserve quote_asset_reserve market_index : Z)
  | RepegAmmCurve (new_peg_candidate market_index : Z)
  | UpdateK (sqrt_k market_index : Z)
  | UpdateAmmOracleTwap (market_index : Z)
  | ResetAmmOracleTwap (market_index : Z)
  | WithdrawFees (market_index amount : Z)
  | WithdrawFromInsuranceVault (amount : Z)
  | WithdrawFromInsuranceVaultToMarket (market_index amount : Z)
  | UpdateMarketOracle (market_index : Z) (oracle : PublicKey) (oracle_source : OracleSource)
  | UpdateMarketMinimumTradeSize (market_index minimum_trade_size : Z)
  | UpdateParameter (u : AdminUpdate).

(** ** Reading and writing *)
Definition constraint (b : bool) : ClearingHouseResult unit := if b then ROk tt else RErr Constraint.

Definition find_user (p : Protocol) (key : PublicKey) : ClearingHouseResult (nat * UserEntry) :=
  match list_find (fun e => ue_key e = key) (pr_users p) with
  | Some r => ROk r
  | None => RErr Constraint
  end.

Definition accounts_of (p : Protocol) (e : UserEntry) : Accounts :=
  mkAccounts (ue_key e) (ue_user e) (ue_positions e) (pr_markets p) (pr_fundingPayments p)
    (pr_fundingRates p) (pr_trades p) (pr_deposits p).
Definition with_accounts (p : Protocol) (j : nat) (c : Accounts) : Protocol :=
  mkProtocol (pr_state p) (ac_markets c)
    (<[j := mkUserEntry (ac_user_key c) (ac_user c) (ac_positions c)]> (pr_users p))
    (ac_fundingPayments c) (ac_fundingRates c) (ac_trades c) (ac_deposits c) (pr_liquidations p)
    (pr_curve p).

Definition with_state (p : Protocol) (s : StateAccount) : Protocol :=
  mkProtocol s (pr_markets p) (pr_users p) (pr_fundingPayments p) (pr_fundingRates p) (pr_trades p)
    (pr_deposits p) (pr_liquidations p) (pr_curve p).
Definition with_markets (p : Protocol) (ms : list Market) : Protocol :=
  mkProtocol (pr_state p) ms (pr_users p) (pr_fundingPayments p) (pr_fundingRates p) (pr_trades p)
    (pr_deposits p) (pr_liquidations p) (pr_curve p).
Definition with_users (p : Protocol) (us : list UserEntry) : Protocol :=
  mkProtocol (pr_state p) (pr_markets p) us (pr_fundingPayments p) (pr_fundingRates p) (pr_trades p)
    (pr_deposits p) (pr_liquidations p) (pr_curve p).
Definition with_curve_history (p : Protocol) (h : ExtendedCurveHistory) : Protocol :=
  mkProtocol (pr_state p) (pr_markets p) (pr_users p) (pr_fundingPayments p) (pr_fundingRates p)
    (pr_trades p) (pr_deposits p) (pr_liquidations p) h.
Definition with_liquidations (p : Protocol) (h : History LiquidationEntry) : Protocol :=
  mkProtocol (pr_state p) (pr_markets p) (pr_users p) (pr_fundingPayments p) (pr_fundingRates p)
    (pr_trades p) (pr_deposits p) h (pr_curve p).

(** The user account of a key alone, the positions as they are. *)
Definition write_user (p : Protocol) (key : PublicKey) (u : User) : Protocol :=
  match find_user p key with
  | ROk (j, e) => with_users p (<[j := mkUserEntry (ue_key e) u (ue_positions e)]> (pr_users p))
  | RErr _ => p
  end.

(** New accounts are zeroed: empty rings of 1024 slots. *)
Definition TradeRecord_default : TradeRecord :=
  mkTradeRecord 0 0 Pubkey_default Pubkey_default LONG 0 0 0 0 0 0 0 0 false 0 0.
Definition DepositRecord_default : DepositRecord :=
  mkDepositRecord 0 0 Pubkey_default Pubkey_default DEPOSIT 0 0 0.
Definition FundingPaymentRecord_default : FundingPaymentRecord :=
  mkFundingPaymentRecord 0 0 Pubkey_default Pubkey_default 0 0 0 0 0 0 0.
Definition FundingRateRecord_default : FundingRateRecord := mkFundingRateRecord 0 0 0 0 0 0 0 0.
Definition LiquidationEntry_default : LiquidationEntry :=
  mkLiquidationEntry 0 0 Pubkey_default Pubkey_default Pubkey_default
    (mkLiquidationRecord false 0 0 0 0 0 0 0 0 0).
Definition load_init {R} (r : R) : History R := mkHistory 0 (replicate 1024 r).

Definition new_histories (p : Protocol) (s : StateAccount) : Protocol :=
  mkProtocol s (pr_markets p) (pr_users p) (load_init FundingPaymentRecord_default)
    (load_init FundingRateRecord_default) (load_init TradeRecord_default)
    (load_init DepositRecord_default) (load_init LiquidationEntry_default)
    (load_init ExtendedCurveRecord_default).

(** Before [initialize_history] there are none. *)
Definition new_protocol (s : StateAccount) (ms : list Market) : Protocol :=
  mkProtocol s ms [] (mkHistory 0 []) (mkHistory 0 []) (mkHistory 0 []) (mkHistory 0 [])
    (mkHistory 0 []) (mkHistory 0 []).

(** ** Execution *)
Section Exec.
(** The address of the token program, the address of the user account of an authority, and the
    integer square root of the uint crate. *)
Variables (spl_token_id : PublicKey) (user_address : PublicKey -> PublicKey) (integer_sqrt : Z -> Z).
Variables (cx : Context) (p : Protocol).

(** [has_one = admin] *)
Definition admin_signs : ClearingHouseResult unit :=
  constraint (bool_decide (st_admin (pr_state p) = cx_signer cx)).
(** [has_one = authority] *)
Definition authority_signs (u : User) : ClearingHouseResult unit :=
  constraint (bool_decide (usr_authority u = cx_signer cx)).

(** The remaining accounts with the data the ledger has for them. *)
Definition info_of (a : PublicKey * PublicKey * option TokenAccount) : AccountInfo :=
  mkAccountInfo a.1.1 a.1.2 a.2 (e ← ok (find_user p a.1.1); Some (ue_user e.2)).
Definition remaining_accounts : list AccountInfo := info_of <$> cx_remaining cx.
Definition optional_accounts (discount_token referrer : bool) (e : UserEntry)
    : ErrorCode + (option TokenAccount * option User) :=
  get_discount_token_and_referrer spl_token_id discount_token referrer remaining_accounts
    (st_discountMint (pr_state p)) (ue_key e) (usr_authority (ue_user e)).
Definition referrer_key (discount_token : bool) : option PublicKey :=
  ai_key <$> remaining_accounts !! (if discount_token then 1%nat else 0%nat).

(** A trade's accounts, and the referrer's. *)
Definition finish_trade (j : nat) (discount_token : bool) (r : Accounts * option User) : Protocol :=
  let p' := with_accounts p j r.1 in
  match r.2, referrer_key discount_token with
  | Some u, Some k => write_user p' k u
  | _, _ => p'
  end.

(** *** The instructions of a user

    Each with the accounts it asks for: those of the user are found by key, [has_one =
    authority] is checked, and the handler runs on them. *)
Local Abbreviation Outcome := (ClearingHouseResult (Protocol * list Transfer)).

Definition exec_initialize_user (whitelist_token : bool) : Outcome :=
  let key := user_address (cx_signer cx) in
  _ ← constraint (bool_decide (Forall (fun e => ue_key e <> key) (pr_users p)));
  '(user, positions) ←
    initialize_user spl_token_id (pr_state p) (cx_signer cx) whitelist_token remaining_accounts;
  ROk (with_users p (pr_users p ++ [mkUserEntry key user positions]), []).

Definition exec_delete_user (user : PublicKey) : Outcome :=
  '(j, e) ← find_user p user;
  _ ← authority_signs (ue_user e);
  _ ← delete_user (ue_user e);
  ROk (with_users p (delete j (pr_users p)), []).

Definition exec_deposit_collateral (user : PublicKey) (amount : Z) : Outcome :=
  '(j, e) ← find_user p user;
  _ ← authority_signs (ue_user e);
  '(c, ts) ← deposit_collateral (pr_state p) (cx_now cx) amount (accounts_of p e);
  ROk (with_accounts p j c, ts).

Definition exec_withdraw_collateral (user : PublicKey) (amount : Z) : Outcome :=
  '(j, e) ← find_user p user;
  _ ← authority_signs (ue_user e);
  '(c, ts) ← withdraw_collateral (pr_state p) (cx_now cx) (cx_collateral_vault cx)
               (cx_insurance_vault cx) amount (accounts_of p e);
  ROk (with_accounts p j c, ts).

Definition exec_open_position (user : PublicKey) (direction : PositionDirection)
    (quote_asset_amount market_index limit_price : Z) (discount_token referrer : bool) : Outcome :=
  '(j, e) ← find_user p user;
  _ ← authority_signs (ue_user e);
  r ← open_position (pr_state p) (cx_oracle cx) (cx_now cx) (cx_slot cx)
        (optional_accounts discount_token referrer e) direction quote_asset_amount market_index
        limit_price (accounts_of p e);
  ROk (finish_trade j discount_token r, []).

Definition exec_close_position (user : PublicKey) (market_index : Z) (discount_token referrer : bool)
    : Outcome :=
  '(j, e) ← find_user p user;
  _ ← authority_signs (ue_user e);
  r ← close_position (pr_state p) (cx_oracle cx) (cx_now cx) (cx_slot cx)
        (optional_accounts discount_token referrer e) market_index (accounts_of p e);
  ROk (finish_trade j discount_token r, []).

(** The authority is the liquidator's; the liquidator's account is written before the user's. *)
Definition exec_liquidate (user liquidator : PublicKey) : Outcome :=
  '(_, l) ← find_user p liquidator;
  _ ← authority_signs (ue_user l);
  '(j, e) ← find_user p user;
  '(c, liquidator', ts, amounts) ←
    liquidate_handler (pr_state p) (cx_now cx) (cx_slot cx) (cx_oracles cx) (cx_collateral_vault cx)
      (cx_insurance_vault cx) (ue_user l) (accounts_of p e);
  liquidations ←
    record_next (pr_liquidations p) (fun id =>
      mkLiquidationEntry (cx_now cx) id (usr_authority (ue_user e)) user liquidator amounts);
  ROk (with_liquidations (with_accounts (write_user p liquidator liquidator') j c) liquidations, ts).

(** Anybody's to call. *)
Definition exec_settle_funding_payment (user : PublicKey) : Outcome :=
  '(j, e) ← find_user p user;
  _ ← exchange_not_paused (pr_state p);
  c ← settle_user (accounts_of p e) (cx_now cx);
  ROk (with_accounts p j c, []).

Definition exec_user (i : ProgramInstruction) : Outcome :=
  match i with
  | InitializeUser whitelist_token => exec_initialize_user whitelist_token
  | DeleteUser user => exec_delete_user user
  | DepositCollateral user amount => exec_deposit_collateral user amount
  | WithdrawCollateral user amount => exec_withdraw_collateral user amount
  | OpenPosition user direction quote_asset_amount market_index limit_price discount_token referrer =>
      exec_open_position user direction quote_asset_amount market_index limit_price discount_token referrer
  | ClosePosition user market_index discount_token referrer =>
      exec_close_position user market_index discount_token referrer
  | Liquidate user liquidator => exec_liquidate user liquidator
  | SettleFundingPayment user => exec_settle_funding_payment user
  | _ => RErr Constraint
  end.

(** *** The instructions on markets

    [update_funding_rate] is anybody's, the others are the administrator's. *)
Definition exec_update_funding_rate (market_index : Z) : Outcome :=
  _ ← trade_allowed (pr_state p) (oa_key (cx_oracle cx)) (pr_markets p) market_index;
  market ← market_at (pr_markets p) market_index;
  '(market, rates) ←
    update_funding_rate market_index market (oa_price (cx_oracle cx)) (cx_now cx) (cx_slot cx)
      (pr_fundingRates p) (st_oracleGuardRails (pr_state p)) (st_fundingPaused (pr_state p));
  ROk (mkProtocol (pr_state p) (with_market (pr_markets p) market_index market) (pr_users p)
         (pr_fundingPayments p) rates (pr_trades p) (pr_deposits p) (pr_liquidations p) (pr_curve p), []).

Definition exec_initialize_market (market_index base_reserve quote_reserve periodicity peg : Z) : Outcome :=
  _ ← admin_signs;
  ms ← initialize_market (cx_oracle cx) (cx_now cx) (cx_slot cx) market_index base_reserve
         quote_reserve periodicity peg (pr_markets p);
  ROk (with_markets p ms, []).

(** [constraint = state.admin_controls_prices] *)
Definition exec_move_amm_price (base_reserve quote_reserve market_index : Z) : Outcome :=
  _ ← admin_signs;
  _ ← constraint (st_adminControlsPrices (pr_state p));
  ms ← move_amm_price (pr_state p) integer_sqrt base_reserve quote_reserve market_index (pr_markets p);
  ROk (with_markets p ms, []).

(** The accounts of a re-peg, which the two on the oracle's average ask for too. *)
Definition exec_repeg (i : ProgramInstruction) : Outcome :=
  _ ← admin_signs;
  match i with
  | RepegAmmCurve new_peg_candidate market_index =>
      '(ms, h) ← repeg_amm_curve (pr_state p) (cx_oracle cx) (cx_now cx) (cx_slot cx) new_peg_candidate
                   market_index (pr_markets p) (pr_curve p);
      ROk (with_curve_history (with_markets p ms) h, [])
  | UpdateAmmOracleTwap market_index =>
      ms ← update_amm_oracle_twap (pr_state p) (cx_oracle cx) (cx_now cx) (cx_slot cx) market_index
             (pr_markets p);
      ROk (with_markets p ms, [])
  | ResetAmmOracleTwap market_index =>
      ms ← reset_amm_oracle_twap (pr_state p) (cx_oracle cx) (cx_now cx) (cx_slot cx) market_index
             (pr_markets p);
      ROk (with_markets p ms, [])
  | _ => RErr Constraint
  end.

Definition exec_update_k (sqrt_k market_index : Z) : Outcome :=
  _ ← admin_signs;
  '(ms, h) ← update_k (pr_state p) (cx_oracle cx) (cx_now cx) sqrt_k market_index (pr_markets p)
               (pr_curve p);
  ROk (with_curve_history (with_markets p ms) h, []).

Definition exec_update_market (i : ProgramInstruction) : Outcome :=
  _ ← admin_signs;
  match i with
  | UpdateMarketOracle market_index oracle oracle_source =>
      ms ← update_market_oracle market_index oracle oracle_source (pr_markets p);
      ROk (with_markets p ms, [])
  | UpdateMarketMinimumTradeSize market_index minimum_trade_size =>
      ms ← update_market_minimum_trade_size market_index minimum_trade_size (pr_markets p);
      ROk (with_markets p ms, [])
  | _ => RErr Constraint
  end.

Definition exec_withdraw_fees (market_index amount : Z) : Outcome :=
  _ ← admin_signs;
  '(ms, t) ← withdraw_fees market_index amount (pr_markets p);
  ROk (with_markets p ms, [t]).

Definition exec_insurance_to_market (market_index amount : Z) : Outcome :=
  _ ← admin_signs;
  '(ms, t) ← withdraw_from_insurance_vault_to_market market_index amount (pr_markets p);
  ROk (with_markets p ms, [t]).

Definition exec_market (i : ProgramInstruction) : Outcome :=
  match i with
  | UpdateFundingRate market_index => exec_update_funding_rate market_index
  | InitializeMarket market_index base_reserve quote_reserve periodicity peg =>
      exec_initialize_market market_index base_reserve quote_reserve periodicity peg
  | MoveAmmPrice base_reserve quote_reserve market_index =>
      exec_move_amm_price base_reserve quote_reserve market_index
  | RepegAmmCurve _ _ | UpdateAmmOracleTwap _ | ResetAmmOracleTwap _ => exec_repeg i
  | UpdateK sqrt_k market_index => exec_update_k sqrt_k market_index
  | UpdateMarketOracle _ _ _ | UpdateMarketMinimumTradeSize _ _ => exec_update_market i
  | WithdrawFees market_index amount => exec_withdraw_fees market_index amount
  | WithdrawFromInsuranceVaultToMarket market_index amount => exec_insurance_to_market market_index amount
  | _ => RErr Constraint
  end.

(** *** The instructions on the state and the histories

    All the administrator's. *)
Definition exec_initialize_history (keys : HistoryKeys) : Outcome :=
  _ ← admin_signs;
  s ← initialize_history keys (pr_state p);
  ROk (new_histories p s, []).

(** The old history is the one the state names; the default key names no account of the
    program. *)
Definition exec_update_curve_history (old_key : PublicKey) (old : History CurveRecord) (key : PublicKey)
    : Outcome :=
  _ ← admin_signs;
  _ ← constraint (bool_decide (old_key <> Pubkey_default /\ st_curveHistory (pr_state p) = old_key));
  '(s, h) ← update_curve_history old key (pr_state p);
  ROk (with_curve_history (with_state p s) h, []).

Definition exec_withdraw_insurance (amount : Z) : Outcome :=
  _ ← admin_signs;
  ROk (p, [withdraw_from_insurance_vault amount]).

Definition exec_update_parameter (u : AdminUpdate) : Outcome :=
  _ ← admin_signs;
  ROk (with_state p (update_state (Admin u) (pr_state p)), []).

Definition exec_state (i : ProgramInstruction) : Outcome :=
  match i with
  | InitializeHistory keys => exec_initialize_history keys
  | UpdateCurveHistory old_key old key => exec_update_curve_history old_key old key
  | WithdrawFromInsuranceVault amount => exec_withdraw_insurance amount
  | UpdateParameter u => exec_update_parameter u
  | _ => RErr Constraint
  end.

Definition exec (i : ProgramInstruction) : Outcome :=
  match i with
  | InitializeUser _ | DeleteUser _ | DepositCollateral _ _ | WithdrawCollateral _ _
  | OpenPosition _ _ _ _ _ _ _ | ClosePosition _ _ _ _ | Liquidate _ _ | SettleFundingPayment _ =>
      exec_user i
  | InitializeHistory _ | UpdateCurveHistory _ _ _ | WithdrawFromInsuranceVault _ | UpdateParameter _ =>
      exec_state i
  | _ => exec_market i
  end.
End Exec.

(** A transaction that fails changes nothing; a run is a list of transactions. *)
Section Run.
Variables (spl_token_id : PublicKey) (user_address : PublicKey -> PublicKey) (integer_sqrt : Z -> Z).

Definition submit_to (p : Protocol) (t : Context * ProgramInstruction) : Protocol :=
  match exec spl_token_id user_address integer_sqrt t.1 p t.2 with
  | ROk (p', _) => p'
  | RErr _ => p
  end.
Definition run_protocol (p : Protocol) (ts : list (Context * ProgramInstruction)) : Protocol :=
  foldl submit_to p ts.
End Run.

(** Open what ran. *)
Ltac open_exec H :=
  cbn [exec_user exec_market exec_state] in H;
  cbv beta zeta delta
    [exec_initialize_user exec_delete_user exec_deposit_collateral exec_withdraw_collateral
     exec_open_position exec_close_position exec_liquidate exec_settle_funding_payment
     exec_update_funding_rate exec_initialize_market exec_move_amm_price exec_repeg exec_update_k
     exec_update_market exec_withdraw_fees exec_insurance_to_market exec_initialize_history
     exec_update_curve_history exec_withdraw_insurance exec_update_parameter] in H.
