(* ===== verification/ChainLedger.v ===== *)
(** * What every instruction preserves (programs/clearing_house)

    The integers of the accounts fit the types state/*.rs gives them ([Typed]), and a
    market only evolves in certain ways ([evolves]): it stays initialised, and what was
    withdrawn of its fees and the fees it ever took do not fall.  One lemma per function of the
    controllers and per handler; [ChainSafety] draws the consequences for runs. *)
From S2P Require Import Prelude BN Types Checked History.
From S2P Require Import ChainAmm ChainOracle ChainPosition.
From S2P Require Import Idl.
From S2P Require Import ChainFunding ChainTrade ChainAgreement ChainMargin ChainBooks ChainExchange ChainRepeg.
From S2P Require Import ChainAdmin ChainProtocol.

(** ** Values of their type *)
Definition in_width (x : width * Z) : Prop := lowest x.1 <= x.2 <= highest x.1.

#[export] Instance in_width_dec x : Decision (in_width x).
Proof. unfold in_width. apply _. Defined.

Class Typed (A : Type) := typed : A -> Prop.

(** state/market.rs *)
#[export] Instance AMM_typed : Typed AMM := fun a => Forall in_width
  [(U128, amm_baseAssetReserve a); (U128, amm_quoteAssetReserve a); (U128, amm_sqrtK a);
   (U128, amm_pegMultiplier a); (U128, amm_cumulativeRepegRebateLong a);
   (U128, amm_cumulativeRepegRebateShort a); (I128, amm_cumulativeFundingRateLong a);
   (I128, amm_cumulativeFundingRateShort a); (I128, amm_lastFundingRate a);
   (I64, amm_lastFundingRateTs a); (I64, amm_fundingPeriod a); (I128, amm_lastOraclePriceTwap a);
   (U128, amm_lastMarkPriceTwap a); (I64, amm_lastMarkPriceTwapTs a);
   (U128, amm_totalFee a); (U128, amm_totalFeeMinusDistributions a);
   (U128, amm_totalFeeWithdrawn a); (U128, amm_minimumTradeSize a);
   (I64, amm_lastOraclePriceTwapTs a); (I128, amm_lastOraclePrice a)].

#[export] Instance Market_typed : Typed Market := fun m =>
  typed (mkt_amm m) /\ Forall in_width
  [(I128, mkt_baseAssetAmountLong m); (I128, mkt_baseAssetAmountShort m);
   (I128, mkt_baseAssetAmount m); (U128, mkt_openInterest m)].

(** state/user.rs *)
#[export] Instance User_typed : Typed User := fun u => Forall in_width
  [(U128, usr_collateral u); (I128, usr_cumulativeDeposits u); (U128, usr_totalFeePaid u);
   (U128, usr_totalTokenDiscount u); (U128, usr_totalReferralReward u);
   (U128, usr_totalRefereeDiscount u)].
#[export] Instance MarketPosition_typed : Typed MarketPosition := fun p => Forall in_width
  [(U64, mp_marketIndex p); (I128, mp_baseAssetAmount p); (U128, mp_quoteAssetAmount p);
   (I128, mp_lastCumulativeFundingRate p); (I64, mp_lastFundingRateTs p)].

#[export] Instance list_typed `{Typed A} : Typed (list A) := Forall typed.
#[export] Instance option_typed `{Typed A} : Typed (option A) := from_option typed True.

(** Take typing hypotheses apart, and put a goal together from checked results. *)
Ltac untype :=
  cbn [with_funding_rate with_amounts with_collateral mp_marketIndex mp_baseAssetAmount
    mp_quoteAssetAmount mp_lastCumulativeFundingRate mp_lastFundingRateTs] in *;
  repeat match goal with
  | H : typed ?x |- _ => hnf in H
  | H : Forall in_width (_ :: _) |- _ => apply Forall_cons in H as [? H]
  | H : Forall in_width [] |- _ => clear H
  | H : _ /\ _ |- _ => destruct H as [? ?]
  end.
Ltac entype :=
  repeat first
    [ assumption
    | match goal with
      | |- typed _ => hnf; cbn
      | |- _ /\ _ => split
      | |- Forall in_width (_ :: _) => apply Forall_cons; split
      | |- Forall in_width [] => constructor
      | |- in_width _ => unfold in_width in *; cbn [fst snd] in *; first [assumption | widths; lia]
      end ].

(** ** How a curve and a market evolve *)
Record amm_evolves (a a' : AMM) : Prop := {
  ae_typed : typed a -> typed a';
  ae_withdrawn : amm_totalFeeWithdrawn a' = amm_totalFeeWithdrawn a;
  ae_total : amm_totalFee a <= amm_totalFee a'
}.
Record evolves (m m' : Market) : Prop := {
  ev_typed : typed m -> typed m';
  ev_init : mkt_initialized m = true -> mkt_initialized m' = true;
  ev_withdrawn : amm_totalFeeWithdrawn (mkt_amm m') = amm_totalFeeWithdrawn (mkt_amm m);
  ev_total : amm_totalFee (mkt_amm m) <= amm_totalFee (mkt_amm m')
}.

#[export] Instance amm_evolves_preorder : PreOrder amm_evolves.
Proof. split; [split; done || lia |]. intros a b c [] []. split; [auto | congruence | lia]. Qed.
#[export] Instance evolves_preorder : PreOrder evolves.
Proof. split; [split; done || lia |]. intros a b c [] []. split; [auto | auto | congruence | lia]. Qed.

Lemma evolves_amm m a : amm_evolves (mkt_amm m) a -> evolves m (with_amm m a).
Proof. intros [Ht Hw Hf]. split; [| done | done | done]. intros [? ?]. split; [by apply Ht | done]. Qed.

(** All markets of an instruction. *)
Definition all_evolve (ms ms' : list Market) : Prop := Forall2 evolves ms ms'.

#[export] Instance all_evolve_preorder : PreOrder all_evolve.
Proof.
  unfold all_evolve. split; [intros ms; by apply Forall_Forall2_diag, Forall_true |].
  intros ms1 ms2 ms3 H12 H23. eapply Forall2_trans; [| exact H12 | exact H23].
  intros ? ? ? ? ?. by etrans.
Qed.

Lemma all_evolve_insert ms i m m' :
  js_index ms i = Some m -> evolves m m' -> all_evolve ms (<[Z.to_nat i := m']> ms).
Proof.
  unfold js_index. intros Hm He. destruct (0 <=? i); [| done].
  rewrite <- (list_insert_id ms (Z.to_nat i) m) at 1 by done.
  apply Forall2_insert; [reflexivity | done].
Qed.

Lemma all_evolve_typed ms ms' : all_evolve ms ms' -> typed ms -> typed ms'.
Proof.
  unfold all_evolve. induction 1 as [| m m' ms ms' [Ht] _ IH]; [done |].
  intros [Hm Hms]%Forall_cons. apply Forall_cons. split; [by apply Ht | by apply IH].
Qed.

Lemma all_evolve_initialized ms ms' i :
  all_evolve ms ms' -> initialized_at ms i = true -> initialized_at ms' i = true.
Proof.
  unfold all_evolve, initialized_at, js_index. intros H. destruct (0 <=? i); [| done].
  destruct (ms !! Z.to_nat i) as [m |] eqn:Hm; [| done].
  destruct (Forall2_lookup_l _ _ _ _ _ H Hm) as (m' & -> & He). by apply ev_init.
Qed.

(** ** The curve's functions *)
Section Curve.
Variable now : Z.
Hypothesis Hnow : in_width (I64, now).

Lemma calculate_price_typed q b peg r : calculate_price q b peg = ROk r -> in_width (U128, r).
Proof. unfold calculate_price. intros H. rust_inv. done. Qed.

Lemma update_mark_twap_evolves a pre a' t :
  update_mark_twap a now pre = ROk (a', t) -> amm_evolves a a'.
Proof.
  unfold update_mark_twap, calculate_new_mark_twap. intros H. rust_inv. subst.
  split; [| done | done]. intros Ht. untype. entype.
Qed.

Lemma calculate_twap_typed x y u v r : calculate_twap x y u v = ROk r -> in_width (I128, r).
Proof. unfold calculate_twap. intros H. rust_inv. done. Qed.

Lemma update_oracle_price_twap_evolves a px a' t :
  in_width (I128, px) -> update_oracle_price_twap a now px = ROk (a', t) -> amm_evolves a a'.
Proof.
  unfold update_oracle_price_twap, calculate_new_oracle_price_twap. intros Hpx H. rust_inv.
  destruct (_ && _); rust_inv; subst; [| done].
  split; [| done | done]. intros Ht. untype.
  match goal with E : calculate_twap _ _ _ _ = ROk _ |- _ => apply calculate_twap_typed in E end.
  assert (in_width (I128, v1)) by (destruct (_ <? _); [destruct (_ <? _) |]; rust_inv; subst; done).
  entype.
Qed.

Lemma swap_output_typed x y d k o i :
  calculate_swap_output x y d k = ROk (o, i) -> in_width (U128, o) /\ in_width (U128, i).
Proof. unfold calculate_swap_output. intros H. rust_inv. subst. destruct d; rust_inv; subst; done. Qed.

Lemma with_curve_evolves a b q k peg :
  (typed a -> Forall in_width [(U128, b); (U128, q); (U128, k); (U128, peg)]) ->
  amm_evolves a (with_curve a b q k peg).
Proof. intros Hw. split; [| done | done]. intros Ht. specialize (Hw Ht). untype. entype. Qed.

Lemma same_curve_evolves a b q :
  in_width (U128, b) -> in_width (U128, q) ->
  amm_evolves a (with_curve a b q (amm_sqrtK a) (amm_pegMultiplier a)).
Proof. intros ? ?. apply with_curve_evolves. intros Ht. untype. entype. Qed.

Lemma swap_quote_asset_evolves a q d pre a' b :
  swap_quote_asset a q d now pre = ROk (a', b) -> amm_evolves a a' /\ in_width (I128, b).
Proof.
  unfold swap_quote_asset. intros H. rust_inv. subst. split; [| done].
  apply swap_output_typed in E2 as [? ?]. etrans; [by eapply update_mark_twap_evolves |].
  by apply same_curve_evolves.
Qed.

Lemma swap_base_asset_evolves a n d a' v :
  swap_base_asset a n d now = ROk (a', v) -> amm_evolves a a'.
Proof.
  unfold swap_base_asset. intros H. rust_inv. subst.
  apply swap_output_typed in E0 as [? ?]. etrans; [by eapply update_mark_twap_evolves |].
  by apply same_curve_evolves.
Qed.

(** ** Positions *)
Lemma updated_collateral_typed c pnl r :
  calculate_updated_collateral c pnl = ROk r -> in_width (U128, r).
Proof.
  unfold calculate_updated_collateral. intros H.
  repeat (destruct (_ : bool); rust_inv; subst; try done).
Qed.

Lemma with_positions_evolves m a net long short oi :
  amm_evolves (mkt_amm m) a ->
  (typed m -> Forall in_width [(I128, net); (I128, long); (I128, short); (U128, oi)]) ->
  evolves m (with_positions m a net long short oi).
Proof.
  intros [Ht ? ?] Hw. split; [| done | done | done]. intros Hm. specialize (Hw Hm).
  destruct Hm as [Ha _]. split; [by apply Ht |]. untype. entype.
Qed.

Lemma increase_evolves d q m p m' p' b :
  increase d q m p now = ROk (m', p', b) ->
  evolves m m' /\ (typed m -> typed p -> typed p') /\ mp_marketIndex p' = mp_marketIndex p.
Proof.
  unfold increase. destruct (q =? 0); intros H; rust_inv; subst; [done |].
  apply swap_quote_asset_evolves in E1 as [Ha Hb].
  split_and!; [apply with_positions_evolves; [done |] | | by destruct (_ =? 0); rust_inv; subst]; destruct (mp_baseAssetAmount p =? 0), (0 <? _);
    rust_inv; subst; intros; untype; destruct d; entype.
Qed.

Lemma reduce_evolves d q u m p pre u' m' p' b :
  reduce d q u m p now pre = ROk (u', m', p', b) ->
  evolves m m' /\ (typed p -> typed p') /\ (typed u -> typed u') /\
  usr_authority u' = usr_authority u /\ mp_marketIndex p' = mp_marketIndex p.
Proof.
  unfold reduce. intros H; rust_inv; subst.
  apply swap_quote_asset_evolves in E as [Ha Hb]. match goal with E : calculate_updated_collateral _ _ = ROk _ |- _ => apply updated_collateral_typed in E end.
  split; [apply with_positions_evolves; [done |]; destruct (0 <? _); rust_inv; subst; intros; untype; entype |].
  split_and!; [| | done | done]; intros; untype; entype.
Qed.

Lemma close_evolves u m p u' m' p' r :
  close u m p now = ROk (u', m', p', r) ->
  evolves m m' /\ (typed p -> typed p') /\ (typed u -> typed u') /\
  usr_authority u' = usr_authority u /\ mp_marketIndex p' = mp_marketIndex p.
Proof.
  unfold close. destruct (_ =? 0); intros H; rust_inv; subst; [done |].
  apply swap_base_asset_evolves in E as Ha. match goal with E : calculate_updated_collateral _ _ = ROk _ |- _ => apply updated_collateral_typed in E end.
  split; [apply with_positions_evolves; [done |]; destruct (0 <? _); rust_inv; subst; intros; untype; entype |].
  split_and!; [| | done | done]; intros; untype; entype.
Qed.

Lemma execute_evolves d q u m p t :
  execute d q u m p now = ROk t ->
  evolves m (td_market t) /\ (typed m -> typed p -> typed (td_position t)) /\
  (typed u -> typed (td_user t)) /\ usr_authority (td_user t) = usr_authority u /\
  mp_marketIndex (td_position t) = mp_marketIndex p.
Proof.
  unfold execute. intros H. destruct (_ || _ : bool) in H; rust_inv; subst; cbn.
  { by apply increase_evolves in E as (? & ? & ?). }
  destruct (_ <? z) in H; rust_inv; subst; cbn.
  - match goal with E : reduce _ _ _ _ _ _ _ = ROk _ |- _ => apply reduce_evolves in E as (? & ? & ? & ? & ?) end.
    split_and!; auto.
  - match goal with E : close _ _ _ _ = ROk _ |- _ => apply close_evolves in E as (Hm1 & ? & ? & ? & ?) end.
    match goal with E : increase _ _ _ _ _ = ROk _ |- _ => apply increase_evolves in E as (Hm2 & ? & ?) end.
    split_and!; [by etrans | | done | done | congruence]. intros ? ?. destruct Hm1. auto.
Qed.
End Curve.

(** ** Fees and funding *)
Lemma with_fees_evolves a pool total :
  in_width (U128, pool) -> in_width (U128, total) -> amm_totalFee a <= total ->
  amm_evolves a (with_fees a pool total).
Proof. intros ? ? ?. split; [| done | done]. intros Ht. untype. entype. Qed.

Lemma with_pool_evolves m pool : in_width (U128, pool) -> evolves m (with_pool m pool).
Proof.
  intros Hp. apply evolves_amm. split; [| done | done]. intros Ht. untype. entype.
Qed.

Lemma calculate_fees_typed {A} q fs token (r : option A) f :
  calculate_fees q fs token r = ROk f ->
  in_width (U128, fe_user_fee f) /\ in_width (U128, fe_fee_to_market f).
Proof. unfold calculate_fees. intros H. rust_inv. subst. done. Qed.

(** What a trade does to its referrer. *)
Record rewarded (r0 r : option User) : Prop := {
  rw_typed : typed r0 -> typed r;
  rw_authority : usr_authority <$> r = usr_authority <$> r0;
  rw_collateral : usr_collateral <$> r = usr_collateral <$> r0
}.

Lemma charge_evolves q st optional m u m' u' r f :
  charge q st optional m u = ROk (m', u', r, f) ->
  evolves m m' /\ (typed u -> typed u') /\ usr_authority u' = usr_authority u /\
  (exists t r0, optional = inr (t, r0) /\ rewarded r0 r).
Proof.
  unfold charge. intros H. rust_inv. subst. cbn.
  match goal with E : calculate_fees _ _ _ _ = ROk _ |- _ => apply calculate_fees_typed in E as [? Hm] end.
  split; [apply evolves_amm, with_fees_evolves; [done | done |]; unfold in_width in *; cbn in *; lia |].
  split; [| split; [done |]].
  - intros Hu. untype. entype. all: destruct (checked_sub U128 _ _) eqn:Hc; [apply checked_inv in Hc as [-> ?] |]; entype.
  - destruct optional as [? | [t r0]]; [done |]. rust_inv. subst. eexists _, _. split; [done |].
    destruct o0 as [x |]; rust_inv; subst; [| done]. split; [| done | done].
    cbn. intros Hr. untype. entype.
Qed.

Lemma get_oracle_price_typed a px slot o :
  get_oracle_price a px slot = ROk o -> in_width (I128, op_price o) /\ in_width (I128, op_twap o).
Proof.
  unfold get_oracle_price. destruct (amm_oracleSource a).
  - unfold get_pyth_price, rescaled. intros H. rust_inv. subst. done.
  - intros [= <-]. split; unfold in_width; cbn; lia.
Qed.

Lemma normalised_typed m o c r : in_width (I128, o) -> normalised m o c = ROk r -> in_width (I128, r).
Proof.
  unfold normalised, in_width. cbn [fst snd]. intros Ho H. rust_inv.
  destruct (_ <? _); rust_inv; subst; revert Ho E0 E1; generalize (m `quot` 10000), (lowest I128), (highest I128); lia.
Qed.

Lemma spread_pct_typed a px slot pre p s q :
  calculate_oracle_mark_spread_pct a px 0 slot pre = ROk (p, s, q) -> in_width (I128, p).
Proof.
  unfold calculate_oracle_mark_spread_pct, calculate_oracle_mark_spread. intros H. rust_inv. subst.
  match goal with E : get_oracle_price _ _ _ = ROk _ |- _ => apply get_oracle_price_typed in E as [? _] end.
  change (0 <? 0) with false in *. cbv iota in *. rust_inv. destruct (0 <? _); rust_inv; subst.
  exact (normalised_typed _ _ _ _ H E3).
Qed.

Section Funding.
Variable now : Z.
Hypothesis Hnow : in_width (I64, now).

Lemma rate_long_short_evolves m rate m' l s :
  in_width (I128, rate) -> calculate_funding_rate_long_short m rate = ROk (m', (l, s)) -> evolves m m'.
Proof.
  unfold calculate_funding_rate_long_short. intros Hr H. rust_inv.
  destruct (0 <=? _); rust_inv; subst; by apply (with_pool_evolves m).
Qed.

Lemma funding_rate_of_typed a x y r : funding_rate_of a x y = ROk r -> in_width (I128, r).
Proof. unfold funding_rate_of. intros H. rust_inv. done. Qed.

Lemma update_funding_rate_evolves i m px slot h rails paused m' h' :
  update_funding_rate i m px now slot h rails paused = ROk (m', h') -> evolves m m'.
Proof.
  unfold update_funding_rate, block_operation. intros H. rust_inv. destruct (_ && _ && _); rust_inv; subst; [| done].
  repeat match goal with
  | E : calculate_oracle_mark_spread_pct _ _ _ _ _ = ROk _ |- _ => apply spread_pct_typed in E
  | E : update_oracle_price_twap _ _ _ = ROk _ |- _ => apply update_oracle_price_twap_evolves in E as Ha1; [| done..]; clear E
  | E : update_mark_twap _ _ _ = ROk _ |- _ => apply update_mark_twap_evolves in E as Ha2; [| done]; clear E
  | E : funding_rate_of _ _ _ = ROk _ |- _ => apply funding_rate_of_typed in E
  | E : calculate_funding_rate_long_short _ _ = ROk _ |- _ => apply rate_long_short_evolves in E as Hm; [| done]; clear E
  end.
  transitivity (with_amm m a0); [apply evolves_amm; by etrans |].
  etrans; [exact Hm |]. apply evolves_amm. split; [| done | done]. intros Ht. untype. entype.
Qed.

(** ** Settling *)
Lemma settle_position_typed auth key ms p h t p' h' t' :
  settle_position auth key ms now p h t = ROk (p', h', t') ->
  in_width (I128, t) -> typed ms -> typed p -> typed p' /\ in_width (I128, t').
Proof.
  unfold settle_position. intros H Ht Hms Hp. destruct (_ =? 0); [by rust_inv; subst |].
  apply rust_bind_inv in H as (m & Hm & H). apply market_at_inv in Hm.
  assert (typed m) as [Ha _].
  { unfold js_index in Hm. destruct (0 <=? _); [| done]. exact (Forall_lookup_1 _ _ _ _ Hms Hm). }
  destruct (_ =? _); rust_inv; subst; [done |]. split; [| done].
  unfold cumulative_rate. untype. destruct (0 <? _); entype.
Qed.

Lemma settle_positions_typed auth key ms ps h t ps' h' t' :
  settle_positions auth key ms now ps h t = ROk (ps', h', t') ->
  in_width (I128, t) -> typed ms -> typed ps -> typed ps'.
Proof.
  revert h t ps' h' t'. induction ps as [| p ps IH]; cbn; intros h t ps' h' t' H Ht Hms Hps.
  { rust_inv. by subst. }
  rust_inv. subst. apply Forall_cons in Hps as [Hp Hps].
  match goal with E : settle_position _ _ _ _ _ _ _ = ROk _ |- _ =>
    eapply settle_position_typed in E as [? ?]; [| done..] end.
  apply Forall_cons. split; [done |]. eapply IH; [eassumption | done..].
Qed.

(** ** The accounts of an instruction *)
Record accounts_evolve (c c' : Accounts) : Prop := {
  ce_markets : all_evolve (ac_markets c) (ac_markets c');
  ce_key : ac_user_key c' = ac_user_key c;
  ce_authority : usr_authority (ac_user c') = usr_authority (ac_user c);
  ce_typed : typed (ac_markets c) -> typed (ac_user c) -> typed (ac_positions c) ->
    typed (ac_user c') /\ typed (ac_positions c');
  ce_opened : opened (ac_positions c) (ac_markets c) -> opened (ac_positions c') (ac_markets c')
}.

#[export] Instance accounts_evolve_preorder : PreOrder accounts_evolve.
Proof.
  split; [split; done |]. intros a b c [] []. split; [by etrans | congruence | congruence | | auto].
  intros Hm Hu Hp. destruct (ce_typed0 Hm Hu Hp). by apply ce_typed1; [eapply all_evolve_typed | |].
Qed.

Lemma opened_evolve ps ms ms' : all_evolve ms ms' -> opened ps ms -> opened ps ms'.
Proof.
  intros He Ho. eapply Forall_impl; [exact Ho |]. intros p Hp Hn. cbn in Hp.
  by eapply all_evolve_initialized, Hp.
Qed.

Lemma settle_evolves c c' : settle_user c now = ROk c' -> accounts_evolve c c' /\ ac_markets c' = ac_markets c.
Proof.
  intros H. pose proof (settle_shape _ _ _ H) as Hs. revert H.
  unfold settle_user, settle_funding_payment. intros H. rust_inv. subst. cbn in *. split; [| done].
  split; cbn; [done | done | done | | by apply opened_shape].
  intros Hm Hu Hp. split.
  - match goal with E : calculate_updated_collateral _ _ = ROk _ |- _ => apply updated_collateral_typed in E end.
    untype. entype.
  - eapply settle_positions_typed; [eassumption | | done | done]. unfold in_width. cbn. lia.
Qed.
End Funding.

(** ** Trades *)
Lemma find_position_typed ps i k p :
  in_width (U64, i) -> typed ps -> find_position ps i = ROk (k, p) -> typed p.
Proof.
  intros Hi Hps H. apply find_position_inv in H as Hx. unfold find_position, position_where in H.
  destruct (list_find (fun p => is_for i p = true) ps) as [[k0 p0] |] eqn:E.
  - injection H as <- <-. apply list_find_Some in E as (Hk & _). exact (Forall_lookup_1 _ _ _ _ Hps Hk).
  - destruct (list_find _ ps) as [[] |] in H; [| rust_inv]. injection H as <- <-.
    entype.
Qed.

Lemma initialized_insert ms i m m' j :
  js_index ms i = Some m -> evolves m m' -> initialized_at ms j = true ->
  initialized_at (<[Z.to_nat i := m']> ms) j = true.
Proof. intros Hm He. apply all_evolve_initialized. by eapply all_evolve_insert. Qed.

Lemma trade_allowed_initialized st oracle ms i u :
  trade_allowed st oracle ms i = ROk u -> initialized_at ms i = true.
Proof.
  unfold trade_allowed, market_initialized. intros H. rust_inv. unfold initialized_at.
  repeat match goal with E : market_at _ _ = ROk _ |- _ => apply market_at_inv in E end.
  by match goal with E : js_index _ _ = Some _ |- _ => rewrite E end.
Qed.

(** One market and one position replaced. *)
Lemma trade_evolves c u n p ms i m m' fp fr tr d :
  ac_markets c = ms -> js_index ms i = Some m -> evolves m m' ->
  usr_authority u = usr_authority (ac_user c) ->
  (typed m -> typed (ac_user c) -> typed (ac_positions c) -> typed u /\ typed p) ->
  mp_marketIndex p = i -> initialized_at ms i = true ->
  accounts_evolve c (mkAccounts (ac_user_key c) u (<[n := p]> (ac_positions c))
    (<[Z.to_nat i := m']> ms) fp fr tr d).
Proof.
  intros <- Hm He Hu Ht Hx Hi. split; cbn; [by eapply all_evolve_insert | done | done | |].
  - intros Hms Hus Hps. destruct Ht as [? Hp]; [| done | done |].
    { unfold js_index in Hm. destruct (0 <=? _); [| done]. exact (Forall_lookup_1 _ _ _ _ Hms Hm). }
    split; [done |]. by apply Forall_insert.
  - intros Ho. apply Forall_insert.
    + by eapply opened_evolve; [eapply all_evolve_insert |].
    + intros _. rewrite Hx. by eapply initialized_insert.
Qed.

Section Handlers.
Variables (state : StateAccount) (oracle : OracleAccount) (now clock_slot : Z).
Hypothesis Hnow : in_width (I64, now).

Lemma oracle_update_evolves (valid : bool) a px a' :
  in_width (I128, px) ->
  (if valid then '(amm, _) ← update_oracle_price_twap a now px; ROk amm else ROk a) = ROk a' ->
  amm_evolves a a'.
Proof.
  intros Hpx H. destruct valid; rust_inv; subst; [by eapply update_oracle_price_twap_evolves | done].
Qed.

Lemma open_position_evolves optional d q i limit c c' r :
  in_width (U64, i) ->
  open_position state oracle now clock_slot optional d q i limit c = ROk (c', r) ->
  accounts_evolve c c' /\ (exists t r0, optional = inr (t, r0) /\ rewarded r0 r).
Proof.
  intros Hi. unfold open_position, record_trade, update_rate, with_trade. intros H. rust_inv. subst. cbn [ac_positions ac_markets ac_user ac_user_key] in *.
  repeat match goal with
  | E : settle_user _ _ = ROk _ |- _ => apply settle_evolves in E as [Hc Hms]
  | E : trade_allowed _ _ _ _ = ROk _ |- _ => apply trade_allowed_initialized in E as Hini; clear E
  | E : market_at _ _ = ROk _ |- _ => apply market_at_inv in E as Hmk; clear E
  | E : charge _ _ _ _ _ = ROk _ |- _ => apply charge_evolves in E as (Hm2 & Hu2 & Ha2 & Href); clear E
  | E : update_funding_rate _ _ _ _ _ _ _ _ = ROk _ |- _ =>
      apply (update_funding_rate_evolves _ Hnow) in E as Hm3; clear E
  | E : execute _ _ _ _ _ _ = ROk _ |- _ => apply (execute_evolves _ Hnow) in E as (Hm1 & Hp1 & Hu1 & Ha1 & Hx1); clear E
  | E : calculate_oracle_mark_spread_pct _ _ _ _ None = ROk _ |- _ => apply spread_pct_typed in E
  end.
  match goal with E : (if ?b then _ else _) = ROk _ |- _ => apply oracle_update_evolves in E as Ham; [| done]; clear E end.
  split; [| done]. etrans; [exact Hc |]. rewrite !list_insert_insert_eq. 
  match goal with E : find_position _ _ = ROk _ |- _ => pose proof (find_position_inv _ _ _ _ E) as [Hx _];
    pose proof (fun T => find_position_typed _ _ _ _ Hi T E) as Hpt end.
  eapply trade_evolves; [reflexivity | exact Hmk | | by rewrite Ha2, Ha1 | | by rewrite Hx1 | by rewrite Hms].
  - etrans; [by apply evolves_amm |]. by do 2 (etrans; [eassumption |]).
  - intros Htm Htu Htp. split; [by apply Hu2, Hu1 |]. apply Hp1; [by apply (ev_typed _ _ (evolves_amm _ _ Ham)) | by apply Hpt].
Qed.
Lemma close_position_evolves optional i c c' r :
  close_position state oracle now clock_slot optional i c = ROk (c', r) ->
  accounts_evolve c c' /\ (exists t r0, optional = inr (t, r0) /\ rewarded r0 r).
Proof.
  unfold close_position, record_trade, update_rate, with_trade. intros H. rust_inv. subst.
  cbn [ac_positions ac_markets ac_user ac_user_key] in *.
  repeat match goal with
  | E : settle_user _ _ = ROk _ |- _ => apply settle_evolves in E as [Hc Hms]
  | E : match position_where _ _ with _ => _ end = ROk _ |- _ =>
      apply position_where_inv in E as (Hx & Hp & Hn)
  | E : trade_allowed _ _ _ _ = ROk _ |- _ => apply trade_allowed_initialized in E as Hini; clear E
  | E : market_at _ _ = ROk _ |- _ => apply market_at_inv in E as Hmk; clear E
  | E : charge _ _ _ _ _ = ROk _ |- _ => apply charge_evolves in E as (Hm2 & Hu2 & Ha2 & Href); clear E
  | E : update_funding_rate _ _ _ _ _ _ _ _ = ROk _ |- _ =>
      apply (update_funding_rate_evolves _ Hnow) in E as Hm3; clear E
  | E : close _ _ _ _ = ROk _ |- _ => apply (close_evolves _ Hnow) in E as (Hm1 & Hp1 & Hu1 & Ha1 & Hx1); clear E
  | E : calculate_oracle_mark_spread_pct _ _ _ _ (Some _) = ROk _ |- _ => apply spread_pct_typed in E
  end.
  match goal with E : (if ?b then _ else _) = ROk _ |- _ => apply oracle_update_evolves in E as Ham; [| done]; clear E end.
  split; [| done]. etrans; [exact Hc |]. rewrite !list_insert_insert_eq.
  eapply trade_evolves; [reflexivity | exact Hmk | | by rewrite Ha2, Ha1 | | by rewrite Hx1 | by rewrite Hms].
  - etrans; [exact Hm1 |]. etrans; [exact Hm2 |]. etrans; [by apply evolves_amm | done].
  - intros Htm Htu Htp. split; [by apply Hu2, Hu1 |]. apply Hp1. exact (Forall_lookup_1 _ _ _ _ Htp Hp).
Qed.

(** Only the user's fields and the deposits change. *)
Lemma user_evolves c u fp fr tr d :
  usr_authority u = usr_authority (ac_user c) -> (typed (ac_user c) -> typed u) ->
  accounts_evolve c (mkAccounts (ac_user_key c) u (ac_positions c) (ac_markets c) fp fr tr d).
Proof. intros Ha Ht. split; cbn; [done | done | done | auto | done]. Qed.

Lemma deposit_evolves amount c c' ts :
  deposit_collateral state now amount c = ROk (c', ts) -> accounts_evolve c c'.
Proof.
  unfold deposit_collateral, record_deposit. intros H. rust_inv. subst.
  match goal with E : settle_user _ _ = ROk _ |- _ => apply settle_evolves in E as [Hc _] end.
  transitivity v2; [| by apply user_evolves]. etrans; [| exact Hc].
  apply user_evolves; [done |]. intros Ht. untype. entype.
Qed.

Lemma withdraw_evolves vault insurance amount c c' ts :
  withdraw_collateral state now vault insurance amount c = ROk (c', ts) -> accounts_evolve c c'.
Proof.
  unfold withdraw_collateral, record_deposit. intros H. rust_inv. subst.
  match goal with E : settle_user _ _ = ROk _ |- _ => apply settle_evolves in E as [Hc _] end.
  etrans; [exact Hc |]. apply user_evolves; [done |]. intros Ht. untype. entype.
Qed.

Lemma liquidate_position_evolves key remaining full p l p' l' :
  liquidate_position state now clock_slot key remaining full p l = ROk (p', l') ->
  all_evolve (lq_markets l) (lq_markets l') /\ usr_authority (lq_user l') = usr_authority (lq_user l) /\
  (typed (lq_user l) -> typed (lq_user l')) /\ (typed p -> typed p').
Proof.
  unfold liquidate_position. destruct (_ =? 0); intros H; rust_inv; subst; [done |]. cbn.
  match goal with E : market_at _ _ = ROk _ |- _ => apply market_at_inv in E as Hmk end.
  destruct full; rust_inv; subst.
  - match goal with E : close _ _ _ _ = ROk _ |- _ => apply (close_evolves _ Hnow) in E as (? & ? & ? & ? & ?) end.
    split_and!; [by eapply all_evolve_insert | done..].
  - match goal with E : reduce _ _ _ _ _ _ _ = ROk _ |- _ =>
      apply (reduce_evolves _ Hnow) in E as (? & ? & ? & ? & ?) end.
    split_and!; [by eapply all_evolve_insert | done..].
Qed.

Lemma liquidate_positions_evolve key remaining full ps l ps' l' :
  liquidate_positions state now clock_slot key remaining full ps l = ROk (ps', l') ->
  all_evolve (lq_markets l) (lq_markets l') /\ usr_authority (lq_user l') = usr_authority (lq_user l) /\
  (typed (lq_user l) -> typed (lq_user l')) /\ (typed ps -> typed ps').
Proof.
  revert l ps' l'. induction ps as [| p ps IH]; cbn [liquidate_positions]; intros l ps' l' H.
  { rust_inv. by subst. }
  apply rust_bind_inv in H as ([p1 l1] & E1 & H). apply rust_bind_inv in H as ([ps1 l2] & E2 & H).
  rust_inv. subst. apply liquidate_position_evolves in E1 as (? & ? & ? & Hp1).
  apply IH in E2 as (? & ? & ? & Hps1). split_and!; [by etrans | congruence | auto |].
  intros [? ?]%Forall_cons. apply Forall_cons. split; [by apply Hp1 | by apply Hps1].
Qed.

Lemma liquidate_evolves remaining vault insurance liquidator c c' lq ts rec :
  liquidate_handler state now clock_slot remaining vault insurance liquidator c = ROk (c', lq, ts, rec) ->
  accounts_evolve c c' /\ (typed liquidator -> typed lq) /\ usr_authority lq = usr_authority liquidator.
Proof.
  unfold liquidate_handler. intros H. rust_inv. subst.
  match goal with E : settle_user _ _ = ROk _ |- _ => apply settle_evolves in E as [Hc _] end.
  match goal with E : liquidate_positions _ _ _ _ _ _ _ _ = ROk _ |- _ =>
    pose proof (liquidate_positions_shape _ _ _ _ _ _ _ _ _ _ E) as Hs;
    apply liquidate_positions_evolve in E as (Hms & Ha & Hu & Hp) end.
  cbn in *. split; [etrans; [exact Hc |]; split; cbn; [done | done | done | |] |].
  - intros Htm Htu Htp. split; [| by apply Hp]. specialize (Hu Htu).
    destruct (_ <=? _); rust_inv; subst; untype; entype.
  - intros Ho. eapply opened_evolve; [exact Hms |]. by eapply opened_shape.
  - destruct (0 <? _); rust_inv; subst; [| done]. split; [| done]. intros Ht. untype. entype.
Qed.
End Handlers.
