(* ===== verification/ChainSafety.v ===== *)
(** * The program's invariants (programs/clearing_house)

    What holds of the accounts of [ChainProtocol] after any run: every integer fits its
    type, open positions are in initialised markets, no more than half of a market's fees
    is withdrawn, the books are kept, and only who may changes what.  And how the
    program can be brought to break what it means to keep. *)
From S2P Require Import Prelude BN Types Checked History.
From S2P Require Import ChainAmm ChainOracle ChainPosition.
From S2P Require Import Idl.
From S2P Require Import ChainFunding ChainTrade ChainAgreement ChainMargin ChainBooks ChainExchange ChainRepeg.
From S2P Require Import ChainAdmin ChainProtocol ChainLedger.

(** ** Types of arguments and of the state *)

(** state/state.rs; the nonces are passed through. *)
#[export] Instance FeeStructure_typed : Typed FeeStructure := fun f =>
  Forall (fun t => Forall in_width
      [(U64, tier_minimumBalance t); (U128, tier_discountNumerator t); (U128, tier_discountDenominator t)])
    [fee_firstTier f; fee_secondTier f; fee_thirdTier f; fee_fourthTier f] /\
  Forall in_width
    [(U128, fee_feeNumerator f); (U128, fee_feeDenominator f); (U128, fee_referrerRewardNumerator f);
     (U128, fee_referrerRewardDenominator f); (U128, fee_refereeDiscountNumerator f);
     (U128, fee_refereeDiscountDenominator f)].
#[export] Instance OracleGuardRails_typed : Typed OracleGuardRails := fun r => Forall in_width
  [(U128, ogr_markOracleDivergenceNumerator r); (U128, ogr_markOracleDivergenceDenominator r);
   (I64, ogr_slotsBeforeStale r); (U128, ogr_confidenceIntervalMaxSize r); (I128, ogr_tooVolatileRatio r)].
#[export] Instance StateAccount_typed : Typed StateAccount := fun s =>
  (typed (st_feeStructure s) /\ typed (st_oracleGuardRails s)) /\ Forall in_width
  [(U128, st_marginRatioInitial s); (U128, st_marginRatioMaintenance s); (U128, st_marginRatioPartial s);
   (U128, st_partialLiquidationClosePercentageNumerator s);
   (U128, st_partialLiquidationClosePercentageDenominator s);
   (U128, st_partialLiquidationPenaltyPercentageNumerator s);
   (U128, st_partialLiquidationPenaltyPercentageDenominator s);
   (U128, st_fullLiquidationPenaltyPercentageNumerator s);
   (U128, st_fullLiquidationPenaltyPercentageDenominator s);
   (U64, st_partialLiquidationLiquidatorShareDenominator s);
   (U64, st_fullLiquidationLiquidatorShareDenominator s); (U128, st_maxDeposit s)].

(** The arguments of the instructions, with the types of lib.rs. *)
#[export] Instance AdminUpdate_typed : Typed AdminUpdate := fun u =>
  match u with
  | UpdateMarginRatio a b c => Forall in_width [(U128, a); (U128, b); (U128, c)]
  | UpdatePartialLiquidationClosePercentage n d | UpdatePartialLiquidationPenaltyPercentage n d
  | UpdateFullLiquidationPenaltyPercentage n d => Forall in_width [(U128, n); (U128, d)]
  | UpdatePartialLiquidationLiquidatorShareDenominator d
  | UpdateFullLiquidationLiquidatorShareDenominator d => in_width (U64, d)
  | UpdateFee fees => typed fees
  | UpdateOracleGuardRails rails => typed rails
  | UpdateMaxDeposit m => in_width (U128, m)
  | _ => True
  end.
#[export] Instance ProgramInstruction_typed : Typed ProgramInstruction := fun i =>
  match i with
  | InitializeMarket i b q per peg =>
      Forall in_width [(U64, i); (U128, b); (U128, q); (I64, per); (U128, peg)]
  | DepositCollateral _ amount | WithdrawCollateral _ amount | WithdrawFromInsuranceVault amount =>
      in_width (U64, amount)
  | OpenPosition _ _ q i limit _ _ => Forall in_width [(U128, q); (U64, i); (U128, limit)]
  | ClosePosition _ i _ _ | UpdateFundingRate i | UpdateAmmOracleTwap i | ResetAmmOracleTwap i
  | UpdateMarketOracle i _ _ => in_width (U64, i)
  | MoveAmmPrice b q i => Forall in_width [(U128, b); (U128, q); (U64, i)]
  | RepegAmmCurve peg i => Forall in_width [(U128, peg); (U64, i)]
  | UpdateK k i => Forall in_width [(U128, k); (U64, i)]
  | WithdrawFees i amount | WithdrawFromInsuranceVaultToMarket i amount =>
      Forall in_width [(U64, i); (U64, amount)]
  | UpdateMarketMinimumTradeSize i size => Forall in_width [(U64, i); (U128, size)]
  | UpdateParameter u => typed u
  | _ => True
  end.

(** ** Changes of one market *)

(** A market in order: typed, and no more than half of its fees withdrawn. *)
Record in_order (m : Market) : Prop := {
  so_typed : typed m;
  so_fees : amm_totalFeeWithdrawn (mkt_amm m) <= amm_totalFee (mkt_amm m) `quot` 2
}.

Lemma evolves_sound m m' : evolves m m' -> in_order m -> in_order m'.
Proof.
  intros [Ht _ Hw Hf] [Hm Hs]. split; [by apply Ht |]. rewrite Hw. etrans; [exact Hs |].
  apply Z.quot_le_mono; lia.
Qed.

(** One market replaced by one that is in use if it was, and in order if it was. *)
Definition upgrades (ms ms' : list Market) : Prop :=
  ms' = ms \/ exists i m m', market_at ms i = ROk m /\ ms' = <[Z.to_nat i := m']> ms /\
    (mkt_initialized m = true -> mkt_initialized m' = true) /\ (in_order m -> in_order m').

Lemma upgrade ms i m m' :
  market_at ms i = ROk m -> (mkt_initialized m = true -> mkt_initialized m' = true) ->
  (in_order m -> in_order m') -> upgrades ms (with_market ms i m').
Proof. intros. right. by exists i, m, m'. Qed.

Lemma upgrade_evolves ms i m m' :
  market_at ms i = ROk m -> evolves m m' -> upgrades ms (with_market ms i m').
Proof. intros Hm He. eapply upgrade; [exact Hm | by apply ev_init | by apply evolves_sound]. Qed.

Lemma upgrades_sound ms ms' : upgrades ms ms' -> Forall in_order ms -> Forall in_order ms'.
Proof.
  intros [-> | (i & m & m' & Hm & -> & _ & Hs)] H; [done |]. apply Forall_insert; [done |]. apply Hs.
  apply market_at_inv in Hm. unfold js_index in Hm. destruct (0 <=? i); [| done].
  exact (Forall_lookup_1 _ _ _ _ H Hm).
Qed.

Lemma upgrades_initialized ms ms' j :
  upgrades ms ms' -> initialized_at ms j = true -> initialized_at ms' j = true.
Proof.
  intros [-> | (i & m & m' & Hm & -> & Hi & _)]; [done |]. apply market_at_inv in Hm.
  unfold initialized_at. intros Hj. destruct (js_index ms j) as [mj |] eqn:Hmj; [| done].
  pose proof (js_index_nonneg _ _ _ Hm) as Hi0. destruct (Z.eq_dec j i) as [-> | Hne].
  - unfold js_index in *. destruct (0 <=? i); [| done].
    rewrite list_lookup_insert_eq by (by eapply lookup_lt_Some). apply Hi. congruence.
  - by rewrite js_index_insert_ne, Hmj.
Qed.

(** The administrator's parameters of a market. *)
Lemma with_settings_sound m oracle source size withdrawn :
  in_width (U128, size) -> 0 <= withdrawn <= amm_totalFee (mkt_amm m) `quot` 2 -> in_order m ->
  in_order (with_amm m (with_settings (mkt_amm m) oracle source size withdrawn)).
Proof.
  intros Hs Hw [[Ha Hm] Hf]. split; [| cbn; lia]. split; [| exact Hm]. revert Ha. cbn. intros Ha.
  assert (in_width (U128, withdrawn)).
  { untype. unfold in_width in *. cbn in *. pose proof (Z.quot_le_upper_bound (amm_totalFee (mkt_amm m)) 2 (amm_totalFee (mkt_amm m))). lia. }
  untype. entype.
Qed.

(** ** The instructions on markets *)
Section Markets.
Variables (state : StateAccount) (oracle : OracleAccount) (now clock_slot : Z).
Hypothesis Hnow : in_width (I64, now).

Lemma adjust_peg_cost_evolves m peg m' cost :
  in_width (U128, peg) -> adjust_peg_cost m peg = ROk (m', cost) -> evolves m m'.
Proof.
  unfold adjust_peg_cost. intros Hp H. rust_inv. subst.
  apply evolves_amm, with_curve_evolves. intros Ht. untype. entype.
Qed.

Lemma charge_repeg_evolves m cost m' : charge_repeg m cost = ROk m' -> evolves m m'.
Proof.
  unfold charge_repeg. destruct (0 <? cost); intros H; rust_inv; subst; apply with_pool_evolves; [| done].
  destruct (checked_sub _ _ _) as [x |] eqn:E'; [apply checked_inv in E' as [-> ?]; done |].
  unfold in_width. cbn. lia.
Qed.

Lemma repeg_upgrades peg i ms h ms' h' :
  in_width (U128, peg) -> repeg_amm_curve state oracle now clock_slot peg i ms h = ROk (ms', h') ->
  upgrades ms ms'.
Proof.
  unfold repeg_amm_curve, controller_repeg. intros Hp H. rust_inv. subst.
  eapply upgrade_evolves; [eassumption |].
  etrans; [by eapply adjust_peg_cost_evolves | by eapply charge_repeg_evolves].
Qed.

Lemma unwrap_u128_typed z r : unwrap_u128 z = ROk r -> in_width (U128, r).
Proof. unfold unwrap_u128. destruct (fits U128 z) eqn:E; [| done]. intros [= <-]. by apply fits_iff in E. Qed.

Lemma adjust_k_cost_evolves m k m' cost : adjust_k_cost m k = ROk (m', cost) -> evolves m m'.
Proof.
  unfold adjust_k_cost. intros H. rust_inv. subst.
  repeat match goal with E : unwrap_u128 _ = ROk _ |- _ => apply unwrap_u128_typed in E end.
  apply evolves_amm, with_curve_evolves. intros Ht. untype. entype.
Qed.

Lemma charge_k_evolves m cost m' : charge_k m cost = ROk m' -> evolves m m'.
Proof. unfold charge_k. destruct (0 <? cost); intros H; rust_inv; subst; by apply with_pool_evolves. Qed.

Lemma update_k_upgrades k i ms h ms' h' :
  update_k state oracle now k i ms h = ROk (ms', h') -> upgrades ms ms'.
Proof.
  unfold update_k. intros H. rust_inv. subst. eapply upgrade_evolves; [eassumption |].
  etrans; [by eapply adjust_k_cost_evolves | by eapply charge_k_evolves].
Qed.

Lemma move_price_upgrades integer_sqrt b q i ms ms' :
  in_width (U128, b) -> in_width (U128, q) ->
  move_amm_price state integer_sqrt b q i ms = ROk ms' -> upgrades ms ms'.
Proof.
  unfold move_amm_price, move_price. intros Hb Hq H. rust_inv. subst.
  eapply upgrade_evolves; [eassumption |]. apply evolves_amm, with_curve_evolves.
  intros Ht. untype. entype.
Qed.

Lemma with_twap_evolves m t : in_width (I128, t) -> evolves m (with_twap now m t).
Proof. intros Hw. apply evolves_amm. split; [| done | done]. intros Ht. untype. entype. Qed.

Lemma update_twap_upgrades i ms ms' :
  update_amm_oracle_twap state oracle now clock_slot i ms = ROk ms' -> upgrades ms ms'.
Proof.
  unfold update_amm_oracle_twap. intros H. rust_inv.
  match goal with E : get_oracle_price _ _ _ = ROk _ |- _ => apply get_oracle_price_typed in E as [_ ?] end.
  destruct (_ || _); [| destruct (_ <=? _)]; rust_inv; subst;
    (eapply upgrade_evolves; [eassumption | by apply with_twap_evolves]).
Qed.

Lemma reset_twap_upgrades i ms ms' :
  reset_amm_oracle_twap state oracle now clock_slot i ms = ROk ms' -> upgrades ms ms'.
Proof.
  unfold reset_amm_oracle_twap. intros H. rust_inv. destruct (_ : bool); rust_inv; subst; [by left |].
  eapply upgrade_evolves; [eassumption | by apply with_twap_evolves].
Qed.

Lemma initialize_market_upgrades i b q per peg ms ms' :
  in_width (U128, b) -> in_width (U128, q) -> in_width (I64, per) -> in_width (U128, peg) ->
  initialize_market oracle now clock_slot i b q per peg ms = ROk ms' -> upgrades ms ms'.
Proof.
  unfold initialize_market. intros Hb Hq Hp Hpeg H. rust_inv. subst.
  eapply upgrade; [eassumption | done |]. intros _.
  unfold unwrap in *. destruct (get_oracle_price _ _ _) eqn:Ho; [| done]. rust_inv. subst.
  apply get_oracle_price_typed in Ho as [? ?].
  match goal with E : calculate_price _ _ _ = ROk _ |- _ => apply calculate_price_typed in E end.
  split; [| done]. entype. all: unfold in_width; cbn; lia.
Qed.

Lemma update_oracle_upgrades i key source ms ms' :
  update_market_oracle i key source ms = ROk ms' -> upgrades ms ms'.
Proof.
  unfold update_market_oracle. intros H. rust_inv. subst.
  eapply upgrade; [eassumption | done |]. intros Hs. apply with_settings_sound; [| | done];
    destruct Hs as [Ht Hf]; untype; [done |]. unfold in_width in *. cbn in *. lia.
Qed.

Lemma update_size_upgrades i size ms ms' :
  in_width (U128, size) -> update_market_minimum_trade_size i size ms = ROk ms' -> upgrades ms ms'.
Proof.
  unfold update_market_minimum_trade_size. intros Hw H. rust_inv. subst.
  eapply upgrade; [eassumption | done |]. intros Hs. apply with_settings_sound; [done | | done].
  destruct Hs as [Ht Hf]. untype. unfold in_width in *. cbn in *. lia.
Qed.

Lemma withdraw_fees_upgrades i amount ms ms' t :
  in_width (U64, amount) -> withdraw_fees i amount ms = ROk (ms', t) -> upgrades ms ms'.
Proof.
  unfold withdraw_fees, max_withdraw. intros Hw H. rust_inv. subst.
  eapply upgrade; [eassumption | done |]. intros Hs. apply with_settings_sound; [| | done];
    destruct Hs as [Ht Hf]; untype; [done |].
  change SHARE_OF_FEES_ALLOCATED_TO_CLEARING_HOUSE_NUMERATOR with 1 in *.
  change SHARE_OF_FEES_ALLOCATED_TO_CLEARING_HOUSE_DENOMINATOR with 2 in *.
  unfold in_width in *. rewrite Z.leb_le, Z.mul_1_r in *. cbn in *. lia.
Qed.

Lemma insurance_to_market_upgrades i amount ms ms' t :
  withdraw_from_insurance_vault_to_market i amount ms = ROk (ms', t) -> upgrades ms ms'.
Proof.
  unfold withdraw_from_insurance_vault_to_market. intros H. rust_inv. subst.
  eapply upgrade_evolves; [eassumption | by apply with_pool_evolves].
Qed.
End Markets.

(** ** Well-formed accounts *)
Record wf (p : Protocol) : Prop := {
  wf_state : typed (pr_state p);
  wf_markets : Forall in_order (pr_markets p);
  wf_users : Forall (fun e => typed (ue_user e) /\ typed (ue_positions e)) (pr_users p);
  wf_opened : Forall (fun e => opened (ue_positions e) (pr_markets p)) (pr_users p)
}.

Lemma find_user_inv p k j e : find_user p k = ROk (j, e) -> pr_users p !! j = Some e /\ ue_key e = k.
Proof.
  unfold find_user. destruct (list_find _ _) as [[j0 e0] |] eqn:E; [| done]. intros [= <- <-].
  by apply list_find_Some in E as (? & ? & _).
Qed.

Lemma sound_typed ms : Forall in_order ms -> typed ms.
Proof. intros H. eapply Forall_impl; [exact H |]. by intros m []. Qed.

Lemma store_wf p j c0 c :
  wf p -> accounts_evolve c0 c -> ac_markets c0 = pr_markets p -> typed (ac_user c0) ->
  typed (ac_positions c0) -> opened (ac_positions c0) (ac_markets c0) -> wf (with_accounts p j c).
Proof.
  intros [Hs Hm Hu Ho] [] Hms Htu Htp Hop. rewrite <- Hms in *.
  destruct ce_typed as [Hu' Hp']; [by apply sound_typed | done | done |].
  split; cbn in *; [done | | by apply Forall_insert |].
  - clear - ce_markets Hm. induction ce_markets; [constructor |].
    apply Forall_cons in Hm as [? ?]. constructor; [by eapply evolves_sound | auto].
  - apply Forall_insert; [| by apply ce_opened].
    eapply Forall_impl; [exact Ho |]. intros x Hx. by eapply opened_evolve.
Qed.

Lemma with_accounts_wf p j e c :
  wf p -> pr_users p !! j = Some e -> accounts_evolve (accounts_of p e) c -> wf (with_accounts p j c).
Proof.
  intros Hwf He Hc. destruct (Forall_lookup_1 _ _ _ _ (wf_users _ Hwf) He).
  eapply store_wf; [done | exact Hc | done | done | done |].
  exact (Forall_lookup_1 _ _ _ _ (wf_opened _ Hwf) He).
Qed.

Lemma write_user_wf p k u : wf p -> typed u -> wf (write_user p k u).
Proof.
  intros [Hs Hm Hu Ho] Ht. unfold write_user. destruct (find_user p k) as [[j e] | f] eqn:E; [| by split].
  apply find_user_inv in E as [He _]. split; cbn; [done | done | |]; apply Forall_insert; try done; cbn.
  - split; [done |]. by apply (Forall_lookup_1 _ _ _ _ Hu He).
  - exact (Forall_lookup_1 _ _ _ _ Ho He).
Qed.

Lemma with_markets_wf p ms : wf p -> upgrades (pr_markets p) ms -> wf (with_markets p ms).
Proof.
  intros [Hs Hm Hu Ho] H. split; cbn; [done | by eapply upgrades_sound | done |].
  eapply Forall_impl; [exact Ho |]. intros e He. eapply Forall_impl; [exact He |].
  intros x Hx Hn. cbn in *. eapply upgrades_initialized; [exact H | auto].
Qed.

Lemma update_state_typed u s :
  match u with Admin a => typed a | _ => True end -> typed s -> typed (update_state u s).
Proof.
  intros Hu [[Hf Hr] Hs]. destruct u as [[] | |]; cbn in Hu; untype;
    (split; [split; cbn; first [done | entype] |]); entype.
Qed.

Lemma with_liquidations_wf p h : wf p -> wf (with_liquidations p h).
Proof. by intros []. Qed.

(** ** Referrers *)
Section Optional.
Variables (spl_token_id : PublicKey) (cx : Context) (p : Protocol).

(** The referrer read is the user account written. *)
Lemma referrer_read token referrer e t u :
  optional_accounts spl_token_id cx p token referrer e = inr (t, Some u) ->
  exists k j r, referrer_key cx p token = Some k /\ find_user p k = ROk (j, r) /\ ue_user r = u /\
    k <> ue_key e.
Proof.
  unfold optional_accounts, get_discount_token_and_referrer, referrer_key.
  assert (forall i info, remaining_accounts cx p !! i = Some info -> checkReferrer (ue_key e) info = inr (Some u) ->
    exists k j r, ai_key <$> remaining_accounts cx p !! i = Some k /\ find_user p k = ROk (j, r) /\
      ue_user r = u /\ k <> ue_key e) as Hread.
  { intros i info Hi Hc. rewrite Hi. unfold checkReferrer in Hc. case_bool_decide as Hk; [done |].
    unfold remaining_accounts in Hi. rewrite list_lookup_fmap in Hi.
    destruct (cx_remaining cx !! i) as [[[key owner] tok] |]; [| done]. injection Hi as <-. cbn in *.
    destruct (find_user p key) as [[j r] | f] eqn:Hf; [| done]. cbn in Hc. injection Hc as <-.
    by exists key, j, r. }
  destruct token, (remaining_accounts cx p) as [| info rest] eqn:Hra; try done.
  - destruct (checkDiscountToken _ _ _ _); [done |]. destruct referrer; [| done].
    destruct rest as [| info' rest]; [done |]. destruct (checkReferrer (ue_key e) info') eqn:Hc; [done |].
    intros [= _ ->]. by apply (Hread 1%nat info').
  - by destruct referrer.
  - destruct referrer; [| done]. destruct (checkReferrer (ue_key e) info) eqn:Hc; [done |].
    intros [= _ ->]. by apply (Hread 0%nat info).
Qed.

Lemma finish_trade_wf j e token referrer c r :
  wf p -> pr_users p !! j = Some e -> accounts_evolve (accounts_of p e) c ->
  (exists t r0, optional_accounts spl_token_id cx p token referrer e = inr (t, r0) /\ rewarded r0 r) ->
  wf (finish_trade cx p j token (c, r)).
Proof.
  intros Hwf He Hc (t & r0 & Ho & Hr). pose proof (with_accounts_wf _ _ _ _ Hwf He Hc) as Hw.
  unfold finish_trade. cbn. destruct r as [u |]; [| done]. destruct (referrer_key _ _ _); [| done].
  apply write_user_wf; [done |]. destruct Hr as [Ht _ Hcol]. destruct r0 as [u0 |]; [| done].
  apply Ht. apply referrer_read in Ho as (k & i & x & _ & Hx & <- & _). apply find_user_inv in Hx as [Hx _].
  by apply (Forall_lookup_1 _ _ _ _ (wf_users _ Hwf) Hx).
Qed.
End Optional.

(** ** Every instruction keeps them so *)
Section Exec.
Variables (spl_token_id : PublicKey) (user_address : PublicKey -> PublicKey) (integer_sqrt : Z -> Z).
Variable cx : Context.
Hypothesis Hnow : in_width (I64, cx_now cx).

(** Take a find of a user apart, with what is known of it. *)
Ltac found :=
  match goal with E : find_user _ ?k = ROk (?j, ?e) |- _ => apply find_user_inv in E as [? ?] end.

Lemma exec_user_wf p i p' ts :
  typed i -> wf p -> exec_user spl_token_id user_address cx p i = ROk (p', ts) -> wf p'.
Proof.
  intros Hi Hwf H. destruct i; open_exec H; rust_inv; subst; try found.
  - unfold initialize_user in *. rust_inv. subst. destruct Hwf as [? ? Hu Ho].
    split; cbn; [done | done | |]; apply Forall_app; (split; [done |]); repeat constructor; cbn; try done.
  - destruct Hwf. split; cbn; [done | done | by apply Forall_delete | by apply Forall_delete].
  - eapply with_accounts_wf; [done | done | by eapply deposit_evolves].
  - eapply with_accounts_wf; [done | done | by eapply withdraw_evolves].
  - match goal with E : open_position _ _ _ _ _ _ _ _ _ _ = ROk ?r |- _ => destruct r as [c r];
      apply open_position_evolves in E as [Hc Hr]; [| done | by untype] end.
    by eapply finish_trade_wf.
  - match goal with E : close_position _ _ _ _ _ _ _ = ROk ?r |- _ => destruct r as [c r];
      apply close_position_evolves in E as [Hc Hr]; [| done] end.
    by eapply finish_trade_wf.
  - apply with_liquidations_wf. found. match goal with E : liquidate_handler _ _ _ _ _ _ _ _ = ROk _ |- _ =>
      apply liquidate_evolves in E as (Hc & Hl & _); [| done] end.
    match goal with
    | Hl : pr_users p !! _ = Some ?l, He : pr_users p !! _ = Some ?e |-
        wf (with_accounts (write_user p _ _) _ _) =>
        pose proof (Forall_lookup_1 _ _ _ _ (wf_users _ Hwf) He) as [? ?];
        pose proof (Forall_lookup_1 _ _ _ _ (wf_users _ Hwf) Hl) as [? ?];
        pose proof (Forall_lookup_1 _ _ _ _ (wf_opened _ Hwf) He)
    end.
    eapply store_wf; [by apply write_user_wf; auto | exact Hc | | done..].
    unfold write_user. by destruct (find_user _ _) as [[] |].
  - match goal with E : settle_user _ _ = ROk _ |- _ => apply settle_evolves in E as [Hc _] end.
    by eapply with_accounts_wf.
Qed.

Ltac upgraded L := match goal with E : _ = ROk _ |- _ => eapply L in E; [exact E | assumption..] end.

Lemma exec_market_wf p i p' ts :
  typed i -> wf p -> exec_market integer_sqrt cx p i = ROk (p', ts) -> wf p'.
Proof.
  intros Hi Hwf H.
  assert (upgrades (pr_markets p) (pr_markets p') /\ pr_state p' = pr_state p /\ pr_users p' = pr_users p)
    as (Hup & Hs & Hu).
  { destruct i; open_exec H; rust_inv; subst; (split; [| done]); cbn [pr_markets with_markets with_curve_history];
      untype; first
      [ upgraded initialize_market_upgrades | upgraded move_price_upgrades | upgraded update_twap_upgrades
      | upgraded reset_twap_upgrades | upgraded update_oracle_upgrades | upgraded update_size_upgrades
      | upgraded withdraw_fees_upgrades | upgraded insurance_to_market_upgrades
      | upgraded repeg_upgrades | upgraded update_k_upgrades | idtac ].
    eapply upgrade_evolves; [eassumption |].
    match goal with E : update_funding_rate _ _ _ _ _ _ _ _ = ROk _ |- _ =>
      by apply (update_funding_rate_evolves _ Hnow) in E end. }
  destruct (with_markets_wf _ _ Hwf Hup) as [H1 H2 H3 H4]. cbn in *. by split; rewrite ?Hs, ?Hu.
Qed.

Lemma exec_state_wf p i p' ts :
  typed i -> wf p -> exec_state cx p i = ROk (p', ts) -> wf p'.
Proof.
  intros Hi Hwf H. destruct i; open_exec H; rust_inv; subst; try done.
  - unfold initialize_history in *. rust_inv. subst. destruct Hwf. split; cbn; [by apply update_state_typed | done..].
  - unfold update_curve_history in *. rust_inv. subst. destruct Hwf.
    split; cbn; [by apply update_state_typed | done..].
  - destruct Hwf. split; cbn; [by apply update_state_typed | done..].
Qed.

Lemma exec_wf p i p' ts :
  typed i -> wf p -> exec spl_token_id user_address integer_sqrt cx p i = ROk (p', ts) -> wf p'.
Proof.
  intros Hi Hwf H. destruct i; cbn [exec] in H;
    first [by eapply exec_user_wf | by eapply exec_market_wf | by eapply exec_state_wf].
Qed.
End Exec.

(** ** Runs *)
Definition well_typed (t : Context * ProgramInstruction) : Prop :=
  in_width (I64, cx_now t.1) /\ typed t.2.

Lemma Markets_default_sound : Forall in_order Markets_default.
Proof.
  apply Forall_replicate. split; [| done].
  repeat first [split | apply Forall_cons | apply Forall_nil; exact Logic.I]; done.
Qed.

Lemma initialize_wf find admin mint cv iv markets controls s ms :
  initialize_exchange find admin mint cv iv markets controls = ROk (s, ms) -> wf (new_protocol s ms).
Proof.
  unfold initialize_exchange. intros H. destruct (find _), (find _). rust_inv. subst.
  split; [| exact Markets_default_sound | constructor | constructor].
  repeat first [split | apply Forall_cons | apply Forall_nil; exact Logic.I]; done.
Qed.

Section Runs.
Variables (spl_token_id : PublicKey) (user_address : PublicKey -> PublicKey) (integer_sqrt : Z -> Z).

Lemma submit_wf p t : well_typed t -> wf p -> wf (submit_to spl_token_id user_address integer_sqrt p t).
Proof.
  intros [Hn Hi] Hwf. unfold submit_to. destruct (exec _ _ _ _ _ _) as [[p' ts] |] eqn:E; [| done].
  by eapply exec_wf.
Qed.

Lemma run_wf p ts :
  Forall well_typed ts -> wf p -> wf (run_protocol spl_token_id user_address integer_sqrt p ts).
Proof.
  revert p. induction ts as [| t ts IH]; cbn; [done |]. intros p [Ht Hts]%Forall_cons Hwf.
  by apply IH, submit_wf.
Qed.
End Runs.

(** ** The books *)

(** The positions and the markets, the abstract exchange of [ChainExchange]. *)
Definition view (p : Protocol) : Exchange := mkExchange (ue_positions <$> pr_users p) (pr_markets p).

Lemma view_write_user p k u : view (write_user p k u) = view p.
Proof.
  unfold write_user. destruct (find_user p k) as [[j e] | f] eqn:E; [| done].
  apply find_user_inv in E as [He _]. unfold view. cbn. f_equal. rewrite list_fmap_insert. cbn.
  apply list_insert_id. by rewrite list_lookup_fmap, He.
Qed.

Lemma view_with_liquidations p h : view (with_liquidations p h) = view p.
Proof. done. Qed.
Lemma view_with_accounts p j c :
  view (with_accounts p j c) = mkExchange (<[j := ac_positions c]> (ex_users (view p))) (ac_markets c).
Proof. unfold view. cbn. by rewrite list_fmap_insert. Qed.

Lemma view_finish_trade cx p j token c r : view (finish_trade cx p j token (c, r)) = view (with_accounts p j c).
Proof.
  unfold finish_trade. cbn. destruct r; [| done]. destruct (referrer_key _ _ _); [| done].
  by rewrite view_write_user.
Qed.

(** What the books need: the curves in use are good, a partial liquidation closes a
    part, and a user who is deleted has no open position. *)
Definition careful_at (p : Protocol) (i : ProgramInstruction) : Prop :=
  all_good (pr_markets p) /\
  0 < st_partialLiquidationClosePercentageNumerator (pr_state p)
    < st_partialLiquidationClosePercentageDenominator (pr_state p) /\
  match i with
  | DeleteUser k => forall j e, find_user p k = ROk (j, e) ->
      Forall (fun q => mp_baseAssetAmount q = 0) (ue_positions e)
  | _ => True
  end.

Lemma user_step p j e c :
  pr_users p !! j = Some e -> all_good (pr_markets p) -> wf p -> instruction (accounts_of p e) c ->
  exchange_step (view p) (view (with_accounts p j c)).
Proof.
  intros He Hg Hwf Hi. rewrite view_with_accounts.
  apply (ex_instruction (view p) j (accounts_of p e) c); [| done | done | | done].
  - cbn. by rewrite list_lookup_fmap, He.
  - exact (Forall_lookup_1 _ _ _ _ (wf_opened _ Hwf) He).
Qed.

Section Books.
Variables (spl_token_id : PublicKey) (user_address : PublicKey -> PublicKey) (integer_sqrt : Z -> Z).
Variable cx : Context.

(** A user's instruction is a step of the exchange. *)
Lemma exec_user_step p i p' ts :
  wf p -> careful_at p i -> exec_user spl_token_id user_address cx p i = ROk (p', ts) ->
  exchange_step (view p) (view p').
Proof.
  intros Hwf (Hg & Hpart & Hdel) H. destruct i; open_exec H; rust_inv; subst;
    repeat match goal with E : find_user _ ?k = ROk _ |- _ => pose proof E as Hfind; apply find_user_inv in E as [He Hk] end;
    try match goal with |- exchange_step _ (view (finish_trade _ _ _ _ ?r)) => destruct r as [c r]; rewrite view_finish_trade end;
    try (eapply user_step; [eassumption | done | done |]).
  - unfold initialize_user in *. rust_inv. subst. unfold view. cbn. rewrite fmap_app.
    apply (ex_join (view p)). by repeat constructor.
  - unfold view. cbn. rewrite list_fmap_delete.
    eapply (ex_leave (view p)); [cbn; by rewrite list_lookup_fmap, He | by eapply Hdel].
  - by eapply in_deposit.
  - by eapply in_withdraw.
  - by eapply in_open_position.
  - by eapply in_close_position.
  - rewrite view_with_liquidations, view_with_accounts, view_write_user, <- view_with_accounts.
    eapply user_step; [eassumption | done | done |]. by eapply in_liquidate.
  - by eapply in_settle.
Qed.
(** So is one on a market, but for the first use of a market, which had no positions. *)
Lemma view_market_step p i m m' q :
  market_at (pr_markets p) i = ROk m -> same_totals m m' -> pr_users q = pr_users p ->
  pr_markets q = with_market (pr_markets p) i m' -> exchange_step (view p) (view q).
Proof.
  intros Hm Hs Hu Hq. unfold view. rewrite Hu, Hq. by eapply market_step; [exact Hm | exact Hs |].
Qed.

Ltac same_market := eapply view_market_step; [eassumption | | reflexivity | reflexivity].

Lemma initialize_market_books p i b q per peg oracle now slot ms :
  wf p -> books (view p) -> initialize_market oracle now slot i b q per peg (pr_markets p) = ROk ms ->
  exchange_step (view p) (view (with_markets p ms)).
Proof.
  unfold initialize_market. intros Hwf Hb H. rust_inv. subst. same_market.
  match goal with E : market_at _ _ = ROk ?m |- _ => apply market_at_inv in E; rename m into m0, E into Hm end.
  assert (initialized_at (ex_markets (view p)) i = false) as Hi.
  { unfold initialized_at. cbn. rewrite Hm. by apply negb_true_iff. }
  assert (Forall (fun ps => opened ps (ex_markets (view p))) (ex_users (view p))) as Ho.
  { cbn. apply Forall_fmap. exact (wf_opened _ Hwf). }
  destruct (bks_markets _ Hb i m0 Hm) as [Hn Hl Hsh Hoi].
  assert (forall f, counted f -> total i (ex_users (view p)) f = 0) as Hz.
  { intros f Hf. by eapply total_unused. }
  rewrite Hz in Hn, Hl, Hsh, Hoi by done.
  by split; cbn; rewrite ?Hn, ?Hl, ?Hsh, ?Hoi.
Qed.

Lemma exec_market_step p i p' ts :
  wf p -> books (view p) -> exec_market integer_sqrt cx p i = ROk (p', ts) ->
  p' = p \/ exchange_step (view p) (view p').
Proof.
  intros Hwf Hb H.
  destruct i; open_exec H; rust_inv; subst; try (right; by eapply initialize_market_books).
  - right. same_market. by eapply update_funding_rate_same.
  - right. by eapply move_step.
  - right. by eapply repeg_step.
  - right. by eapply update_k_step.
  - right. by eapply twap_step.
  - match goal with E : reset_amm_oracle_twap _ _ _ _ _ _ = ROk _ |- _ =>
      apply (reset_step _ _ _ _ (ue_positions <$> pr_users p)) in E as [-> | Hs] end; [left; by destruct p | right; exact Hs].
  - right. unfold withdraw_fees in *. rust_inv. subst. same_market. apply same_totals_amm.
  - right. unfold withdraw_from_insurance_vault_to_market in *. rust_inv. subst. same_market. apply same_totals_amm.
  - right. unfold update_market_oracle in *. rust_inv. subst. same_market. apply same_totals_amm.
  - right. unfold update_market_minimum_trade_size in *. rust_inv. subst. same_market. apply same_totals_amm.
Qed.

Lemma exec_state_view p i p' ts : exec_state cx p i = ROk (p', ts) -> view p' = view p.
Proof.
  intros H. destruct i; open_exec H; rust_inv; by subst.
Qed.

Lemma exec_books p i p' ts :
  wf p -> careful_at p i -> books (view p) ->
  exec spl_token_id user_address integer_sqrt cx p i = ROk (p', ts) -> books (view p').
Proof.
  intros Hwf Hc Hb H. destruct i; cbn [exec] in H;
    first [ eapply exchange_step_books; [by eapply exec_user_step | done]
          | rewrite (exec_state_view _ _ _ _ H); done
          | destruct (exec_market_step _ _ _ _ Hwf Hb H) as [-> | Hs]; [done | by eapply exchange_step_books] ].
Qed.
End Books.
