(* ===== verification/ChainHistories.v ===== *)
(** * The records the program writes (programs/clearing_house: state/history, lib.rs)

    Every record of the six histories fits the types state/history/*.rs gives its fields:
    first what the functions a record is made of return, then one lemma per place
    that appends a record, then every instruction of [ChainProtocol]. *)
From S2P Require Import Prelude BN Types Checked History.
From S2P Require Import ChainAmm ChainOracle ChainPosition.
From S2P Require Import Idl.
From S2P Require Import ChainFunding ChainTrade ChainAgreement ChainMargin ChainBooks ChainExchange ChainRepeg.
From S2P Require Import ChainAdmin ChainProtocol ChainLedger ChainSafety.

(** ** The types of the records *)

(** A ring within its array. *)
#[export] Instance History_typed `{Typed R} : Typed (History R) := fun h =>
  (length (records h) <= 1024)%nat /\ in_width (U64, head h) /\ Forall typed (records h).

#[export] Instance TradeRecord_typed : Typed TradeRecord := fun r => Forall in_width
  [(I64, tr_ts r); (U128, tr_record_id r); (U128, tr_base_asset_amount r);
   (U128, tr_quote_asset_amount r); (U128, tr_mark_price_before r); (U128, tr_mark_price_after r);
   (U128, tr_fee r); (U128, tr_referrer_reward r); (U128, tr_referee_discount r);
   (U128, tr_token_discount r); (U64, tr_market_index r); (I128, tr_oracle_price r)].
#[export] Instance DepositRecord_typed : Typed DepositRecord := fun r => Forall in_width
  [(I64, dr_ts r); (U128, dr_record_id r); (U128, dr_collateral_before r);
   (I128, dr_cumulative_deposits_before r); (U64, dr_amount r)].
#[export] Instance FundingPaymentRecord_typed : Typed FundingPaymentRecord := fun r => Forall in_width
  [(I64, fp_ts r); (U128, fp_record_id r); (U64, fp_market_index r); (I128, fp_funding_payment r);
   (I128, fp_base_asset_amount r); (I128, fp_user_last_cumulative_funding r);
   (I64, fp_user_last_funding_rate_ts r); (I128, fp_amm_cumulative_funding_long r);
   (I128, fp_amm_cumulative_funding_short r)].
#[export] Instance FundingRateRecord_typed : Typed FundingRateRecord := fun r => Forall in_width
  [(I64, fr_ts r); (U128, fr_record_id r); (U64, fr_market_index r); (I128, fr_funding_rate r);
   (I128, fr_cumulative_funding_rate_long r); (I128, fr_cumulative_funding_rate_short r);
   (U128, fr_mark_price_twap r); (I128, fr_oracle_price_twap r)].
#[export] Instance LiquidationRecord_typed : Typed LiquidationRecord := fun r => Forall in_width
  [(U128, lr_base_asset_value r); (U128, lr_base_asset_value_closed r); (U128, lr_liquidation_fee r);
   (U64, lr_fee_to_liquidator r); (U64, lr_fee_to_insurance_fund r); (U128, lr_total_collateral r);
   (U128, lr_collateral r); (I128, lr_unrealized_pnl r); (U128, lr_margin_ratio r)].
#[export] Instance LiquidationEntry_typed : Typed LiquidationEntry := fun r =>
  Forall in_width [(I64, le_ts r); (U128, le_record_id r)] /\ typed (le_amounts r).
#[export] Instance ExtendedCurveRecord_typed : Typed ExtendedCurveRecord := fun r => Forall in_width
  [(I64, ec_ts r); (U128, ec_record_id r); (U64, ec_market_index r);
   (U128, ec_peg_multiplier_before r); (U128, ec_base_asset_reserve_before r);
   (U128, ec_quote_asset_reserve_before r); (U128, ec_sqrt_k_before r);
   (U128, ec_peg_multiplier_after r); (U128, ec_base_asset_reserve_after r);
   (U128, ec_quote_asset_reserve_after r); (U128, ec_sqrt_k_after r);
   (U128, ec_base_asset_amount_long r); (U128, ec_base_asset_amount_short r);
   (I128, ec_base_asset_amount r); (U128, ec_open_interest r); (U128, ec_total_fee r);
   (U128, ec_total_fee_minus_distributions r); (I128, ec_adjustment_cost r); (I128, ec_oracle_price r);
   (U128, ec_trade_record r)].
(** The records of the old curve history are those fields but the last two. *)
#[export] Instance CurveRecord_typed : Typed CurveRecord := fun r => typed (extended_record r).

(** ** Appending *)
Section Append.
Context {R : Type} `{Numbered R, Typed R}.
Implicit Types (h : History R).

Lemma next_record_id_typed h id : next_record_id h = ROk id -> in_width (U128, id).
Proof.
  unfold next_record_id. intros Hn. rust_inv. subst. unfold in_width. cbn [fst snd lowest highest].
  match goal with |- 0 <= ?x mod _ <= _ => pose proof (Z.mod_pos_bound x (2 ^ 128) ltac:(lia)) end. lia.
Qed.

Lemma append_mod_typed n h r h' : 0 < n <= 1024 -> append_mod n h r = ROk h' ->
  typed r -> typed h -> typed h'.
Proof.
  unfold append_mod. intros Hn Ha Hr (Hl & Hh & Hf). rust_inv. subst. split_and!; cbn [records head].
  - by rewrite length_insert.
  - unfold in_width. cbn [fst snd lowest highest]. pose proof (Z.mod_pos_bound (head h + 1) n). lia.
  - by apply Forall_insert.
Qed.

Lemma append_typed h r h' : append h r = ROk h' -> typed r -> typed h -> typed h'.
Proof.
  intros Ha Hr Hh. pose proof Hh as (Hl & _). unfold append in Ha.
  destruct (decide (records h = [])) as [E | NE].
  - unfold append_mod, at_index, js_index in Ha. rewrite E in Ha. destruct (0 <=? head h); cbn in Ha; done.
  - eapply append_mod_typed; [| exact Ha | done | done].
    destruct (records h); [done |]. cbn [length] in *. lia.
Qed.

Lemma record_next_typed h mk h' : record_next h mk = ROk h' ->
  (forall id, in_width (U128, id) -> typed (mk id)) -> typed h -> typed h'.
Proof.
  unfold record_next. intros Hr Hmk Hh. rust_inv. eapply append_typed; [eassumption | | done].
  by eapply Hmk, next_record_id_typed.
Qed.

Lemma record_next_short_typed n h mk h' : 0 < n <= 1024 -> record_next_short n h mk = ROk h' ->
  (forall id, in_width (U128, id) -> typed (mk id)) -> typed h -> typed h'.
Proof.
  unfold record_next_short. intros Hn Hr Hmk Hh. rust_inv.
  eapply append_mod_typed; [exact Hn | eassumption | | done]. by eapply Hmk, next_record_id_typed.
Qed.

Lemma empty_typed : typed (mkHistory 0 ([] : list R)).
Proof. split_and!; [cbn; lia | done | constructor]. Qed.
Lemma load_init_typed (r : R) : typed r -> typed (load_init r).
Proof.
  intros Hr. unfold load_init. split_and!; cbn [records head]; [by rewrite length_replicate | done |].
  by apply Forall_replicate.
Qed.
End Append.

(** ** What a record is made of *)
Lemma abs_typed z : in_width (I128, z) -> in_width (U128, Z.abs z).
Proof. unfold in_width. cbn [fst snd lowest highest]. lia. Qed.

Lemma mark_price_typed a r : mark_price a = ROk r -> in_width (U128, r).
Proof. apply calculate_price_typed. Qed.

Lemma quot_typed x y : 0 <= x <= highest U128 -> 0 < y -> in_width (U128, x `quot` y).
Proof.
  intros Hx Hy. unfold in_width. cbn [fst snd]. pose proof (quot_nonneg x y). pose proof (quot_bounds x y).
  cbn [lowest highest] in *. nia.
Qed.

Lemma reserve_to_asset_typed q peg r : reserve_to_asset_amount q peg = ROk r -> in_width (U128, r).
Proof.
  unfold reserve_to_asset_amount. intros H. rust_inv. subst. by apply quot_typed.
Qed.

Lemma value_typed n q a v pnl :
  base_asset_value_and_pnl n q a = ROk (v, pnl) -> in_width (U128, v) /\ in_width (I128, pnl).
Proof.
  unfold base_asset_value_and_pnl, calculate_quote_asset_amount_swapped, calculate_pnl.
  destruct (n =? 0); intros H; rust_inv; subst; [done |].
  match goal with E : reserve_to_asset_amount _ _ = ROk _ |- _ => apply reserve_to_asset_typed in E end.
  split; [done |]. destruct (swap_direction_to_close_position n); rust_inv; by subst.
Qed.

Lemma swap_base_value_typed a n d now a' v : swap_base_asset a n d now = ROk (a', v) -> in_width (U128, v).
Proof.
  unfold swap_base_asset, calculate_quote_asset_amount_swapped. intros H. rust_inv. subst.
  by match goal with E : reserve_to_asset_amount _ _ = ROk _ |- _ => apply reserve_to_asset_typed in E end.
Qed.

Lemma tier_discount_typed fee t token r :
  calculate_token_discount_for_tier fee t token = Some r -> in_width (U128, r).
Proof.
  unfold calculate_token_discount_for_tier. destruct (_ <=? _); [| done].
  destruct (_ ≫= _) as [x |] eqn:E; cbn; [| done]. intros [= <-]. by rust_inv.
Qed.
Lemma token_discount_typed fee fs token : in_width (U128, calculate_token_discount fee fs token).
Proof.
  unfold calculate_token_discount. destruct token as [t |]; [| done].
  repeat match goal with |- in_width (_, match ?x with _ => _ end) =>
    let E := fresh in destruct x eqn:E; [by apply tier_discount_typed in E |] end. done.
Qed.

Lemma fees_typed {A} q fs token (r : option A) f : calculate_fees q fs token r = ROk f ->
  Forall in_width [(U128, fe_user_fee f); (U128, fe_referrer_reward f); (U128, fe_referee_discount f);
                   (U128, fe_token_discount f)].
Proof.
  unfold calculate_fees, calculate_referral_reward_and_referee_discount. intros H. rust_inv. subst.
  cbn [fe_user_fee fe_referrer_reward fe_referee_discount fe_token_discount].
  destruct r; rust_inv; subst; entype; first [apply token_discount_typed | unfold in_width; cbn; lia].
Qed.

Lemma charge_fees_typed q st optional m u m' u' r f : charge q st optional m u = ROk (m', u', r, f) ->
  Forall in_width [(U128, fe_user_fee f); (U128, fe_referrer_reward f); (U128, fe_referee_discount f);
                   (U128, fe_token_discount f)].
Proof. unfold charge. intros H. rust_inv. subst. by eapply fees_typed. Qed.

(** The amounts of a trade. *)
Lemma increase_amount_typed d q m p now m' p' b : increase d q m p now = ROk (m', p', b) -> in_width (I128, b).
Proof.
  unfold increase. destruct (q =? 0); intros H; rust_inv; subst; [unfold in_width; cbn; lia |].
  by match goal with E : swap_quote_asset _ _ _ _ _ = ROk _ |- _ => unfold swap_quote_asset in E; rust_inv; subst end.
Qed.
Lemma reduce_amount_typed d q u m p now pre u' m' p' b :
  reduce d q u m p now pre = ROk (u', m', p', b) -> in_width (I128, b).
Proof.
  unfold reduce. intros H. rust_inv. subst.
  by match goal with E : swap_quote_asset _ _ _ _ _ = ROk _ |- _ => unfold swap_quote_asset in E; rust_inv; subst end.
Qed.
Lemma close_amounts_typed u m p now u' m' p' v n : close u m p now = ROk (u', m', p', (v, n)) -> typed p ->
  in_width (U128, v) /\ in_width (I128, n).
Proof.
  unfold close. destruct (Z.eqb_spec (mp_baseAssetAmount p) 0) as [E |]; intros H Hp; rust_inv; subst.
  { split; unfold in_width; cbn; lia. }
  split; [by eapply swap_base_value_typed | by untype].
Qed.

Lemma execute_amounts_typed d q u m p now t : execute d q u m p now = ROk t ->
  in_width (U128, q) -> typed p ->
  in_width (U128, td_base_asset_amount t) /\ in_width (U128, td_quote_asset_amount t).
Proof.
  unfold execute. intros H Hq Hp. destruct (_ || _ : bool) in H; rust_inv; subst; cbn.
  { split; [by eapply abs_typed, increase_amount_typed | done]. }
  match goal with E : calculate_base_asset_value_and_pnl _ _ = ROk _ |- _ => apply value_typed in E as [? _] end.
  destruct (_ <? z) in H; rust_inv; subst; cbn.
  - split; [by eapply abs_typed, reduce_amount_typed | by case_match].
  - split; [done | by case_match].
Qed.

(** The margin ratio. *)
Lemma position_totals_typed ps ms v pnl v' pnl' : position_totals ps ms v pnl = ROk (v', pnl') ->
  in_width (U128, v) -> in_width (I128, pnl) -> in_width (U128, v') /\ in_width (I128, pnl').
Proof.
  revert v pnl. induction ps as [| p ps IH]; intros v pnl; cbn; [by intros [= <- <-] |].
  destruct (_ =? 0); [apply IH |]. intros H Hv Hp. rust_inv. subst. by eapply IH.
Qed.
Lemma margin_typed u ps ms r : calculate_margin_ratio u ps ms = ROk r ->
  Forall in_width [(U128, mr_baseAssetValue r); (U128, mr_totalCollateral r); (I128, mr_unrealizedPnl r);
                   (U128, mr_marginRatio r)].
Proof.
  unfold calculate_margin_ratio. intros H. rust_inv.
  match goal with E : position_totals _ _ _ _ = ROk _ |- _ =>
    apply position_totals_typed in E as [? ?]; [| by unfold in_width; cbn; lia ..] end.
  destruct (_ =? 0); rust_inv; subst; cbn [mr_baseAssetValue mr_totalCollateral mr_unrealizedPnl mr_marginRatio].
  - entype.
  - match goal with E : calculate_updated_collateral _ _ = ROk _ |- _ => apply updated_collateral_typed in E end.
    entype.
Qed.

(** The costs of a change of the curve. *)
Lemma adjust_peg_cost_typed m peg m' cost : adjust_peg_cost m peg = ROk (m', cost) -> in_width (I128, cost).
Proof.
  unfold adjust_peg_cost. intros H. rust_inv. subst.
  by repeat match goal with E : base_asset_value_and_pnl _ _ _ = ROk _ |- _ => apply value_typed in E as [? ?] end.
Qed.
Lemma adjust_k_cost_typed m k m' cost : adjust_k_cost m k = ROk (m', cost) -> in_width (I128, cost).
Proof.
  unfold adjust_k_cost. intros H. rust_inv. subst.
  by repeat match goal with E : base_asset_value_and_pnl _ _ _ = ROk _ |- _ => apply value_typed in E as [? ?] end.
Qed.

Lemma update_mark_twap_typed a now pre a' t : update_mark_twap a now pre = ROk (a', t) -> in_width (U128, t).
Proof. unfold update_mark_twap, calculate_new_mark_twap. intros H. rust_inv. by subst. Qed.
Lemma update_oracle_twap_typed a now px a' t : update_oracle_price_twap a now px = ROk (a', t) ->
  typed a -> in_width (I128, t).
Proof.
  unfold update_oracle_price_twap, calculate_new_oracle_price_twap. intros H Ha. rust_inv.
  destruct (_ && _); rust_inv; subst; [by eapply calculate_twap_typed | by untype].
Qed.

(** ** Each place that appends a record *)
Section Handlers.
Variables (state : StateAccount) (oracle : OracleAccount) (now clock_slot : Z).
Hypothesis Hnow : in_width (I64, now).

(** Funding payments. *)
Lemma settle_position_history auth key ms p h t p' h' t' :
  settle_position auth key ms now p h t = ROk (p', h', t') -> typed ms -> typed p -> typed h -> typed h'.
Proof.
  unfold settle_position. intros H Hms Hp Hh. destruct (_ =? 0); [by rust_inv; subst |].
  apply rust_bind_inv in H as (m & Hm & H). apply market_at_inv in Hm.
  assert (typed m) as [Ha _].
  { unfold js_index in Hm. destruct (0 <=? _); [| done]. exact (Forall_lookup_1 _ _ _ _ Hms Hm). }
  destruct (_ =? _); rust_inv; subst; [done |].
  eapply append_typed; [eassumption | | done].
  match goal with E : next_record_id _ = ROk _ |- _ => apply next_record_id_typed in E end.
  match goal with E : calculate_funding_payment _ _ = ROk _ |- _ =>
    unfold calculate_funding_payment, funding_payment in E; rust_inv; subst end.
  untype. entype.
Qed.

Lemma settle_positions_history auth key ms ps h t ps' h' t' :
  settle_positions auth key ms now ps h t = ROk (ps', h', t') -> typed ms -> typed ps -> typed h -> typed h'.
Proof.
  revert h t ps' h' t'. induction ps as [| p ps IH]; cbn; intros h t ps' h' t' H Hms Hps Hh.
  { rust_inv. by subst. }
  rust_inv. subst. apply Forall_cons in Hps as [Hp Hps]. eapply IH; [eassumption | done | done |].
  by eapply settle_position_history.
Qed.

(** Funding rates. *)
Lemma update_funding_rate_history i m px slot h rails paused m' h' :
  in_width (U64, i) -> typed m ->
  update_funding_rate i m px now slot h rails paused = ROk (m', h') -> typed h -> typed h'.
Proof.
  unfold update_funding_rate, block_operation. intros Hi Hm H Hh. rust_inv.
  destruct (_ && _ && _); rust_inv; subst; [| done].
  eapply append_typed; [eassumption | | done]. destruct Hm as [Ha _].
  match goal with E : next_record_id _ = ROk _ |- _ => apply next_record_id_typed in E end.
  match goal with E : update_oracle_price_twap _ _ _ = ROk _ |- _ => apply update_oracle_twap_typed in E; [| done] end.
  match goal with E : update_mark_twap _ _ _ = ROk _ |- _ => apply update_mark_twap_typed in E end.
  match goal with E : funding_rate_of _ _ _ = ROk _ |- _ => apply funding_rate_of_typed in E end.
  entype.
Qed.

(** The accounts and the records of an instruction on a user. *)
Record accounts_typed (c : Accounts) : Prop := {
  at_markets : typed (ac_markets c);
  at_user : typed (ac_user c);
  at_positions : typed (ac_positions c)
}.
Record records_typed (c : Accounts) : Prop := {
  rt_payments : typed (ac_fundingPayments c);
  rt_rates : typed (ac_fundingRates c);
  rt_trades : typed (ac_trades c);
  rt_deposits : typed (ac_deposits c)
}.

Lemma accounts_typed_evolve c c' : accounts_evolve c c' -> accounts_typed c -> accounts_typed c'.
Proof.
  intros [Hm _ _ Ht _] [? ? ?]. destruct Ht; [done.. |]. split; [by eapply all_evolve_typed | done | done].
Qed.

Lemma market_typed (ms : list Market) i m : typed ms -> js_index ms i = Some m -> typed m.
Proof. unfold js_index. intros Hms Hm. destruct (0 <=? i); [| done]. exact (Forall_lookup_1 _ _ _ _ Hms Hm). Qed.

Lemma settle_user_records c c' : settle_user c now = ROk c' ->
  accounts_typed c -> records_typed c -> accounts_typed c' /\ records_typed c'.
Proof.
  intros H Ha Hr. split; [by eapply accounts_typed_evolve; [apply settle_evolves in H as [? _] |] |].
  unfold settle_user, settle_funding_payment in H. rust_inv. subst. destruct Ha, Hr.
  split; cbn; [by eapply settle_positions_history | done | done | done].
Qed.

Lemma oracle_update_typed (valid : bool) m px a : in_width (I128, px) -> typed m ->
  (if valid then '(amm, _) ← update_oracle_price_twap (mkt_amm m) now px; ROk amm else ROk (mkt_amm m)) = ROk a ->
  typed (with_amm m a).
Proof.
  intros Hpx Hm H. apply (oracle_update_evolves now Hnow) in H; [| done].
  by apply (ev_typed _ _ (evolves_amm _ _ H)).
Qed.

Lemma open_position_records optional d q i limit c c' r :
  in_width (U128, q) -> in_width (U64, i) ->
  open_position state oracle now clock_slot optional d q i limit c = ROk (c', r) ->
  accounts_typed c -> records_typed c -> records_typed c'.
Proof.
  intros Hq Hi. unfold open_position, record_trade, update_rate, with_trade. intros H Ha Hr. rust_inv. subst.
  cbn [ac_positions ac_markets ac_user ac_user_key ac_fundingPayments ac_fundingRates ac_trades ac_deposits] in *.
  match goal with E : settle_user _ _ = ROk _ |- _ => apply settle_user_records in E as [[Hms Hu Hp] [R1 R2 R3 R4]]; [| done..] end.
  repeat match goal with
  | E : market_at _ _ = ROk _ |- _ => apply market_at_inv in E; apply (market_typed _ _ _ Hms) in E
  | E : find_position _ _ = ROk _ |- _ => apply find_position_typed in E; [| done..]
  | E : calculate_oracle_mark_spread_pct _ _ _ _ _ = ROk _ |- _ => apply spread_pct_typed in E
  | E : mark_price _ = ROk _ |- _ => apply mark_price_typed in E
  | E : next_record_id _ = ROk _ |- _ => apply next_record_id_typed in E
  end.
  match goal with E : (if ?b then _ else _) = ROk _ |- _ => apply oracle_update_typed in E; [| done..] end.
  match goal with E : execute _ _ _ _ _ _ = ROk _ |- _ => pose proof (execute_amounts_typed _ _ _ _ _ _ _ E Hq) as [Hb Hqq]; [done |];
    apply (execute_evolves _ Hnow) in E as (Hm1 & _ & _ & _ & _) end.
  match goal with E : charge _ _ _ _ _ = ROk _ |- _ => pose proof (charge_fees_typed _ _ _ _ _ _ _ _ _ E);
    apply charge_evolves in E as (Hm2 & _ & _ & _) end.
  split; cbn; [done | | | done].
  - eapply update_funding_rate_history; [exact Hi | | eassumption | done].
    by apply (ev_typed _ _ Hm2), (ev_typed _ _ Hm1).
  - eapply append_typed; [eassumption | | done]. untype. entype.
Qed.

Lemma close_position_records optional i c c' r :
  in_width (U64, i) ->
  close_position state oracle now clock_slot optional i c = ROk (c', r) ->
  accounts_typed c -> records_typed c -> records_typed c'.
Proof.
  intros Hi. unfold close_position, record_trade, update_rate, with_trade. intros H Ha Hr. rust_inv. subst.
  cbn [ac_positions ac_markets ac_user ac_user_key ac_fundingPayments ac_fundingRates ac_trades ac_deposits] in *.
  match goal with E : settle_user _ _ = ROk _ |- _ => apply settle_user_records in E as [[Hms Hu Hp] [R1 R2 R3 R4]]; [| done..] end.
  repeat match goal with
  | E : market_at _ _ = ROk _ |- _ => apply market_at_inv in E; apply (market_typed _ _ _ Hms) in E
  | E : match position_where _ _ with _ => _ end = ROk _ |- _ =>
      apply position_where_inv in E as (_ & E & _); apply (Forall_lookup_1 _ _ _ _ Hp) in E
  | E : calculate_oracle_mark_spread_pct _ _ _ _ _ = ROk _ |- _ => apply spread_pct_typed in E
  | E : mark_price _ = ROk _ |- _ => apply mark_price_typed in E
  | E : next_record_id _ = ROk _ |- _ => apply next_record_id_typed in E
  end.
  match goal with E : close _ _ _ _ = ROk _ |- _ => pose proof (close_amounts_typed _ _ _ _ _ _ _ _ _ E) as [Hv Hn]; [done |];
    apply (close_evolves _ Hnow) in E as (Hm1 & _ & _ & _ & _) end.
  match goal with E : charge _ _ _ _ _ = ROk _ |- _ => pose proof (charge_fees_typed _ _ _ _ _ _ _ _ _ E);
    apply charge_evolves in E as (Hm2 & _ & _ & _) end.
  match goal with E : (if ?b then _ else _) = ROk _ |- _ => apply oracle_update_typed in E;
    [| done | by apply (ev_typed _ _ Hm2), (ev_typed _ _ Hm1)] end.
  apply abs_typed in Hn.
  split; cbn; [done | | | done].
  - by eapply update_funding_rate_history.
  - eapply append_typed; [eassumption | | done]. untype. entype.
Qed.
(** Deposits and withdrawals. *)
Lemma record_deposit_typed c u direction amount c' :
  record_deposit now c u direction amount = ROk c' -> typed u -> in_width (U64, amount) ->
  records_typed c -> records_typed c'.
Proof.
  unfold record_deposit. intros H Hu Hw []. rust_inv. subst. split; cbn; [done.. |].
  eapply append_typed; [eassumption | | done].
  match goal with E : next_record_id _ = ROk _ |- _ => apply next_record_id_typed in E end.
  untype. entype.
Qed.

Lemma deposit_records amount c c' ts :
  in_width (U64, amount) -> deposit_collateral state now amount c = ROk (c', ts) ->
  accounts_typed c -> records_typed c -> records_typed c'.
Proof.
  unfold deposit_collateral. intros Hw H [Hm Hu Hp] []. rust_inv. subst.
  eapply record_deposit_typed; [eassumption | done | done |].
  eapply settle_user_records; [eassumption | split; cbn; [done | | done] | by split].
  untype. entype.
Qed.

Lemma withdraw_records vault insurance amount c c' ts :
  withdraw_collateral state now vault insurance amount c = ROk (c', ts) ->
  accounts_typed c -> records_typed c -> records_typed c'.
Proof.
  unfold withdraw_collateral. intros H Ha Hr. rust_inv. subst.
  eapply record_deposit_typed; [eassumption | apply Ha | done |].
  match goal with E : settle_user _ _ = ROk _ |- _ => apply settle_user_records in E as [_ []]; [| done..] end.
  by split.
Qed.

(** Liquidations. *)
Record liquidation_typed (l : Liquidation) : Prop := {
  lt_user : typed (lq_user l);
  lt_markets : typed (lq_markets l);
  lt_trades : typed (lq_trades l);
  lt_closed : in_width (U128, lq_closed l)
}.

Lemma liquidate_position_records key remaining full p l p' l' :
  liquidate_position state now clock_slot key remaining full p l = ROk (p', l') ->
  typed p -> liquidation_typed l -> liquidation_typed l'.
Proof.
  intros H Hp Hl. pose proof (liquidate_position_evolves state now clock_slot Hnow _ _ _ _ _ _ _ H) as (Hms & _ & Hu & Hp').
  destruct Hl as [H1 H2 H3 H4]. specialize (Hu H1). specialize (Hp' Hp).
  apply (all_evolve_typed _ _ Hms) in H2 as H2'.
  revert H. unfold liquidate_position, block_operation. destruct (_ =? 0); intros H; rust_inv; subst; [done |]. cbn in *.
  destruct full; rust_inv; subst;
    (split; cbn; [done | done | eapply append_typed; [eassumption | | done] | done]);
    repeat match goal with
    | E : calculate_oracle_mark_spread_pct _ _ _ _ _ = ROk _ |- _ => apply spread_pct_typed in E
    | E : next_record_id _ = ROk _ |- _ => apply next_record_id_typed in E
    | E : mark_price _ = ROk _ |- _ => apply mark_price_typed in E
    | E : close _ _ _ _ = ROk _ |- _ => apply close_amounts_typed in E as [? ?%abs_typed]; [| done]
    | E : reduce _ _ _ _ _ _ _ = ROk _ |- _ => apply reduce_amount_typed, abs_typed in E
    end; simplify_eq; untype; entype.
Qed.

Lemma liquidate_positions_records key remaining full ps l ps' l' :
  liquidate_positions state now clock_slot key remaining full ps l = ROk (ps', l') ->
  typed ps -> liquidation_typed l -> liquidation_typed l'.
Proof.
  revert l ps' l'. induction ps as [| p ps IH]; cbn [liquidate_positions]; intros l ps' l' H Hp Hl.
  { rust_inv. by subst. }
  apply rust_bind_inv in H as ([p1 l1] & E1 & H). apply rust_bind_inv in H as ([ps1 l2] & E2 & H).
  rust_inv. subst. apply Forall_cons in Hp as [Hp Hps].
  eapply IH; [eassumption | done |]. by eapply liquidate_position_records.
Qed.

Lemma liquidate_records remaining vault insurance liquidator c c' lq ts rec :
  liquidate_handler state now clock_slot remaining vault insurance liquidator c = ROk (c', lq, ts, rec) ->
  accounts_typed c -> records_typed c -> records_typed c' /\ typed rec.
Proof.
  unfold liquidate_handler. intros H Ha Hr. rust_inv. subst.
  match goal with E : settle_user _ _ = ROk _ |- _ =>
    apply settle_user_records in E as [[Hms Hu Hp] [R1 R2 R3 R4]]; [| done..] end.
  match goal with E : liquidate_positions _ _ _ _ _ _ _ _ = ROk _ |- _ =>
    apply liquidate_positions_records in E as [L1 L2 L3 L4]; [| done | by split; cbn; [.. | unfold in_width; cbn; lia]] end.
  match goal with E : calculate_margin_ratio _ _ _ = ROk _ |- _ => apply margin_typed in E end.
  split; [by split |]. untype. entype.
Qed.
End Handlers.

(** Changes of the curve. *)
Section Curve.
Variables (state : StateAccount) (oracle : OracleAccount) (now clock_slot : Z).
Hypothesis Hnow : in_width (I64, now).

Lemma curve_record_typed i before after cost price h h' :
  in_width (U64, i) -> typed before -> typed after -> in_width (I128, cost) -> in_width (I128, price) ->
  record_curve h (curve_record now i before after cost price) = ROk h' -> typed h -> typed h'.
Proof.
  intros Hi [Hb _] [Ha Hm] Hc Hp H. eapply record_next_short_typed; [| exact H |]; [done |].
  intros id Hid. untype.
  repeat match goal with E : in_width (I128, mkt_baseAssetAmountLong _) |- _ => apply abs_typed in E
  | E : in_width (I128, mkt_baseAssetAmountShort _) |- _ => apply abs_typed in E end.
  entype.
Qed.

Lemma repeg_records peg i ms h ms' h' :
  in_width (U128, peg) -> in_width (U64, i) ->
  repeg_amm_curve state oracle now clock_slot peg i ms h = ROk (ms', h') -> typed ms -> typed h -> typed h'.
Proof.
  unfold repeg_amm_curve, controller_repeg. intros Hp Hi H Hms Hh. rust_inv. subst.
  match goal with E : market_at _ _ = ROk _ |- _ => apply market_at_inv, (market_typed _ _ _ Hms) in E as Hm end.
  repeat match goal with E : get_oracle_price _ _ _ = ROk _ |- _ => apply get_oracle_price_typed in E as [? _] end.
  eapply curve_record_typed; [exact Hi | exact Hm | | | | eassumption | done]; [| | done].
  - eapply ev_typed; [| exact Hm]. etrans; [by eapply adjust_peg_cost_evolves | by eapply charge_repeg_evolves].
  - by eapply adjust_peg_cost_typed.
Qed.

Lemma update_k_records k i ms h ms' h' :
  in_width (U64, i) -> update_k state oracle now k i ms h = ROk (ms', h') -> typed ms -> typed h -> typed h'.
Proof.
  unfold update_k. intros Hi H Hms Hh. rust_inv. subst.
  match goal with E : market_at _ _ = ROk _ |- _ => apply market_at_inv, (market_typed _ _ _ Hms) in E as Hm end.
  match goal with E : get_oracle_price _ _ _ = ROk _ |- _ => apply get_oracle_price_typed in E as [? _] end.
  eapply curve_record_typed; [exact Hi | exact Hm | | | | eassumption | done]; [| | done].
  - eapply ev_typed; [| exact Hm]. etrans; [by eapply adjust_k_cost_evolves | by eapply charge_k_evolves].
  - by eapply adjust_k_cost_typed.
Qed.
End Curve.

Lemma copy_records_typed old h h' : copy_records old h = ROk h' -> typed old -> typed h -> typed h'.
Proof.
  revert h. induction old as [| r old IH]; cbn; intros h H Ho Hh; [by simplify_eq |].
  apply Forall_cons in Ho as [Hr Ho]. apply rust_bind_inv in H as (h1 & E & H).
  eapply IH; [exact H | done |]. destruct (_ =? 0); [by simplify_eq |].
  by eapply append_mod_typed; [| exact E | |].
Qed.

(** ** Every instruction *)

(** What the ledger has recorded. *)
Record histories_typed (p : Protocol) : Prop := {
  ht_payments : typed (pr_fundingPayments p);
  ht_rates : typed (pr_fundingRates p);
  ht_trades : typed (pr_trades p);
  ht_deposits : typed (pr_deposits p);
  ht_liquidations : typed (pr_liquidations p);
  ht_curve : typed (pr_curve p)
}.

(** The history [update_curve_history] copies is an account of the program before this
    version, so its fields fit their types too. *)
Definition typed_old (i : ProgramInstruction) : Prop :=
  match i with UpdateCurveHistory _ old _ => typed old | _ => True end.

Lemma with_accounts_records p j e c :
  (accounts_typed (accounts_of p e) -> records_typed (accounts_of p e) -> records_typed c) ->
  wf p -> pr_users p !! j = Some e -> histories_typed p -> histories_typed (with_accounts p j c).
Proof.
  intros Hc Hwf He []. destruct (Forall_lookup_1 _ _ _ _ (wf_users _ Hwf) He) as [? ?].
  destruct Hc as []; [| by split | by split]. split; [by apply sound_typed, wf_markets | done | done].
Qed.

Lemma write_user_records p k u : histories_typed p -> histories_typed (write_user p k u).
Proof. unfold write_user. destruct (find_user p k) as [[] |]; [| done]. by intros []. Qed.

Lemma finish_trade_records cx p j token r :
  histories_typed (with_accounts p j r.1) -> histories_typed (finish_trade cx p j token r).
Proof.
  unfold finish_trade. destruct r.2; [| done]. destruct (referrer_key _ _ _); [| done].
  apply write_user_records.
Qed.

Section Exec.
Variables (spl_token_id : PublicKey) (user_address : PublicKey -> PublicKey) (integer_sqrt : Z -> Z).
Variable cx : Context.
Hypothesis Hnow : in_width (I64, cx_now cx).

Lemma exec_liquidate_records p user liquidator p' ts :
  wf p -> histories_typed p ->
  exec_liquidate cx p user liquidator = ROk (p', ts) -> histories_typed p'.
Proof.
  unfold exec_liquidate. intros Hwf Hh H. rust_inv. subst.
  repeat match goal with E : find_user _ _ = ROk _ |- _ => apply find_user_inv in E as [? _] end.
  match goal with E : liquidate_handler _ _ _ _ _ _ _ _ = ROk _, He : pr_users p !! ?j = Some ?e |-
      histories_typed (with_liquidations (with_accounts _ ?j _) _) =>
    destruct (Forall_lookup_1 _ _ _ _ (wf_users _ Hwf) He) as [? ?];
    apply (liquidate_records _ _ _ Hnow) in E as [[] Hrec] end.
  - destruct Hh. split; cbn; [done.. | | unfold write_user; by destruct (find_user _ _) as [[] |]].
    eapply record_next_typed; [eassumption | | done]. intros id Hid. split; [entype | done].
  - split; [by apply sound_typed, wf_markets | done | done].
  - destruct Hh. by split.
Qed.

Lemma exec_user_records p i p' ts :
  typed i -> wf p -> histories_typed p ->
  exec_user spl_token_id user_address cx p i = ROk (p', ts) -> histories_typed p'.
Proof.
  intros Hi Hwf Hh H. destruct i; try discriminate H; try exact (exec_liquidate_records _ _ _ _ _ Hwf Hh H).
  all: open_exec H; rust_inv; subst;
    try match goal with E : find_user _ _ = ROk _ |- _ => apply find_user_inv in E as [? _] end.
  1, 2: by destruct Hh.
  3, 4: apply finish_trade_records.
  all: eapply with_accounts_records; [| done | eassumption | done]; intros Ha Hr.
  - by eapply deposit_records.
  - by eapply withdraw_records.
  - match goal with E : open_position _ _ _ _ _ _ _ _ _ _ = ROk ?r |- _ => destruct r end.
    untype. eapply open_position_records; [exact Hnow | | | eassumption | exact Ha | exact Hr]; assumption.
  - match goal with E : close_position _ _ _ _ _ _ _ = ROk ?r |- _ => destruct r end.
    eapply close_position_records; [exact Hnow | exact Hi | eassumption | exact Ha | exact Hr].
  - by match goal with E : settle_user _ _ = ROk _ |- _ => apply settle_user_records in E as [_ ?] end.
Qed.

Lemma exec_market_records p i p' ts :
  typed i -> wf p -> histories_typed p ->
  exec_market integer_sqrt cx p i = ROk (p', ts) -> histories_typed p'.
Proof.
  intros Hi Hwf [] H. pose proof (sound_typed _ (wf_markets _ Hwf)) as Hms.
  destruct i; try discriminate H; open_exec H; rust_inv; subst; (split; cbn; try assumption).
  - match goal with E : market_at _ _ = ROk _ |- _ => apply market_at_inv, (market_typed _ _ _ Hms) in E end.
    eapply update_funding_rate_history; [exact Hnow | exact Hi | | eassumption |]; assumption.
  - apply Forall_cons in Hi as [? [? _]%Forall_cons]. eapply repeg_records; [exact Hnow | | | eassumption | |]; assumption.
  - apply Forall_cons in Hi as [? [? _]%Forall_cons]. eapply update_k_records; [exact Hnow | | eassumption | |]; assumption.
Qed.

Lemma exec_state_records p i p' ts :
  typed_old i -> histories_typed p -> exec_state cx p i = ROk (p', ts) -> histories_typed p'.
Proof.
  intros Ho [] H. destruct i; try discriminate H; open_exec H; rust_inv; subst; try (split; assumption).
  - split; cbn -[load_init]; apply load_init_typed; entype.
  - unfold update_curve_history in *. rust_inv. subst. split; cbn; try assumption.
    destruct Ho as (_ & _ & Ho). eapply copy_records_typed; [eassumption | done |].
    apply (load_init_typed ExtendedCurveRecord_default). entype.
Qed.

Lemma exec_records p i p' ts :
  typed i -> typed_old i -> wf p -> histories_typed p ->
  exec spl_token_id user_address integer_sqrt cx p i = ROk (p', ts) -> histories_typed p'.
Proof.
  intros Hi Ho Hwf Hh H. destruct i; cbn [exec] in H;
    first [by eapply exec_user_records | by eapply exec_market_records | by eapply exec_state_records].
Qed.
End Exec.

(** ** Runs *)
Lemma new_histories_typed s ms : histories_typed (new_protocol s ms).
Proof. split; apply empty_typed. Qed.

Lemma run_records spl_token_id user_address integer_sqrt p ts :
  Forall well_typed ts -> Forall (fun t => typed_old t.2) ts -> wf p -> histories_typed p ->
  histories_typed (run_protocol spl_token_id user_address integer_sqrt p ts).
Proof.
  revert p. induction ts as [| t ts IH]; cbn; [done |].
  intros p [[Hn Hi] Hts]%Forall_cons [Ho Hos]%Forall_cons Hwf Hh. apply IH; [done | done | by apply submit_wf |].
  unfold submit_to. destruct (exec _ _ _ _ _ _) as [[q out] |] eqn:E; [| done]. by eapply exec_records.
Qed.
