(* ===== verification/ChainGuarantees.v ===== *)
(** * What the program guarantees (programs/clearing_house)

    Theorems about every run of [ChainProtocol] from a new exchange, proved with the
    invariants of [ChainSafety], and runs that show where the program falls short. *)
From S2P Require Import Prelude BN Types Checked History.
From S2P Require Import ChainAmm ChainOracle ChainPosition.
From S2P Require Import Idl.
From S2P Require Import ChainFunding ChainTrade ChainAgreement ChainMargin ChainBooks ChainExchange ChainRepeg.
From S2P Require Import ChainAdmin ChainProtocol ChainLedger ChainSafety ChainHistories.

Section Runs.
Variables (spl_token_id : PublicKey) (user_address : PublicKey -> PublicKey) (integer_sqrt : Z -> Z).
Local Abbreviation run := (run_protocol spl_token_id user_address integer_sqrt).
Local Abbreviation step := (exec spl_token_id user_address integer_sqrt).

(** A new exchange. *)
Definition starts (p : Protocol) : Prop :=
  exists find admin mint cv iv markets controls s ms,
    initialize_exchange find admin mint cv iv markets controls = ROk (s, ms) /\ p = new_protocol s ms.

Lemma starts_wf p : starts p -> wf p.
Proof. intros (? & ? & ? & ? & ? & ? & ? & ? & ? & H & ->). by eapply initialize_wf. Qed.

Lemma starts_fresh p : starts p ->
  pr_users p = [] /\ pr_markets p = Markets_default /\ st_curveHistory (pr_state p) = Pubkey_default.
Proof.
  intros (find & ? & ? & ? & ? & ? & ? & ? & ? & H & ->). unfold initialize_exchange in H.
  destruct (find _), (find _). rust_inv. by subst.
Qed.

Lemma starts_recorded p : starts p -> histories_typed p.
Proof. intros (? & ? & ? & ? & ? & ? & ? & ? & ? & _ & ->). apply new_histories_typed. Qed.

(** Inductive invariants of runs. *)
Lemma transactions_invariant (P : Protocol -> Prop) p ts :
  (forall cx i q q' out, P q -> step cx q i = ROk (q', out) -> P q') -> P p -> P (run p ts).
Proof.
  intros Hstep. revert p. induction ts as [| t ts IH]; cbn; [done |]. intros p Hp. apply IH.
  unfold submit_to. destruct (exec _ _ _ _ _ _) as [[q out] |] eqn:E; [by eapply Hstep | done].
Qed.

(** C5: Types: after any run of a new exchange, whatever the transactions and whoever
    signs them, every integer of the state (the nonces of its vaults aside, which the
    runtime computes), of the markets, of the users, of their positions and of the six
    histories fits the type it is declared with, every ring's head and records included,
    and open positions are in markets that were initialised. What is asked of the
    transactions is that their arguments, the clock and the curve history of the version
    before, which [update_curve_history] reads, fit theirs. *)
Theorem values_fit p ts :
  starts p -> Forall well_typed ts -> Forall (fun t => typed_old t.2) ts ->
  let q := run p ts in
  typed (pr_state q) /\ typed (pr_markets q) /\
  Forall (fun e => typed (ue_user e) /\ typed (ue_positions e) /\
                   opened (ue_positions e) (pr_markets q)) (pr_users q) /\
  typed (pr_fundingPayments q) /\ typed (pr_fundingRates q) /\ typed (pr_trades q) /\
  typed (pr_deposits q) /\ typed (pr_liquidations q) /\ typed (pr_curve q).
Proof.
  intros Hp Hts Hold q. pose proof (starts_wf p Hp) as Hwf.
  destruct (run_wf spl_token_id user_address integer_sqrt p ts Hts Hwf) as [Hs Hm Hu Ho].
  split; [exact Hs |]. split; [by apply sound_typed |]. split.
  - apply Forall_forall. intros e He. rewrite Forall_forall in Hu, Ho.
    destruct (Hu e He). by split_and!; [| | apply Ho].
  - destruct (run_records spl_token_id user_address integer_sqrt p ts Hts Hold Hwf (starts_recorded p Hp)) as [].
    split_and!; assumption.
Qed.

(** C20: Fees: after any run, at most half of the fees a market ever took was withdrawn by the
    administrator, and withdrawals never fall. *)
Theorem fees_within_half p ts i m :
  starts p -> Forall well_typed ts -> js_index (pr_markets (run p ts)) i = Some m ->
  0 <= amm_totalFeeWithdrawn (mkt_amm m) <= amm_totalFee (mkt_amm m) `quot` 2.
Proof.
  intros Hp Hts Hm. pose proof (run_wf spl_token_id user_address integer_sqrt p ts Hts (starts_wf p Hp)) as Hwf.
  unfold js_index in Hm. destruct (0 <=? i); [| done].
  destruct (Forall_lookup_1 _ _ _ _ (wf_markets _ Hwf) Hm) as [Ht Hf]. split; [| exact Hf].
  untype. unfold in_width in *. cbn in *. lia.
Qed.

(** A run whose every transaction finds the curves good and deletes no open position. *)
Fixpoint careful (p : Protocol) (ts : list (Context * ProgramInstruction)) : Prop :=
  match ts with
  | [] => True
  | t :: ts => careful_at p t.2 /\ careful (submit_to spl_token_id user_address integer_sqrt p t) ts
  end.

Lemma starts_books p : starts p -> books (view p).
Proof.
  intros Hp. destruct (starts_fresh p Hp) as (Hu & Hm & _). unfold view. rewrite Hu, Hm.
  split; [| constructor]. intros i m Hi. change (js_index Markets_default i = Some m) in Hi.
  unfold js_index, Markets_default in Hi. destruct (0 <=? i); [| done].
  apply lookup_replicate in Hi as [-> _]. by split.
Qed.

Lemma careful_books p ts :
  wf p -> Forall well_typed ts -> careful p ts -> books (view p) -> books (view (run p ts)).
Proof.
  revert p. induction ts as [| t ts IH]; cbn; [done |].
  intros p Hwf [[Hn Ht] Hts]%Forall_cons [Hc Hrest] Hb. apply IH; [by apply submit_wf | done | done |].
  unfold submit_to. destruct (exec _ _ _ _ _ _) as [[p' out] |] eqn:E; [by eapply exec_books | done].
Qed.

(** C6: The books are kept: after any run of a new exchange (any transactions of anybody,
    on curves fine enough for the smallest trade, that deletes no user with an open
    position), each market's net, long and short amounts are the sums over the users'
    positions, its open interest is the number of open positions, and no user has two
    positions in one market. *)
Theorem books_are_kept p ts i m :
  starts p -> Forall well_typed ts -> careful p ts ->
  let q := run p ts in let users := ue_positions <$> pr_users q in
  js_index (pr_markets q) i = Some m ->
  mkt_baseAssetAmount m = total i users (fun b => b) /\
  mkt_baseAssetAmountLong m = total i users (Z.max 0) /\
  mkt_baseAssetAmountShort m = total i users (Z.min 0) /\
  mkt_openInterest m = total i users open_count /\
  mkt_baseAssetAmount m = mkt_baseAssetAmountLong m + mkt_baseAssetAmountShort m /\
  Forall distinct users.
Proof.
  intros Hp Hts Hc q users Hm.
  pose proof (careful_books p ts (starts_wf p Hp) Hts Hc (starts_books p Hp)) as Hb.
  destruct (books_market _ i m Hb Hm) as (? & ? & ? & ? & ?). split_and!; try done. apply (bks_users _ Hb).
Qed.
End Runs.

(** ** Who may change what *)

(** An entry of the ledger that was left alone, but for the fields that count fees and
    rewards. *)
Record untouched (e e' : UserEntry) : Prop := {
  un_key : ue_key e' = ue_key e;
  un_authority : usr_authority (ue_user e') = usr_authority (ue_user e);
  un_collateral : usr_collateral (ue_user e') = usr_collateral (ue_user e);
  un_positions : ue_positions e' = ue_positions e
}.
#[export] Instance untouched_preorder : PreOrder untouched.
Proof. split; [done | intros a b c [] []; split; congruence]. Qed.

(** Every entry of [us] but those for which [f] holds is left alone in its place. *)
Definition left_alone (f : UserEntry -> Prop) (us us' : list UserEntry) : Prop :=
  forall j e, us !! j = Some e -> f e \/ exists e', us' !! j = Some e' /\ untouched e e'.

Lemma left_alone_refl f us : left_alone f us us.
Proof. intros j e He. right. by exists e. Qed.

Lemma left_alone_insert f us us' j y :
  left_alone f us us' ->
  (forall e, us !! j = Some e -> f e) \/ (forall x, us' !! j = Some x -> untouched x y) ->
  left_alone f us (<[j := y]> us').
Proof.
  intros H Hj i e Hi. destruct (H i e Hi) as [| (x & Hx & Hu)]; [by left |].
  destruct (decide (i = j)) as [-> | Hne]; [| right; exists x; by rewrite list_lookup_insert_ne].
  destruct Hj as [Hj | Hj]; [left; by apply Hj | right]. exists y. split; [| etrans; eauto].
  apply list_lookup_insert_eq. by eapply lookup_lt_Some.
Qed.

Lemma list_find_insert_other `(P : A -> Prop) `{forall x, Decision (P x)} l j x y :
  l !! j = Some x -> ~ P x -> ~ P y -> list_find P (<[j := y]> l) = list_find P l.
Proof.
  revert j. induction l as [| z l IH]; intros [| j] Hj Hx Hy; try done; cbn in *.
  - injection Hj as ->. by rewrite !decide_False.
  - case_decide; [done |]. by rewrite <- (IH j Hj Hx Hy).
Qed.

Section Authority.
Variables (spl_token_id : PublicKey) (user_address : PublicKey -> PublicKey) (integer_sqrt : Z -> Z).
Variables (cx : Context) (p : Protocol).

(** The entries an instruction may change: those of the signer, one whose funding is settled,
    and one whose margin, once funding is settled, is no more than a partial liquidation asks. *)
Inductive may_change (i : ProgramInstruction) (e : UserEntry) : Prop :=
  | mc_owner : usr_authority (ue_user e) = cx_signer cx -> may_change i e
  | mc_settled : i = SettleFundingPayment (ue_key e) -> may_change i e
  | mc_liquidated l c margin :
      i = Liquidate (ue_key e) l -> settle_user (accounts_of p e) (cx_now cx) = ROk c ->
      calculate_margin_ratio (ac_user c) (ac_positions c) (ac_markets c) = ROk margin ->
      mr_marginRatio margin <= st_marginRatioPartial (pr_state p) -> may_change i e.

Lemma authority_signs_inv u x : authority_signs cx u = ROk x -> usr_authority u = cx_signer cx.
Proof. unfold authority_signs, constraint. by case_bool_decide. Qed.
Lemma admin_signs_inv x : admin_signs cx p = ROk x -> st_admin (pr_state p) = cx_signer cx.
Proof. unfold admin_signs, constraint. by case_bool_decide. Qed.

Lemma left_alone_at f us j e y :
  us !! j = Some e -> f e -> left_alone f us (<[j := y]> us).
Proof. intros He Hf. apply left_alone_insert; [apply left_alone_refl |]. left. congruence. Qed.

Lemma left_alone_trade i j e token referrer c r :
  pr_users p !! j = Some e -> may_change i e -> ac_user_key c = ue_key e ->
  (exists t r0, optional_accounts spl_token_id cx p token referrer e = inr (t, r0) /\ rewarded r0 r) ->
  left_alone (may_change i) (pr_users p) (pr_users (finish_trade cx p j token (c, r))).
Proof.
  intros He Hm Hkey (t & r0 & Ho & [_ Ha Hc]). unfold finish_trade. cbn.
  pose proof (left_alone_at (may_change i) _ _ _ (mkUserEntry (ac_user_key c) (ac_user c) (ac_positions c)) He Hm) as Hl.
  destruct r as [u |]; [| done]. destruct r0 as [u0 |]; [| done]. injection Ha as Ha. injection Hc as Hc.
  destruct (referrer_read _ _ _ _ _ _ _ _ Ho) as (k & i0 & x & -> & Hx & <- & Hne).
  unfold write_user, find_user in *. cbn.
  rewrite (list_find_insert_other _ _ _ _ _ He) by (cbn; congruence).
  destruct (list_find _ _) as [[i1 x1] |] eqn:E; [| done]. injection Hx as -> ->.
  apply list_find_Some in E as (Hi0 & Hk & _). cbn. apply left_alone_insert; [done |]. right.
  intros x' Hx'. rewrite list_lookup_insert_ne in Hx' by congruence. rewrite Hi0 in Hx'. injection Hx' as <-.
  by split.
Qed.

(** A liquidation begins with settled funding and a margin ratio that is low enough. *)
Lemma liquidate_margin state now slot remaining vault insurance liquidator c r :
  liquidate_handler state now slot remaining vault insurance liquidator c = ROk r ->
  exists c1 margin, settle_user c now = ROk c1 /\
    calculate_margin_ratio (ac_user c1) (ac_positions c1) (ac_markets c1) = ROk margin /\
    mr_marginRatio margin <= st_marginRatioPartial state.
Proof.
  unfold liquidate_handler. intros H. apply rust_bind_inv in H as (? & _ & H).
  apply rust_bind_inv in H as (c1 & Hc & H). apply rust_bind_inv in H as (margin & Hm & H).
  apply rust_bind_inv in H as (? & He & _). exists c1, margin. split_and!; [done | done |].
  unfold ensure in He. destruct (Z.leb_spec (mr_marginRatio margin) (st_marginRatioPartial state)); [done |].
  discriminate He.
Qed.

(** The instructions that are the administrator's. *)
Definition administrative (i : ProgramInstruction) : bool :=
  match i with
  | InitializeUser _ | DeleteUser _ | DepositCollateral _ _ | WithdrawCollateral _ _
  | OpenPosition _ _ _ _ _ _ _ | ClosePosition _ _ _ _ | Liquidate _ _ | SettleFundingPayment _
  | UpdateFundingRate _ => false
  | _ => true
  end.

Lemma liquidate_left_alone user liquidator p' ts :
  in_width (I64, cx_now cx) ->
  exec_user spl_token_id user_address cx p (Liquidate user liquidator) = ROk (p', ts) ->
  left_alone (may_change (Liquidate user liquidator)) (pr_users p) (pr_users p').
Proof.
  intros Hnow H. open_exec H. rust_inv. subst.
  match goal with E : authority_signs _ _ = ROk _ |- _ => apply authority_signs_inv in E end.
  match goal with E : liquidate_handler _ _ _ _ _ _ _ _ = ROk _ |- _ =>
    destruct (liquidate_margin _ _ _ _ _ _ _ _ _ E) as (c1 & margin & ? & ? & ?) end.
  destruct (find_user p user) as [[j e] |] eqn:Ej in *; [| done].
  repeat match goal with E : ROk _ = ROk _ |- _ => injection E as <- <- end.
  apply find_user_inv in Ej as [Hj <-]. cbn [pr_users with_accounts with_liquidations].
  apply left_alone_insert.
  - unfold write_user. match goal with E : find_user _ _ = ROk _ |- _ =>
      rewrite E; apply find_user_inv in E as [Hl _] end.
    cbn. by eapply left_alone_at; [| apply mc_owner].
  - left. intros x Hx. rewrite Hj in Hx. injection Hx as <-. by eapply mc_liquidated.
Qed.

Lemma users_left_alone i p' ts :
  well_typed (cx, i) -> exec_user spl_token_id user_address cx p i = ROk (p', ts) ->
  forall e, e ∈ pr_users p -> may_change i e \/ exists e', e' ∈ pr_users p' /\ untouched e e'.
Proof.
  intros [Hnow Hi] H.
  assert (left_alone (may_change i) (pr_users p) (pr_users p') ->
    forall e, e ∈ pr_users p -> may_change i e \/ exists e', e' ∈ pr_users p' /\ untouched e e') as Hin.
  { intros Hl e [j Hj]%list_elem_of_lookup. destruct (Hl j e Hj) as [| (e' & He' & Hu)]; [by left |].
    right. exists e'. split; [by eapply list_elem_of_lookup_2 | done]. }
  destruct i; [.. | done]; try (by apply Hin, (liquidate_left_alone _ _ _ _ Hnow H));
  open_exec H; rust_inv; subst;
    repeat match goal with
    | E : find_user _ _ = ROk (_, _) |- _ => apply find_user_inv in E as [? ?]
    | E : authority_signs _ _ = ROk _ |- _ => apply authority_signs_inv in E
    | E : open_position _ _ _ _ _ _ _ _ _ _ = ROk ?r |- _ => destruct r as [c r];
        apply open_position_evolves in E as [Hc Hr]; [| done | by untype]
    | E : close_position _ _ _ _ _ _ _ = ROk ?r |- _ => destruct r as [c r];
        apply close_position_evolves in E as [Hc Hr]; [| done]
    end;
    try (apply Hin; by eapply left_alone_at; [| apply mc_owner]).
  - intros e He. right. exists e. split; [| done]. cbn. apply elem_of_app. by left.
  - intros e He. cbn. match goal with E : pr_users p !! _ = Some ?x |- _ =>
      rewrite (delete_Permutation _ _ _ E) in He end.
    apply elem_of_cons in He as [-> | He]; [left; by apply mc_owner | right; by exists e].
  - apply Hin. eapply left_alone_trade; [eassumption | by apply mc_owner | by rewrite (ce_key _ _ Hc) | exact Hr].
  - apply Hin. eapply left_alone_trade; [eassumption | by apply mc_owner | by rewrite (ce_key _ _ Hc) | exact Hr].
  - apply Hin. eapply left_alone_at; [eassumption |]. apply mc_settled. by subst.
Qed.

Lemma write_user_state q k u : pr_state (write_user q k u) = pr_state q.
Proof. unfold write_user. by destruct (find_user q k) as [[] |]. Qed.
Lemma finish_trade_state j token r : pr_state (finish_trade cx p j token r) = pr_state p.
Proof.
  unfold finish_trade. destruct (r.2); [| done]. destruct (referrer_key _ _ _); [| done].
  by rewrite write_user_state.
Qed.

Lemma exec_user_state i p' ts :
  exec_user spl_token_id user_address cx p i = ROk (p', ts) -> pr_state p' = pr_state p.
Proof.
  intros H. destruct i; open_exec H; rust_inv; subst; try done; cbn;
    by rewrite ?finish_trade_state, ?write_user_state.
Qed.

(** Instructions on markets leave the users and the state alone; they and those on the state are
    the administrator's. *)
Lemma exec_market_frame i p' ts :
  exec_market integer_sqrt cx p i = ROk (p', ts) ->
  (pr_state p' = pr_state p /\ pr_users p' = pr_users p) /\
  (administrative i = true -> st_admin (pr_state p) = cx_signer cx).
Proof.
  intros H. destruct i; open_exec H; rust_inv; subst;
    try match goal with E : admin_signs _ _ = ROk _ |- _ => apply admin_signs_inv in E end; done.
Qed.
Lemma exec_state_frame i p' ts :
  exec_state cx p i = ROk (p', ts) ->
  pr_users p' = pr_users p /\ st_admin (pr_state p) = cx_signer cx.
Proof.
  intros H. destruct i; open_exec H; rust_inv;
    match goal with E : admin_signs _ _ = ROk _ |- _ => apply admin_signs_inv in E end; by subst.
Qed.

(** C7: Authority: an instruction changes the exchange's state, or does anything else that is
    the administrator's to do, only when the administrator signs; and every user's
    collateral and positions stay as they are unless the user's authority signs, the
    call is to settle the user's funding, or it liquidates the user, whose margin ratio
    then, with funding settled, is no more than the ratio for partial liquidations. *)
Theorem authority_required i p' ts :
  well_typed (cx, i) -> exec spl_token_id user_address integer_sqrt cx p i = ROk (p', ts) ->
  (pr_state p' <> pr_state p \/ administrative i = true -> st_admin (pr_state p) = cx_signer cx) /\
  (forall e, e ∈ pr_users p -> may_change i e \/ exists e', e' ∈ pr_users p' /\ untouched e e').
Proof.
  intros Hi H.
  assert (pr_users p' = pr_users p -> forall e, e ∈ pr_users p ->
    may_change i e \/ exists e', e' ∈ pr_users p' /\ untouched e e') as Hsame.
  { intros -> e He. right. by exists e. }
  destruct i; cbn [exec] in H;
    first
    [ split; [| by eapply users_left_alone]; intros [Hs | Hs]; [| done];
      by apply exec_user_state in H
    | apply exec_state_frame in H as [Hu Ha]; by split; [| apply Hsame]
    | apply exec_market_frame in H as [[Hs Hu] Ha]; split; [| by apply Hsame];
      intros [Hc | Hc]; [done | by apply Ha] ].
Qed.

(** The transfers an instruction may order, and who signs for them. *)
Definition may_order (i : ProgramInstruction) (t : Transfer) : Prop :=
  let signed k := exists j e, find_user p k = ROk (j, e) /\ usr_authority (ue_user e) = cx_signer cx in
  match t with
  | UserToCollateralVault amount => exists k, i = DepositCollateral k amount /\ signed k
  | CollateralVaultToUser _ | InsuranceVaultToUser _ =>
      exists k asked, i = WithdrawCollateral k asked /\ signed k
  | CollateralVaultToInsuranceVault _ => exists k l, i = Liquidate k l /\ signed l
  | CollateralVaultToRecipient amount =>
      exists m, i = WithdrawFees m amount /\ st_admin (pr_state p) = cx_signer cx
  | InsuranceVaultToRecipient amount =>
      i = WithdrawFromInsuranceVault amount /\ st_admin (pr_state p) = cx_signer cx
  | InsuranceVaultToCollateralVault amount =>
      exists m, i = WithdrawFromInsuranceVaultToMarket m amount /\ st_admin (pr_state p) = cx_signer cx
  end.

Ltac ordered :=
  match goal with |- Forall _ (if ?b then _ else _) => destruct b end;
  [apply Forall_singleton; cbn; eauto 10 | apply Forall_nil_2].

(** C8: Transfers: whatever the program pays or takes, someone entitled signed for: a user's
    own authority for a deposit (of the amount asked) or a withdrawal, the liquidator's for
    a liquidation, and the administrator for fees and insurance (the amount asked, no
    more). *)
Theorem transfers_authorised i p' ts :
  exec spl_token_id user_address integer_sqrt cx p i = ROk (p', ts) -> Forall (may_order i) ts.
Proof.
  intros H. destruct i; cbn [exec] in H; open_exec H; rust_inv;
    repeat match goal with
    | E : authority_signs _ _ = ROk _ |- _ => apply authority_signs_inv in E
    | E : admin_signs _ _ = ROk _ |- _ => apply admin_signs_inv in E
    end; subst; try apply Forall_nil_2.
  - unfold deposit_collateral in *. rust_inv. subst. apply Forall_singleton. exists user. eauto 6.
  - unfold withdraw_collateral in *. rust_inv. subst. apply Forall_cons. split; [cbn; eauto 8 |].
    ordered.
  - unfold liquidate_handler in *. rust_inv. subst. ordered.
  - unfold withdraw_fees in *. rust_inv. subst. apply Forall_singleton. cbn. eauto.
  - apply Forall_singleton. done.
  - unfold withdraw_from_insurance_vault_to_market in *. rust_inv. subst. apply Forall_singleton. cbn. eauto.
Qed.
End Authority.

(** ** What is given up, and what is forgotten *)
Section Control.
Variables (spl_token_id : PublicKey) (user_address : PublicKey -> PublicKey) (integer_sqrt : Z -> Z).

(** What the state keeps of these. *)
Lemma exec_state_fields cx p i p' ts :
  exec spl_token_id user_address integer_sqrt cx p i = ROk (p', ts) ->
  st_curveHistory (pr_state p') = st_curveHistory (pr_state p) /\
  (st_adminControlsPrices (pr_state p) = false -> st_adminControlsPrices (pr_state p') = false).
Proof.
  intros H. destruct i; cbn [exec] in H;
    first [ by apply exec_user_state in H as -> | by apply exec_market_frame in H as [[-> _] _] | idtac ];
    open_exec H; rust_inv; subst; try done.
  - unfold initialize_history in *. rust_inv. by subst.
  - unfold update_curve_history in *. rust_inv. by subst.
  - by destruct u.
Qed.

(** C29: Price control given up stays given up: once [disable_admin_controls_prices] was
    called, in every later state of every run no call of [move_amm_price] by anybody
    succeeds. *)
Theorem price_control_given_up p ts cx base_reserve quote_reserve i :
  st_adminControlsPrices (pr_state p) = false ->
  let q := run_protocol spl_token_id user_address integer_sqrt p ts in
  exists e, exec spl_token_id user_address integer_sqrt cx q (MoveAmmPrice base_reserve quote_reserve i) = RErr e.
Proof.
  intros Hp q. assert (st_adminControlsPrices (pr_state q) = false) as Hq.
  { apply transactions_invariant; [| done]. intros cx' i' p1 p2 out H1 H. by apply exec_state_fields in H as [_ ->]. }
  cbn. unfold exec_move_amm_price. destruct (admin_signs cx q); [| eauto]. cbn. rewrite Hq. eauto.
Qed.

(** A ring without a record. *)
Definition emptied `{Numbered R} (h : History R) : Prop :=
  head h = 0 /\ Forall (fun r => record_id r = 0) (records h).

(** C27: The histories can be started again: [initialize_history] refuses a second call only
    if [curve_history] is set, a field nothing sets (it sets [extended_curve_history]), so
    after any run the administrator's call succeeds and replaces all histories by
    empty ones. *)
Theorem histories_reinitialised p ts cx keys :
  starts p ->
  let q := run_protocol spl_token_id user_address integer_sqrt p ts in
  cx_signer cx = st_admin (pr_state q) ->
  exists q', exec spl_token_id user_address integer_sqrt cx q (InitializeHistory keys) = ROk (q', []) /\
    emptied (pr_trades q') /\ emptied (pr_deposits q') /\ emptied (pr_fundingPayments q') /\
    emptied (pr_fundingRates q') /\ emptied (pr_liquidations q') /\ emptied (pr_curve q').
Proof.
  intros Hp q Hcx. assert (st_curveHistory (pr_state q) = Pubkey_default) as Hq.
  { apply transactions_invariant; [| by apply starts_fresh].
    intros cx' i' p1 p2 out H1 H. apply exec_state_fields in H as [-> _]. done. }
  exists (new_histories q (update_state (SetHistories keys) (pr_state q))).
  split; [| split_and!; split; first [done | by apply Forall_replicate]].
  unfold exec, exec_state, exec_initialize_history, admin_signs, constraint. rewrite bool_decide_true by done. cbn -[new_histories].
  unfold initialize_history. rewrite Hq. by rewrite andb_false_r.
Qed.
End Control.

(** The instructions a pause stops. *)
Definition stopped_by_pause (i : ProgramInstruction) : bool :=
  match i with
  | WithdrawCollateral _ _ | OpenPosition _ _ _ _ _ _ _ | ClosePosition _ _ _ _ | Liquidate _ _
  | SettleFundingPayment _ | UpdateFundingRate _ | MoveAmmPrice _ _ _ | RepegAmmCurve _ _ | UpdateK _ _ => true
  | _ => false
  end.

(** A pause: while the exchange is paused nobody trades, closes, withdraws, liquidates, settles
    or moves a market's price or curve, and only the administrator can end the pause. *)
Theorem paused_refuses spl_token_id user_address integer_sqrt cx p i p' ts :
  st_exchangePaused (pr_state p) = true ->
  exec spl_token_id user_address integer_sqrt cx p i = ROk (p', ts) ->
  stopped_by_pause i = false /\
  (st_exchangePaused (pr_state p') = true \/ st_admin (pr_state p) = cx_signer cx).
Proof.
  intros Hp H. split.
  - destruct i; try done; exfalso; cbn [exec] in H; open_exec H;
      unfold open_position, close_position, withdraw_collateral, liquidate_handler, repeg_amm_curve, update_k,
        move_amm_price, trade_allowed, exchange_not_paused in H;
      rust_inv; match goal with E : negb (st_exchangePaused _) = true |- _ => by rewrite Hp in E end.
  - destruct i; cbn [exec] in H;
      first [ apply exec_user_state in H as ->; by left | apply exec_market_frame in H as [[-> _] _]; by left
            | apply exec_state_frame in H as [_ H]; by right ].
Qed.

(** ** Runs in which the program falls short

    An exchange with one market of 10^18 units a side at one dollar, run by "admin". *)
Module Scenario.
Definition vault_authority (vault : PublicKey) : PublicKey * Z := ("authority of " +:+ vault, 255).
Definition user_account (authority : PublicKey) : PublicKey := "user " +:+ authority.
Definition sol_at (cents : Z) : OracleAccount :=
  mkOracleAccount "sol" (mkPrice (cents * 10 ^ 6) 1000 (cents * 10 ^ 6) 1000 (- 8) 5).
Definition signs (who : PublicKey) (now cents : Z) : Context :=
  mkContext who now 5 (sol_at cents) [sol_at cents] [] (10 ^ 13) (10 ^ 12).
Definition history_keys : HistoryKeys := mkHistoryKeys "deposits" "trades" "rates" "payments" "liquidations" "curve".

Definition new_state : StateAccount :=
  initial_state "admin" "usdc" ("collateral", "authority of collateral", 255)
    ("insurance", "authority of insurance", 255) "markets" true.
Definition new_exchange : Protocol := new_protocol new_state Markets_default.
Abbreviation runs := (run_protocol "token" user_account Z.sqrt new_exchange).

Definition set_up : list (Context * ProgramInstruction) :=
  [(signs "admin" 10 100, InitializeHistory history_keys);
   (signs "admin" 11 100, InitializeMarket 0 (10 ^ 18) (10 ^ 18) 3600 1000);
   (signs "alice" 12 100, InitializeUser false);
   (signs "alice" 13 100, DepositCollateral "user alice" (10 ^ 9));
   (signs "alice" 14 100, OpenPosition "user alice" LONG (10 ^ 9) 0 0 false false)].

(** The administrator raises k by a tenth, paid from the fees, then takes half of all fees. *)
Definition spend_fees : list (Context * ProgramInstruction) :=
  set_up ++ [(signs "admin" 15 100, UpdateK (11 * 10 ^ 17) 0); (signs "admin" 16 100, WithdrawFees 0 500000)].

(** Bob's buys raise the price; Alice, whose profit is now margin enough, withdraws all her
    collateral and deletes her account. *)
Definition leave_open : list (Context * ProgramInstruction) :=
  set_up ++
  [(signs "bob" 15 100, InitializeUser false);
   (signs "bob" 15 100, DepositCollateral "user bob" (10 ^ 10));
   (signs "bob" 15 150, OpenPosition "user bob" LONG (45 * 10 ^ 8) 0 0 false false);
   (signs "bob" 15 150, OpenPosition "user bob" LONG (18 * 10 ^ 9) 0 0 false false);
   (signs "alice" 16 150, WithdrawCollateral "user alice" 999000000);
   (signs "alice" 17 150, DeleteUser "user alice")].
End Scenario.

Lemma scenario_starts : starts Scenario.new_exchange.
Proof.
  exists Scenario.vault_authority, "admin", "usdc",
    (mkVault "collateral" "authority of collateral"), (mkVault "insurance" "authority of insurance"),
    "markets", true, Scenario.new_state, Markets_default. by split.
Qed.

(** Every argument of these runs fits its type. *)
Ltac run_typed :=
  repeat (apply List.Forall_cons; [split; [by vm_compute | repeat constructor; by vm_compute] |]);
  apply List.Forall_nil.

Lemma set_up_typed : Forall well_typed Scenario.set_up.
Proof. run_typed. Qed.
Lemma spend_fees_typed : Forall well_typed Scenario.spend_fees.
Proof. run_typed. Qed.
Lemma leave_open_typed : Forall well_typed Scenario.leave_open.
Proof. run_typed. Qed.

(** C25: Fees can be spent twice: a change of k may take the fees down to what was
    withdrawn so far, and the administrator's half of all fees can still be withdrawn
    afterwards: here, with a single trade, more than all fees is spent. *)
Theorem fees_spent_twice :
  exists ts, starts Scenario.new_exchange /\ Forall well_typed ts /\
  exists m, js_index (pr_markets (Scenario.runs ts)) 0 = Some m /\
    let amm := mkt_amm m in let distributed := amm_totalFee amm - amm_totalFeeMinusDistributions amm in
    amm_totalFee amm < amm_totalFeeWithdrawn amm + distributed.
Proof.
  exists Scenario.spend_fees. split; [exact scenario_starts |]. split; [exact spend_fees_typed |].
  eexists. split; vm_compute; reflexivity.
Qed.

(** C26: A user can leave with a position open: [delete_user] asks only that no collateral is
    left, which an unrealised profit allows; the market then counts a position that nobody
    holds. *)
Theorem delete_user_breaks_books :
  exists ts, starts Scenario.new_exchange /\ Forall well_typed ts /\
  let q := Scenario.runs ts in
  exists m, js_index (pr_markets q) 0 = Some m /\
    mkt_openInterest m = 2 /\ total 0 (ue_positions <$> pr_users q) open_count = 1 /\
    mkt_baseAssetAmount m <> total 0 (ue_positions <$> pr_users q) (fun b => b).
Proof.
  exists Scenario.leave_open. split; [exact scenario_starts |]. split; [exact leave_open_typed |].
  eexists. split; [vm_compute; reflexivity |]. split_and!; by vm_compute.
Qed.
