(* ===== verification/Client.v ===== *)
(** * The clearing house client (clearingHouse.ts, addresses.ts)

    The client builds the program's instructions from the subscribed accounts
    and from two addresses and one account it caches.  A method runs in the
    state [Client] of the object and may throw.  The addresses the program
    derives, the accounts fetched, the subscribed accounts and new key pairs
    come from the environment [Chain] or are arguments. *)
From S2P Require Import Prelude BN Types Idl.

(** What the client reads of the chain, of the libraries and of its account
    subscriber, at the time of a call. *)
Record Chain := mkChain {
  findProgramAddress : list string -> PublicKey -> PublicKey * Z;
  getAssociatedTokenAddress : PublicKey -> PublicKey -> PublicKey;
  fetchUser : PublicKey -> result UserAccount;
  fetchUserPositions : PublicKey -> result UserPositionsAccount;
  subscribedState : result StateAccount;
  subscribedMarkets : result MarketsAccount;
  TOKEN_PROGRAM_ID : PublicKey;
  SYSVAR_RENT_PUBKEY : PublicKey;
  SystemProgram_programId : PublicKey
}.

(** The fields of [ClearingHouse] its methods read and write. *)
Record Client := mkClient {
  cl_programId : PublicKey;
  cl_wallet : PublicKey;
  cl_statePublicKey : option PublicKey;
  cl_userAccountPublicKey : option PublicKey;
  cl_userAccount : option UserAccount
}.

(** An instruction of a transaction: a call of the program, or the creation of
    an account of one of its types ([program.account.<type>.createInstruction]). *)
Inductive TxInstruction :=
  | Call (ix : Instruction)
  | CreateAccount (type : string) (key : PublicKey).

(** A transaction: its instructions, and the key pairs that sign it besides the
    wallet. *)
Record Transaction := mkTransaction {
  tx_instructions : list TxInstruction;
  tx_signers : list PublicKey
}.

(** ** Methods: state and exceptions *)
Definition Method (A : Type) : Type := Client -> Client * result A.

#[export] Instance Method_ret : MRet Method := fun A a c => (c, Ok a).
#[export] Instance Method_bind : MBind Method := fun A B f m c =>
  match m c with
  | (c', Ok a) => f a c'
  | (c', Throw e) => (c', Throw e)
  end.

Definition lift {A} (r : result A) : Method A := fun c => (c, r).
Definition gets {A} (f : Client -> A) : Method A := fun c => (c, Ok (f c)).

Section Client.
Context {B : BNLib}.
Variable chain : Chain.

(** ** addresses.ts *)
Definition getClearingHouseStateAccountPublicKeyAndNonce (programId : PublicKey) : PublicKey * Z :=
  findProgramAddress chain ["clearing_house"%string] programId.
Definition getClearingHouseStateAccountPublicKey (programId : PublicKey) : PublicKey :=
  (getClearingHouseStateAccountPublicKeyAndNonce programId).1.
Definition getUserAccountPublicKeyAndNonce (programId authority : PublicKey) : PublicKey * Z :=
  findProgramAddress chain ["user"%string; authority] programId.
Definition getUserAccountPublicKeyAt (programId authority : PublicKey) : PublicKey :=
  (getUserAccountPublicKeyAndNonce programId authority).1.

(** ** Cached addresses and accounts *)

(** [getStatePublicKey] *)
Definition getStatePublicKey : Method PublicKey := fun c =>
  match cl_statePublicKey c with
  | Some k => (c, Ok k)
  | None =>
      let k := getClearingHouseStateAccountPublicKey (cl_programId c) in
      (mkClient (cl_programId c) (cl_wallet c) (Some k) (cl_userAccountPublicKey c)
         (cl_userAccount c), Ok k)
  end.

(** [getUserAccountPublicKey] *)
Definition getUserAccountPublicKey : Method PublicKey := fun c =>
  match cl_userAccountPublicKey c with
  | Some k => (c, Ok k)
  | None =>
      let k := getUserAccountPublicKeyAt (cl_programId c) (cl_wallet c) in
      (mkClient (cl_programId c) (cl_wallet c) (cl_statePublicKey c) (Some k)
         (cl_userAccount c), Ok k)
  end.

(** [getUserAccount] *)
Definition cacheUserAccount (u : UserAccount) : Method unit := fun c =>
  (mkClient (cl_programId c) (cl_wallet c) (cl_statePublicKey c) (cl_userAccountPublicKey c)
     (Some u), Ok tt).
Definition clientUserAccount : Method UserAccount :=
  cached ← gets cl_userAccount;
  match cached with
  | Some u => mret u
  | None =>
      k ← getUserAccountPublicKey;
      u ← lift (fetchUser chain k);
      _ ← cacheUserAccount u;
      mret u
  end.

(** [updateWallet] *)
Definition updateWallet (newWallet : PublicKey) : Method unit := fun c =>
  (mkClient (cl_programId c) newWallet (cl_statePublicKey c) None None, Ok tt).

(** The market's oracle: [getMarketsAccount().markets[i.toNumber()].amm.oracle] *)
Definition marketOracle (marketIndex : Z) : Method PublicKey :=
  markets ← lift (subscribedMarkets chain);
  i ← lift (bn_toNumber marketIndex);
  market ← lift (deref (js_index (ma_markets markets) i));
  mret (amm_oracle (mkt_amm market)).

(** [wrapInTx] of tx/utils.ts *)
Definition wrapInTx (ix : Instruction) : Transaction := mkTransaction [Call ix] [].

(** ** Users *)

(** [getInitializeUserInstructions]; [userPositions] is the new key pair.  A
    public key object is never falsy, so the whitelist branch is always taken. *)
Definition getInitializeUserInstructions (userPositions : PublicKey)
    : Method (PublicKey * PublicKey * Instruction) :=
  programId ← gets cl_programId;
  wallet ← gets cl_wallet;
  let '(userPublicKey, userAccountNonce) := getUserAccountPublicKeyAndNonce programId wallet in
  state ← lift (subscribedState chain);
  let associatedTokenPublicKey := getAssociatedTokenAddress chain (st_whitelistMint state) wallet in
  statePublicKey ← getStatePublicKey;
  mret (userPositions, userPublicKey,
    {| ix_name := "initializeUser";
       ix_args := [ANumber userAccountNonce; AFlags [("whitelistToken"%string, true)]];
       ix_accounts :=
         [("user", userPublicKey);
          ("authority", wallet);
          ("rent", SYSVAR_RENT_PUBKEY chain);
          ("systemProgram", SystemProgram_programId chain);
          ("userPositions", userPositions);
          ("state", statePublicKey)]%string;
       ix_remainingAccounts := [mkAccountMeta associatedTokenPublicKey false false] |}).

(** [initializeUserAccount]: the transaction sent *)
Definition initializeUserAccount (userPositions : PublicKey) : Method (Transaction * PublicKey) :=
  '(userPositionsAccount, userAccountPublicKey, ix) ← getInitializeUserInstructions userPositions;
  mret (mkTransaction [Call ix] [userPositionsAccount], userAccountPublicKey).

(** [getDepositCollateralInstruction] *)
Definition getDepositCollateralInstruction (amount : Z) (collateralAccountPublicKey : PublicKey)
    (userPositionsAccountPublicKey : option PublicKey) : Method Instruction :=
  userAccountPublicKey ← getUserAccountPublicKey;
  userPositionsAccountPublicKey ←
    match userPositionsAccountPublicKey with
    | Some k => mret k
    | None => u ← clientUserAccount; mret (ua_positions u)
    end;
  state ← lift (subscribedState chain);
  statePublicKey ← getStatePublicKey;
  wallet ← gets cl_wallet;
  mret
    {| ix_name := "depositCollateral";
       ix_args := [ABN amount];
       ix_accounts :=
         [("state", statePublicKey);
          ("user", userAccountPublicKey);
          ("collateralVault", st_collateralVault state);
          ("userCollateralAccount", collateralAccountPublicKey);
          ("authority", wallet);
          ("tokenProgram", TOKEN_PROGRAM_ID chain);
          ("markets", st_markets state);
          ("fundingPaymentHistory", st_fundingPaymentHistory state);
          ("depositHistory", st_depositHistory state);
          ("userPositions", userPositionsAccountPublicKey)]%string;
       ix_remainingAccounts := [] |}.

(** [depositCollateral]: the transaction sent *)
Definition depositCollateral (amount : Z) (collateralAccountPublicKey : PublicKey)
    (userPositionsAccountPublicKey : option PublicKey) : Method Transaction :=
  ix ← getDepositCollateralInstruction amount collateralAccountPublicKey
         userPositionsAccountPublicKey;
  mret (wrapInTx ix).

(** [initializeUserAccountAndDepositCollateral]: the transaction sent *)
Definition initializeUserAccountAndDepositCollateral (userPositions : PublicKey) (amount : Z)
    (collateralAccountPublicKey : PublicKey) : Method (Transaction * PublicKey) :=
  '(userPositionsAccount, userAccountPublicKey, initializeUserAccountIx) ←
    getInitializeUserInstructions userPositions;
  depositCollateralIx ← getDepositCollateralInstruction amount collateralAccountPublicKey
                          (Some userPositionsAccount);
  mret (mkTransaction [Call initializeUserAccountIx; Call depositCollateralIx]
          [userPositionsAccount],
        userAccountPublicKey).

(** [deleteUser]: the transaction sent *)
Definition deleteUser : Method Transaction :=
  userAccountPublicKey ← getUserAccountPublicKey;
  user ← lift (fetchUser chain userAccountPublicKey);
  wallet ← gets cl_wallet;
  mret (wrapInTx
    {| ix_name := "deleteUser";
       ix_args := [];
       ix_accounts :=
         [("user", userAccountPublicKey);
          ("userPositions", ua_positions user);
          ("authority", wallet)]%string;
       ix_remainingAccounts := [] |}).

(** [getWithdrawCollateralIx] *)
Definition getWithdrawCollateralIx (amount : Z) (collateralAccountPublicKey : PublicKey)
    : Method Instruction :=
  userAccountPublicKey ← getUserAccountPublicKey;
  user ← lift (fetchUser chain userAccountPublicKey);
  state ← lift (subscribedState chain);
  statePublicKey ← getStatePublicKey;
  wallet ← gets cl_wallet;
  mret
    {| ix_name := "withdrawCollateral";
       ix_args := [ABN amount];
       ix_accounts :=
         [("state", statePublicKey);
          ("user", userAccountPublicKey);
          ("collateralVault", st_collateralVault state);
          ("collateralVaultAuthority", st_collateralVaultAuthority state);
          ("insuranceVault", st_insuranceVault state);
          ("insuranceVaultAuthority", st_insuranceVaultAuthority state);
          ("userCollateralAccount", collateralAccountPublicKey);
          ("authority", wallet);
          ("tokenProgram", TOKEN_PROGRAM_ID chain);
          ("markets", st_markets state);
          ("userPositions", ua_positions user);
          ("fundingPaymentHistory", st_fundingPaymentHistory state);
          ("depositHistory", st_depositHistory state)]%string;
       ix_remainingAccounts := [] |}.

(** ** Positions *)

(** The flags and remaining accounts of [getOpenPositionIx] and
    [getClosePositionIx]. *)
Definition positionFlags (discountToken referrer : option PublicKey) : list (string * bool) :=
  [("discountToken", match discountToken with Some _ => true | None => false end);
   ("referrer", match referrer with Some _ => true | None => false end)]%string.
Definition positionRemaining (discountToken referrer : option PublicKey) : list AccountMeta :=
  match discountToken with Some k => [mkAccountMeta k false false] | None => [] end ++
  match referrer with Some k => [mkAccountMeta k true false] | None => [] end.

Definition positionAccounts (statePublicKey user wallet positions oracle : PublicKey)
    (state : StateAccount) : list (string * PublicKey) :=
  [("state", statePublicKey);
   ("user", user);
   ("authority", wallet);
   ("markets", st_markets state);
   ("userPositions", positions);
   ("tradeHistory", st_tradeHistory state);
   ("fundingPaymentHistory", st_fundingPaymentHistory state);
   ("fundingRateHistory", st_fundingRateHistory state);
   ("oracle", oracle)]%string.

(** [getOpenPositionIx] *)
Definition getOpenPositionIx (direction : PositionDirection) (amount marketIndex : Z)
    (limitPrice : option Z) (discountToken referrer : option PublicKey) : Method Instruction :=
  userAccountPublicKey ← getUserAccountPublicKey;
  userAccount ← clientUserAccount;
  let limitPrice := default 0 limitPrice in
  priceOracle ← marketOracle marketIndex;
  state ← lift (subscribedState chain);
  statePublicKey ← getStatePublicKey;
  wallet ← gets cl_wallet;
  mret
    {| ix_name := "openPosition";
       ix_args := [ADirection direction; ABN amount; ABN marketIndex; ABN limitPrice;
                   AFlags (positionFlags discountToken referrer)];
       ix_accounts := positionAccounts statePublicKey userAccountPublicKey wallet
                        (ua_positions userAccount) priceOracle state;
       ix_remainingAccounts := positionRemaining discountToken referrer |}.

(** [getClosePositionIx] *)
Definition getClosePositionIx (marketIndex : Z) (discountToken referrer : option PublicKey)
    : Method Instruction :=
  userAccountPublicKey ← getUserAccountPublicKey;
  userAccount ← clientUserAccount;
  priceOracle ← marketOracle marketIndex;
  state ← lift (subscribedState chain);
  statePublicKey ← getStatePublicKey;
  wallet ← gets cl_wallet;
  mret
    {| ix_name := "closePosition";
       ix_args := [ABN marketIndex; AFlags (positionFlags discountToken referrer)];
       ix_accounts := positionAccounts statePublicKey userAccountPublicKey wallet
                        (ua_positions userAccount) priceOracle state;
       ix_remainingAccounts := positionRemaining discountToken referrer |}.

(** ** Liquidation and funding *)

(** The loop of [getLiquidateIx]: the oracles of the markets with a position. *)
Fixpoint liquidationOracles (markets : list Market) (ps : list UserPosition)
    : result (list AccountMeta) :=
  match ps with
  | [] => Ok []
  | p :: ps' =>
      if pos_baseAssetAmount p =? 0 then liquidationOracles markets ps'
      else
        i ← bn_toNumber (bo_val (pos_marketIndex p));
        market ← deref (js_index markets i);
        rest ← liquidationOracles markets ps';
        Ok (mkAccountMeta (amm_oracle (mkt_amm market)) false false :: rest)
  end.

(** [getLiquidateIx] *)
Definition getLiquidateIx (liquidateeUserAccountPublicKey : PublicKey) : Method Instruction :=
  userAccountPublicKey ← getUserAccountPublicKey;
  liquidateeUserAccount ← lift (fetchUser chain liquidateeUserAccountPublicKey);
  liquidateePositions ← lift (fetchUserPositions chain (ua_positions liquidateeUserAccount));
  markets ← lift (subscribedMarkets chain);
  remainingAccounts ←
    lift (liquidationOracles (ma_markets markets) (upa_positions liquidateePositions));
  state ← lift (subscribedState chain);
  statePublicKey ← getStatePublicKey;
  wallet ← gets cl_wallet;
  mret
    {| ix_name := "liquidate";
       ix_args := [];
       ix_accounts :=
         [("state", statePublicKey);
          ("authority", wallet);
          ("user", liquidateeUserAccountPublicKey);
          ("liquidator", userAccountPublicKey);
          ("collateralVault", st_collateralVault state);
          ("collateralVaultAuthority", st_collateralVaultAuthority state);
          ("insuranceVault", st_insuranceVault state);
          ("insuranceVaultAuthority", st_insuranceVaultAuthority state);
          ("tokenProgram", TOKEN_PROGRAM_ID chain);
          ("markets", st_markets state);
          ("userPositions", ua_positions liquidateeUserAccount);
          ("tradeHistory", st_tradeHistory state);
          ("liquidationHistory", st_liquidationHistory state);
          ("fundingPaymentHistory", st_fundingPaymentHistory state)]%string;
       ix_remainingAccounts := remainingAccounts |}.

(** [getUpdateFundingRateIx] *)
Definition getUpdateFundingRateIx (oracle : PublicKey) (marketIndex : Z) : Method Instruction :=
  state ← lift (subscribedState chain);
  statePublicKey ← getStatePublicKey;
  mret
    {| ix_name := "updateFundingRate";
       ix_args := [ABN marketIndex];
       ix_accounts :=
         [("state", statePublicKey);
          ("markets", st_markets state);
          ("oracle", oracle);
          ("fundingRateHistory", st_fundingRateHistory state)]%string;
       ix_remainingAccounts := [] |}.

(** [getSettleFundingPaymentIx] *)
Definition getSettleFundingPaymentIx (userAccount userPositionsAccount : PublicKey)
    : Method Instruction :=
  state ← lift (subscribedState chain);
  statePublicKey ← getStatePublicKey;
  mret
    {| ix_name := "settleFundingPayment";
       ix_args := [];
       ix_accounts :=
         [("state", statePublicKey);
          ("markets", st_markets state);
          ("user", userAccount);
          ("userPositions", userPositionsAccount);
          ("fundingPaymentHistory", st_fundingPaymentHistory state)]%string;
       ix_remainingAccounts := [] |}.

(** [withdrawCollateral], [openPosition], [closePosition], [liquidate],
    [updateFundingRate], [settleFundingPayment]: the transactions sent *)
Definition withdrawCollateral (amount : Z) (collateralAccountPublicKey : PublicKey)
    : Method Transaction :=
  ix ← getWithdrawCollateralIx amount collateralAccountPublicKey; mret (wrapInTx ix).
Definition openPosition (direction : PositionDirection) (amount marketIndex : Z)
    (limitPrice : option Z) (discountToken referrer : option PublicKey) : Method Transaction :=
  ix ← getOpenPositionIx direction amount marketIndex limitPrice discountToken referrer;
  mret (wrapInTx ix).
Definition closePosition (marketIndex : Z) (discountToken referrer : option PublicKey)
    : Method Transaction :=
  ix ← getClosePositionIx marketIndex discountToken referrer; mret (wrapInTx ix).
Definition liquidate (liquidateeUserAccountPublicKey : PublicKey) : Method Transaction :=
  ix ← getLiquidateIx liquidateeUserAccountPublicKey; mret (wrapInTx ix).
Definition updateFundingRate (oracle : PublicKey) (marketIndex : Z) : Method Transaction :=
  ix ← getUpdateFundingRateIx oracle marketIndex; mret (wrapInTx ix).
Definition settleFundingPayment (userAccount userPositionsAccount : PublicKey)
    : Method Transaction :=
  ix ← getSettleFundingPaymentIx userAccount userPositionsAccount; mret (wrapInTx ix).
End Client.
