(* ===== verification/Admin.v ===== *)
(** * The administrator's client (admin.ts)

    The methods of [Admin], which extends [ClearingHouse].  Each gives the
    transactions it sends. [program.rpc] and [program.transaction] take the same
    requests as [program.instruction]; the instructions listed beside the
    request go before it. *)
From S2P Require Import Prelude BN Types Amm Trade Idl Client.

Section Admin.
Context {B : BNLib}.
Variable chain : Chain.

(** A request with accounts only the administrator's methods use: the wallet as
    [admin], the state, and [more]. *)
Definition adminIx (name : string) (args : list Arg) (more : list (string * PublicKey))
    : Method Instruction :=
  statePublicKey ← getStatePublicKey chain;
  wallet ← gets cl_wallet;
  mret {| ix_name := name;
          ix_args := args;
          ix_accounts := ("admin", wallet)%string :: ("state", statePublicKey)%string :: more;
          ix_remainingAccounts := [] |}.

(** [initialize]: the two transactions sent. [stateExists] is whether the state
    account exists, [keys] the seven new key pairs. *)
Record InitializeKeys := mkInitializeKeys {
  ik_markets : PublicKey;
  ik_depositHistory : PublicKey;
  ik_fundingRateHistory : PublicKey;
  ik_fundingPaymentHistory : PublicKey;
  ik_tradeHistory : PublicKey;
  ik_liquidationHistory : PublicKey;
  ik_curveHistory : PublicKey
}.

Definition initialize (stateExists : PublicKey -> result bool) (keys : InitializeKeys)
    (usdcMint : PublicKey) (adminControlsPrices : bool) : Method (Transaction * Transaction) :=
  stateKey ← getStatePublicKey chain;
  initialized ← lift (stateExists stateKey);
  if (initialized : bool) then lift (Throw (JsErr "Clearing house already initialized"))
  else
    programId ← gets cl_programId;
    wallet ← gets cl_wallet;
    let '(collateralVaultPublicKey, collateralVaultNonce) :=
      findProgramAddress chain ["collateral_vault"%string] programId in
    let collateralVaultAuthority := (findProgramAddress chain [collateralVaultPublicKey] programId).1 in
    let '(insuranceVaultPublicKey, insuranceVaultNonce) :=
      findProgramAddress chain ["insurance_vault"%string] programId in
    let insuranceVaultAuthority := (findProgramAddress chain [insuranceVaultPublicKey] programId).1 in
    let '(clearingHouseStatePublicKey, clearingHouseNonce) :=
      getClearingHouseStateAccountPublicKeyAndNonce chain programId in
    let initializeTx := mkTransaction
      [CreateAccount "markets" (ik_markets keys);
       Call {| ix_name := "initialize";
               ix_args := [ANumber clearingHouseNonce; ANumber collateralVaultNonce;
                           ANumber insuranceVaultNonce; ABool adminControlsPrices];
               ix_accounts :=
                 [("admin", wallet);
                  ("state", clearingHouseStatePublicKey);
                  ("collateralMint", usdcMint);
                  ("collateralVault", collateralVaultPublicKey);
                  ("collateralVaultAuthority", collateralVaultAuthority);
                  ("insuranceVault", insuranceVaultPublicKey);
                  ("insuranceVaultAuthority", insuranceVaultAuthority);
                  ("markets", ik_markets keys);
                  ("rent", SYSVAR_RENT_PUBKEY chain);
                  ("systemProgram", SystemProgram_programId chain);
                  ("tokenProgram", TOKEN_PROGRAM_ID chain)]%string;
               ix_remainingAccounts := [] |}]
      [ik_markets keys] in
    let initializeHistoryTx := mkTransaction
      [CreateAccount "fundingRateHistory" (ik_fundingRateHistory keys);
       CreateAccount "fundingPaymentHistory" (ik_fundingPaymentHistory keys);
       CreateAccount "tradeHistory" (ik_tradeHistory keys);
       CreateAccount "liquidationHistory" (ik_liquidationHistory keys);
       CreateAccount "depositHistory" (ik_depositHistory keys);
       CreateAccount "extendedCurveHistory" (ik_curveHistory keys);
       Call {| ix_name := "initializeHistory";
               ix_args := [];
               ix_accounts :=
                 [("admin", wallet);
                  ("state", clearingHouseStatePublicKey);
                  ("depositHistory", ik_depositHistory keys);
                  ("fundingRateHistory", ik_fundingRateHistory keys);
                  ("fundingPaymentHistory", ik_fundingPaymentHistory keys);
                  ("tradeHistory", ik_tradeHistory keys);
                  ("liquidationHistory", ik_liquidationHistory keys);
                  ("curveHistory", ik_curveHistory keys);
                  ("rent", SYSVAR_RENT_PUBKEY chain);
                  ("systemProgram", SystemProgram_programId chain)]%string;
               ix_remainingAccounts := [] |}]
      [ik_depositHistory keys; ik_fundingPaymentHistory keys; ik_tradeHistory keys;
       ik_liquidationHistory keys; ik_fundingRateHistory keys; ik_curveHistory keys] in
    mret (initializeTx, initializeHistoryTx).

(** ** Markets *)

(** [initializeMarket] *)
Definition initializeMarket (marketIndex : Z) (priceOracle : PublicKey)
    (baseAssetReserve quoteAssetReserve periodicity : Z) (pegMultiplier : option Z)
    : Method Transaction :=
  markets ← lift (subscribedMarkets chain);
  i ← lift (bn_toNumber marketIndex);
  market ← lift (deref (js_index (ma_markets markets) i));
  if mkt_initialized market then
    lift (Throw (JsErr ("MarketIndex " +:+ bn_toString marketIndex +:+ " already initialized")))
  else
    statePublicKey ← getStatePublicKey chain;
    wallet ← gets cl_wallet;
    state ← lift (subscribedState chain);
    mret (wrapInTx
      {| ix_name := "initializeMarket";
         ix_args := [ABN marketIndex; ABN baseAssetReserve; ABN quoteAssetReserve;
                     ABN periodicity; ABN (default PEG_PRECISION pegMultiplier)];
         ix_accounts := [("state", statePublicKey); ("admin", wallet); ("oracle", priceOracle);
                         ("markets", st_markets state)]%string;
         ix_remainingAccounts := [] |}).

(** [moveAmmPrice] *)
Definition moveAmmPrice (baseAssetReserve quoteAssetReserve marketIndex : Z) : Method Transaction :=
  state ← lift (subscribedState chain);
  ix ← adminIx "moveAmmPrice" [ABN baseAssetReserve; ABN quoteAssetReserve; ABN marketIndex]
         [("markets", st_markets state)]%string;
  mret (wrapInTx ix).

(** [moveAmmToPrice] *)
Definition moveAmmToPrice (marketIndex targetPrice : Z) : Method Transaction :=
  i ← lift (bn_toNumber marketIndex);
  markets ← lift (subscribedMarkets chain);
  market ← lift (deref (js_index (ma_markets markets) i));
  t ← lift (calculateTargetPriceTrade market targetPrice MAXPCT quote);
  '(newQuoteAssetAmount, newBaseAssetAmount) ←
    lift (calculateAmmReservesAfterSwap (mkt_amm market) quote (tt_tradeSize t)
            (getSwapDirection quote (tt_direction t)));
  moveAmmPrice newBaseAssetAmount newQuoteAssetAmount marketIndex.

(** The accounts of the four methods that write the curve history. *)
Definition curveIx (name : string) (args : list Arg) (marketIndex : Z) : Method Transaction :=
  state ← lift (subscribedState chain);
  oracle ← marketOracle chain marketIndex;
  ix ← adminIx name args
         [("oracle", oracle); ("markets", st_markets state);
          ("curveHistory", st_extendedCurveHistory state)]%string;
  mret (wrapInTx ix).

(** [updateK], [repegAmmCurve], [updateAmmOracleTwap], [resetAmmOracleTwap] *)
Definition updateK (sqrtK marketIndex : Z) : Method Transaction :=
  curveIx "updateK" [ABN sqrtK; ABN marketIndex] marketIndex.
Definition repegAmmCurve (newPeg marketIndex : Z) : Method Transaction :=
  curveIx "repegAmmCurve" [ABN newPeg; ABN marketIndex] marketIndex.
Definition updateAmmOracleTwap (marketIndex : Z) : Method Transaction :=
  curveIx "updateAmmOracleTwap" [ABN marketIndex] marketIndex.
Definition resetAmmOracleTwap (marketIndex : Z) : Method Transaction :=
  curveIx "resetAmmOracleTwap" [ABN marketIndex] marketIndex.

(** [updateCurveHistory]; [extendedCurveHistory] is the new key pair *)
Definition updateCurveHistory (extendedCurveHistory : PublicKey) : Method Transaction :=
  state ← lift (subscribedState chain);
  ix ← adminIx "updateCurveHistory" []
         [("curveHistory", st_curveHistory state);
          ("extendedCurveHistory", extendedCurveHistory)]%string;
  mret (mkTransaction [CreateAccount "extendedCurveHistory" extendedCurveHistory; Call ix]
          [extendedCurveHistory]).

(** [updateMarketOracle], [updateMarketMinimumTradeSize] *)
Definition updateMarketOracle (marketIndex : Z) (oracle : PublicKey) (oracleSource : OracleSource)
    : Method Transaction :=
  state ← lift (subscribedState chain);
  ix ← adminIx "updateMarketOracle" [ABN marketIndex; AKey oracle; AOracleSource oracleSource]
         [("markets", st_markets state)]%string;
  mret (wrapInTx ix).
Definition updateMarketMinimumTradeSize (marketIndex minimumTradeSize : Z) : Method Transaction :=
  state ← lift (subscribedState chain);
  ix ← adminIx "updateMarketMinimumTradeSize" [ABN marketIndex; ABN minimumTradeSize]
         [("markets", st_markets state)]%string;
  mret (wrapInTx ix).

(** ** Vaults *)

(** [withdrawFromInsuranceVault], [withdrawFees],
    [withdrawFromInsuranceVaultToMarket] *)
Definition withdrawFromInsuranceVault (amount : Z) (recipient : PublicKey) : Method Transaction :=
  state ← lift (subscribedState chain);
  ix ← adminIx "withdrawFromInsuranceVault" [ABN amount]
         [("insuranceVault", st_insuranceVault state);
          ("insuranceVaultAuthority", st_insuranceVaultAuthority state);
          ("recipient", recipient);
          ("tokenProgram", TOKEN_PROGRAM_ID chain)]%string;
  mret (wrapInTx ix).
Definition withdrawFees (marketIndex amount : Z) (recipient : PublicKey) : Method Transaction :=
  state ← lift (subscribedState chain);
  ix ← adminIx "withdrawFees" [ABN marketIndex; ABN amount]
         [("markets", st_markets state);
          ("collateralVault", st_collateralVault state);
          ("collateralVaultAuthority", st_collateralVaultAuthority state);
          ("recipient", recipient);
          ("tokenProgram", TOKEN_PROGRAM_ID chain)]%string;
  mret (wrapInTx ix).
Definition withdrawFromInsuranceVaultToMarket (marketIndex amount : Z) : Method Transaction :=
  state ← lift (subscribedState chain);
  ix ← adminIx "withdrawFromInsuranceVaultToMarket" [ABN marketIndex; ABN amount]
         [("markets", st_markets state);
          ("insuranceVault", st_insuranceVault state);
          ("insuranceVaultAuthority", st_insuranceVaultAuthority state);
          ("collateralVault", st_collateralVault state);
          ("tokenProgram", TOKEN_PROGRAM_ID chain)]%string;
  mret (wrapInTx ix).

(** ** Parameters of the state: the accounts are the wallet and the state *)
Definition stateTx (name : string) (args : list Arg) : Method Transaction :=
  ix ← adminIx name args []; mret (wrapInTx ix).

Definition updateAdmin (admin : PublicKey) : Method Transaction :=
  stateTx "updateAdmin" [AKey admin].
Definition updateMarginRatio (marginRatioInitial marginRatioPartial marginRatioMaintenance : Z)
    : Method Transaction :=
  stateTx "updateMarginRatio"
    [ABN marginRatioInitial; ABN marginRatioPartial; ABN marginRatioMaintenance].
Definition updatePartialLiquidationClosePercentage (numerator denominator : Z)
    : Method Transaction :=
  stateTx "updatePartialLiquidationClosePercentage" [ABN numerator; ABN denominator].
Definition updatePartialLiquidationPenaltyPercentage (numerator denominator : Z)
    : Method Transaction :=
  stateTx "updatePartialLiquidationPenaltyPercentage" [ABN numerator; ABN denominator].
Definition updateFullLiquidationPenaltyPercentage (numerator denominator : Z)
    : Method Transaction :=
  stateTx "updateFullLiquidationPenaltyPercentage" [ABN numerator; ABN denominator].
Definition updatePartialLiquidationShareDenominator (denominator : Z) : Method Transaction :=
  stateTx "updatePartialLiquidationLiquidatorShareDenominator" [ABN denominator].
Definition updateFullLiquidationShareDenominator (denominator : Z) : Method Transaction :=
  stateTx "updateFullLiquidationLiquidatorShareDenominator" [ABN denominator].
Definition updateFee (fees : FeeStructure) : Method Transaction :=
  stateTx "updateFee" [AFeeStructure fees].
Definition updateOracleGuardRails (oracleGuardRails : OracleGuardRails) : Method Transaction :=
  stateTx "updateOracleGuardRails" [AOracleGuardRails oracleGuardRails].
Definition updateWhitelistMint (whitelistMint : option PublicKey) : Method Transaction :=
  stateTx "updateWhitelistMint" [match whitelistMint with Some k => AKey k | None => AUndefined end].
Definition updateDiscountMint (discountMint : PublicKey) : Method Transaction :=
  stateTx "updateDiscountMint" [AKey discountMint].
Definition updateMaxDeposit (maxDeposit : Z) : Method Transaction :=
  stateTx "updateMaxDeposit" [ABN maxDeposit].
Definition updateFundingPaused (fundingPaused : bool) : Method Transaction :=
  stateTx "updateFundingPaused" [ABool fundingPaused].
Definition updateExchangePaused (exchangePaused : bool) : Method Transaction :=
  stateTx "updateExchangePaused" [ABool exchangePaused].
Definition disableAdminControlsPrices : Method Transaction :=
  stateTx "disableAdminControlsPrices" [].
End Admin.
