(* ===== verification/ClientSpec.v ===== *)
(** * What the client promises

    The requests of the clearing house client and of the administrator's client
    against the program's interface.  A method is specified by [spec]: started
    on a client whose cached addresses belong to its program and wallet, it
    leaves such a client, and what it returns satisfies a predicate. *)
From S2P Require Import Prelude Checked BN Types Amm Trade Idl Client Admin.

#[local] Open Scope string_scope.

(** ** The calls *)
Inductive ClientCall :=
  | CInitializeUserAccount (userPositions : PublicKey)
  | CDepositCollateral (amount : Z) (collateralAccount : PublicKey) (userPositions : option PublicKey)
  | CInitializeUserAccountAndDeposit (userPositions : PublicKey) (amount : Z)
      (collateralAccount : PublicKey)
  | CDeleteUser
  | CWithdrawCollateral (amount : Z) (collateralAccount : PublicKey)
  | COpenPosition (direction : PositionDirection) (amount marketIndex : Z) (limitPrice : option Z)
      (discountToken referrer : option PublicKey)
  | CClosePosition (marketIndex : Z) (discountToken referrer : option PublicKey)
  | CLiquidate (liquidatee : PublicKey)
  | CUpdateFundingRate (oracle : PublicKey) (marketIndex : Z)
  | CSettleFundingPayment (userAccount userPositionsAccount : PublicKey).

Inductive AdminCall :=
  | AInitialize (stateExists : PublicKey -> result bool) (keys : InitializeKeys)
      (usdcMint : PublicKey) (adminControlsPrices : bool)
  | AInitializeMarket (marketIndex : Z) (priceOracle : PublicKey)
      (baseAssetReserve quoteAssetReserve periodicity : Z) (pegMultiplier : option Z)
  | AMoveAmmPrice (baseAssetReserve quoteAssetReserve marketIndex : Z)
  | AMoveAmmToPrice (marketIndex targetPrice : Z)
  | AUpdateK (sqrtK marketIndex : Z)
  | ARepegAmmCurve (newPeg marketIndex : Z)
  | AUpdateAmmOracleTwap (marketIndex : Z)
  | AResetAmmOracleTwap (marketIndex : Z)
  | AUpdateCurveHistory (extendedCurveHistory : PublicKey)
  | AUpdateMarketOracle (marketIndex : Z) (oracle : PublicKey) (source : OracleSource)
  | AUpdateMarketMinimumTradeSize (marketIndex minimumTradeSize : Z)
  | AWithdrawFromInsuranceVault (amount : Z) (recipient : PublicKey)
  | AWithdrawFees (marketIndex amount : Z) (recipient : PublicKey)
  | AWithdrawFromInsuranceVaultToMarket (marketIndex amount : Z)
  | AUpdateAdmin (admin : PublicKey)
  | AUpdateMarginRatio (initial partial maintenance : Z)
  | AUpdatePartialLiquidationClosePercentage (numerator denominator : Z)
  | AUpdatePartialLiquidationPenaltyPercentage (numerator denominator : Z)
  | AUpdateFullLiquidationPenaltyPercentage (numerator denominator : Z)
  | AUpdatePartialLiquidationShareDenominator (denominator : Z)
  | AUpdateFullLiquidationShareDenominator (denominator : Z)
  | AUpdateFee (fees : FeeStructure)
  | AUpdateOracleGuardRails (rails : OracleGuardRails)
  | AUpdateWhitelistMint (mint : option PublicKey)
  | AUpdateDiscountMint (mint : PublicKey)
  | AUpdateMaxDeposit (maxDeposit : Z)
  | AUpdateFundingPaused (paused : bool)
  | AUpdateExchangePaused (paused : bool)
  | ADisableAdminControlsPrices.

Section Calls.
Context {B : BNLib}.
Variable chain : Chain.

(** The transactions a call sends. *)
Definition perform (call : ClientCall) : Method (list Transaction) :=
  match call with
  | CInitializeUserAccount k => r ← initializeUserAccount chain k; mret [r.1]
  | CDepositCollateral a k p => t ← depositCollateral chain a k p; mret [t]
  | CInitializeUserAccountAndDeposit p a k =>
      r ← initializeUserAccountAndDepositCollateral chain p a k; mret [r.1]
  | CDeleteUser => t ← deleteUser chain; mret [t]
  | CWithdrawCollateral a k => t ← withdrawCollateral chain a k; mret [t]
  | COpenPosition d a i l t r => t ← openPosition chain d a i l t r; mret [t]
  | CClosePosition i t r => t ← closePosition chain i t r; mret [t]
  | CLiquidate k => t ← liquidate chain k; mret [t]
  | CUpdateFundingRate o i => t ← updateFundingRate chain o i; mret [t]
  | CSettleFundingPayment u p => t ← settleFundingPayment chain u p; mret [t]
  end.

Definition administer (call : AdminCall) : Method (list Transaction) :=
  match call with
  | AInitialize e k m p => r ← initialize chain e k m p; mret [r.1; r.2]
  | AInitializeMarket i o b q t p => t ← initializeMarket chain i o b q t p; mret [t]
  | AMoveAmmPrice b q i => t ← moveAmmPrice chain b q i; mret [t]
  | AMoveAmmToPrice i p => t ← moveAmmToPrice chain i p; mret [t]
  | AUpdateK k i => t ← updateK chain k i; mret [t]
  | ARepegAmmCurve p i => t ← repegAmmCurve chain p i; mret [t]
  | AUpdateAmmOracleTwap i => t ← updateAmmOracleTwap chain i; mret [t]
  | AResetAmmOracleTwap i => t ← resetAmmOracleTwap chain i; mret [t]
  | AUpdateCurveHistory k => t ← updateCurveHistory chain k; mret [t]
  | AUpdateMarketOracle i o s => t ← updateMarketOracle chain i o s; mret [t]
  | AUpdateMarketMinimumTradeSize i m => t ← updateMarketMinimumTradeSize chain i m; mret [t]
  | AWithdrawFromInsuranceVault a r => t ← withdrawFromInsuranceVault chain a r; mret [t]
  | AWithdrawFees i a r => t ← withdrawFees chain i a r; mret [t]
  | AWithdrawFromInsuranceVaultToMarket i a =>
      t ← withdrawFromInsuranceVaultToMarket chain i a; mret [t]
  | AUpdateAdmin a => t ← updateAdmin chain a; mret [t]
  | AUpdateMarginRatio i p m => t ← updateMarginRatio chain i p m; mret [t]
  | AUpdatePartialLiquidationClosePercentage n d =>
      t ← updatePartialLiquidationClosePercentage chain n d; mret [t]
  | AUpdatePartialLiquidationPenaltyPercentage n d =>
      t ← updatePartialLiquidationPenaltyPercentage chain n d; mret [t]
  | AUpdateFullLiquidationPenaltyPercentage n d =>
      t ← updateFullLiquidationPenaltyPercentage chain n d; mret [t]
  | AUpdatePartialLiquidationShareDenominator d =>
      t ← updatePartialLiquidationShareDenominator chain d; mret [t]
  | AUpdateFullLiquidationShareDenominator d =>
      t ← updateFullLiquidationShareDenominator chain d; mret [t]
  | AUpdateFee f => t ← updateFee chain f; mret [t]
  | AUpdateOracleGuardRails g => t ← updateOracleGuardRails chain g; mret [t]
  | AUpdateWhitelistMint m => t ← updateWhitelistMint chain m; mret [t]
  | AUpdateDiscountMint m => t ← updateDiscountMint chain m; mret [t]
  | AUpdateMaxDeposit m => t ← updateMaxDeposit chain m; mret [t]
  | AUpdateFundingPaused b => t ← updateFundingPaused chain b; mret [t]
  | AUpdateExchangePaused b => t ← updateExchangePaused chain b; mret [t]
  | ADisableAdminControlsPrices => t ← disableAdminControlsPrices chain; mret [t]
  end.
End Calls.

(** ** The contracts *)

(** The keys whose signature an instruction of a transaction needs. *)
Definition requiredSigners (i : TxInstruction) : list PublicKey :=
  match i with
  | Call ix => signerKeys ix
  | CreateAccount _ k => [k]
  end.

(** A transaction the program and the runtime can accept as built: each request
    conforms to the IDL, each signature the requests need is the wallet's or of
    a key pair at hand, and no key pair signs for nothing. *)
Record well_formed (wallet : PublicKey) (tx : Transaction) : Prop := {
  wf_conforms : forall ix, Call ix ∈ tx_instructions tx -> conforms ix = true;
  wf_signed : forall i k, i ∈ tx_instructions tx -> k ∈ requiredSigners i ->
                k ∈ wallet :: tx_signers tx;
  wf_needed : forall k, k ∈ tx_signers tx -> exists i, i ∈ tx_instructions tx /\ k ∈ requiredSigners i
}.


(** What the arguments of a call are to the program, by the IDL's names, request
    by request; [find] derives the user's nonce. *)
Definition clientArguments (find : list string -> PublicKey -> PublicKey * Z) (p w : PublicKey)
    (call : ClientCall) : list (list (string * Arg)) :=
  let initializeUser := [("userNonce", ANumber (find ["user"; w] p).2);
                         ("optionalAccounts", AFlags [("whitelistToken", true)])] in
  match call with
  | CInitializeUserAccount _ => [initializeUser]
  | CDepositCollateral a _ _ => [[("amount", ABN a)]]
  | CInitializeUserAccountAndDeposit _ a _ => [initializeUser; [("amount", ABN a)]]
  | CWithdrawCollateral a _ => [[("amount", ABN a)]]
  | COpenPosition d a i l t r =>
      [[("direction", ADirection d); ("quoteAssetAmount", ABN a); ("marketIndex", ABN i);
        ("limitPrice", ABN (default 0 l)); ("optionalAccounts", AFlags (positionFlags t r))]]
  | CClosePosition i t r =>
      [[("marketIndex", ABN i); ("optionalAccounts", AFlags (positionFlags t r))]]
  | CUpdateFundingRate _ i => [[("marketIndex", ABN i)]]
  | CDeleteUser | CLiquidate _ | CSettleFundingPayment _ _ => [[]]
  end.

(** The same for the administrator's calls; [None] where the request depends on
    more than the call. *)
Definition adminArguments (call : AdminCall) : option (list (list (string * Arg))) :=
  match call with
  | AInitialize _ _ _ _ | AMoveAmmToPrice _ _ => None
  | AInitializeMarket i _ b q t p =>
      Some [[("marketIndex", ABN i); ("ammBaseAssetReserve", ABN b); ("ammQuoteAssetReserve", ABN q);
             ("ammPeriodicity", ABN t); ("ammPegMultiplier", ABN (default PEG_PRECISION p))]]
  | AMoveAmmPrice b q i =>
      Some [[("baseAssetReserve", ABN b); ("quoteAssetReserve", ABN q); ("marketIndex", ABN i)]]
  | AUpdateK k i => Some [[("sqrtK", ABN k); ("marketIndex", ABN i)]]
  | ARepegAmmCurve p i => Some [[("newPegCandidate", ABN p); ("marketIndex", ABN i)]]
  | AUpdateAmmOracleTwap i | AResetAmmOracleTwap i => Some [[("marketIndex", ABN i)]]
  | AUpdateMarketOracle i o s =>
      Some [[("marketIndex", ABN i); ("oracle", AKey o); ("oracleSource", AOracleSource s)]]
  | AUpdateMarketMinimumTradeSize i m => Some [[("marketIndex", ABN i); ("minimumTradeSize", ABN m)]]
  | AWithdrawFromInsuranceVault a _ => Some [[("amount", ABN a)]]
  | AWithdrawFees i a _ | AWithdrawFromInsuranceVaultToMarket i a =>
      Some [[("marketIndex", ABN i); ("amount", ABN a)]]
  | AUpdateAdmin a => Some [[("admin", AKey a)]]
  | AUpdateMarginRatio i p m =>
      Some [[("marginRatioInitial", ABN i); ("marginRatioPartial", ABN p);
             ("marginRatioMaintenance", ABN m)]]
  | AUpdatePartialLiquidationClosePercentage n d
  | AUpdatePartialLiquidationPenaltyPercentage n d
  | AUpdateFullLiquidationPenaltyPercentage n d =>
      Some [[("numerator", ABN n); ("denominator", ABN d)]]
  | AUpdatePartialLiquidationShareDenominator d
  | AUpdateFullLiquidationShareDenominator d => Some [[("denominator", ABN d)]]
  | AUpdateFee f => Some [[("fees", AFeeStructure f)]]
  | AUpdateOracleGuardRails g => Some [[("oracleGuardRails", AOracleGuardRails g)]]
  | AUpdateWhitelistMint m =>
      Some [[("whitelistMint", match m with Some k => AKey k | None => AUndefined end)]]
  | AUpdateDiscountMint m => Some [[("discountMint", AKey m)]]
  | AUpdateMaxDeposit m => Some [[("maxDeposit", ABN m)]]
  | AUpdateFundingPaused b => Some [[("fundingPaused", ABool b)]]
  | AUpdateExchangePaused b => Some [[("exchangePaused", ABool b)]]
  | AUpdateCurveHistory _ | ADisableAdminControlsPrices => Some [[]]
  end.

(** The requests of transactions, in the order they are sent. *)
Definition requests (txs : list Transaction) : list Instruction :=
  (txs ≫= tx_instructions) ≫= fun i => match i with Call ix => [ix] | CreateAccount _ _ => [] end.

(** A request names the state and the wallet's own account by their derived
    addresses, and the wallet as its authority. *)
Record addressed (find : list string -> PublicKey -> PublicKey * Z) (p w : PublicKey)
    (ix : Instruction) : Prop := {
  ad_state : forall k, accountOf ix "state" = Some k -> k = (find ["clearing_house"] p).1;
  ad_authority : forall k, accountOf ix "authority" = Some k -> k = w;
  ad_own : forall n k,
    n = (if decide (ix_name ix = "liquidate") then "liquidator" else "user") ->
    ix_name ix <> "settleFundingPayment" ->
    accountOf ix n = Some k -> k = (find ["user"; w] p).1
}.

(** Calls whose request names the positions account of the cached user. *)
Definition usesCachedPositions (call : ClientCall) : bool :=
  match call with
  | COpenPosition _ _ _ _ _ _ | CClosePosition _ _ _ | CDepositCollateral _ _ None => true
  | _ => false
  end.

(** The optional accounts of a position call, and what the program reads of a
    request's flags and remaining accounts. *)
Definition optionalKeys (call : ClientCall) : option (option PublicKey * option PublicKey) :=
  match call with
  | COpenPosition _ _ _ _ t r | CClosePosition _ t r => Some (t, r)
  | _ => None
  end.

Definition flagOf (ix : Instruction) (name : string) : bool :=
  existsb (fun v => match v with
                    | AFlags fs => existsb (fun f => bool_decide (f.1 = name) && f.2) fs
                    | _ => false
                    end) (ix_args ix).

Definition programReads (spl_token_id discount_mint user authority : PublicKey)
    (infos : PublicKey -> AccountInfo) (ix : Instruction)
    : ErrorCode + (option TokenAccount * option ChainPosition.User) :=
  get_discount_token_and_referrer spl_token_id (flagOf ix "discountToken") (flagOf ix "referrer")
    ((fun m => infos (am_pubkey m)) <$> ix_remainingAccounts ix) discount_mint user authority.

(** A position's market is listed, and the account is its oracle. *)
Definition oracleOf {B : BNLib} (markets : list Market) (p : UserPosition) (m : AccountMeta) : Prop :=
  exists i market, bn_toNumber (bo_val (pos_marketIndex p)) = Ok i /\
    js_index markets i = Some market /\ m = mkAccountMeta (amm_oracle (mkt_amm market)) false false.

(** A client and what happens to it: its construction, calls, new wallets.
    Every event sees the chain of its time. *)
Inductive ClientEvent :=
  | ECall (chain : Chain) (call : ClientCall)
  | EUpdateWallet (wallet : PublicKey).

Definition newClient (programId wallet : PublicKey) : Client :=
  mkClient programId wallet None None None.

Definition event {B : BNLib} (e : ClientEvent) : Method unit :=
  match e with
  | ECall chain call => fun c => ((perform chain call c).1, Ok tt)
  | EUpdateWallet w => updateWallet w
  end.

Definition session {B : BNLib} (es : list ClientEvent) (c : Client) : Client :=
  foldl (fun c e => (event e c).1) c es.

(** The cached addresses are those of the program and the wallet, and a cached
    user account is the one of [cu], when [cu] names one. *)
Record coherent (find : list string -> PublicKey -> PublicKey * Z) (p w : PublicKey)
    (cu : option UserAccount) (c : Client) : Prop := {
  coh_program : cl_programId c = p;
  coh_wallet : cl_wallet c = w;
  coh_state : forall k, cl_statePublicKey c = Some k -> k = (find ["clearing_house"] p).1;
  coh_userKey : forall k, cl_userAccountPublicKey c = Some k -> k = (find ["user"; w] p).1;
  coh_user : forall u, cu = Some u -> cl_userAccount c = Some u
}.

Section Spec.
Context (chain : Chain) (p w : PublicKey) (cu : option UserAccount).

Definition spec {A} (m : Method A) (Q : A -> Prop) : Prop :=
  forall c, coherent (findProgramAddress chain) p w cu c ->
    coherent (findProgramAddress chain) p w cu (m c).1 /\ forall a, (m c).2 = Ok a -> Q a.

Lemma spec_ret {A} (a : A) (Q : A -> Prop) : Q a -> spec (mret a) Q.
Proof. intros HQ c Hc. split; [done |]. intros b [= <-]. done. Qed.

Lemma spec_bind {A C} (m : Method A) (f : A -> Method C) (R : A -> Prop) (Q : C -> Prop) :
  spec m R -> (forall a, R a -> spec (f a) Q) -> spec (m ≫= f) Q.
Proof.
  intros Hm Hf c Hc. unfold mbind, Method_bind. destruct (Hm c Hc) as [Hc1 HR].
  destruct (m c) as [c1 [a | e]]; cbn in *.
  - apply (Hf a); auto.
  - split; [done |]. discriminate.
Qed.

Lemma spec_assoc {A C D} (m : Method A) (f : A -> Method C) (g : C -> Method D) (Q : D -> Prop) :
  spec (m ≫= (fun a => f a ≫= g)) Q -> spec ((m ≫= f) ≫= g) Q.
Proof.
  intros H c Hc. specialize (H c Hc). unfold mbind, Method_bind in *. by destruct (m c) as [? []].
Qed.

Lemma spec_lift {A} (r : result A) : spec (lift r) (fun a => r = Ok a).
Proof. intros c Hc. split; [done |]. by intros a [= ->]. Qed.

Lemma spec_ret_eq {A} (a : A) : spec (mret a) (fun b => b = a).
Proof. by apply spec_ret. Qed.

Lemma spec_throw {A} (e : JsError) (Q : A -> Prop) : spec (lift (Throw e)) Q.
Proof. intros c Hc. by split. Qed.

Lemma spec_wallet : spec (gets cl_wallet) (fun k => k = w).
Proof. intros c Hc. split; [done |]. intros a [= <-]. apply Hc. Qed.

Lemma spec_programId : spec (gets cl_programId) (fun k => k = p).
Proof. intros c Hc. split; [done |]. intros a [= <-]. apply Hc. Qed.

Definition stateAddress : PublicKey := (findProgramAddress chain ["clearing_house"] p).1.
Definition userAddress : PublicKey := (findProgramAddress chain ["user"; w] p).1.

Lemma spec_statePublicKey : spec (getStatePublicKey chain) (fun k => k = stateAddress).
Proof.
  intros c Hc. unfold getStatePublicKey, getClearingHouseStateAccountPublicKey,
    getClearingHouseStateAccountPublicKeyAndNonce.
  destruct (cl_statePublicKey c) as [k |] eqn:E; cbn.
  - split; [done |]. intros a [= <-]. by apply Hc.
  - rewrite (coh_program _ _ _ _ _ Hc). split; [| by intros a [= <-]].
    destruct Hc. split; cbn; auto. by intros k [= <-].
Qed.

Lemma spec_userAccountPublicKey :
  spec (getUserAccountPublicKey chain) (fun k => k = userAddress).
Proof.
  intros c Hc. unfold getUserAccountPublicKey, getUserAccountPublicKeyAt,
    getUserAccountPublicKeyAndNonce.
  destruct (cl_userAccountPublicKey c) as [k |] eqn:E; cbn.
  - split; [done |]. intros a [= <-]. by apply Hc.
  - rewrite (coh_program _ _ _ _ _ Hc), (coh_wallet _ _ _ _ _ Hc).
    split; [| by intros a [= <-]].
    destruct Hc. split; cbn; auto. by intros k [= <-].
Qed.

(** A cached user account is returned as it is; one fetched is the account at
    the user's address. *)
Lemma spec_userAccount :
  spec (clientUserAccount chain) (fun u => forall u', cu = Some u' -> u = u').
Proof.
  intros c Hc. unfold clientUserAccount, mbind, Method_bind, gets, mret, Method_ret, lift.
  destruct (cl_userAccount c) as [u |] eqn:E.
  - split; [done |]. intros a [= <-] u' Hu'.
    pose proof (coh_user _ _ _ _ _ Hc u' Hu'). congruence.
  - assert (Hcu : cu = None).
    { destruct cu as [u |] eqn:Ecu; [| done]. pose proof (coh_user _ _ _ _ _ Hc u eq_refl). congruence. }
    destruct (spec_userAccountPublicKey c Hc) as [Hc1 _].
    destruct (getUserAccountPublicKey chain c) as [c1 [k | e]]; [| by split].
    cbn in Hc1. destruct (fetchUser chain k) as [u | e]; [| by split].
    cbn. split; [| intros a [= <-] u' Hu'; congruence].
    destruct Hc1. split; cbn; auto. congruence.
Qed.
End Spec.

(** The methods are walked through by the rules above; what a lookup returned is
    kept as an equation. *)
Create HintDb client.
Create HintDb admin.
#[export] Hint Unfold initializeUserAccount getInitializeUserInstructions depositCollateral
  getDepositCollateralInstruction initializeUserAccountAndDepositCollateral deleteUser
  withdrawCollateral getWithdrawCollateralIx openPosition getOpenPositionIx closePosition
  getClosePositionIx liquidate getLiquidateIx updateFundingRate getUpdateFundingRateIx
  settleFundingPayment getSettleFundingPaymentIx marketOracle
  getUserAccountPublicKeyAndNonce : client.
#[export] Hint Unfold initialize initializeMarket moveAmmPrice moveAmmToPrice curveIx updateK
  repegAmmCurve updateAmmOracleTwap resetAmmOracleTwap updateCurveHistory updateMarketOracle
  updateMarketMinimumTradeSize withdrawFromInsuranceVault withdrawFees
  withdrawFromInsuranceVaultToMarket stateTx updateAdmin updateMarginRatio
  updatePartialLiquidationClosePercentage updatePartialLiquidationPenaltyPercentage
  updateFullLiquidationPenaltyPercentage updatePartialLiquidationShareDenominator
  updateFullLiquidationShareDenominator updateFee updateOracleGuardRails updateWhitelistMint
  updateDiscountMint updateMaxDeposit updateFundingPaused updateExchangePaused
  disableAdminControlsPrices adminIx getClearingHouseStateAccountPublicKeyAndNonce
  marketOracle : admin.

Ltac spec_bind_with L := eapply spec_bind; [apply L | intros ? ?; cbn beta in *; subst].

Ltac spec_step :=
  match goal with
  | |- spec _ _ _ _ (mret _) _ => apply spec_ret; cbn [fst snd]
  | |- spec _ _ _ _ (lift (Throw _)) _ => apply spec_throw
  | |- spec _ _ _ _ (mret _ ≫= _) _ => eapply spec_bind; [by apply spec_ret_eq | intros ? ->]
  | |- spec _ _ _ _ (gets cl_wallet ≫= _) _ => spec_bind_with spec_wallet
  | |- spec _ _ _ _ (gets cl_programId ≫= _) _ => spec_bind_with spec_programId
  | |- spec _ _ _ _ (lift (Throw _) ≫= _) _ =>
      eapply spec_bind; [apply (spec_throw _ _ _ _ _ (fun _ => False)) | by intros ? []]
  | |- spec _ _ _ _ (lift _ ≫= _) _ => spec_bind_with spec_lift
  | |- spec _ _ _ _ (getStatePublicKey _ ≫= _) _ => spec_bind_with spec_statePublicKey
  | |- spec _ _ _ _ (getUserAccountPublicKey _ ≫= _) _ => spec_bind_with spec_userAccountPublicKey
  | |- spec _ _ _ _ (clientUserAccount _ ≫= _) _ => spec_bind_with spec_userAccount
  | |- spec _ _ _ _ ((_ ≫= _) ≫= _) _ => apply spec_assoc
  | |- spec _ _ _ _ (let '(_, _) := ?x in _) _ => destruct x eqn:?
  | |- spec _ _ _ _ ((let '(_, _) := ?x in _) ≫= _) _ => destruct x eqn:?
  | |- spec _ _ _ _ (match ?x with _ => _ end ≫= _) _ => destruct x eqn:?
  end.

Ltac walk := repeat spec_step.

Lemma well_formed_intro (wallet : PublicKey) (ixs : list TxInstruction) (signers ks : list PublicKey) :
  forallb (fun i => match i with Call ix => conforms ix | CreateAccount _ _ => true end) ixs = true ->
  ixs ≫= requiredSigners = ks -> ks ⊆ wallet :: signers -> signers ⊆ ks ->
  well_formed wallet (mkTransaction ixs signers).
Proof.
  intros Hc <- Hin Hout. split; cbn.
  - intros ix Hi. rewrite forallb_forall in Hc.
    apply (Hc (Call ix)). by apply list_elem_of_In.
  - intros i k Hi Hk. apply Hin, list_elem_of_bind. eauto.
  - intros k Hk. apply Hout, list_elem_of_bind in Hk as (i & ? & ?). eauto.
Qed.

Ltac well_formed :=
  repeat first [apply Forall_nil_2 | apply Forall_cons_2];
  (eapply well_formed_intro; [vm_compute; reflexivity | vm_compute; reflexivity
                                 | set_solver | set_solver]).

(** A specified method, seen from its outcome. *)
Lemma spec_outcome {A} chain p w cu (m : Method A) (Q : A -> Prop) c c' a :
  spec chain p w cu m Q -> coherent (findProgramAddress chain) p w cu c ->
  m c = (c', Ok a) -> Q a.
Proof. intros Hs Hc Hm. destruct (Hs c Hc) as [_ H]. apply H. by rewrite Hm. Qed.

Section Sessions.
Context {B : BNLib}.

Lemma perform_spec chain p w cu call : spec chain p w cu (perform chain call) (fun _ => True).
Proof. destruct call; cbn [perform]; autounfold with client; walk; done. Qed.

Lemma new_coherent find p w : coherent find p w None (newClient p w).
Proof. split; cbn; done. Qed.

(** A new wallet drops what belonged to the old one. *)
Lemma updateWallet_coherent find p w cu c w' :
  coherent find p w cu c -> coherent find p w' None (updateWallet w' c).1.
Proof. intros []. split; cbn; auto; discriminate. Qed.

(** A session of [es] sees one derivation of addresses. *)
Definition same_find (find : list string -> PublicKey -> PublicKey * Z) (e : ClientEvent) : Prop :=
  match e with ECall chain _ => findProgramAddress chain = find | EUpdateWallet _ => True end.

Lemma session_coherent find p w cu es c :
  coherent find p w cu c -> Forall (same_find find) es ->
  coherent find p (cl_wallet (session es c)) None (session es c).
Proof.
  intros Hc Hes. revert w cu c Hc. induction Hes as [| e es He Hes IH]; intros w cu c Hc.
  - destruct Hc as [<- <-]. by split.
  - change (session (e :: es) c) with (session es (event e c).1).
    destruct e as [chain call | w']; cbn.
    + cbn in He. subst find. apply (IH w cu). by apply (perform_spec chain p w cu call c Hc).
    + apply (IH w' None). by apply (updateWallet_coherent find p w cu).
Qed.

(** Calls alone never replace the cached user account. *)
Lemma calls_keep_user find p w u es c :
  coherent find p w (Some u) c -> Forall (same_find find) es ->
  Forall (fun e => exists chain call, e = ECall chain call) es ->
  coherent find p w (Some u) (session es c).
Proof.
  intros Hc Hes Hcalls. revert c Hc.
  induction Hes as [| e es He Hes IH]; intros c Hc; [done |].
  apply Forall_cons in Hcalls as [(chain & call & ->) Hcalls].
  change (session (ECall chain call :: es) c) with (session es (perform chain call c).1).
  cbn in He. subst find. apply IH; [done |]. by apply (perform_spec chain p w (Some u) call c Hc).
Qed.
End Sessions.

(** [addressed], with the lookups evaluated. *)
Definition givesOrLacks (ix : Instruction) (n : string) (k : PublicKey) : Prop :=
  match accountOf ix n with Some k' => k' = k | None => True end.

Lemma addressed_intro find p w ix :
  givesOrLacks ix "state" (find ["clearing_house"] p).1 ->
  givesOrLacks ix "authority" w ->
  (ix_name ix <> "settleFundingPayment" ->
   givesOrLacks ix (if decide (ix_name ix = "liquidate") then "liquidator" else "user")
     (find ["user"; w] p).1) ->
  addressed find p w ix.
Proof.
  unfold givesOrLacks. intros H1 H2 H3. split.
  - intros k Hk. by rewrite Hk in H1.
  - intros k Hk. by rewrite Hk in H2.
  - intros n k -> Hn Hk. specialize (H3 Hn). by rewrite Hk in H3.
Qed.

Lemma liquidationOracles_spec {B : BNLib} markets ps metas :
  liquidationOracles markets ps = Ok metas <->
  Forall2 (oracleOf markets) (filter (fun p => pos_baseAssetAmount p <> 0) ps) metas.
Proof.
  revert metas. induction ps as [| p ps IH]; intros metas; cbn [liquidationOracles].
  - rewrite filter_nil. split; [intros [= <-]; constructor | by intros ->%Forall2_nil_inv_l].
  - destruct (Z.eqb_spec (pos_baseAssetAmount p) 0) as [E | E].
    + rewrite filter_cons_False by tauto. apply IH.
    + rewrite filter_cons_True by done. split.
      * intros H. inv_bind H. inv_bind H. inv_bind H. injection H as <-.
        constructor; [| by apply IH].
        destruct (js_index markets v) as [market |] eqn:Em; [| discriminate].
        injection Hv0 as <-. by exists v, market.
      * intros (m & ms & (i & market & Hi & Hm & ->) & Hps & ->)%Forall2_cons_inv_l.
        rewrite Hi, bind_Ok, Hm. cbn [deref]. rewrite bind_Ok.
        by rewrite (proj2 (IH ms) Hps), bind_Ok.
Qed.

Lemma reads_back spl mint user a infos token referrer t r ix :
  ix_remainingAccounts ix = positionRemaining t r ->
  flagOf ix "discountToken" = match t with Some _ => true | None => false end ->
  flagOf ix "referrer" = match r with Some _ => true | None => false end ->
  (forall k, ai_key (infos k) = k) ->
  (forall k, t = Some k -> checkDiscountToken spl mint a (infos k) = inr (token k)) ->
  (forall k, r = Some k -> ai_user (infos k) = Some (referrer k)) ->
  programReads spl mint user a infos ix =
    inr (token <$> t, k ← r; if decide (k = user) then None else Some (referrer k)).
Proof.
  intros Hrem Hft Hfr Hkey Ht Hr. unfold programReads, get_discount_token_and_referrer, checkReferrer.
  rewrite Hrem, Hft, Hfr.
  destruct t as [t |], r as [r |]; cbn;
    rewrite ?(Ht _ eq_refl), ?Hkey, ?(Hr _ eq_refl); repeat case_decide; case_bool_decide || idtac; done.
Qed.

Section Properties.
Context {B : BNLib}.

(** C35: Every transaction a call of the client sends conforms to the program's
    IDL (the instruction exists, each argument can be encoded, each account is
    given once), is signed by the wallet or a key pair at hand wherever the
    program wants a signature, and carries no superfluous key pair. *)
Theorem client_requests_well_formed (chain : Chain) (call : ClientCall) (c c' : Client)
    (p w : PublicKey) (txs : list Transaction) :
  coherent (findProgramAddress chain) p w None c ->
  perform chain call c = (c', Ok txs) ->
  Forall (well_formed w) txs.
Proof.
  intros Hc Hp. revert Hc Hp. apply spec_outcome.
  destruct call; cbn [perform]; autounfold with client; walk; well_formed.
Qed.

(** The same holds of every transaction the administrator sends, with one
    exception: clearing the whitelist mint, which the method's optional
    parameter offers, builds a request the IDL cannot encode. *)
Theorem admin_requests_well_formed (chain : Chain) (call : AdminCall) (c c' : Client)
    (p w : PublicKey) (txs : list Transaction) :
  coherent (findProgramAddress chain) p w None c ->
  administer chain call c = (c', Ok txs) ->
  match call with
  | AUpdateWhitelistMint None => exists ix, requests txs = [ix] /\ conforms ix = false
  | _ => Forall (well_formed w) txs
  end.
Proof.
  intros Hc Hp. revert Hc Hp.
  apply (spec_outcome _ _ _ _ _ (fun txs => match call with
    | AUpdateWhitelistMint None => exists ix, requests txs = [ix] /\ conforms ix = false
    | _ => Forall (well_formed w) txs
    end)).
  destruct call; cbn [administer]; autounfold with admin; walk;
    try match goal with m : option PublicKey |- _ => destruct m end; 
    try match goal with k : InitializeKeys |- _ => destruct k; cbn -[conforms] end; try well_formed.
  eexists. split; [reflexivity | vm_compute; reflexivity].
Qed.

(** Each argument of a client's call arrives at the program under the name
    it has there, the limit price as zero when none is given and the flags as
    the optional accounts present. *)
Theorem client_arguments_by_name (chain : Chain) (call : ClientCall) (c c' : Client)
    (p w : PublicKey) (txs : list Transaction) :
  coherent (findProgramAddress chain) p w None c ->
  perform chain call c = (c', Ok txs) ->
  namedArgs <$> requests txs = clientArguments (findProgramAddress chain) p w call.
Proof.
  intros Hc Hp. revert Hc Hp.
  apply (spec_outcome _ _ _ _ _ (fun txs => namedArgs <$> requests txs = _)).
  destruct call; cbn [perform]; autounfold with client; walk;
    unfold clientArguments;
    try match goal with H : findProgramAddress _ _ _ = _ |- _ => rewrite H end; reflexivity.
Qed.

(** Each argument of an administrator's call arrives at the program under
    the name it has there, the peg of a new market as one when none is given. *)
Theorem admin_arguments_by_name (chain : Chain) (call : AdminCall) (c c' : Client)
    (p w : PublicKey) (txs : list Transaction) (args : list (list (string * Arg))) :
  coherent (findProgramAddress chain) p w None c ->
  administer chain call c = (c', Ok txs) ->
  adminArguments call = Some args ->
  namedArgs <$> requests txs = args.
Proof.
  intros Hc Hp Ha. revert Hc Hp.
  apply (spec_outcome _ _ _ _ _ (fun txs => namedArgs <$> requests txs = args)).
  destruct call; try discriminate; injection Ha as <-;
    cbn [administer]; autounfold with admin; walk; reflexivity.
Qed.

(** In any session of calls and wallet changes of a new client, a call names
    the derived state account, the derived account of the wallet of the moment
    and that wallet as authority: the cached addresses are never stale. *)
Theorem session_addresses_current (find : list string -> PublicKey -> PublicKey * Z)
    (p w0 : PublicKey) (es : list ClientEvent) (chain : Chain) (call : ClientCall)
    (c' : Client) (txs : list Transaction) :
  Forall (same_find find) es -> findProgramAddress chain = find ->
  perform chain call (session es (newClient p w0)) = (c', Ok txs) ->
  Forall (addressed find p (cl_wallet (session es (newClient p w0)))) (requests txs).
Proof.
  intros Hes <- Hp.
  pose proof (session_coherent _ p w0 None es _ (new_coherent _ p w0) Hes) as Hc.
  revert Hc Hp. generalize (cl_wallet (session es (newClient p w0))). intros w.
  apply (spec_outcome _ _ _ _ _ (fun txs => Forall (addressed _ p w) (requests txs))).
  destruct call; cbn [perform]; autounfold with client; walk.
  all: repeat first [apply Forall_nil_2 | apply Forall_cons_2].
  all: repeat match goal with H : findProgramAddress _ _ _ = (?a, _) |- _ =>
         apply (f_equal fst) in H; cbn [fst] in H; subst a end.
  all: apply addressed_intro; [| | intros Hname; try by destruct Hname];
    vm_compute; first [reflexivity | exact I].
Qed.

(** Once a client has cached its user account, no call replaces it: whatever
    calls were made since (deleting the user and creating it again included),
    opening or closing a position and depositing name the positions account of
    the old copy. *)
Theorem cached_positions_survive (find : list string -> PublicKey -> PublicKey * Z)
    (p w : PublicKey) (u : UserAccount) (es : list ClientEvent) (chain : Chain)
    (call : ClientCall) (c c' : Client) (txs : list Transaction) :
  coherent find p w (Some u) c ->
  Forall (same_find find) es -> Forall (fun e => exists chain call, e = ECall chain call) es ->
  findProgramAddress chain = find -> usesCachedPositions call = true ->
  perform chain call (session es c) = (c', Ok txs) ->
  Forall (fun ix => accountOf ix "userPositions" = Some (ua_positions u)) (requests txs).
Proof.
  intros Hc Hes Hcalls <- Hcall Hp.
  apply (calls_keep_user _ p w u es) in Hc; [| done | done]. revert Hc Hp.
  apply (spec_outcome _ _ _ _ _ (fun txs => Forall _ (requests txs))).
  destruct call; try discriminate; cbn [perform]; autounfold with client; walk; try discriminate;
    repeat first [apply Forall_nil_2 | apply Forall_cons_2];
    match goal with H : forall u', Some u = Some u' -> _ |- _ => by rewrite (H u eq_refl) end.
Qed.

(** The program reads back the optional accounts of a position call as they
    were given: it takes the discount token for the token and the referrer for
    the referrer, whichever of the two are present. *)
Theorem optional_accounts_read_back (chain : Chain) (call : ClientCall) (c c' : Client)
    (p w : PublicKey) (txs : list Transaction) (t r : option PublicKey)
    (spl_token_id discount_mint : PublicKey) (infos : PublicKey -> AccountInfo)
    (token : PublicKey -> TokenAccount) (referrer : PublicKey -> ChainPosition.User) :
  coherent (findProgramAddress chain) p w None c ->
  perform chain call c = (c', Ok txs) ->
  optionalKeys call = Some (t, r) ->
  (forall k, ai_key (infos k) = k) ->
  (forall k, t = Some k ->
     checkDiscountToken spl_token_id discount_mint w (infos k) = inr (token k)) ->
  (forall k, r = Some k -> ai_user (infos k) = Some (referrer k)) ->
  let user := (findProgramAddress chain ["user"; w] p).1 in
  Forall (fun ix => programReads spl_token_id discount_mint user w infos ix =
    inr (token <$> t,
         k ← r; if decide (k = user) then None else Some (referrer k))) (requests txs).
Proof.
  intros Hc Hp Hcall Hkey Ht Hr user. revert Hc Hp.
  apply (spec_outcome _ _ _ _ _ (fun txs => Forall _ (requests txs))).
  destruct call; try discriminate; injection Hcall as -> ->;
    cbn [perform]; autounfold with client; walk;
    repeat first [apply Forall_nil_2 | apply Forall_cons_2];
    (apply reads_back; [reflexivity | by destruct t, r | by destruct t, r | done | done | done]).
Qed.

(** A liquidation hands the program, read-only, exactly the oracles of the
    markets in which the liquidatee has a position, in the order of its
    positions. *)
Theorem liquidate_gives_oracles (chain : Chain) (liquidatee : PublicKey) (c c' : Client)
    (ix : Instruction) (p w : PublicKey) :
  coherent (findProgramAddress chain) p w None c ->
  getLiquidateIx chain liquidatee c = (c', Ok ix) ->
  exists u ups ms,
    fetchUser chain liquidatee = Ok u /\ fetchUserPositions chain (ua_positions u) = Ok ups /\
    subscribedMarkets chain = Ok ms /\
    Forall2 (oracleOf (ma_markets ms))
      (filter (fun q => pos_baseAssetAmount q <> 0) (upa_positions ups)) (ix_remainingAccounts ix).
Proof.
  intros Hc Hp. pattern ix. refine (spec_outcome _ _ _ _ _ _ _ _ _ _ Hc Hp).
  unfold getLiquidateIx. walk.
  do 3 eexists. repeat (split; [eassumption |]). by apply liquidationOracles_spec.
Qed.
End Properties.
