(* ===== verification/WsClearingHouse.v ===== *)
(** * The websocket subscriber of the clearing house
    (accounts/webSocketClearingHouseAccountSubscriber.ts)

    A composition of websocket account subscribers, one object per account.
    [subscribe] creates new objects each time it runs and awaits their first
    fetch in three rounds (state, markets, the optional accounts); [unsubscribe]
    awaits the removal of one listener after another.  The objects live in a
    heap, since one that is replaced goes on if its listener is still served.
    A step of the system is one turn of the event loop, so a list of actions is
    any interleaving of calls, answers and notifications.

    The coder, the emitter's listeners and the derived address of the state are
    arguments, as in Polling.v. *)
From S2P Require Import Prelude BN Types Slots WebSocket Polling.

(** A decoded account of kind [state] or [user], seen with its type. *)
Class AccountViews (Account : Type) := {
  as_state : Account -> StateAccount;
  as_user : Account -> UserAccount
}.

(** ** The objects *)

(** A [WebSocketAccountSubscriber] with its constructor's arguments; its
    [onChange] is named by the event it emits. [wo_fetching] counts the calls of
    [fetch] not answered yet. *)
Record WsObject (Account : Type) := mkWsObject {
  wo_name : string;
  wo_publicKey : PublicKey;
  wo_fetching : nat;
  wo_sys : WsSys Account string
}.
Arguments mkWsObject {Account}.
Arguments wo_name {Account}.
Arguments wo_publicKey {Account}.
Arguments wo_fetching {Account}.
Arguments wo_sys {Account}.

Section Objects.
Context {Account : Type} {P : Program Account}.
#[local] Abbreviation Obj := (WsObject Account).
Implicit Types (o : Obj).

(** The coder of an account name, and the closure that emits [event] and
    [update]. *)
Definition objCoder (me : nat) (name : string) : Coder Account string := {|
  decode := fun buffer => decodeAccount name (Some buffer);
  onChange_run := fun event _ =>
    match emit_run me event with
    | Some e => Some e
    | None => emit_run me "update"
    end
|}.

Definition newObject (name : string) (publicKey : PublicKey) : Obj :=
  mkWsObject name publicKey 0 initWs.

Definition set_sys o s : Obj := mkWsObject (wo_name o) (wo_publicKey o) (wo_fetching o) s.

Definition objData o : option Account := ws_data (sys_ws (wo_sys o)).

(** The operations of WebSocket.v on an object. *)
Definition objSubscribe (event : string) o : Obj := set_sys o (subscribeStart event (wo_sys o)).
Definition objFetched (me : nat) (r : result WsResponse) (listener : nat) o
    : option (Obj * result unit) :=
  let C := objCoder me (wo_name o) in
  s ← subscribeFetched r listener (wo_sys o); Some (set_sys o s, (wsFetch r (wo_sys o)).2).
Definition objNotify (me : nat) (listener : nat) (r : WsResponse) o : option Obj :=
  let C := objCoder me (wo_name o) in
  s ← wsStep (wo_sys o) (WNotify listener r); Some (set_sys o s).
Definition objUnsubscribe o : Obj := set_sys o (wsUnsubscribe (wo_sys o)).
Definition objFetch o : Obj :=
  mkWsObject (wo_name o) (wo_publicKey o) (Datatypes.S (wo_fetching o)) (wo_sys o).
Definition objFetchAnswered (me : nat) (r : result WsResponse) o : option Obj :=
  let C := objCoder me (wo_name o) in
  match wo_fetching o with
  | O => None
  | Datatypes.S n => Some (mkWsObject (wo_name o) (wo_publicKey o) n (wsFetch r (wo_sys o)).1)
  end.
End Objects.

(** ** The subscriber *)

(** Where the [subscribe] call under way waits: for the first fetch of the state
    or of the markets, for those of the optional accounts, or for ever, after an
    exception. *)
Inductive Phase :=
  | NotSubscribing
  | AwaitState (state : nat) (optionalSubscriptions : option (list string))
  | AwaitMarkets (markets : nat) (optionalSubscriptions : option (list string)) (s : StateAccount)
  | AwaitOptional (waiting : list nat)
  | Rejected (e : JsError).

(** The rest of an [unsubscribe] call: the fields still to be looked at, the
    optional ones with the name they are included under. *)
Definition Teardown := list (option string * string).

Record WsClearingHouse (Account : Type) := mkWsCh {
  wc_objects : list (WsObject Account);
  wc_fields : gmap string nat;
  wc_isSubscribed : bool;
  wc_isSubscribing : bool;
  wc_optionalExtraSubscriptions : list string;
  wc_phase : Phase;
  wc_teardowns : list Teardown
}.
Arguments mkWsCh {Account}.
Arguments wc_objects {Account}.
Arguments wc_fields {Account}.
Arguments wc_isSubscribed {Account}.
Arguments wc_isSubscribing {Account}.
Arguments wc_optionalExtraSubscriptions {Account}.
Arguments wc_phase {Account}.
Arguments wc_teardowns {Account}.

Inductive ChAction :=
  | CSubscribe (optionalSubscriptions : option (list string))
  | CFetched (a : nat) (r : result WsResponse) (listener : nat)
  | CNotify (a listener : nat) (r : WsResponse)
  | CFetch
  | CFetchAnswered (a : nat) (r : result WsResponse)
  | CUnsubscribe
  | CContinue (i : nat).

#[local] Open Scope string_scope.

(** The optional accounts in the order of [subscribe]: name, field, account
    name, address and event. *)
Definition wsOptionalAccounts (state : StateAccount)
    : list (string * (string * string * PublicKey * string)) := [
  ("tradeHistoryAccount", ("tradeHistoryAccountSubscriber", "tradeHistory",
    st_tradeHistory state, "tradeHistoryAccountUpdate"));
  ("depositHistoryAccount", ("depositHistoryAccountSubscriber", "depositHistory",
    st_depositHistory state, "depositHistoryAccountUpdate"));
  ("fundingPaymentHistoryAccount", ("fundingPaymentHistoryAccountSubscriber",
    "fundingPaymentHistory", st_fundingPaymentHistory state, "fundingPaymentHistoryAccountUpdate"));
  ("fundingRateHistoryAccount", ("fundingRateHistoryAccountSubscriber", "fundingRateHistory",
    st_fundingRateHistory state, "fundingRateHistoryAccountUpdate"));
  ("liquidationHistoryAccount", ("liquidationHistoryAccountSubscriber", "liquidationHistory",
    st_liquidationHistory state, "liquidationHistoryAccountUpdate"));
  ("curveHistoryAccount", ("curveHistoryAccountSubscriber", "extendedCurveHistory",
    st_extendedCurveHistory state, "curveHistoryAccountUpdate"))].

(** The order in which [unsubscribe] goes through the fields. *)
Definition teardownOrder : Teardown := [
  (None, "stateAccountSubscriber");
  (None, "marketsAccountSubscriber");
  (Some "tradeHistoryAccount", "tradeHistoryAccountSubscriber");
  (Some "fundingRateHistoryAccount", "fundingRateHistoryAccountSubscriber");
  (Some "fundingPaymentHistoryAccount", "fundingPaymentHistoryAccountSubscriber");
  (Some "depositHistoryAccount", "depositHistoryAccountSubscriber");
  (Some "curveHistoryAccount", "curveHistoryAccountSubscriber");
  (Some "liquidationHistoryAccount", "liquidationHistoryAccountSubscriber")].

Section Ch.
Context {Account : Type} {P : Program Account} {V : AccountViews Account}.
#[local] Abbreviation Ch := (WsClearingHouse Account).
#[local] Abbreviation Obj := (WsObject Account).
Implicit Types (c : Ch) (o : Obj).

(** The constructor. *)
Definition newWsCh : Ch := mkWsCh [] ∅ false false [] NotSubscribing [].

Definition set_phase c ph : Ch :=
  mkWsCh (wc_objects c) (wc_fields c) (wc_isSubscribed c) (wc_isSubscribing c)
    (wc_optionalExtraSubscriptions c) ph (wc_teardowns c).
Definition set_object c (a : nat) o : Ch :=
  mkWsCh (<[a := o]> (wc_objects c)) (wc_fields c) (wc_isSubscribed c) (wc_isSubscribing c)
    (wc_optionalExtraSubscriptions c) (wc_phase c) (wc_teardowns c).
Definition set_teardowns c ts : Ch :=
  mkWsCh (wc_objects c) (wc_fields c) (wc_isSubscribed c) (wc_isSubscribing c)
    (wc_optionalExtraSubscriptions c) (wc_phase c) ts.
Definition set_optional c l : Ch :=
  mkWsCh (wc_objects c) (wc_fields c) (wc_isSubscribed c) (wc_isSubscribing c) l
    (wc_phase c) (wc_teardowns c).
Definition set_flags c subscribed subscribing : Ch :=
  mkWsCh (wc_objects c) (wc_fields c) subscribed subscribing
    (wc_optionalExtraSubscriptions c) (wc_phase c) (wc_teardowns c).

(** [this[field] = new WebSocketAccountSubscriber(...)] *)
Definition construct (field name : string) (publicKey : PublicKey) c : Ch * nat :=
  let a := length (wc_objects c) in
  (mkWsCh (wc_objects c ++ [newObject name publicKey]) (<[field := a]> (wc_fields c))
     (wc_isSubscribed c) (wc_isSubscribing c) (wc_optionalExtraSubscriptions c)
     (wc_phase c) (wc_teardowns c), a).

(** [this[field]] *)
Definition fieldObject (field : string) c : option (nat * Obj) :=
  a ← wc_fields c !! field; o ← wc_objects c !! a; Some (a, o).

(** The part of [subscribe] before its first await. *)
Definition wchSubscribeStart (statePublicKey : PublicKey) (opts : option (list string)) c : Ch :=
  if wc_isSubscribed c then c
  else if wc_isSubscribing c then c
  else
    let '(c, a) := construct "stateAccountSubscriber" "state" statePublicKey
                     (set_flags c false true) in
    set_phase (set_object c a (objSubscribe "stateAccountUpdate" (newObject "state" statePublicKey)))
      (AwaitState a opts).

(** The end of [subscribe]. *)
Definition wchSubscribeEnd (me : nat) c : Ch :=
  match emit_run me "update" with
  | Some e => set_phase c (Rejected e)
  | None => set_phase (set_flags c true false) NotSubscribing
  end.

(** After the state's first fetch. *)
Definition wchSubscribeMarkets (state : nat) (opts : option (list string)) c : Ch :=
  match (o ← wc_objects c !! state; objData o) with
  | None => set_phase c (Rejected TypeError)
  | Some account =>
      let s := as_state account in
      let '(c, a) := construct "marketsAccountSubscriber" "markets" (st_markets s) c in
      set_phase (set_object c a (objSubscribe "marketsAccountUpdate" (newObject "markets" (st_markets s))))
        (AwaitMarkets a opts s)
  end.

(** The six [new WebSocketAccountSubscriber], and the objects to subscribe with
    their events. *)
Fixpoint constructOptional (opts : option (list string))
    (l : list (string * (string * string * PublicKey * string))) c : Ch * list (nat * string) :=
  match l with
  | [] => (c, [])
  | (name, (field, accountName, pk, event)) :: l' =>
      let '(c1, a) := construct field accountName pk c in
      let '(c2, extra) := constructOptional opts l' c1 in
      (c2, if includes opts name then (a, event) :: extra else extra)
  end.

(** After the markets' first fetch, up to the [Promise.all]. *)
Definition wchSubscribeOptional (me : nat) (opts : option (list string)) (s : StateAccount) c : Ch :=
  let '(c, extraSubscribersToUse) := constructOptional opts (wsOptionalAccounts s) c in
  let c := set_optional c (default [] opts) in
  let c := foldl (fun c '(a, event) =>
             match wc_objects c !! a with
             | Some o => set_object c a (objSubscribe event o)
             | None => c
             end) c extraSubscribersToUse in
  match extraSubscribersToUse with
  | [] => wchSubscribeEnd me c
  | _ => set_phase c (AwaitOptional (fst <$> extraSubscribersToUse))
  end.

(** The [subscribe] call goes on when the object at [a] has finished its own. *)
Definition resume (me : nat) (a : nat) (r : result unit) c : Ch :=
  match wc_phase c with
  | AwaitState a' opts =>
      if decide (a' = a) then
        match r with
        | Throw e => set_phase c (Rejected e)
        | Ok _ => wchSubscribeMarkets a opts c
        end
      else c
  | AwaitMarkets a' opts s =>
      if decide (a' = a) then
        match r with
        | Throw e => set_phase c (Rejected e)
        | Ok _ => wchSubscribeOptional me opts s c
        end
      else c
  | AwaitOptional waiting =>
      if decide (a ∈ waiting) then
        match r with
        | Throw e => set_phase c (Rejected e)
        | Ok _ =>
            match filter (fun x => x <> a) waiting with
            | [] => wchSubscribeEnd me c
            | waiting' => set_phase c (AwaitOptional waiting')
            end
        end
      else c
  | _ => c
  end.

(** An answer to the first fetch of the object at [a]. *)
Definition wchFetched (me a : nat) (r : result WsResponse) (listener : nat) c : option Ch :=
  o ← wc_objects c !! a;
  '(o', res) ← objFetched me r listener o;
  Some (resume me a res (set_object c a o')).

(** [fetch]: the objects it fetches; the others are not there, and reading
    their [fetch] throws. *)
Definition fetchFields c : list string :=
  ((fun name => String.append name "Subscriber") <$> wc_optionalExtraSubscriptions c) ++
  ["stateAccountSubscriber"; "marketsAccountSubscriber"].
Definition wchFetch c : Ch * result unit :=
  if wc_isSubscribed c then
    foldl (fun '(c, r) field =>
      match r with
      | Throw e => (c, Throw e)
      | Ok _ =>
          match fieldObject field c with
          | Some (a, o) => (set_object c a (objFetch o), Ok tt)
          | None => (c, Throw TypeError)
          end
      end) (c, Ok tt) (fetchFields c)
  else (c, Ok tt).

(** [unsubscribe] from one await to the next: the fields not included are passed
    over, the next one's listener is removed; at the end the flag is dropped.
    [None] is a call that has ended. *)
Fixpoint teardown (q : Teardown) c : Ch * option Teardown :=
  match q with
  | [] => (set_flags c false (wc_isSubscribing c), None)
  | (name, field) :: q' =>
      if match name with
         | None => true
         | Some n => bool_decide (n ∈ wc_optionalExtraSubscriptions c)
         end
      then match fieldObject field c with
           | Some (a, o) => (set_object c a (objUnsubscribe o), Some q')
           | None => (c, None)
           end
      else teardown q' c
  end.

Definition wchUnsubscribe c : Ch :=
  if wc_isSubscribed c then
    let '(c', rest) := teardown teardownOrder c in
    set_teardowns c' (wc_teardowns c' ++ match rest with Some q => [q] | None => [] end)
  else c.

Definition wchContinue (i : nat) c : option Ch :=
  q ← wc_teardowns c !! i;
  let '(c', rest) := teardown q c in
  Some (set_teardowns c' (match rest with
                          | Some q' => <[i := q']> (wc_teardowns c')
                          | None => delete i (wc_teardowns c')
                          end)).

(** A turn of the event loop. *)
Definition wchStep (me : nat) (statePublicKey : PublicKey) c (act : ChAction) : option Ch :=
  match act with
  | CSubscribe opts => Some (wchSubscribeStart statePublicKey opts c)
  | CFetched a r listener => wchFetched me a r listener c
  | CNotify a listener r =>
      o ← wc_objects c !! a; o' ← objNotify me listener r o; Some (set_object c a o')
  | CFetch => Some (wchFetch c).1
  | CFetchAnswered a r =>
      o ← wc_objects c !! a; o' ← objFetchAnswered me r o; Some (set_object c a o')
  | CUnsubscribe => Some (wchUnsubscribe c)
  | CContinue i => wchContinue i c
  end.

Fixpoint wchRun (me : nat) (statePublicKey : PublicKey) (acts : list ChAction) c : option Ch :=
  match acts with
  | [] => Some c
  | act :: acts' => c' ← wchStep me statePublicKey c act; wchRun me statePublicKey acts' c'
  end.

(** ** The getters *)

Definition assertSubscribed c : result unit :=
  if wc_isSubscribed c then Ok tt else Throw NOT_SUBSCRIBED.

Definition assertOptionalSubscribed (name : string) c : result unit :=
  if wc_isSubscribed c then
    if bool_decide (name ∈ wc_optionalExtraSubscriptions c) then Ok tt
    else Throw (NotSubscribedError (optionalMessage name))
  else Throw NOT_SUBSCRIBED.

(** [this[field].data] *)
Definition fieldData (field : string) c : result (option Account) :=
  '(_, o) ← deref (fieldObject field c); Ok (objData o).

Definition wsGetStateAccount c : result (option Account) :=
  _ ← assertSubscribed c; fieldData "stateAccountSubscriber" c.
Definition wsGetMarketsAccount c : result (option Account) :=
  _ ← assertSubscribed c; fieldData "marketsAccountSubscriber" c.
Definition wsGetOptional (name : string) c : result (option Account) :=
  _ ← assertSubscribed c; _ ← assertOptionalSubscribed name c;
  fieldData (String.append name "Subscriber") c.
Definition wsGetTradeHistoryAccount := wsGetOptional "tradeHistoryAccount".
Definition wsGetDepositHistoryAccount := wsGetOptional "depositHistoryAccount".
Definition wsGetFundingPaymentHistoryAccount := wsGetOptional "fundingPaymentHistoryAccount".
Definition wsGetFundingRateHistoryAccount := wsGetOptional "fundingRateHistoryAccount".
Definition wsGetCurveHistoryAccount := wsGetOptional "curveHistoryAccount".
Definition wsGetLiquidationHistoryAccount := wsGetOptional "liquidationHistoryAccount".
End Ch.
