(* ===== verification/WsListeners.v ===== *)
(** * The listeners of the websocket clearing house subscriber

    The invariant behind the accounts of listeners of WsClearingHouseSpec.v:
    which objects may have a fetch under way or a listener served, phase by phase
    of [subscribe] and piece by piece of [unsubscribe], and its preservation by
    every step of a run in which [unsubscribe] does not overlap with itself. *)
From S2P Require Import Prelude BN Types Slots WebSocket Polling WsClearingHouse.

#[local] Open Scope string_scope.

Section Sound.
Context {Account : Type} {P : Program Account} {V : AccountViews Account}.
#[local] Abbreviation Ch := (WsClearingHouse Account).
#[local] Abbreviation Obj := (WsObject Account).
Implicit Types (c : Ch) (o : Obj) (objs : list Obj) (fs : gmap string nat).

(** An object with a fetch of its [subscribe] under way or a listener served. *)
Definition busy o : Prop :=
  sys_pending (wo_sys o) <> 0%nat \/ sys_listeners (wo_sys o) <> ∅.

(** Each object remembers its listeners, only objects of the fields [al] are
    busy, and only those of [aw] have a fetch under way. *)
Record sound objs fs (al : list string) (aw : list nat) : Prop := {
  snd_leak : forall a o, objs !! a = Some o -> no_leak (wo_sys o);
  snd_busy : forall a o, objs !! a = Some o -> busy o ->
               exists f, f ∈ al /\ fs !! f = Some a;
  snd_await : forall a o, objs !! a = Some o -> sys_pending (wo_sys o) <> 0%nat -> a ∈ aw
}.

Lemma sound_weaken objs fs al aw al' aw' :
  sound objs fs al aw -> al ⊆ al' -> aw ⊆ aw' -> sound objs fs al' aw'.
Proof.
  intros [H1 H2 H3] Hal Haw. split; [done | |]; intros a o Ha Hb.
  - destruct (H2 a o Ha Hb) as (f & Hf & ?). exists f. split; [by apply Hal | done].
  - eauto.
Qed.

(** An object that does not become busy. *)
Lemma sound_object objs fs al aw a o o' :
  sound objs fs al aw -> objs !! a = Some o -> no_leak (wo_sys o') ->
  (busy o' -> busy o) -> (sys_pending (wo_sys o') <> 0%nat -> sys_pending (wo_sys o) <> 0%nat) ->
  sound (<[a := o']> objs) fs al aw.
Proof.
  intros [H1 H2 H3] Ha Hl Hb Hp.
  split; intros b o1 Hb1; apply list_lookup_insert_Some in Hb1 as [(<- & -> & _) | [_ Hb1]]; eauto.
Qed.

Lemma new_no_leak : no_leak (initWs (T := Account) (H := string)).
Proof. split; [done | cbn; lia]. Qed.

Lemma new_idle (o : Obj) : wo_sys o = initWs -> ~ busy o.
Proof. unfold busy. intros ->. cbn. intros [? | ?]; done. Qed.

(** [new WebSocketAccountSubscriber] into a field that is not in use. *)
Lemma sound_construct objs fs al aw f name pk :
  sound objs fs al aw -> f ∉ al ->
  sound (objs ++ [newObject name pk]) (<[f := length objs]> fs) al aw.
Proof.
  intros [H1 H2 H3] Hf. split; intros a o Ha;
    apply lookup_app_Some in Ha as [Ha | [_ Ha]]; eauto;
    try (apply list_lookup_singleton_Some in Ha as [_ <-]).
  - apply new_no_leak.
  - intros Hb. destruct (H2 a o Ha Hb) as (f' & Hf' & ?). exists f'. split; [done |].
    rewrite lookup_insert_ne; [done |]. by intros ->.
  - intros Hb. by destruct (new_idle (newObject name pk) eq_refl).
  - done.
Qed.

(** Its [subscribe]. *)
Lemma sound_start objs fs al aw f a name pk event :
  sound objs fs al aw -> fs !! f = Some a ->
  sound (<[a := objSubscribe event (newObject name pk)]> objs) fs (f :: al) (a :: aw).
Proof.
  intros [H1 H2 H3] Hf. split; intros b o Hb;
    apply list_lookup_insert_Some in Hb as [(<- & <- & _) | [_ Hb]]; eauto.
  - split; [done | cbn; lia].
  - intros _. exists f. split; [by left | done].
  - intros Hbusy. destruct (H2 b o Hb Hbusy) as (f' & ? & ?). exists f'. split; [by right | done].
  - intros _. by left.
  - intros Hp. right. eauto.
Qed.

Lemma sound_construct_start objs fs al aw f name pk event :
  sound objs fs al aw -> f ∉ al ->
  sound (<[length objs := objSubscribe event (newObject name pk)]> (objs ++ [newObject name pk])%list)
    (<[f := length objs]> fs) (f :: al) (length objs :: aw).
Proof.
  intros Hs Hf. apply sound_start; [by apply sound_construct | by rewrite lookup_insert_eq].
Qed.

(** Nothing is busy where nothing is allowed. *)
Lemma sound_idle objs fs aw a o :
  sound objs fs [] aw -> objs !! a = Some o -> sys_listeners (wo_sys o) = ∅.
Proof.
  intros Hs Ha. destruct (decide (sys_listeners (wo_sys o) = ∅)) as [? | Hn]; [done |].
  destruct (snd_busy _ _ _ _ Hs a o Ha (or_intror Hn)) as (f & Hf & _). by apply not_elem_of_nil in Hf.
Qed.
End Sound.

(** ** The invariant of serial runs *)

(** The fields an [unsubscribe] call with the rest [q] still visits. *)
Definition passing (optional : list string) (q : Teardown) : list string :=
  omap (fun '(name, field) =>
    if match name with None => true | Some n => bool_decide (n ∈ optional) end
    then Some field else None) q.

Section Invariant.
Context {Account : Type} {P : Program Account} {V : AccountViews Account}.
#[local] Abbreviation Ch := (WsClearingHouse Account).
#[local] Abbreviation Obj := (WsObject Account).
Implicit Types (c : Ch) (o : Obj) (objs : list Obj).

(** The fields whose objects may be busy, and the objects awaited. *)
Definition allowed c : list string :=
  match wc_phase c with
  | NotSubscribing =>
      if wc_isSubscribed c
      then passing (wc_optionalExtraSubscriptions c)
             (match wc_teardowns c with [] => teardownOrder | q :: _ => q end)
      else []
  | AwaitState _ _ => ["stateAccountSubscriber"]
  | AwaitMarkets _ _ _ => ["marketsAccountSubscriber"; "stateAccountSubscriber"]
  | AwaitOptional _ => passing (wc_optionalExtraSubscriptions c) teardownOrder
  | Rejected _ => []
  end.
Definition awaited c : list nat :=
  match wc_phase c with
  | AwaitState a _ | AwaitMarkets a _ _ => [a]
  | AwaitOptional l => l
  | _ => []
  end.

Definition rejected c : Prop := match wc_phase c with Rejected _ => True | _ => False end.

Record ch_inv c : Prop := {
  chi_sound : ~ rejected c -> sound (wc_objects c) (wc_fields c) (allowed c) (awaited c);
  chi_subscribing : wc_isSubscribing c = match wc_phase c with NotSubscribing => false | _ => true end;
  chi_subscribed : wc_isSubscribed c = true -> wc_phase c = NotSubscribing;
  chi_teardowns : wc_teardowns c = [] \/
    exists q, wc_teardowns c = [q] /\ q ⊆ teardownOrder /\ wc_isSubscribed c = true
}.

(** Everything but the objects and the fields. *)
Record steady c c' : Prop := {
  st_subscribed : wc_isSubscribed c' = wc_isSubscribed c;
  st_subscribing : wc_isSubscribing c' = wc_isSubscribing c;
  st_optional : wc_optionalExtraSubscriptions c' = wc_optionalExtraSubscriptions c;
  st_phase : wc_phase c' = wc_phase c;
  st_teardowns : wc_teardowns c' = wc_teardowns c
}.

#[export] Instance steady_preorder : PreOrder steady.
Proof. split; [by split | intros ? ? ? [] []; split; congruence]. Qed.

Lemma steady_set_object c a o : steady c (set_object c a o).
Proof. by split. Qed.

Lemma ch_inv_steady c c' : steady c c' ->
  (~ rejected c -> sound (wc_objects c) (wc_fields c) (allowed c) (awaited c) ->
   sound (wc_objects c') (wc_fields c') (allowed c') (awaited c')) ->
  ch_inv c -> ch_inv c'.
Proof.
  intros [E1 E2 E3 E4 E5] Hs [H1 H2 H3 H4].
  split; rewrite ?E1, ?E2, ?E4, ?E5; try assumption.
  unfold rejected in *. rewrite E4. intros Hr. apply Hs; auto.
Qed.

Lemma steady_views c c' : steady c c' -> allowed c' = allowed c /\ awaited c' = awaited c.
Proof. intros [E1 E2 E3 E4 E5]. unfold allowed, awaited. by rewrite E1, E3, E4, E5. Qed.

(** An object that keeps its listeners and its pending fetch. *)
Definition same_load o o' : Prop :=
  ws_listenerId (sys_ws (wo_sys o')) = ws_listenerId (sys_ws (wo_sys o)) /\
  sys_pending (wo_sys o') = sys_pending (wo_sys o) /\
  sys_listeners (wo_sys o') = sys_listeners (wo_sys o).

Lemma ch_inv_same_load c a o o' :
  wc_objects c !! a = Some o -> same_load o o' -> ch_inv c -> ch_inv (set_object c a o').
Proof.
  intros Ha (E1 & E2 & E3). apply ch_inv_steady; [apply steady_set_object |].
  intros _ Hs. apply (sound_object _ _ _ _ _ o); [done | done | | |].
  - by apply (no_leak_ext (wo_sys o)), (snd_leak _ _ _ _ Hs a).
  - unfold busy. by rewrite E2, E3.
  - by rewrite E2.
Qed.

Lemma objNotify_load me l r o o' : objNotify me l r o = Some o' -> same_load o o'.
Proof.
  unfold objNotify, same_load. cbn. case_decide; [| done]. intros [= <-]. cbn.
  by destruct (handle_frame (C := objCoder me (wo_name o)) r (wo_sys o)) as (_ & _ & ? & ? & ?).
Qed.

Lemma objFetchAnswered_load me r o o' : objFetchAnswered me r o = Some o' -> same_load o o'.
Proof.
  unfold objFetchAnswered, same_load. destruct (wo_fetching o); [done |]. intros [= <-]. cbn.
  by destruct (fetch_frame (C := objCoder me (wo_name o)) r (wo_sys o)) as (_ & ? & ? & ?).
Qed.

Lemma fieldObject_lookup f c a o :
  fieldObject f c = Some (a, o) -> wc_fields c !! f = Some a /\ wc_objects c !! a = Some o.
Proof.
  unfold fieldObject. destruct (wc_fields c !! f) as [b |] eqn:E; cbn; [| done].
  destruct (wc_objects c !! b) eqn:E'; cbn; [| done]. intros [= -> ->]. by split.
Qed.

Lemma wchFetch_inv c : ch_inv c -> ch_inv (wchFetch c).1.
Proof.
  unfold wchFetch. destruct (wc_isSubscribed c); [| done].
  assert (forall r c1, ch_inv c1 -> ch_inv (c1, r : result unit).1) as Hid by done.
  revert c Hid. intros c Hid Hc. specialize (Hid (Ok tt) c Hc). clear Hc. revert Hid.
  generalize (c, Ok tt : result unit). generalize (fetchFields c). clear c.
  intros l. induction l as [| f l IH]; intros [c r] Hc; [done |]. cbn. apply IH.
  destruct r as [[] | e]; [| done].
  destruct (fieldObject f c) as [[a o] |] eqn:Ef; [| done]. cbn.
  apply fieldObject_lookup in Ef as [_ Ho]. by apply (ch_inv_same_load c a o (objFetch o)).
Qed.

(** *** [subscribe] *)

Lemma not_subscribing c : ch_inv c -> wc_isSubscribing c = false -> wc_phase c = NotSubscribing.
Proof. intros Hi E. rewrite (chi_subscribing _ Hi) in E. by destruct (wc_phase c). Qed.

Lemma no_teardowns c : ch_inv c -> wc_isSubscribed c = false -> wc_teardowns c = [].
Proof. intros Hi E. destruct (chi_teardowns _ Hi) as [? | (q & _ & _ & ?)]; [done | congruence]. Qed.

Lemma start_inv spk opts c : ch_inv c -> ch_inv (wchSubscribeStart spk opts c).
Proof.
  intros Hi. unfold wchSubscribeStart.
  destruct (wc_isSubscribed c) eqn:E1; [done |]. destruct (wc_isSubscribing c) eqn:E2; [done |].
  pose proof (not_subscribing c Hi E2) as Hp. pose proof (no_teardowns c Hi E1) as Ht.
  assert (Hs : sound (wc_objects c) (wc_fields c) [] []).
  { pose proof (chi_sound _ Hi) as Hs. unfold rejected, allowed, awaited in Hs.
    rewrite Hp, E1 in Hs. apply Hs. tauto. }
  cbn. split; cbn; [| done | done | by left].
  intros _. apply sound_construct_start; [done | apply not_elem_of_nil].
Qed.

Lemma end_inv me c aw :
  sound (wc_objects c) (wc_fields c) (passing (wc_optionalExtraSubscriptions c) teardownOrder) aw ->
  aw = [] -> wc_isSubscribing c = true -> wc_isSubscribed c = false -> wc_teardowns c = [] ->
  ch_inv (wchSubscribeEnd me c).
Proof.
  intros Hs -> E1 E2 Ht. unfold wchSubscribeEnd. destruct (emit_run me "update").
  - split; cbn; [tauto | done | by rewrite E2 | by left].
  - split; cbn; [| done | done | by left]. intros _. unfold allowed, awaited. cbn. by rewrite Ht.
Qed.

Lemma reject_inv c e : wc_isSubscribing c = true -> wc_isSubscribed c = false ->
  wc_teardowns c = [] -> ch_inv (set_phase c (Rejected e)).
Proof. intros E1 E2 Ht. split; cbn; [tauto | done | by rewrite E2 | by left]. Qed.

(** Between the rounds of [subscribe] no fetch is awaited. *)
Lemma markets_inv a opts c :
  sound (wc_objects c) (wc_fields c) ["stateAccountSubscriber"] [] ->
  wc_isSubscribing c = true -> wc_isSubscribed c = false -> wc_teardowns c = [] ->
  ch_inv (wchSubscribeMarkets a opts c).
Proof.
  intros Hs E1 E2 Ht. unfold wchSubscribeMarkets.
  destruct (o ← wc_objects c !! a; objData o); [| by apply reject_inv].
  cbn. split; cbn; [| done | by rewrite E2 | by left].
  intros _. apply sound_construct_start; [done | by apply (bool_decide_unpack _)].
Qed.

(** The fields of the optional accounts. *)
Definition optionalFields (l : list (string * (string * string * PublicKey * string)))
    : list string := (fun x => x.2.1.1.1) <$> l.

(** What the six [new] leave: the extra objects are fresh and in their fields. *)
Definition extraOf (l : list (string * (string * string * PublicKey * string)))
    (opts : option (list string)) c (a : nat) : Prop :=
  exists name field accountName pk event,
    (name, (field, accountName, pk, event)) ∈ l /\ includes opts name = true /\
    wc_fields c !! field = Some a /\ wc_objects c !! a = Some (newObject accountName pk).

Lemma constructOptional_sound opts l al aw c :
  sound (wc_objects c) (wc_fields c) al aw -> (forall f, f ∈ optionalFields l -> f ∉ al) ->
  sound (wc_objects (constructOptional opts l c).1) (wc_fields (constructOptional opts l c).1) al aw /\
  steady c (constructOptional opts l c).1.
Proof.
  revert c. induction l as [| [name [[[field an] pk] event]] l IH]; intros c Hs Hal; [done |].
  cbn [constructOptional]. cbn in Hal.
  destruct (IH (construct field an pk c).1) as [I1 I2]; [| by intros f Hf; apply Hal; right |].
  { apply sound_construct; [done |]. apply Hal. by left. }
  assert (Hc : steady c (construct field an pk c).1) by done.
  destruct (construct field an pk c) as [c1 a]. cbn [fst] in *.
  destruct (constructOptional opts l c1) as [c2 extra]. split; [done | by transitivity c1].
Qed.

Lemma constructOptional_extra opts l c : NoDup (optionalFields l) ->
  let r := constructOptional opts l c in
  (wc_objects c `prefix_of` wc_objects r.1) /\
  (forall f, f ∉ optionalFields l -> wc_fields r.1 !! f = wc_fields c !! f) /\
  (forall a, a ∈ (fst <$> r.2) -> extraOf l opts r.1 a /\ (length (wc_objects c) <= a)%nat) /\
  NoDup (fst <$> r.2).
Proof.
  revert c. induction l as [| [name [[[field an] pk] event]] l IH]; intros c Hnd.
  - cbn. split_and!; [done | done | by intros a ?%not_elem_of_nil | constructor].
  - cbn [constructOptional]. cbn in Hnd. apply NoDup_cons in Hnd as [Hnin Hnd].
    set (c1 := (construct field an pk c).1).
    assert (Hc1 : construct field an pk c = (c1, length (wc_objects c))) by done. rewrite Hc1.
    destruct (IH c1 Hnd) as (I3 & I4 & I5 & I6).
    clear IH. destruct (constructOptional opts l c1) as [c2 extra]. cbn in I3, I4, I5, I6.
    assert (Ho2 : wc_objects c2 !! length (wc_objects c) = Some (newObject an pk)).
    { apply (prefix_lookup_Some (wc_objects c1)); [| done]. cbn. by rewrite list_lookup_middle. }
    assert (Hf2 : wc_fields c2 !! field = Some (length (wc_objects c))).
    { rewrite I4 by done. cbn. by rewrite lookup_insert_eq. }
    assert (Hold : forall a, a ∈ (fst <$> extra) ->
      extraOf ((name, (field, an, pk, event)) :: l) opts c2 a /\ (length (wc_objects c) < a)%nat).
    { intros a Ha. destruct (I5 a Ha) as [(n & f & an' & pk' & ev & Hin & H) Hle]. split.
      - exists n, f, an', pk', ev. split; [by right | done].
      - cbn in Hle. rewrite length_app in Hle. cbn in Hle. lia. }
    cbn [fst snd]. split_and!.
    + transitivity (wc_objects c1); [by eexists | done].
    + intros f [Hne Hf]%not_elem_of_cons. rewrite I4 by done. cbn.
      rewrite lookup_insert_ne; [done |]. by intros ->.
    + destruct (includes opts name) eqn:Einc; intros a Ha.
      * cbn in Ha. apply elem_of_cons in Ha as [-> | Ha].
        -- split; [| done]. exists name, field, an, pk, event. split; [by left | done].
        -- destruct (Hold a Ha). split; [done | lia].
      * destruct (Hold a Ha). split; [done | lia].
    + destruct (includes opts name); [| done]. cbn. apply NoDup_cons. split; [| done].
      intros Hin. destruct (Hold _ Hin) as [_ ?]. lia.
Qed.

(** The [subscribe] calls of the extra objects. *)
Definition startExtra c (extra : list (nat * string)) : Ch :=
  foldl (fun c '(a, event) =>
    match wc_objects c !! a with
    | Some o => set_object c a (objSubscribe event o)
    | None => c
    end) c extra.

Lemma startExtra_sound l opts al c extra :
  (forall x, x ∈ l -> includes opts x.1 = true -> x.2.1.1.1 ∈ al) ->
  forall aw, sound (wc_objects c) (wc_fields c) al aw ->
  (forall a, a ∈ (fst <$> extra) -> extraOf l opts c a) -> NoDup (fst <$> extra) ->
  let c' := startExtra c extra in
  sound (wc_objects c') (wc_fields c') al ((fst <$> extra) ++ aw) /\ steady c c' /\
  wc_fields c' = wc_fields c.
Proof.
  intros Hal. revert c. induction extra as [| [a ev] extra IH]; intros c aw Hs Hex Hnd; [done |].
  cbn in Hex, Hnd. apply NoDup_cons in Hnd as [Hnin Hnd].
  destruct (Hex a ltac:(by left)) as (n & f & an & pk & e' & Hin & Hinc & Hf & Ho).
  cbn. rewrite Ho. set (c1 := set_object c a (objSubscribe ev (newObject an pk))).
  assert (Hs1 : sound (wc_objects c1) (wc_fields c1) al (a :: aw)).
  { apply (sound_weaken _ _ (f :: al) (a :: aw)); [by apply sound_start | | done].
    intros x [-> | ?]%elem_of_cons; [by apply (Hal _ Hin) | done]. }
  destruct (IH c1 (a :: aw) Hs1) as (I1 & I2 & I3); [| done |].
  - intros b Hb. destruct (Hex b ltac:(by right)) as (n1 & f1 & an1 & pk1 & e1 & H1 & H2 & H3 & H4).
    exists n1, f1, an1, pk1, e1. split_and!; [done | done | done |]. cbn.
    rewrite list_lookup_insert_ne; [done |]. by intros ->.
  - split_and!; [| by transitivity c1 | done]. eapply sound_weaken; [exact I1 | done |].
    cbn. set_solver.
Qed.

Lemma optional_passes opts s x :
  x ∈ wsOptionalAccounts s -> includes opts x.1 = true ->
  x.2.1.1.1 ∈ passing (default [] opts) teardownOrder.
Proof.
  intros Hx Hinc. destruct opts as [l |]; [| done]. cbn [includes default] in *.
  unfold passing. apply list_elem_of_omap. apply bool_decide_eq_true in Hinc.
  exists (Some x.1, x.2.1.1.1). unfold wsOptionalAccounts in Hx.
  repeat (apply elem_of_cons in Hx as [-> | Hx];
    [cbn in *; split; [set_solver | by rewrite bool_decide_true] |]).
  by apply not_elem_of_nil in Hx.
Qed.

Lemma optional_inv me opts s c :
  sound (wc_objects c) (wc_fields c) ["marketsAccountSubscriber"; "stateAccountSubscriber"] [] ->
  wc_isSubscribing c = true -> wc_isSubscribed c = false -> wc_teardowns c = [] ->
  ch_inv (wchSubscribeOptional me opts s c).
Proof.
  intros Hs E1 E2 Ht. unfold wchSubscribeOptional.
  destruct (constructOptional_sound opts (wsOptionalAccounts s) _ _ c Hs) as [I1 I2];
    [by intros f Hf; repeat (apply elem_of_cons in Hf as [-> | Hf]; [by apply (bool_decide_unpack _) |]);
       apply not_elem_of_nil in Hf |].
  destruct (constructOptional_extra opts (wsOptionalAccounts s) c) as (_ & _ & I5 & I6);
    [by apply (bool_decide_unpack _) |].
  destruct (constructOptional opts (wsOptionalAccounts s) c) as [c1 extra]. cbn [fst snd] in *.
  set (al := passing (default [] opts) teardownOrder).
  change (foldl _ (set_optional c1 (default [] opts)) extra)
    with (startExtra (set_optional c1 (default [] opts)) extra).
  destruct (startExtra_sound (wsOptionalAccounts s) opts al (set_optional c1 (default [] opts)) extra)
    with (aw := @nil nat) as (J1 & J2 & J3).
  - intros x. apply optional_passes.
  - eapply sound_weaken; [exact I1 | | done]. unfold al, passing, teardownOrder. cbn. set_solver.
  - intros a Ha. destruct (I5 a Ha) as [H _]. exact H.
  - done.
  - set (c2 := startExtra _ extra) in *. rewrite app_nil_r in J1.
    assert (wc_isSubscribing c2 = true /\ wc_isSubscribed c2 = false /\ wc_teardowns c2 = [] /\
      wc_optionalExtraSubscriptions c2 = default [] opts) as (F1 & F2 & F3 & F4).
    { destruct I2, J2. cbn in *. split_and!; congruence. }
    clearbody c2. clear I5 I6. destruct extra as [| x extra].
    + apply (end_inv me c2 []); [by rewrite F4 | done | done | done | done].
    + split; unfold rejected, allowed, awaited; cbn; rewrite ?F1, ?F2, ?F3, ?F4;
        [intros _; exact J1 | done | done | by left].
Qed.

(** *** Answers to first fetches *)
Lemma objFetched_spec me r l o o' res :
  objFetched me r l o = Some (o', res) -> l <> 0%nat -> no_leak (wo_sys o) ->
  sys_pending (wo_sys o) <> 0%nat /\ no_leak (wo_sys o') /\ sys_pending (wo_sys o') = 0%nat.
Proof.
  unfold objFetched. intros H Hl Hn.
  destruct (subscribeFetched r l (wo_sys o)) as [s |] eqn:E; cbn in H; [| done].
  injection H as <- <-. cbn.
  pose proof (wsStep_no_leak (C := objCoder me (wo_name o)) (wo_sys o) (WFetched r l) s Hl Hn E) as Hn'.
  unfold subscribeFetched in E. destruct (sys_pending (wo_sys o)) as [| n] eqn:Ep; [done |].
  split_and!; [done | done |].
  destruct (fetch_frame (C := objCoder me (wo_name o)) r (wo_sys o)) as (_ & _ & Hp & _).
  unfold no_leak in Hn. rewrite Ep in Hn.
  destruct (ws_listenerId (sys_ws (wo_sys o))); [lia |].
  destruct (wsFetch r (wo_sys o)) as [s1 [|]]; injection E as <-; cbn; lia.
Qed.

(** The object answered is no longer awaited. *)
Lemma sound_fetched me objs fs al aw a o o' r res l :
  sound objs fs al aw -> objs !! a = Some o -> l <> 0%nat ->
  objFetched me r l o = Some (o', res) ->
  a ∈ aw /\ sound (<[a := o']> objs) fs al (filter (fun x => x <> a) aw).
Proof.
  intros Hs Ha Hl H.
  destruct (objFetched_spec me r l o o' res H Hl (snd_leak _ _ _ _ Hs a o Ha)) as (H1 & H2 & H3).
  split; [by apply (snd_await _ _ _ _ Hs a o) |].
  destruct (sound_object _ _ _ _ a o o' Hs Ha H2) as [S1 S2 S3]; [by left | by rewrite H3 |].
  split; [done | done |]. intros b o1 Hb Hp. apply list_elem_of_filter. split; [| eauto].
  intros ->. rewrite list_lookup_insert_eq in Hb by (by eapply lookup_lt_Some).
  injection Hb as <-. by rewrite H3 in Hp.
Qed.

Lemma fetched_inv me a r l c c' :
  l <> 0%nat -> ch_inv c -> wchFetched me a r l c = Some c' -> ch_inv c'.
Proof.
  intros Hl Hi H. unfold wchFetched in H.
  destruct (wc_objects c !! a) as [o |] eqn:Ha; cbn in H; [| done].
  destruct (objFetched me r l o) as [[o' res] |] eqn:Hf; cbn in H; [| done]. injection H as <-.
  pose proof (chi_sound _ Hi) as Hs. pose proof (chi_subscribing _ Hi) as E1.
  assert (E2 : wc_phase c <> NotSubscribing -> wc_isSubscribed c = false).
  { intros Hn. destruct (wc_isSubscribed c) eqn:E; [| done]. by destruct Hn, (chi_subscribed _ Hi E). }
  assert (E3 : wc_phase c <> NotSubscribing -> wc_teardowns c = []).
  { intros Hn. by apply no_teardowns, E2. }
  unfold resume. change (wc_phase (set_object c a o')) with (wc_phase c).
  destruct (wc_phase c) as [| b opts | b opts s | w | e] eqn:Hp; unfold rejected in Hs; rewrite Hp in Hs.
  - exfalso. destruct (sound_fetched me _ _ _ _ a o o' r res l (Hs ltac:(tauto)) Ha Hl Hf) as [Hin _].
    unfold awaited in Hin. rewrite Hp in Hin. by apply not_elem_of_nil in Hin.
  - destruct (sound_fetched me _ _ _ _ a o o' r res l (Hs ltac:(tauto)) Ha Hl Hf) as [Hin Hs'].
    unfold awaited, allowed in Hin, Hs'. rewrite Hp in Hin, Hs'.
    apply list_elem_of_singleton in Hin as <-. rewrite decide_True by done.
    rewrite filter_cons_False in Hs' by tauto.
    destruct res; [| by apply reject_inv; auto]. by apply markets_inv; auto.
  - destruct (sound_fetched me _ _ _ _ a o o' r res l (Hs ltac:(tauto)) Ha Hl Hf) as [Hin Hs'].
    unfold awaited, allowed in Hin, Hs'. rewrite Hp in Hin, Hs'.
    apply list_elem_of_singleton in Hin as <-. rewrite decide_True by done.
    rewrite filter_cons_False in Hs' by tauto.
    destruct res; [| by apply reject_inv; auto]. by apply optional_inv; auto.
  - destruct (sound_fetched me _ _ _ _ a o o' r res l (Hs ltac:(tauto)) Ha Hl Hf) as [Hin Hs'].
    unfold awaited, allowed in Hin, Hs'. rewrite Hp in Hin, Hs'. rewrite decide_True by done.
    destruct res; [| by apply reject_inv; auto].
    destruct (filter (fun x => x <> a) w) as [| x w'] eqn:Ew.
    + by apply (end_inv me _ []); auto.
    + split; cbn; [done | by rewrite E1 | by rewrite E2 | left; by apply E3].
  - split; cbn; rewrite ?Hp; [unfold rejected; cbn; rewrite Hp; tauto | done | | left; by apply E3].
    by rewrite E2.
Qed.

(** *** [unsubscribe] *)

(** An [unsubscribe] call on its way leaves the listeners of the fields it has
    not visited. *)
Definition torn c (rest : option Teardown) : list string :=
  match rest with
  | Some q => passing (wc_optionalExtraSubscriptions c) q
  | None => if wc_isSubscribed c then passing (wc_optionalExtraSubscriptions c) teardownOrder else []
  end.

Lemma objUnsubscribe_idle o :
  no_leak (wo_sys o) -> sys_pending (wo_sys o) = 0%nat ->
  no_leak (wo_sys (objUnsubscribe o)) /\ ~ busy (objUnsubscribe o) /\
  sys_pending (wo_sys (objUnsubscribe o)) = 0%nat.
Proof.
  intros Hl Hp. unfold objUnsubscribe, busy, wsUnsubscribe, no_leak in *. cbn.
  destruct (ws_listenerId (sys_ws (wo_sys o))) as [[| n] |] eqn:E; cbn; rewrite ?E.
  - by destruct Hl.
  - destruct Hl as (_ & -> & _). rewrite Hp. split_and!; [set_solver | lia | | done].
    intros [? | H]; [done |]. apply H. set_solver.
  - rewrite Hp. destruct Hl as [-> _]. split_and!; [done | lia | by intros [? | ?] | done].
Qed.

Lemma teardown_sound q c :
  sound (wc_objects c) (wc_fields c) (passing (wc_optionalExtraSubscriptions c) q) [] ->
  q ⊆ teardownOrder -> wc_isSubscribed c = true ->
  let r := teardown q c in
  sound (wc_objects r.1) (wc_fields r.1) (torn r.1 r.2) [] /\
  wc_isSubscribing r.1 = wc_isSubscribing c /\ wc_phase r.1 = wc_phase c /\
  wc_teardowns r.1 = wc_teardowns c /\
  match r.2 with Some q' => q' ⊆ teardownOrder /\ wc_isSubscribed r.1 = true | None => True end.
Proof.
  induction q as [| [n f] q IH]; intros Hs Hq Hsub; [done |]. cbn [teardown].
  set (pass := match n with None => true | Some n => bool_decide (n ∈ wc_optionalExtraSubscriptions c) end).
  assert (Hq' : q ⊆ teardownOrder) by set_solver.
  assert (Hpass : passing (wc_optionalExtraSubscriptions c) ((n, f) :: q) =
    if pass then f :: passing (wc_optionalExtraSubscriptions c) q
    else passing (wc_optionalExtraSubscriptions c) q).
  { unfold passing. cbn. fold pass. by destruct pass. }
  rewrite Hpass in Hs. clearbody pass. destruct pass; [| by apply IH].
  destruct (fieldObject f c) as [[a o] |] eqn:Ef; cbn [fst snd torn].
  - apply fieldObject_lookup in Ef as [Hfa Ho].
    assert (Hp0 : sys_pending (wo_sys o) = 0%nat).
    { destruct (sys_pending (wo_sys o)) eqn:E; [done |]. exfalso.
      apply (not_elem_of_nil a). apply (snd_await _ _ _ _ Hs a o Ho). by rewrite E. }
    destruct (objUnsubscribe_idle o (snd_leak _ _ _ _ Hs a o Ho) Hp0) as (U1 & U2 & U3).
    split_and!; [| done | done | done | done | done].
    destruct (sound_object _ _ _ _ a o (objUnsubscribe o) Hs Ho U1) as [S1 S2 S3];
      [by intros ?%U2 | by rewrite U3 |].
    split; [done | | done]. intros b o1 Hb Hbusy.
    destruct (S2 b o1 Hb Hbusy) as (f' & [-> | Hf']%elem_of_cons & Hfb); [| by exists f'].
    exfalso. cbn in Hfb, Hb. assert (b = a) as -> by congruence.
    rewrite list_lookup_insert_eq in Hb by (by eapply lookup_lt_Some).
    injection Hb as <-. by apply U2.
  - rewrite Hsub. split_and!; [| done | done | done | done].
    eapply sound_weaken; [exact Hs | | done].
    intros x Hx. apply list_elem_of_omap.
    assert (x ∈ passing (wc_optionalExtraSubscriptions c) ((n, f) :: q)) as Hx' by by rewrite Hpass.
    apply list_elem_of_omap in Hx' as (y & Hy & Hyx). exists y. split; [by apply Hq | done].
Qed.

Lemma sound_subscribed c : ch_inv c -> wc_isSubscribed c = true ->
  sound (wc_objects c) (wc_fields c)
    (passing (wc_optionalExtraSubscriptions c)
       (match wc_teardowns c with [] => teardownOrder | q :: _ => q end)) [].
Proof.
  intros Hi E. pose proof (chi_subscribed _ Hi E) as Hp. pose proof (chi_sound _ Hi) as Hs.
  unfold rejected, allowed, awaited in Hs. rewrite Hp, E in Hs. apply Hs. tauto.
Qed.

(** The state after a piece of an [unsubscribe] call is stored back. *)
Lemma torn_inv c c' rest :
  sound (wc_objects c') (wc_fields c') (torn c' rest) [] ->
  wc_isSubscribing c' = false -> wc_phase c' = NotSubscribing ->
  match rest with Some q' => q' ⊆ teardownOrder /\ wc_isSubscribed c' = true | None => True end ->
  c = set_teardowns c' (match rest with Some q => [q] | None => [] end) -> ch_inv c.
Proof.
  intros Hs E1 Ep Hr ->. unfold torn in Hs. split.
  - intros _. unfold allowed, awaited. cbn. rewrite Ep.
    destruct rest as [q |]; [by destruct Hr as [_ ->] | exact Hs].
  - cbn. by rewrite Ep.
  - cbn. by rewrite Ep.
  - cbn. destruct rest as [q |]; [right; exists q; by destruct Hr | by left].
Qed.

Lemma unsubscribe_inv c : wc_teardowns c = [] -> ch_inv c -> ch_inv (wchUnsubscribe c).
Proof.
  intros Ht Hi. unfold wchUnsubscribe. destruct (wc_isSubscribed c) eqn:E; [| done].
  pose proof (sound_subscribed c Hi E) as Hs. rewrite Ht in Hs.
  destruct (teardown_sound teardownOrder c Hs ltac:(done) E) as (T1 & T2 & T3 & T4 & T5).
  destruct (teardown teardownOrder c) as [c' rest]. cbn [fst snd] in *.
  pose proof (chi_subscribed _ Hi E) as Hp. pose proof (chi_subscribing _ Hi) as Hg. rewrite Hp in Hg.
  apply (torn_inv _ c' rest); [done | congruence | congruence | done |].
  rewrite T4, Ht. by destruct rest.
Qed.

Lemma continue_inv i c c' : ch_inv c -> wchContinue i c = Some c' -> ch_inv c'.
Proof.
  intros Hi H. unfold wchContinue in H.
  destruct (wc_teardowns c !! i) as [q |] eqn:Hq; cbn in H; [| done].
  destruct (chi_teardowns _ Hi) as [Ht | (q1 & Ht & Hq1 & E)]; [by rewrite Ht in Hq |].
  rewrite Ht in Hq. apply list_lookup_singleton_Some in Hq as [-> ->].
  pose proof (sound_subscribed c Hi E) as Hs. rewrite Ht in Hs.
  destruct (teardown_sound q c Hs Hq1 E) as (T1 & T2 & T3 & T4 & T5).
  destruct (teardown q c) as [c1 rest]. cbn [fst snd] in *. injection H as <-.
  pose proof (chi_subscribed _ Hi E) as Hp. pose proof (chi_subscribing _ Hi) as Hg. rewrite Hp in Hg.
  apply (torn_inv _ c1 rest); [done | congruence | congruence | done |].
  rewrite T4, Ht. by destruct rest.
Qed.

(** *** Runs *)

(** A run in which [unsubscribe] is not called again before it has ended, and
    the connection's identifiers are not 0. *)
Definition ch_serial c (act : ChAction) : Prop :=
  match act with
  | CUnsubscribe => wc_teardowns c = []
  | CFetched _ _ listener => listener <> 0%nat
  | _ => True
  end.

Fixpoint ch_serial_run (me : nat) (spk : PublicKey) (acts : list ChAction) c : Prop :=
  match acts with
  | [] => True
  | act :: acts' => ch_serial c act /\
      match wchStep me spk c act with Some c' => ch_serial_run me spk acts' c' | None => True end
  end.

Lemma step_inv me spk c act c' :
  ch_serial c act -> ch_inv c -> wchStep me spk c act = Some c' -> ch_inv c'.
Proof.
  intros Hser Hi. destruct act as [opts | a r l | a l r | | a r | | i];
    cbn [wchStep mbind option_bind].
  - intros [= <-]. by apply start_inv.
  - by apply fetched_inv.
  - destruct (wc_objects c !! a) as [o |] eqn:Ha; cbn [mbind option_bind]; [| done].
    destruct (objNotify me l r o) as [o' |] eqn:Ho; cbn [mbind option_bind]; [| done]. intros [= <-].
    by apply (ch_inv_same_load c a o o'); [| eapply objNotify_load |].
  - intros [= <-]. by apply wchFetch_inv.
  - destruct (wc_objects c !! a) as [o |] eqn:Ha; cbn [mbind option_bind]; [| done].
    destruct (objFetchAnswered me r o) as [o' |] eqn:Ho; cbn [mbind option_bind]; [| done]. intros [= <-].
    by apply (ch_inv_same_load c a o o'); [| eapply objFetchAnswered_load |].
  - intros [= <-]. by apply unsubscribe_inv.
  - by apply continue_inv.
Qed.

Lemma new_inv : ch_inv (newWsCh (Account := Account)).
Proof.
  split; [| done | done | by left]. intros _. by split; intros [|] o Ha.
Qed.

Lemma serial_run_inv me spk acts c c' :
  ch_serial_run me spk acts c -> ch_inv c -> wchRun me spk acts c = Some c' -> ch_inv c'.
Proof.
  revert c. induction acts as [| act acts IH]; intros c; cbn; [by intros _ ? [= <-] |].
  destruct (wchStep me spk c act) as [c1 |] eqn:E; cbn; [| done].
  intros [Ha Hr] Hi. eauto using step_inv.
Qed.
End Invariant.
