(* ===== verification/WsFields.v ===== *)
(** * The fields of the websocket clearing house subscriber

    Steps lose no object, no field and no data; what a field holds in each phase
    of [subscribe]; and the states in which an exception leaves the subscriber,
    which nothing repairs. *)
From S2P Require Import Prelude BN Types Slots WebSocket Polling WsClearingHouse WsListeners.

#[local] Open Scope string_scope.

(** ** Fields and data *)
Section Present.
Context {Account : Type} {P : Program Account} {V : AccountViews Account}.
#[local] Abbreviation Ch := (WsClearingHouse Account).
#[local] Abbreviation Obj := (WsObject Account).
Implicit Types (c : Ch) (o : Obj).

(** No step loses an object, a field or the data of an object; only
    [subscribe] points a field to another object. *)
Record grows (repoint : list string) c c' : Prop := {
  grw_objects : forall a o, wc_objects c !! a = Some o ->
    exists o', wc_objects c' !! a = Some o' /\ (is_Some (objData o) -> is_Some (objData o'));
  grw_fields : forall f, f ∉ repoint -> wc_fields c' !! f = wc_fields c !! f;
  grw_domain : forall f, f ∈ repoint -> is_Some (wc_fields c' !! f);
  grw_valid : (forall f a, wc_fields c !! f = Some a -> (a < length (wc_objects c))%nat) ->
    forall f a, wc_fields c' !! f = Some a -> (a < length (wc_objects c'))%nat
}.

Lemma grows_refl c : grows [] c c.
Proof. split; [eauto | done | by intros f ?%not_elem_of_nil | done]. Qed.

Lemma grows_trans l1 l2 c1 c2 c3 :
  grows l1 c1 c2 -> grows l2 c2 c3 -> grows (l1 ++ l2) c1 c3.
Proof.
  intros [A1 A2 A3 A4] [B1 B2 B3 B4]. split.
  - intros a o Ha. destruct (A1 a o Ha) as (o2 & Ho2 & ?). destruct (B1 a o2 Ho2) as (o3 & ? & ?).
    exists o3. split; [done | auto].
  - intros f [? ?]%not_elem_of_app. by rewrite B2, A2.
  - intros f Hf. destruct (decide (f ∈ l2)) as [? | Hn]; [auto |].
    rewrite B2 by done. apply A3. by apply elem_of_app in Hf as [? |].
  - intros Hv. apply B4, A4, Hv.
Qed.

Lemma grows_object c a o o' :
  wc_objects c !! a = Some o -> (is_Some (objData o) -> is_Some (objData o')) ->
  grows [] c (set_object c a o').
Proof.
  intros Ha Hd. split; [| done | by intros f ?%not_elem_of_nil |].
  - intros b o1 Hb. cbn. destruct (decide (a = b)) as [<- | Hne].
    + rewrite list_lookup_insert_eq by (by eapply lookup_lt_Some). assert (o1 = o) as -> by congruence. eauto.
    + rewrite list_lookup_insert_ne by done. eauto.
  - intros Hv f b Hf. cbn. rewrite length_insert. eauto.
Qed.

Lemma grows_construct c f name pk : grows [f] c (construct f name pk c).1.
Proof.
  split; cbn.
  - intros a o Ha. exists o. split; [| done]. by apply lookup_app_l_Some.
  - intros g Hg. rewrite lookup_insert_ne; [done |]. intros ->. apply Hg. by left.
  - intros g ->%list_elem_of_singleton. by rewrite lookup_insert_eq.
  - intros Hv g a. rewrite length_app. cbn. intros [[_ <-] | [_ Hg]]%lookup_insert_Some; [lia |].
    apply Hv in Hg. lia.
Qed.

Lemma grows_objects l c c' c2 :
  grows l c c' -> wc_objects c2 = wc_objects c' -> wc_fields c2 = wc_fields c' -> grows l c c2.
Proof. intros [H1 H2 H3 H4] Ho Hf. split; rewrite ?Ho, ?Hf; auto. Qed.

Lemma deliver_data {T H} {C : Coder T H} d nb (s : WsSys T H) :
  is_Some (ws_data (sys_ws s)) -> is_Some (ws_data (sys_ws (deliver d nb s).1)).
Proof. unfold deliver. intros Hd. destruct (decode nb); cbn; [| done]. by destruct (ws_onChange _). Qed.

Lemma fetch_data {T H} {C : Coder T H} r (s : WsSys T H) :
  is_Some (ws_data (sys_ws s)) -> is_Some (ws_data (sys_ws (wsFetch r s).1)).
Proof.
  intros Hd. destruct r as [r |]; cbn; [| done]. rewrite handle_accepts.
  destruct (accepts _ _ _); [| done]. destruct r.2; [by apply deliver_data | done].
Qed.

Lemma objFetched_data me r l o o' res :
  objFetched me r l o = Some (o', res) -> is_Some (objData o) -> is_Some (objData o').
Proof.
  unfold objFetched, objData, subscribeFetched. destruct (sys_pending (wo_sys o)); [done |].
  intros H Hd. pose proof (fetch_data (C := objCoder me (wo_name o)) r (wo_sys o) Hd) as Hd'.
  destruct (wsFetch r (wo_sys o)) as [s1 [|]]; injection H as <- <-; exact Hd'.
Qed.

Lemma objNotify_data me l r o o' :
  objNotify me l r o = Some o' -> is_Some (objData o) -> is_Some (objData o').
Proof.
  unfold objNotify. cbn. case_decide; [| done]. intros [= <-] Hd.
  by apply (fetch_data (C := objCoder me (wo_name o)) (Ok r)).
Qed.

Lemma objFetchAnswered_data me r o o' :
  objFetchAnswered me r o = Some o' -> is_Some (objData o) -> is_Some (objData o').
Proof.
  unfold objFetchAnswered. destruct (wo_fetching o); [done |]. intros [= <-] Hd.
  by apply (fetch_data (C := objCoder me (wo_name o))).
Qed.

Lemma objUnsubscribe_data o : objData (objUnsubscribe o) = objData o.
Proof.
  unfold objUnsubscribe, objData, wsUnsubscribe. cbn. by destruct (ws_listenerId _) as [[|] |].
Qed.
(** The fields that must hold an object; the state's must have its data. *)
Definition needed c : list string :=
  match wc_phase c with
  | AwaitMarkets _ _ _ => ["stateAccountSubscriber"; "marketsAccountSubscriber"]
  | AwaitOptional _ => snd <$> teardownOrder
  | NotSubscribing => if wc_isSubscribed c then snd <$> teardownOrder else []
  | _ => []
  end.

Definition has_data c (f : string) : Prop :=
  exists a o, wc_fields c !! f = Some a /\ wc_objects c !! a = Some o /\ is_Some (objData o).

Record present c : Prop := {
  prs_valid : forall f a, wc_fields c !! f = Some a -> (a < length (wc_objects c))%nat;
  prs_state : match wc_phase c with
              | AwaitState a _ => wc_fields c !! "stateAccountSubscriber" = Some a
              | _ => True
              end;
  prs_fields : forall f, f ∈ needed c -> is_Some (wc_fields c !! f);
  prs_data : needed c <> [] -> has_data c "stateAccountSubscriber";
  prs_phase : wc_isSubscribed c = true -> wc_phase c = NotSubscribing
}.

Lemma has_data_grows l c c' f : grows l c c' -> f ∉ l -> has_data c f -> has_data c' f.
Proof.
  intros Hg Hf (a & o & Hfa & Ha & Hd). destruct (grw_objects _ _ _ Hg a o Ha) as (o' & ? & ?).
  exists a, o'. rewrite (grw_fields _ _ _ Hg) by done. auto.
Qed.

(** A step that points no field elsewhere. *)
Lemma present_grows c c' : grows [] c c' -> wc_phase c' = wc_phase c ->
  (wc_isSubscribed c' = true -> wc_isSubscribed c = true) -> present c -> present c'.
Proof.
  intros Hg Hp Hsub [H1 H2 H3 H4 H5].
  assert (Hn : needed c' = [] \/ needed c' = needed c).
  { unfold needed. rewrite Hp. destruct (wc_phase c); auto.
    destruct (wc_isSubscribed c'); [| by left]. rewrite Hsub by done. by right. }
  split.
  - by apply (grw_valid _ _ _ Hg).
  - rewrite Hp. destruct (wc_phase c); try done.
    rewrite (grw_fields _ _ _ Hg) by apply not_elem_of_nil. done.
  - intros f Hf. rewrite (grw_fields _ _ _ Hg) by apply not_elem_of_nil.
    destruct Hn as [Hn | Hn]; rewrite Hn in Hf; [by apply not_elem_of_nil in Hf | auto].
  - destruct Hn as [Hn | Hn]; rewrite Hn; [done |]. intros Hne.
    apply (has_data_grows [] c); [done | apply not_elem_of_nil | auto].
  - rewrite Hp. auto.
Qed.

Lemma present_rejected c e : wc_isSubscribed c = false ->
  (forall f a, wc_fields c !! f = Some a -> (a < length (wc_objects c))%nat) ->
  present (set_phase c (Rejected e)).
Proof. intros E Hv. split; cbn; [done | done | by intros f ?%not_elem_of_nil | done | by rewrite E]. Qed.

Lemma present_end me c : wc_isSubscribed c = false ->
  (forall f a, wc_fields c !! f = Some a -> (a < length (wc_objects c))%nat) ->
  (forall f, f ∈ (snd <$> teardownOrder) -> is_Some (wc_fields c !! f)) ->
  has_data c "stateAccountSubscriber" -> present (wchSubscribeEnd me c).
Proof.
  intros E Hv Hf Hd. unfold wchSubscribeEnd. destruct (emit_run me "update"); [by apply present_rejected |].
  by split.
Qed.

Lemma constructOptional_grows opts l c :
  grows (optionalFields l) c (constructOptional opts l c).1 /\
  steady c (constructOptional opts l c).1.
Proof.
  revert c. induction l as [| [name [[[field an] pk] event]] l IH]; intros c;
    [split; [apply grows_refl | done] |].
  cbn [constructOptional]. destruct (IH (construct field an pk c).1) as [I1 I2].
  pose proof (grows_construct c field an pk) as Hc.
  assert (Hs : steady c (construct field an pk c).1) by done.
  destruct (construct field an pk c) as [c1 a].
  cbn [fst] in *. destruct (constructOptional opts l c1) as [c2 extra].
  split; [| by transitivity c1]. apply (grows_trans [field] (optionalFields l) c c1 c2 Hc I1).
Qed.

Lemma startExtra_grows c extra :
  grows [] c (startExtra c extra) /\ steady c (startExtra c extra).
Proof.
  revert c. induction extra as [| [a ev] extra IH]; intros c; [split; [apply grows_refl | done] |].
  cbn. destruct (wc_objects c !! a) as [o |] eqn:Ha; [| apply IH].
  destruct (IH (set_object c a (objSubscribe ev o))) as [I1 I2].
  split; [| etransitivity; [apply steady_set_object | exact I2]].
  apply (grows_trans [] []) with (c2 := set_object c a (objSubscribe ev o)); [| done].
  apply (grows_object c a o); [done |]. unfold objData, objSubscribe, subscribeStart. cbn.
  by destruct (listening _).
Qed.

Lemma wchFetch_grows c : grows [] c (wchFetch c).1 /\ steady c (wchFetch c).1.
Proof.
  unfold wchFetch. destruct (wc_isSubscribed c); [| by split; [apply grows_refl |]].
  assert (forall (l : list string) c0 (x : Ch * result unit),
    grows [] c0 x.1 /\ steady c0 x.1 -> forall y, y = foldl (fun '(c, r) field =>
      match r with
      | Throw e => (c, Throw e)
      | Ok _ =>
          match fieldObject field c with
          | Some (a, o) => (set_object c a (objFetch o), Ok tt)
          | None => (c, Throw TypeError)
          end
      end) x l -> grows [] c0 y.1 /\ steady c0 y.1) as Hgen.
  { induction l as [| f l IH]; intros c0 [c1 r] H y ->; [done |]. cbn. eapply IH; [| done].
    destruct r as [[] | e]; [| done]. destruct (fieldObject f c1) as [[a o] |] eqn:Ef; [| done].
    destruct H as [H1 H2]. cbn. apply fieldObject_lookup in Ef as [_ Ho].
    split; [| by transitivity c1].
    apply (grows_trans [] []) with (c2 := c1); [done |]. by apply (grows_object c1 a o). }
  eapply Hgen; [| reflexivity]. by split; [apply grows_refl |].
Qed.

Lemma teardown_grows q c :
  grows [] c (teardown q c).1 /\ wc_phase (teardown q c).1 = wc_phase c /\
  (wc_isSubscribed (teardown q c).1 = true -> wc_isSubscribed c = true).
Proof.
  induction q as [| [n f] q IH]; cbn [teardown].
  - cbn. split_and!; [| done | done]. by eapply grows_objects; [apply grows_refl | |].
  - destruct (match n with None => true | Some n => _ end); [| done].
    destruct (fieldObject f c) as [[a o] |] eqn:Ef; [| by split_and!; [apply grows_refl | |]].
    apply fieldObject_lookup in Ef as [_ Ho]. split_and!; [| done | done].
    apply (grows_object c a o); [done |]. by rewrite objUnsubscribe_data.
Qed.
Lemma start_present spk opts c : present c -> present (wchSubscribeStart spk opts c).
Proof.
  intros Hp. unfold wchSubscribeStart.
  destruct (wc_isSubscribed c); [done |]. destruct (wc_isSubscribing c); [done |].
  destruct Hp as [Hv _ _ _ _].
  pose proof (grows_construct c "stateAccountSubscriber" "state" spk) as Hg.
  split; cbn -[insert]; [| by rewrite lookup_insert_eq | by intros f ?%not_elem_of_nil | done | done].
  intros f a Hf. rewrite length_insert. by apply (grw_valid _ _ _ Hg Hv f a).
Qed.

Lemma markets_present a opts c : wc_isSubscribed c = false ->
  (forall f b, wc_fields c !! f = Some b -> (b < length (wc_objects c))%nat) ->
  wc_fields c !! "stateAccountSubscriber" = Some a ->
  present (wchSubscribeMarkets a opts c).
Proof.
  intros E Hv Hf. unfold wchSubscribeMarkets.
  destruct (wc_objects c !! a) as [o |] eqn:Ha; cbn [mbind option_bind]; [| by apply present_rejected].
  destruct (objData o) as [d |] eqn:Hd; [| by apply present_rejected].
  set (pk := st_markets (as_state d)).
  pose proof (grows_construct c "marketsAccountSubscriber" "markets" pk) as Hg.
  set (c1 := (construct "marketsAccountSubscriber" "markets" pk c).1) in *.
  assert (Hlt : (a < length (wc_objects c))%nat) by (by eapply lookup_lt_Some).
  assert (Hst : has_data c1 "stateAccountSubscriber").
  { apply (has_data_grows _ _ _ _ Hg); [by apply (bool_decide_unpack _) |].
    exists a, o. rewrite Hd. by eauto. }
  cbn -[insert]. split; cbn -[insert].
  - intros f b Hfb. rewrite length_insert. by apply (grw_valid _ _ _ Hg Hv f b).
  - done.
  - intros f [-> | ->%list_elem_of_singleton]%elem_of_cons; [| by rewrite lookup_insert_eq].
    rewrite lookup_insert_ne by done. by rewrite Hf.
  - intros _. destruct Hst as (b & o1 & H1 & H2 & H3). exists b, o1. cbn -[insert].
    split_and!; [done | | done]. rewrite list_lookup_insert_ne; [done |]. intros <-.
    cbn -[insert] in H1. rewrite lookup_insert_ne, Hf in H1 by done. injection H1 as ->. lia.
  - by rewrite E.
Qed.

Lemma optional_present me opts s c : wc_isSubscribed c = false ->
  (forall f b, wc_fields c !! f = Some b -> (b < length (wc_objects c))%nat) ->
  is_Some (wc_fields c !! "marketsAccountSubscriber") -> has_data c "stateAccountSubscriber" ->
  present (wchSubscribeOptional me opts s c).
Proof.
  intros E Hv Hm Hd. unfold wchSubscribeOptional.
  destruct (constructOptional_grows opts (wsOptionalAccounts s) c) as [Hg Hst].
  destruct (constructOptional opts (wsOptionalAccounts s) c) as [c1 extra]. cbn [fst] in Hg, Hst.
  change (foldl _ (set_optional c1 (default [] opts)) extra)
    with (startExtra (set_optional c1 (default [] opts)) extra).
  destruct (startExtra_grows (set_optional c1 (default [] opts)) extra) as [Hg2 Hst2].
  set (c2 := startExtra _ extra) in *. clearbody c2.
  assert (E2 : wc_isSubscribed c2 = false) by (destruct Hst, Hst2; cbn in *; congruence).
  assert (Hg3 : grows (optionalFields (wsOptionalAccounts s) ++ []) c c2).
  { eapply grows_trans; [| exact Hg2]. by eapply grows_objects. }
  rewrite app_nil_r in Hg3. clear Hg Hg2.
  assert (Hv2 := grw_valid _ _ _ Hg3 Hv).
  assert (Hd2 : has_data c2 "stateAccountSubscriber").
  { apply (has_data_grows _ _ _ _ Hg3); [by apply (bool_decide_unpack _) | done]. }
  assert (Hf2 : forall f, f ∈ (snd <$> teardownOrder) -> is_Some (wc_fields c2 !! f)).
  { intros f Hf. destruct (decide (f ∈ optionalFields (wsOptionalAccounts s))) as [Hin | Hn].
    - by apply (grw_domain _ _ _ Hg3).
    - rewrite (grw_fields _ _ _ Hg3) by done. cbn in Hf, Hn.
      assert (f = "stateAccountSubscriber" \/ f = "marketsAccountSubscriber") as [-> | ->] by set_solver.
      + destruct Hd as (a & _ & -> & _). done.
      + done. }
  destruct extra as [| x extra]; [by apply present_end |].
  split; cbn; [done | done | done | done | by rewrite E2].
Qed.

Lemma fetched_present me a r l c c' :
  present c -> wchFetched me a r l c = Some c' -> present c'.
Proof.
  intros Hp H. unfold wchFetched in H.
  destruct (wc_objects c !! a) as [o |] eqn:Ha; cbn in H; [| done].
  destruct (objFetched me r l o) as [[o' res] |] eqn:Hf; cbn in H; [| done]. injection H as <-.
  pose proof (objFetched_data me r l o o' res Hf) as Hd.
  assert (Hp1 : present (set_object c a o')).
  { apply (present_grows c); [by apply (grows_object c a o) | done | done | done]. }
  pose proof Hp1 as [Hv Hs Hn Hdat Hph0]. unfold resume.
  set (c1 := set_object c a o') in *.
  unfold needed in Hn, Hdat.
  destruct (wc_phase c1) as [| b opts | b opts s | w | e] eqn:Hph;
    [done | | | | done];
    assert (E : wc_isSubscribed c1 = false) by (destruct (wc_isSubscribed c1); [by discriminate Hph0 | done]).
  - case_decide as Eb; [subst b | done].
    destruct res; [by apply markets_present | by apply present_rejected].
  - case_decide as Eb; [subst b | done]. destruct res; [| by apply present_rejected].
    apply optional_present; [done | done | by apply Hn; right; left | by apply Hdat].
  - case_decide as Eb; [| done]. destruct res; [| by apply present_rejected].
    destruct (filter (fun x => x <> a) w); [by apply present_end; auto |].
    split; [done | done | done | done |].
    intros Hx. change (wc_isSubscribed c1 = true) in Hx. congruence.
Qed.

Lemma step_present me spk c act c' : present c -> wchStep me spk c act = Some c' -> present c'.
Proof.
  intros Hp. destruct act as [opts | a r l | a l r | | a r | | i];
    cbn [wchStep mbind option_bind].
  - intros [= <-]. by apply start_present.
  - by apply fetched_present.
  - destruct (wc_objects c !! a) as [o |] eqn:Ha; cbn [mbind option_bind]; [| done].
    destruct (objNotify me l r o) as [o' |] eqn:Ho; cbn [mbind option_bind]; [| done]. intros [= <-].
    apply (present_grows c); [| done | done | done].
    by apply (grows_object c a o); [| eapply objNotify_data].
  - intros [= <-]. destruct (wchFetch_grows c) as [Hg [E1 _ _ E4 _]].
    apply (present_grows c); [done | done | by rewrite E1 | done].
  - destruct (wc_objects c !! a) as [o |] eqn:Ha; cbn [mbind option_bind]; [| done].
    destruct (objFetchAnswered me r o) as [o' |] eqn:Ho; cbn [mbind option_bind]; [| done]. intros [= <-].
    apply (present_grows c); [| done | done | done].
    by apply (grows_object c a o); [| eapply objFetchAnswered_data].
  - intros [= <-]. unfold wchUnsubscribe. destruct (wc_isSubscribed c); [| done].
    destruct (teardown_grows teardownOrder c) as (H1 & H2 & H3).
    destruct (teardown teardownOrder c) as [c1 rest]. cbn in *.
    by apply (present_grows c); [eapply grows_objects; [exact H1 | |] | | |].
  - unfold wchContinue. destruct (wc_teardowns c !! i) as [q |]; cbn [mbind option_bind]; [| done].
    destruct (teardown_grows q c) as (H1 & H2 & H3).
    destruct (teardown q c) as [c1 rest]. cbn in *. intros [= <-].
    by apply (present_grows c); [eapply grows_objects; [exact H1 | |] | | |].
Qed.

Lemma run_present me spk acts c c' :
  present c -> wchRun me spk acts c = Some c' -> present c'.
Proof.
  revert c. induction acts as [| act acts IH]; intros c Hp; cbn; [by intros [= <-] |].
  destruct (wchStep me spk c act) as [c1 |] eqn:E; cbn; [| done]. eauto using step_present.
Qed.

Lemma new_present : present (newWsCh (Account := Account)).
Proof. by split; [| | intros f ?%not_elem_of_nil | |]. Qed.
End Present.

(** ** After an exception *)
Section Wedged.
Context {Account : Type} {P : Program Account} {V : AccountViews Account}.
#[local] Abbreviation Ch := (WsClearingHouse Account).
Implicit Types (c : Ch).

(** The names under which optional accounts can be included. *)
Definition optionalNames : list string := omap fst teardownOrder.

Definition wedged c : Prop :=
  wc_isSubscribed c = false /\ wc_isSubscribing c = true /\ rejected c.

Lemma wedged_teardown q c : wedged c -> wedged (teardown q c).1.
Proof.
  intros Hw. induction q as [| [n f] q IH]; cbn [teardown];
    [by destruct Hw as (_ & ? & ?) |].
  destruct (match n with None => true | Some n => _ end); [| done].
  by destruct (fieldObject f c) as [[a o] |].
Qed.

Lemma step_wedged me spk c act c' : wedged c -> wchStep me spk c act = Some c' -> wedged c'.
Proof.
  intros Hw. pose proof Hw as (E1 & E2 & Hr). unfold rejected in Hr.
  destruct act as [opts | a r l | a l r | | a r | | i]; cbn [wchStep mbind option_bind].
  - intros [= <-]. unfold wchSubscribeStart. by rewrite E1, E2.
  - unfold wchFetched. destruct (wc_objects c !! a); cbn [mbind option_bind]; [| done].
    destruct (objFetched me r l _) as [[o' res] |]; cbn [mbind option_bind]; [| done].
    intros [= <-]. unfold resume. change (wc_phase (set_object c a o')) with (wc_phase c).
    by destruct (wc_phase c).
  - destruct (wc_objects c !! a); cbn [mbind option_bind]; [| done].
    destruct (objNotify me l r _); cbn [mbind option_bind]; [| done]. by intros [= <-].
  - intros [= <-]. unfold wchFetch. by rewrite E1.
  - destruct (wc_objects c !! a); cbn [mbind option_bind]; [| done].
    destruct (objFetchAnswered me r _); cbn [mbind option_bind]; [| done]. by intros [= <-].
  - intros [= <-]. unfold wchUnsubscribe. by rewrite E1.
  - unfold wchContinue. destruct (wc_teardowns c !! i) as [q |]; cbn [mbind option_bind]; [| done].
    pose proof (wedged_teardown q c Hw) as Hw'. destruct (teardown q c). by intros [= <-].
Qed.

Lemma run_wedged me spk acts c c' : wedged c -> wchRun me spk acts c = Some c' -> wedged c'.
Proof.
  revert c. induction acts as [| act acts IH]; intros c Hw; cbn; [by intros [= <-] |].
  destruct (wchStep me spk c act) as [c1 |] eqn:E; cbn; [| done]. eauto using step_wedged.
Qed.

Lemma objFetched_no_data me r l (o o' : WsObject Account) res :
  objFetched me r l o = Some (o', res) -> objData o = None ->
  match r with Ok (_, Some _) => False | _ => True end -> objData o' = None.
Proof.
  unfold objFetched, objData, subscribeFetched. destruct (sys_pending (wo_sys o)); [done |].
  intros H Hd Hr.
  assert (Hd' : ws_data (sys_ws (@wsFetch _ _ (objCoder me (wo_name o)) r (wo_sys o)).1) = None).
  { destruct r as [[slot [b |]] |]; [done | | done]. cbn [wsFetch]. rewrite handle_accepts.
    by destruct (accepts _ _ _). }
  destruct (wsFetch r (wo_sys o)) as [s1 [|]]; injection H as <- <-; exact Hd'.
Qed.

(** The state a first [subscribe] call leaves. *)
Definition awaiting_state (spk : PublicKey) opts c : Ch :=
  mkWsCh (wc_objects c ++ [objSubscribe "stateAccountUpdate" (newObject "state" spk)])%list
    (<["stateAccountSubscriber" := length (wc_objects c)]> (wc_fields c)) false true
    (wc_optionalExtraSubscriptions c) (AwaitState (length (wc_objects c)) opts) (wc_teardowns c).

Lemma start_fresh spk opts c : wc_isSubscribed c = false -> wc_isSubscribing c = false ->
  wchSubscribeStart spk opts c = awaiting_state spk opts c.
Proof.
  intros E1 E2. unfold wchSubscribeStart, awaiting_state. rewrite E1, E2.
  unfold construct, set_object, set_phase, set_flags. cbn -[insert].
  by rewrite insert_app_r_alt, Nat.sub_diag by done.
Qed.

Lemma state_failure me opts r l spk c c' :
  match r with Throw _ => True | Ok (_, b) => b = None end ->
  wchFetched me (length (wc_objects c)) r l (awaiting_state spk opts c) = Some c' -> wedged c'.
Proof.
  intros Hr H. unfold wchFetched in H. cbn [awaiting_state wc_objects] in H.
  rewrite list_lookup_middle in H by done. cbn [mbind option_bind] in H.
  destruct (objFetched me r l _) as [[o' res] |] eqn:Hf in H; cbn [mbind option_bind] in H; [| done].
  injection H as <-. unfold resume. cbn [set_object awaiting_state wc_phase].
  rewrite decide_True by done. destruct res as [u | e]; [| by split].
  unfold wchSubscribeMarkets. cbn [set_object wc_objects].
  rewrite list_lookup_insert_eq by (cbn; rewrite length_app; cbn; lia). cbn [mbind option_bind].
  rewrite (objFetched_no_data me r l _ o' (Ok u) Hf); [by split | done |].
  destruct r as [[slot b] |]; [by rewrite Hr | done].
Qed.

Lemma fetch_ok c : wc_isSubscribed c = true ->
  (forall f, f ∈ fetchFields c -> exists a o, fieldObject f c = Some (a, o)) ->
  (wchFetch c).2 = Ok tt.
Proof.
  intros E Hf. unfold wchFetch. rewrite E. clear E. revert Hf. generalize (fetchFields c). intros l.
  revert c. induction l as [| f l IH]; intros c Hf; [done |]. cbn.
  destruct (Hf f ltac:(by left)) as (a & o & Ho). rewrite Ho.
  apply IH. intros g Hg. destruct (Hf g ltac:(by right)) as (b & o1 & Hb).
  apply fieldObject_lookup in Hb as [Hb1 Hb2]. unfold fieldObject. cbn. rewrite Hb1. cbn.
  destruct (decide (a = b)) as [<- | Hne].
  - rewrite list_lookup_insert_eq by (by eapply lookup_lt_Some). by eauto.
  - rewrite list_lookup_insert_ne by done. rewrite Hb2. by eauto.
Qed.
End Wedged.
