(* ===== verification/WsClearingHouseSpec.v ===== *)
(** * What the websocket subscriber of the clearing house guarantees

    Which listeners the connection serves at any time, what the getters give
    after a subscription, that a subscription whose fetches succeed ends, and
    what becomes of one that fails. *)
From S2P Require Import Prelude BN Types Slots WebSocket Polling WsClearingHouse.
From S2P Require Import WsListeners WsFields.

#[local] Open Scope string_scope.

(** ** A subscription whose fetches are answered *)
Section Completes.
Context {Account : Type} {P : Program Account} {V : AccountViews Account}.
#[local] Abbreviation Ch := (WsClearingHouse Account).
Implicit Types (c : Ch).

(** The kinds of accounts the subscriber decodes. *)
Definition accountNames : list string :=
  ["state"; "markets"; "tradeHistory"; "depositHistory"; "fundingPaymentHistory";
   "fundingRateHistory"; "liquidationHistory"; "extendedCurveHistory"].

Context (me : nat).
Hypothesis decodable : forall name b, name ∈ accountNames ->
  exists d : Account, decodeAccount name (Some b) = Ok d.
Hypothesis quiet : forall event, emit_run me event = None.

Lemma fresh_fetched (r : WsResponse) l event name pk : name ∈ accountNames ->
  exists o', objFetched me (Ok r) l (objSubscribe event (newObject (Account := Account) name pk)) =
    Some (o', Ok tt) /\
    forall b, r.2 = Some b -> exists d, decodeAccount name (Some b) = Ok d /\ objData o' = Some d.
Proof.
  intros Hn. destruct r as [slot [b |]].
  - destruct (decodable name b Hn) as [d Hd]. eexists. split.
    + unfold objFetched, subscribeFetched. cbn -[decodeAccount]. unfold deliver.
      cbn -[decodeAccount]. rewrite Hd. cbn. rewrite !quiet. done.
    + intros b' [= <-]. by exists d.
  - eexists. split; [done |]. discriminate.
Qed.

(** The waiting objects are fresh: nothing reaches them before their answer. *)
Definition fresh c (a : nat) : Prop :=
  exists event name pk, name ∈ accountNames /\
    wc_objects c !! a = Some (objSubscribe event (newObject name pk)).

Lemma startExtra_fresh l opts c extra :
  (forall x, x ∈ l -> x.2.1.1.2 ∈ accountNames) ->
  (forall a, a ∈ (fst <$> extra) -> extraOf l opts c a) -> NoDup (fst <$> extra) ->
  forall a, a ∈ (fst <$> extra) \/ fresh c a -> fresh (startExtra c extra) a.
Proof.
  intros Hl. revert c. induction extra as [| [a ev] extra IH]; intros c Hex Hnd b Hb.
  - destruct Hb as [?%not_elem_of_nil | ?]; done.
  - cbn in Hex, Hnd. apply NoDup_cons in Hnd as [Hnin Hnd].
    destruct (Hex a ltac:(by left)) as (n & f & an & pk & e' & Hin & Hinc & Hf & Ho).
    cbn. rewrite Ho. apply IH; [| done |].
    + intros x Hx. destruct (Hex x ltac:(by right)) as (n1 & f1 & an1 & pk1 & e1 & H1 & H2 & H3 & H4).
      exists n1, f1, an1, pk1, e1. split_and!; [done | done | done |]. cbn.
      rewrite list_lookup_insert_ne; [done |]. by intros ->.
    + destruct (decide (b = a)) as [-> | Hne].
      * right. exists ev, an, pk. split; [by apply (Hl _ Hin) |]. cbn.
        by rewrite list_lookup_insert_eq by (by eapply lookup_lt_Some).
      * destruct Hb as [[? | ?]%elem_of_cons | (e1 & n1 & p1 & ? & ?)]; [done | by left |].
        right. exists e1, n1, p1. split; [done |]. cbn. by rewrite list_lookup_insert_ne by done.
Qed.

(** The answers of the waiting objects, in any order. *)
Definition answers (order : list nat) (rs : list (WsResponse * nat)) : list ChAction :=
  zip_with (fun a r => CFetched a (Ok r.1) r.2) order rs.

Lemma optional_answered spk order : forall rs c w,
  wc_phase c = AwaitOptional w -> order ≡ₚ w -> w <> [] -> NoDup w ->
  (forall a, a ∈ w -> fresh c a) -> length rs = length order ->
  exists c', wchRun me spk (answers order rs) c = Some c' /\ wc_isSubscribed c' = true /\
    wc_optionalExtraSubscriptions c' = wc_optionalExtraSubscriptions c.
Proof.
  induction order as [| a order IH]; intros rs c w Hph Hperm Hne Hnd Hfresh Hlen.
  { apply Permutation_nil_l in Hperm. done. }
  destruct rs as [| [r l] rs]; [done |].
  assert (Ha : a ∈ w) by (rewrite <- Hperm; by left).
  destruct (Hfresh a Ha) as (ev & an & pk & Han & Ho).
  destruct (fresh_fetched r l ev an pk Han) as (o' & Hf & _).
  cbn [answers zip_with wchRun wchStep fst snd]. unfold wchFetched.
  rewrite Ho. cbn [mbind option_bind]. rewrite Hf. cbn [mbind option_bind].
  set (c1 := set_object c a o'). unfold resume. change (wc_phase c1) with (wc_phase c).
  rewrite Hph, decide_True by done.
  assert (Hperm' : order ≡ₚ filter (fun x => x <> a) w).
  { rewrite <- Hperm, filter_cons_False by tauto. rewrite <- Hperm in Hnd.
    apply NoDup_cons in Hnd as [Hn _]. clear -Hn.
    induction order as [| x order IH]; [done |]. apply not_elem_of_cons in Hn as [? ?].
    rewrite filter_cons_True by congruence. constructor. by apply IH. }
  destruct (filter (fun x => x <> a) w) as [| y w'] eqn:Ew.
  - apply Permutation_nil_r in Hperm' as ->.
    destruct rs; [| done]. cbn. unfold wchSubscribeEnd. rewrite quiet. eexists. by split_and!.
  - destruct (IH rs (set_phase c1 (AwaitOptional (y :: w'))) (y :: w')) as (c' & H1 & H2 & H3);
      [done | done | done | | | by injection Hlen | by exists c'].
    + rewrite <- Ew. by apply NoDup_filter.
    + intros x Hx. rewrite <- Ew in Hx. apply list_elem_of_filter in Hx as [Hxa Hx].
      destruct (Hfresh x Hx) as (e1 & n1 & p1 & ? & ?). exists e1, n1, p1. split; [done |].
      cbn. by rewrite list_lookup_insert_ne by congruence.
Qed.

Lemma state_answered spk opts c (r : WsResponse) b l : r.2 = Some b ->
  exists s c1,
    wchFetched me (length (wc_objects c)) (Ok r) l (awaiting_state spk opts c) = Some c1 /\
    wc_phase c1 = AwaitMarkets (Datatypes.S (length (wc_objects c))) opts s /\
    (exists pk event, wc_objects c1 !! Datatypes.S (length (wc_objects c)) =
       Some (objSubscribe event (newObject "markets" pk))) /\
    length (wc_objects c1) = Datatypes.S (Datatypes.S (length (wc_objects c))) /\
    wc_isSubscribed c1 = false.
Proof.
  intros Hr. unfold wchFetched. cbn [awaiting_state wc_objects]. rewrite list_lookup_middle by done.
  cbn [mbind option_bind].
  destruct (fresh_fetched r l "stateAccountUpdate" "state" spk) as (o' & Hf & Hdata);
    [by apply (bool_decide_unpack _) |].
  destruct (Hdata b Hr) as (d & _ & Hd'). rewrite Hf. cbn [mbind option_bind]. unfold resume.
  cbn [set_object awaiting_state wc_phase]. rewrite decide_True by done.
  unfold wchSubscribeMarkets. cbn [set_object wc_objects].
  rewrite list_lookup_insert_eq by (cbn; rewrite length_app; cbn; lia).
  cbn [mbind option_bind]. rewrite Hd'.
  assert (Hlen : length (<[length (wc_objects c) := o']> (wc_objects (awaiting_state spk opts c))) =
    Datatypes.S (length (wc_objects c))).
  { rewrite length_insert. cbn. rewrite length_app. cbn. lia. }
  do 2 eexists. split; [reflexivity |].
  cbn [construct set_object set_phase wc_phase wc_objects wc_isSubscribed fst snd].
  rewrite Hlen. split_and!; [done | | |  done].
  - do 2 eexists. rewrite list_lookup_insert_eq; [done |]. rewrite length_app, Hlen. cbn. lia.
  - rewrite length_insert, length_app, Hlen. cbn. lia.
Qed.

Lemma markets_answered opts s c m r l :
  wc_phase c = AwaitMarkets m opts s ->
  (exists pk event, wc_objects c !! m = Some (objSubscribe event (newObject "markets" pk))) ->
  exists c2, wchFetched me m (Ok r) l c = Some c2 /\
    forall spk order rs, order ≡ₚ awaited c2 -> length rs = length order ->
      exists c', wchRun me spk (answers order rs) c2 = Some c' /\ wc_isSubscribed c' = true /\
        wc_optionalExtraSubscriptions c' = default [] opts.
Proof.
  intros Hph (pk & event & Hm). unfold wchFetched. rewrite Hm. cbn [mbind option_bind].
  destruct (fresh_fetched r l event "markets" pk) as (o' & Hf & _);
    [by apply (bool_decide_unpack _) |].
  rewrite Hf. cbn [mbind option_bind]. unfold resume.
  change (wc_phase (set_object c m o')) with (wc_phase c). rewrite Hph, decide_True by done.
  eexists. split; [done |]. intros spk order rs Hperm Hlen.
  generalize (set_object c m o') as c1, Hperm. clear c Hph Hm Hf Hperm. intros c.
  unfold wchSubscribeOptional.
  destruct (constructOptional_extra opts (wsOptionalAccounts s) c) as (_ & _ & Hex & Hnd);
    [by apply (bool_decide_unpack _) |].
  destruct (constructOptional opts (wsOptionalAccounts s) c) as [c1 extra]. cbn [fst snd] in *.
  change (foldl _ (set_optional c1 (default [] opts)) extra)
    with (startExtra (set_optional c1 (default [] opts)) extra).
  destruct (startExtra_grows (set_optional c1 (default [] opts)) extra) as [_ [_ _ E3 _ _]].
  pose proof (startExtra_fresh (wsOptionalAccounts s) opts (set_optional c1 (default [] opts)) extra)
    as Hfr.
  set (c2 := startExtra _ extra) in *. cbn [set_optional wc_optionalExtraSubscriptions] in E3.
  assert (Hw : forall a, a ∈ (fst <$> extra) -> fresh c2 a).
  { intros a Ha. apply Hfr; [| by intros y Hy; apply (Hex y Hy) | done | by left]. intros x Hx.
    unfold wsOptionalAccounts in Hx.
    repeat (apply elem_of_cons in Hx as [-> | Hx]; [by apply (bool_decide_unpack _) |]).
    by apply not_elem_of_nil in Hx. }
  clearbody c2. clear Hfr Hex. destruct extra as [| x extra].
  - unfold wchSubscribeEnd. rewrite quiet. intros Hperm.
    cbn in Hperm. apply Permutation_nil_r in Hperm as ->. destruct rs; [| done].
    eexists. by split_and!.
  - intros Hperm. rewrite <- E3.
    by apply (optional_answered spk order rs (set_phase c2 (AwaitOptional (fst <$> x :: extra)))
      (fst <$> x :: extra)).
Qed.
End Completes.

(** ** A subscriber whose [subscribe] has thrown *)
Section Stuck.
Context {Account : Type} {P : Program Account} {V : AccountViews Account}.
#[local] Abbreviation Ch := (WsClearingHouse Account).
Implicit Types (c : Ch).

(** Every object of [c] is still there and the connection serves it at least the
    listeners it did. *)
Definition keeps_listeners c c' : Prop := forall a o, wc_objects c !! a = Some o ->
  exists o', wc_objects c' !! a = Some o' /\ sys_listeners (wo_sys o) ⊆ sys_listeners (wo_sys o').

#[export] Instance keeps_listeners_preorder : PreOrder keeps_listeners.
Proof.
  split; [by intros c a o Ha; exists o |]. intros c1 c2 c3 H12 H23 a o Ha.
  destruct (H12 a o Ha) as (o' & Ha' & Hl). destruct (H23 a o' Ha') as (o'' & Ha'' & Hl').
  exists o''. split; [done | by etrans].
Qed.

Lemma keeps_set_object c a o o' : wc_objects c !! a = Some o ->
  sys_listeners (wo_sys o) ⊆ sys_listeners (wo_sys o') -> keeps_listeners c (set_object c a o').
Proof.
  intros Ha Hl b ob Hb. cbn. destruct (decide (a = b)) as [<- | Hne].
  - exists o'. rewrite list_lookup_insert_eq by (by eapply lookup_lt_Some).
    by assert (ob = o) as -> by congruence.
  - exists ob. by rewrite list_lookup_insert_ne.
Qed.

Lemma objFetched_listeners me r l (o o' : WsObject Account) res :
  objFetched me r l o = Some (o', res) -> sys_listeners (wo_sys o) ⊆ sys_listeners (wo_sys o').
Proof.
  unfold objFetched, subscribeFetched. destruct (sys_pending (wo_sys o)) as [| n]; cbn; [done |].
  destruct (fetch_frame (C := objCoder me (wo_name o)) r (wo_sys o)) as (_ & _ & _ & Hl).
  destruct (wsFetch r (wo_sys o)) as [s' [|]]; cbn in *; intros [= <- _]; cbn; rewrite Hl; set_solver.
Qed.

(** A step of a subscriber that is wedged and unsubscribes nothing: it stays so. *)
Lemma step_stuck me spk c act c' : wedged c -> wc_teardowns c = [] ->
  wchStep me spk c act = Some c' -> wc_teardowns c' = [] /\ keeps_listeners c c'.
Proof.
  intros (E1 & E2 & Hr) Ht. unfold rejected in Hr.
  destruct act as [opts | a r l | a l r | | a r | | i]; cbn [wchStep mbind option_bind].
  - intros [= <-]. unfold wchSubscribeStart. by rewrite E1, E2.
  - unfold wchFetched. destruct (wc_objects c !! a) as [o |] eqn:Ha; cbn [mbind option_bind]; [| done].
    destruct (objFetched me r l o) as [[o' res] |] eqn:Ho; cbn [mbind option_bind]; [| done].
    intros [= <-]. unfold resume. change (wc_phase (set_object c a o')) with (wc_phase c).
    destruct (wc_phase c); try done. split; [done |].
    by eapply keeps_set_object, objFetched_listeners.
  - destruct (wc_objects c !! a) as [o |] eqn:Ha; cbn [mbind option_bind]; [| done].
    destruct (objNotify me l r o) as [o' |] eqn:Ho; cbn [mbind option_bind]; [| done].
    intros [= <-]. apply objNotify_load in Ho as (_ & _ & Hl). split; [done |].
    eapply keeps_set_object; [done | by rewrite Hl].
  - intros [= <-]. unfold wchFetch. by rewrite E1.
  - destruct (wc_objects c !! a) as [o |] eqn:Ha; cbn [mbind option_bind]; [| done].
    destruct (objFetchAnswered me r o) as [o' |] eqn:Ho; cbn [mbind option_bind]; [| done].
    intros [= <-]. apply objFetchAnswered_load in Ho as (_ & _ & Hl). split; [done |].
    eapply keeps_set_object; [done | by rewrite Hl].
  - intros [= <-]. unfold wchUnsubscribe. by rewrite E1.
  - unfold wchContinue. by rewrite Ht.
Qed.

Lemma run_stuck me spk acts c c' : wedged c -> wc_teardowns c = [] ->
  wchRun me spk acts c = Some c' -> wedged c' /\ keeps_listeners c c'.
Proof.
  revert c. induction acts as [| act acts IH]; intros c Hw Ht; cbn; [by intros [= <-] |].
  destruct (wchStep me spk c act) as [c1 |] eqn:E; cbn; [| done]. intros Hrun.
  destruct (step_stuck me spk c act c1 Hw Ht E) as [Ht1 Hk].
  destruct (IH c1 (step_wedged me spk c act c1 Hw E) Ht1 Hrun) as [Hw' Hk']. split; [done | by etrans].
Qed.

Lemma rejected_wedged c : ch_inv c -> rejected c -> wedged c /\ wc_teardowns c = [].
Proof.
  intros Hi Hr. assert (wc_isSubscribed c = false) as E.
  { destruct (wc_isSubscribed c) eqn:E; [| done]. unfold rejected in Hr. by rewrite (chi_subscribed _ Hi E) in Hr. }
  split; [| by apply no_teardowns]. split_and!; [done | | done].
  rewrite (chi_subscribing _ Hi). unfold rejected in Hr. by destruct (wc_phase c).
Qed.
End Stuck.

(** ** Properties *)
Section WsClearingHouseProperties.
Context {Account : Type} {P : Program Account} {V : AccountViews Account}.
#[local] Abbreviation Ch := (WsClearingHouse Account).
Implicit Types (c : Ch).

(** C15: In any run in which [unsubscribe] does not overlap with itself (calls of
    [subscribe], their answers in any order, failing ones included, fetches and
    notifications may interleave freely): as long as no [subscribe] has thrown, every
    listener the connection serves belongs to the object in the field of the state,
    the markets or an included optional account, at most one each, and once the
    subscriber is not subscribed and no call is under way the connection serves
    none; but after a [subscribe] that threw (a failed fetch, an account that is not
    there, a throwing listener) the subscriber never becomes subscribed and no call of
    [unsubscribe] or [subscribe], nor anything else, takes a listener back. *)
Theorem ch_listeners_accounted me spk acts c :
  ch_serial_run me spk acts newWsCh -> wchRun me spk acts newWsCh = Some c ->
  (~ rejected c ->
     (forall a o, wc_objects c !! a = Some o -> sys_listeners (wo_sys o) <> ∅ ->
        exists f, f ∈ allowed c /\ wc_fields c !! f = Some a /\
          exists id, sys_listeners (wo_sys o) = {[id]} /\ ws_listenerId (sys_ws (wo_sys o)) = Some id) /\
     (wc_isSubscribed c = false -> wc_phase c = NotSubscribing ->
        forall a o, wc_objects c !! a = Some o -> sys_listeners (wo_sys o) = ∅)) /\
  (rejected c -> forall acts' c', wchRun me spk acts' c = Some c' ->
     wc_isSubscribed c' = false /\ rejected c' /\ keeps_listeners c c').
Proof.
  intros Hser Hrun.
  pose proof (serial_run_inv me spk acts _ c Hser new_inv Hrun) as Hi.
  split; [intros Hnr; pose proof (chi_sound _ Hi Hnr) as Hs; split |].
  - intros a o Ha Hl. destruct (snd_busy _ _ _ _ Hs a o Ha (or_intror Hl)) as (f & Hf & Hfa).
    exists f. split_and!; [done | done |]. pose proof (snd_leak _ _ _ _ Hs a o Ha) as Hn.
    unfold no_leak in Hn. destruct (ws_listenerId (sys_ws (wo_sys o))) as [id |]; [| by destruct Hn].
    exists id. by destruct Hn as (_ & ? & _).
  - intros E Hp a o Ha. unfold allowed in Hs. rewrite Hp, E in Hs. by eapply sound_idle.
  - intros Hr acts' c' Hrun'. destruct (rejected_wedged c Hi Hr) as [Hw Ht].
    by destruct (run_stuck me spk acts' c c' Hw Ht Hrun') as [(? & _ & ?) ?].
Qed.

(** What the getters do after any run, overlapping and failing calls
    included. Before a subscription each refuses with [NotSubscribedError]; after
    one, the state is there and decoded, the markets' and the included optional
    accounts' getters return what their subscriber has without throwing, the
    others refuse naming the account, and [fetch] reaches every included
    subscriber. *)
Theorem ch_getters me spk acts c :
  wchRun me spk acts newWsCh = Some c ->
  match wc_isSubscribed c with
  | false =>
      wsGetStateAccount c = Throw NOT_SUBSCRIBED /\ wsGetMarketsAccount c = Throw NOT_SUBSCRIBED /\
      (forall name, wsGetOptional name c = Throw NOT_SUBSCRIBED)
  | true =>
      (exists s, wsGetStateAccount c = Ok (Some s)) /\
      (exists m, wsGetMarketsAccount c = Ok m) /\
      (forall name, name ∈ optionalNames ->
         if decide (name ∈ wc_optionalExtraSubscriptions c)
         then exists d, wsGetOptional name c = Ok d
         else wsGetOptional name c = Throw (NotSubscribedError (optionalMessage name))) /\
      (wc_optionalExtraSubscriptions c ⊆ optionalNames -> (wchFetch c).2 = Ok tt)
  end.
Proof.
  intros Hrun. pose proof (run_present me spk acts _ c new_present Hrun) as Hp.
  unfold wsGetStateAccount, wsGetMarketsAccount, wsGetOptional, assertSubscribed,
    assertOptionalSubscribed.
  destruct (wc_isSubscribed c) eqn:E; [| done].
  pose proof (prs_phase _ Hp E) as Hph.
  assert (Hn : needed c = snd <$> teardownOrder) by (unfold needed; by rewrite Hph, E).
  assert (Hf : forall f, f ∈ (snd <$> teardownOrder) ->
    exists a o, fieldObject f c = Some (a, o)).
  { intros f Hin. rewrite <- Hn in Hin. destruct (prs_fields _ Hp f Hin) as [a Ha].
    destruct (lookup_lt_is_Some_2 (wc_objects c) a (prs_valid _ Hp f a Ha)) as [o Ho].
    exists a, o. unfold fieldObject. by rewrite Ha; cbn; rewrite Ho. }
  assert (Hg : forall f, f ∈ (snd <$> teardownOrder) -> exists d, fieldData f c = Ok d).
  { intros f Hin. destruct (Hf f Hin) as (a & o & Ho). unfold fieldData. rewrite Ho. cbn. eauto. }
  assert (Hopt : forall name, name ∈ optionalNames ->
    String.append name "Subscriber" ∈ (snd <$> teardownOrder)).
  { intros name Hin. unfold optionalNames in Hin.
    repeat (apply elem_of_cons in Hin as [-> | Hin]; [by apply (bool_decide_unpack _) |]).
    by apply not_elem_of_nil in Hin. }
  split_and!.
  - destruct (prs_data _ Hp) as (a & o & Ha & Ho & [d Hd]); [by rewrite Hn |]. exists d.
    unfold fieldData, fieldObject. rewrite Ha. cbn. rewrite Ho. cbn. by rewrite Hd.
  - apply Hg. by apply (bool_decide_unpack _).
  - intros name Hin. destruct (decide (name ∈ wc_optionalExtraSubscriptions c)) as [Hi | Hi].
    + rewrite bool_decide_true by done. by apply Hg, Hopt.
    + by rewrite bool_decide_false.
  - intros Hsub. apply fetch_ok; [done |]. intros f Hin. unfold fetchFields in Hin.
    apply elem_of_app in Hin as [Hin | Hin].
    + apply list_elem_of_fmap in Hin as (name & -> & Hin). by apply Hf, Hopt, Hsub.
    + apply Hf. cbn in *. set_solver.
Qed.

(** A [subscribe] whose state account cannot be fetched, or does not exist,
    throws with the subscriber half way: from then on nothing helps, whatever
    calls, answers and notifications follow, it never becomes subscribed. *)
Theorem ch_failed_subscribe_is_permanent me spk opts listener acts c c' r :
  wc_isSubscribed c = false -> wc_isSubscribing c = false ->
  match r with Throw _ => True | Ok (_, b) => b = None end ->
  wchRun me spk (CSubscribe opts :: CFetched (length (wc_objects c)) r listener :: acts) c = Some c' ->
  wc_isSubscribed c' = false /\ rejected c'.
Proof.
  intros E1 E2 Hr Hrun. cbn [wchRun wchStep mbind option_bind] in Hrun.
  set (c1 := wchSubscribeStart spk opts c) in *.
  destruct (wchFetched me (length (wc_objects c)) r listener c1) as [c2 |] eqn:Hf;
    cbn [mbind option_bind] in Hrun; [| done].
  assert (H2 : wedged c2).
  { unfold c1 in Hf. rewrite (start_fresh spk opts c E1 E2) in Hf.
    by apply (state_failure me opts r listener spk c c2 Hr) in Hf. }
  destruct (run_wedged me spk acts c2 c' H2 Hrun) as (? & _ & ?). done.
Qed.

(** With a coder that decodes and an emitter whose listeners do not throw, a
    subscription ends: once the state's first fetch is answered with an account,
    the markets' is answered, and those of the included optional accounts are
    answered in any order, the subscriber is subscribed with the accounts asked
    for. *)
Theorem ch_subscribe_completes me spk opts c (r1 r2 : WsResponse) l1 l2 :
  (forall name b, name ∈ accountNames -> exists d : Account, decodeAccount name (Some b) = Ok d) ->
  (forall event, emit_run me event = None) ->
  wc_isSubscribed c = false -> wc_isSubscribing c = false -> is_Some r1.2 ->
  let a := length (wc_objects c) in
  exists c1,
    wchRun me spk [CSubscribe opts; CFetched a (Ok r1) l1;
                   CFetched (Datatypes.S a) (Ok r2) l2] c = Some c1 /\
    forall order rs, order ≡ₚ awaited c1 -> length rs = length order ->
      exists c', wchRun me spk (answers order rs) c1 = Some c' /\ wc_isSubscribed c' = true /\
        wc_optionalExtraSubscriptions c' = default [] opts.
Proof.
  intros Hd Hq E1 E2 [b Hb]. cbv zeta. cbn [wchRun wchStep mbind option_bind]. rewrite start_fresh by done.
  destruct (state_answered me Hd Hq spk opts c r1 b l1 Hb) as (s & c1 & -> & Hph & Hm & Hl & Hs).
  cbn [mbind option_bind].
  destruct (markets_answered me Hd Hq opts s c1 (Datatypes.S (length (wc_objects c))) r2 l2 Hph Hm) as (c2 & -> & H2).
  cbn [mbind option_bind]. eexists. split; [done |]. exact (H2 spk).
Qed.
End WsClearingHouseProperties.
