(* ===== verification/WsUser.v ===== *)
(** * The websocket subscriber of a user (accounts/webSocketUserAccountSubscriber.ts)

    Two websocket account subscribers, the user's account and its positions, the
    second one found through the first.  Unlike the clearing house's, this
    [subscribe] keeps no record that it is under way: calls that overlap each
    create their own objects.  The objects live in a heap and a step is one turn
    of the event loop, as in WsClearingHouse.v. *)
From S2P Require Import Prelude BN Types Slots WebSocket Polling WsClearingHouse.

#[local] Open Scope string_scope.

(** Where a [subscribe] call waits. *)
Inductive UserCallPhase :=
  | AwaitUser (a : nat)
  | AwaitPositions (a : nat).

Record WsUser (Account : Type) := mkWsUser {
  wu_objects : list (WsObject Account);
  wu_userDataAccountSubscriber : option nat;
  wu_userPositionsAccountSubscriber : option nat;
  wu_isSubscribed : bool;
  wu_calls : list UserCallPhase;   (** the [subscribe] calls under way *)
  wu_teardowns : nat               (** the [unsubscribe] calls under way *)
}.
Arguments mkWsUser {Account}.
Arguments wu_objects {Account}.
Arguments wu_userDataAccountSubscriber {Account}.
Arguments wu_userPositionsAccountSubscriber {Account}.
Arguments wu_isSubscribed {Account}.
Arguments wu_calls {Account}.
Arguments wu_teardowns {Account}.

Inductive UserAction :=
  | USubscribe
  | UFetched (a : nat) (r : result WsResponse) (listener : nat)
  | UNotify (a listener : nat) (r : WsResponse)
  | UFetch
  | UFetchAnswered (a : nat) (r : result WsResponse)
  | UUnsubscribe
  | UUnsubscribed.

#[export] Instance UserCallPhase_eq_dec : EqDecision UserCallPhase.
Proof. solve_decision. Defined.

Section User.
Context {Account : Type} {P : Program Account} {V : AccountViews Account}.
#[local] Abbreviation User := (WsUser Account).
Implicit Types (u : User) (o : WsObject Account).

(** The constructor. *)
Definition newWsUser : User := mkWsUser [] None None false [] 0.

Definition set_objects u objs : User :=
  mkWsUser objs (wu_userDataAccountSubscriber u) (wu_userPositionsAccountSubscriber u)
    (wu_isSubscribed u) (wu_calls u) (wu_teardowns u).
Definition set_calls u calls : User :=
  mkWsUser (wu_objects u) (wu_userDataAccountSubscriber u) (wu_userPositionsAccountSubscriber u)
    (wu_isSubscribed u) calls (wu_teardowns u).
Definition set_userSubscribed u b : User :=
  mkWsUser (wu_objects u) (wu_userDataAccountSubscriber u) (wu_userPositionsAccountSubscriber u)
    b (wu_calls u) (wu_teardowns u).

(** [subscribe] up to its first await *)
Definition wuSubscribeStart (userPublicKey : PublicKey) u : User :=
  if wu_isSubscribed u then u
  else
    let a := length (wu_objects u) in
    mkWsUser (wu_objects u ++ [objSubscribe "userAccountData" (newObject "user" userPublicKey)])%list
      (Some a) (wu_userPositionsAccountSubscriber u) (wu_isSubscribed u)
      (wu_calls u ++ [AwaitUser a])%list (wu_teardowns u).

(** After the user's first fetch: [this.userDataAccountSubscriber] is read again. *)
Definition wuSubscribePositions u : User :=
  match (a ← wu_userDataAccountSubscriber u; o ← wu_objects u !! a; objData o) with
  | None => u
  | Some account =>
      let a := length (wu_objects u) in
      let positions := ua_positions (as_user account) in
      mkWsUser (wu_objects u ++
                [objSubscribe "userPositionsData" (newObject "userPositions" positions)])%list
        (wu_userDataAccountSubscriber u) (Some a) (wu_isSubscribed u)
        (wu_calls u ++ [AwaitPositions a])%list (wu_teardowns u)
  end.

(** The end of [subscribe]. *)
Definition wuSubscribeEnd (me : nat) u : User :=
  match emit_run me "update" with
  | Some _ => u
  | None => set_userSubscribed u true
  end.

(** An answer to the first fetch of the object at [a]: the call that waits for it
    goes on, or throws. *)
Definition wuFetched (me a : nat) (r : result WsResponse) (listener : nat) u : option User :=
  o ← wu_objects u !! a;
  '(o', res) ← objFetched me r listener o;
  let u1 := set_objects u (<[a := o']> (wu_objects u)) in
  if decide (AwaitUser a ∈ wu_calls u) then
    let u2 := set_calls u1 (filter (fun c => c <> AwaitUser a) (wu_calls u)) in
    Some (match res with Throw _ => u2 | Ok _ => wuSubscribePositions u2 end)
  else if decide (AwaitPositions a ∈ wu_calls u) then
    let u2 := set_calls u1 (filter (fun c => c <> AwaitPositions a) (wu_calls u)) in
    Some (match res with Throw _ => u2 | Ok _ => wuSubscribeEnd me u2 end)
  else None.

(** [this[field]] of a field that may be undefined. *)
Definition userObject (field : option nat) u : option (nat * WsObject Account) :=
  a ← field; o ← wu_objects u !! a; Some (a, o).

(** [fetch]: the first subscriber's [fetch] is called before the second is read. *)
Definition wuFetch u : User * result unit :=
  match userObject (wu_userDataAccountSubscriber u) u with
  | None => (u, Throw TypeError)
  | Some (a, o) =>
      let u1 := set_objects u (<[a := objFetch o]> (wu_objects u)) in
      match userObject (wu_userPositionsAccountSubscriber u1) u1 with
      | None => (u1, Throw TypeError)
      | Some (b, o2) => (set_objects u1 (<[b := objFetch o2]> (wu_objects u1)), Ok tt)
      end
  end.

(** [unsubscribe] up to its await, and after it *)
Definition removeListener (field : option nat) u : User :=
  match userObject field u with
  | None => u
  | Some (a, o) => set_objects u (<[a := objUnsubscribe o]> (wu_objects u))
  end.
Definition wuUnsubscribe u : User :=
  if wu_isSubscribed u then
    let u1 := removeListener (wu_userDataAccountSubscriber u) u in
    let u2 := removeListener (wu_userPositionsAccountSubscriber u1) u1 in
    mkWsUser (wu_objects u2) (wu_userDataAccountSubscriber u2) (wu_userPositionsAccountSubscriber u2)
      (wu_isSubscribed u2) (wu_calls u2) (Datatypes.S (wu_teardowns u2))
  else u.
Definition wuUnsubscribed u : option User :=
  match wu_teardowns u with
  | O => None
  | Datatypes.S n =>
      Some (mkWsUser (wu_objects u) (wu_userDataAccountSubscriber u)
        (wu_userPositionsAccountSubscriber u) false (wu_calls u) n)
  end.

Definition wuStep (me : nat) (userPublicKey : PublicKey) u (act : UserAction) : option User :=
  match act with
  | USubscribe => Some (wuSubscribeStart userPublicKey u)
  | UFetched a r listener => wuFetched me a r listener u
  | UNotify a listener r =>
      o ← wu_objects u !! a; o' ← objNotify me listener r o;
      Some (set_objects u (<[a := o']> (wu_objects u)))
  | UFetch => Some (wuFetch u).1
  | UFetchAnswered a r =>
      o ← wu_objects u !! a; o' ← objFetchAnswered me r o;
      Some (set_objects u (<[a := o']> (wu_objects u)))
  | UUnsubscribe => Some (wuUnsubscribe u)
  | UUnsubscribed => wuUnsubscribed u
  end.

Fixpoint wuRun (me : nat) (userPublicKey : PublicKey) (acts : list UserAction) u : option User :=
  match acts with
  | [] => Some u
  | act :: acts' => u' ← wuStep me userPublicKey u act; wuRun me userPublicKey acts' u'
  end.

(** The getters. *)
Definition wuGet (field : option nat) u : result (option Account) :=
  if wu_isSubscribed u then
    '(_, o) ← deref (userObject field u); Ok (objData o)
  else Throw NOT_SUBSCRIBED.
Definition wuGetUserAccount u := wuGet (wu_userDataAccountSubscriber u) u.
Definition wuGetUserPositionsAccount u := wuGet (wu_userPositionsAccountSubscriber u) u.
End User.

(** ** Facts *)
Section UserFacts.
Context {Account : Type} {P : Program Account} {V : AccountViews Account}.
#[local] Abbreviation User := (WsUser Account).
Implicit Types (u : User) (o : WsObject Account).

Definition listeners (objs : list (WsObject Account)) : list (gset nat) :=
  (fun o => sys_listeners (wo_sys o)) <$> objs.

Context (me : nat).
Hypothesis decodable : forall name b, name ∈ ["user"; "userPositions"] ->
  exists d : Account, decodeAccount name (Some b) = Ok d.
Hypothesis quiet : forall event, emit_run me event = None.

(** A fresh object after its first answer: listening, with the decoded data. *)
Definition settled (l : nat) (name : string) (b : Buffer) o : Prop :=
  ws_listenerId (sys_ws (wo_sys o)) = Some l /\ sys_listeners (wo_sys o) = {[l]} /\
  exists d, decodeAccount name (Some b) = Ok d /\ objData o = Some d.

Lemma fresh_settled (r : WsResponse) b l event name pk :
  name ∈ ["user"; "userPositions"] -> r.2 = Some b ->
  exists o', objFetched me (Ok r) l (objSubscribe event (newObject (Account := Account) name pk)) =
    Some (o', Ok tt) /\ settled l name b o'.
Proof.
  intros Hn Hr. destruct r as [slot [b' |]]; [| done]. injection Hr as ->.
  destruct (decodable name b Hn) as [d Hd]. eexists. split.
  - unfold objFetched, subscribeFetched. cbn -[decodeAccount]. unfold deliver.
    cbn -[decodeAccount]. rewrite Hd. cbn. rewrite !quiet. reflexivity.
  - split_and!; [done | cbn; by rewrite union_empty_r_L | by exists d].
Qed.

Lemma settled_unsubscribe l name b o : l <> 0%nat -> settled l name b o ->
  sys_listeners (wo_sys (objUnsubscribe o)) = ∅.
Proof.
  intros Hl (E1 & E2 & _). unfold objUnsubscribe, wsUnsubscribe. cbn. rewrite E1.
  destruct l; [done |]. cbn. rewrite E2. set_solver.
Qed.

Lemma objFetched_key r l o o' res : objFetched me r l o = Some (o', res) ->
  wo_publicKey o' = wo_publicKey o.
Proof.
  unfold objFetched. intros H. apply bind_Some in H as (s & _ & H). by injection H as <- _.
Qed.

(** The objects of a serial subscription: what was there, the user's, the
    positions'. *)
Lemma user_fetched_step u a objs (r : WsResponse) b l pk event :
  wu_objects u = (objs ++ [objSubscribe event (newObject "user" pk)])%list -> a = length objs ->
  wu_calls u = [AwaitUser a] -> wu_userDataAccountSubscriber u = Some a -> r.2 = Some b ->
  exists o d, settled l "user" b o /\ decodeAccount "user" (Some b) = Ok d /\
    wuFetched me a (Ok r) l u = Some (mkWsUser
      (objs ++ [o; objSubscribe "userPositionsData"
                     (newObject "userPositions" (ua_positions (as_user d)))])%list
      (Some a) (Some (Datatypes.S a)) (wu_isSubscribed u) [AwaitPositions (Datatypes.S a)]
      (wu_teardowns u)).
Proof.
  intros Ho -> Hc Hf Hr.
  destruct (fresh_settled r b l event "user" pk ltac:(by left) Hr) as (o & Hfetch & Hs).
  pose proof Hs as (_ & _ & d & Hd & Hdata). exists o, d. split_and!; [done | done |].
  unfold wuFetched. rewrite Ho, list_lookup_middle by done. cbn [mbind option_bind].
  rewrite Hfetch. cbn [mbind option_bind]. rewrite Hc, decide_True by (by left).
  rewrite filter_cons_False by tauto. rewrite filter_nil.
  unfold wuSubscribePositions. cbn [set_calls set_objects wu_userDataAccountSubscriber wu_objects].
  rewrite Hf. cbn [mbind option_bind].
  rewrite insert_app_r_alt, Nat.sub_diag by done. cbn [list_insert insert].
  rewrite list_lookup_middle by done. cbn [mbind option_bind]. rewrite Hdata.
  rewrite length_app. cbn. by rewrite <- (assoc_L (++)), Nat.add_1_r.
Qed.

Lemma positions_fetched_step n objs o1 o2 (r : WsResponse) l p b t event :
  n = length objs ->
  objFetched me (Ok r) l (objSubscribe event (newObject "userPositions" p)) = Some (o2, Ok tt) ->
  wuFetched me (Datatypes.S n) (Ok r) l
    (mkWsUser (objs ++ [o1; objSubscribe event (newObject "userPositions" p)])%list
       (Some n) (Some (Datatypes.S n)) b [AwaitPositions (Datatypes.S n)] t) =
  Some (mkWsUser (objs ++ [o1; o2])%list (Some n) (Some (Datatypes.S n)) true [] t).
Proof.
  intros -> Hf.
  assert (L : Datatypes.S (length objs) = length (objs ++ [o1])) by (rewrite length_app; cbn; lia).
  unfold wuFetched. cbn [wu_objects wu_calls].
  change [o1; ?x] with ([o1] ++ [x])%list. rewrite L, !(assoc_L (++)), list_lookup_middle by done.
  cbn [mbind option_bind]. rewrite Hf. cbn [mbind option_bind].
  rewrite decide_False by set_solver. rewrite decide_True by set_solver.
  rewrite filter_cons_False by tauto. rewrite filter_nil. unfold wuSubscribeEnd. rewrite quiet.
  cbn -[objSubscribe]. by rewrite insert_app_r_alt, Nat.sub_diag.
Qed.

(** What [unsubscribe] leaves of the two objects. *)
Lemma settled_teardown pk n objs o1 o2 l1 l2 name1 name2 b1 b2 calls :
  n = length objs -> l1 <> 0%nat -> l2 <> 0%nat ->
  settled l1 name1 b1 o1 -> settled l2 name2 b2 o2 ->
  exists u', wuRun me pk [UUnsubscribe; UUnsubscribed]
    (mkWsUser (objs ++ [o1; o2])%list (Some n) (Some (Datatypes.S n)) true calls 0) = Some u' /\
    wu_isSubscribed u' = false /\ wu_calls u' = calls /\
    listeners (wu_objects u') = (listeners objs ++ [∅; ∅])%list.
Proof.
  intros -> H1 H2 S1 S2.
  assert (L : Datatypes.S (length objs) = length (objs ++ [o1])) by (rewrite length_app; cbn; lia).
  cbn [wuRun wuStep mbind option_bind]. unfold wuUnsubscribe, removeListener, userObject.
  cbn [wu_isSubscribed wu_userDataAccountSubscriber wu_objects mbind option_bind].
  rewrite list_lookup_middle by done. cbn -[objUnsubscribe].
  rewrite insert_app_r_alt, Nat.sub_diag by done. cbn -[objUnsubscribe].
  change [?x; o2] with ([x] ++ [o2])%list. rewrite (assoc_L (++)).
  rewrite list_lookup_middle by (rewrite length_app; cbn; lia). cbn -[objUnsubscribe].
  eexists. split; [reflexivity |]. do 2 (split; [done |]). cbn -[objUnsubscribe].
  rewrite insert_app_r_alt by (rewrite length_app; cbn; lia).
  rewrite length_app. replace (_ - _)%nat with 0%nat by (cbn; lia).
  unfold listeners. rewrite !fmap_app, <- (assoc_L (++)). cbn -[objUnsubscribe].
  by rewrite (settled_unsubscribe _ _ _ _ H1 S1), (settled_unsubscribe _ _ _ _ H2 S2).
Qed.

Lemma wuRun_app pk acts1 acts2 u :
  wuRun me pk (acts1 ++ acts2) u = wuRun me pk acts1 u ≫= wuRun me pk acts2.
Proof.
  revert u. induction acts1 as [| act acts1 IH]; intros u; [done |].
  cbn. destruct (wuStep me pk u act); cbn; [apply IH | done].
Qed.
End UserFacts.

(** ** Properties *)
Section UserProperties.
Context {Account : Type} {P : Program Account} {V : AccountViews Account}.
#[local] Abbreviation User := (WsUser Account).
Implicit Types (u : User) (o : WsObject Account).

(** A round trip: a [subscribe] call alone, its two fetches answered, makes
    the getters return the decoded account and the decoded positions, read at the
    address the account names; [unsubscribe] then leaves no listener served. *)
Theorem user_subscription_cycle me pk u (r1 r2 : WsResponse) b1 b2 l1 l2 :
  (forall name b, name ∈ ["user"; "userPositions"] ->
     exists d : Account, decodeAccount name (Some b) = Ok d) ->
  (forall event, emit_run me event = None) ->
  wu_isSubscribed u = false -> wu_calls u = [] -> wu_teardowns u = 0%nat ->
  Forall (fun s => s = ∅) (listeners (wu_objects u)) ->
  r1.2 = Some b1 -> r2.2 = Some b2 -> l1 <> 0%nat -> l2 <> 0%nat ->
  let n := length (wu_objects u) in
  exists u1 d1 d2 o2,
    wuRun me pk [USubscribe; UFetched n (Ok r1) l1; UFetched (Datatypes.S n) (Ok r2) l2] u = Some u1 /\
    decodeAccount "user" (Some b1) = Ok d1 /\ wuGetUserAccount u1 = Ok (Some d1) /\
    decodeAccount "userPositions" (Some b2) = Ok d2 /\ wuGetUserPositionsAccount u1 = Ok (Some d2) /\
    userObject (wu_userPositionsAccountSubscriber u1) u1 = Some (Datatypes.S n, o2) /\
    wo_publicKey o2 = ua_positions (as_user d1) /\
    exists u2, wuRun me pk [UUnsubscribe; UUnsubscribed] u1 = Some u2 /\
      wu_isSubscribed u2 = false /\ Forall (fun s => s = ∅) (listeners (wu_objects u2)).
Proof.
  intros Hd Hq E1 E2 E3 Hl Hr1 Hr2 Hl1 Hl2 n.
  destruct u as [objs f1 f2 sub calls tds]. cbn in E1, E2, E3, Hl, n. subst sub calls tds.
  cbn [wuRun wuStep mbind option_bind]. unfold wuSubscribeStart. cbn [wu_isSubscribed wu_objects].
  match goal with |- context [wuFetched me n (Ok r1) l1 ?x] =>
    destruct (user_fetched_step me Hd Hq x n objs r1 b1 l1 pk "userAccountData" eq_refl eq_refl
      eq_refl eq_refl Hr1) as (o1 & d1 & Hs1 & Hd1 & E1); rewrite E1; clear E1 end.
  cbn [mbind option_bind wu_isSubscribed wu_teardowns]. set (p := ua_positions (as_user d1)).
  destruct (fresh_settled me Hd Hq r2 b2 l2 "userPositionsData" "userPositions" p
    ltac:(by right; left) Hr2) as (o2 & Hf2 & Hs2).
  pose proof Hs1 as (_ & _ & d1' & Hd1' & Hdata1). rewrite Hd1 in Hd1'. injection Hd1' as <-.
  pose proof Hs2 as (_ & _ & d2 & Hd2 & Hdata2).
  rewrite (positions_fetched_step me Hd Hq n objs o1 o2 r2 l2 p false 0 _ eq_refl Hf2).
  cbn [mbind option_bind].
  destruct (settled_teardown me Hd Hq pk n objs o1 o2 l1 l2 _ _ _ _ [] eq_refl Hl1 Hl2 Hs1 Hs2)
    as (u2 & E2 & Hsub & Hcalls & Hlis).
  assert (L1 : (objs ++ [o1; o2])%list !! n = Some o1) by by rewrite list_lookup_middle.
  assert (L2 : (objs ++ [o1; o2])%list !! Datatypes.S n = Some o2).
  { change [o1; o2] with ([o1] ++ [o2])%list. rewrite (assoc_L (++)), list_lookup_middle; [done |].
    rewrite length_app. cbn. unfold n. lia. }
  do 4 eexists. split; [reflexivity |]. split; [exact Hd1 |].
  unfold wuGetUserAccount, wuGetUserPositionsAccount, wuGet, userObject. cbn -[decodeAccount].
  rewrite L1, L2. cbn -[decodeAccount]. rewrite Hdata1, Hdata2.
  split; [done |]. split; [exact Hd2 |]. split; [done |]. split; [done |].
  split; [by apply objFetched_key in Hf2 |]. exists u2. split; [exact E2 |]. split; [done |].
  rewrite Hlis. apply Forall_app. split; [done | by repeat constructor].
Qed.

(** Two overlapping [subscribe] calls: the first one resumes on the second's
    object, whose data is undefined, and throws; the second completes, and
    [unsubscribe] removes its two listeners. The listener of the first object
    stays served: no field names it any more. *)
Theorem overlapping_ws_user_subscribe_leaks me pk u (r1 r2 r3 : WsResponse) b1 b2 b3 l1 l2 l3 :
  (forall name b, name ∈ ["user"; "userPositions"] ->
     exists d : Account, decodeAccount name (Some b) = Ok d) ->
  (forall event, emit_run me event = None) ->
  wu_isSubscribed u = false -> wu_calls u = [] -> wu_teardowns u = 0%nat ->
  r1.2 = Some b1 -> r2.2 = Some b2 -> r3.2 = Some b3 -> l2 <> 0%nat -> l3 <> 0%nat ->
  let n := length (wu_objects u) in
  exists u',
    wuRun me pk [USubscribe; USubscribe; UFetched n (Ok r1) l1; UFetched (1 + n) (Ok r2) l2;
      UFetched (2 + n) (Ok r3) l3; UUnsubscribe; UUnsubscribed] u = Some u' /\
    wu_isSubscribed u' = false /\ wu_calls u' = [] /\
    listeners (wu_objects u') = (listeners (wu_objects u) ++ [{[l1]}; ∅; ∅])%list.
Proof.
  intros Hd Hq E1 E2 E3 Hr1 Hr2 Hr3 Hl2 Hl3 n.
  destruct u as [objs f1 f2 sub calls tds]. cbn in E1, E2, E3, n. subst sub calls tds.
  destruct (fresh_settled me Hd Hq r1 b1 l1 "userAccountData" "user" pk ltac:(by left) Hr1)
    as (o1 & Hf1 & Hs1).
  set (fresh := objSubscribe "userAccountData" (newObject (Account := Account) "user" pk)) in *.
  assert (F : wuRun me pk [USubscribe; USubscribe; UFetched n (Ok r1) l1]
    (mkWsUser objs f1 f2 false [] 0) =
    Some (mkWsUser ((objs ++ [o1]) ++ [fresh])%list (Some (1 + n)%nat) f2 false
            [AwaitUser (1 + n)] 0)).
  { cbn [wuRun wuStep mbind option_bind]. unfold wuSubscribeStart, wuFetched.
    cbn [wu_isSubscribed wu_objects wu_calls]. fold fresh. rewrite <- (assoc_L (++) objs). cbn [app].
    rewrite list_lookup_middle by done. cbn [mbind option_bind]. rewrite Hf1.
    cbn [mbind option_bind]. cbn [wu_calls wu_isSubscribed wu_teardowns wu_userDataAccountSubscriber app].
    rewrite !length_app. cbn [length].
    rewrite decide_True by (by left).
    rewrite filter_cons_False by tauto. rewrite filter_cons_True by (unfold n; intros [=]; lia).
    rewrite filter_nil. unfold wuSubscribePositions, set_calls, set_objects.
    cbn [wu_userDataAccountSubscriber wu_objects wu_userPositionsAccountSubscriber wu_isSubscribed wu_calls wu_teardowns].
    rewrite insert_app_r_alt, Nat.sub_diag by done. cbn [list_insert insert app mbind option_bind].
    rewrite Nat.add_1_r. change [o1; fresh] with ([o1] ++ [fresh])%list.
    rewrite (assoc_L (++)), list_lookup_middle by (rewrite length_app; cbn; lia).
    reflexivity. }
  change [USubscribe; USubscribe; UFetched n (Ok r1) l1; ?x; ?y; ?z; ?w]
    with ([USubscribe; USubscribe; UFetched n (Ok r1) l1] ++ [x; y; z; w])%list.
  rewrite wuRun_app, F. cbn [mbind option_bind wuRun wuStep].
  assert (L : (1 + n)%nat = length (objs ++ [o1])) by (rewrite length_app; cbn; unfold n; lia).
  match goal with |- context [wuFetched me (1 + n) (Ok r2) l2 ?x] =>
    destruct (user_fetched_step me Hd Hq x (1 + n) (objs ++ [o1]) r2 b2 l2 pk "userAccountData"
      eq_refl L eq_refl eq_refl Hr2) as (o2 & d2 & Hs2 & Hd2 & E1); rewrite E1; clear E1 end.
  cbn [mbind option_bind wu_isSubscribed wu_teardowns].
  set (p := ua_positions (as_user d2)).
  destruct (fresh_settled me Hd Hq r3 b3 l3 "userPositionsData" "userPositions" p
    ltac:(by right; left) Hr3) as (o3 & Hf3 & Hs3).
  change (2 + n)%nat with (Datatypes.S (1 + n)).
  rewrite (positions_fetched_step me Hd Hq (1 + n) (objs ++ [o1]) o2 o3 r3 l3 p false 0 _ L Hf3).
  cbn [mbind option_bind].
  destruct (settled_teardown me Hd Hq pk (1 + n) (objs ++ [o1]) o2 o3 l2 l3 _ _ _ _ [] L Hl2 Hl3
    Hs2 Hs3) as (u2 & E2 & Hsub & Hcalls & Hlis).
  exists u2. split; [exact E2 |]. do 2 (split; [done |]).
  rewrite Hlis. unfold listeners. rewrite fmap_app, <- (assoc_L (++)). cbn.
  destruct Hs1 as (_ & Hs1 & _). by rewrite Hs1.
Qed.
End UserProperties.
