(* ===== verification/Bytes.v ===== *)
(** * Buffers read as numbers

    What the stress tools use of Node's [Buffer] (indexing, [slice], the
    [readUInt32LE] family) and their own copies of [readBigInt64LE] and
    [readBigUInt64LE] (src/stress/mockPythUtils.ts), with the proof that the
    copies read two's-complement little-endian words. coqutil's [le_combine] and
    [le_split] are the reference. *)
From Stdlib Require Import Strings.Byte.
From stdpp Require Import pretty.
From coqutil Require Import Byte Word.LittleEndianList.
From S2P Require Import Prelude Types Slots.

(** [new PublicKey(buffer)] of web3.js, which takes any buffer of at most 32
    bytes. *)
Class Web3 := { newPublicKey : Buffer -> result PublicKey }.
Class Web3Laws (W : Web3) : Prop := {
  newPublicKey_32 : forall b, (length b <= 32)%nat -> exists k, newPublicKey b = Ok k
}.



(** ** JavaScript integers *)

(** [x << n] of integers: the low 32 bits, as a signed number. *)
Definition to_int32 (z : Z) : Z := (z + 2 ^ 31) mod 2 ^ 32 - 2 ^ 31.
Definition shl32 (x n : Z) : Z := to_int32 (Z.shiftl x n).

(** The two's-complement number of a [w]-bit word. *)
Definition signed (w z : Z) : Z := (z + 2 ^ (w - 1)) mod 2 ^ w - 2 ^ (w - 1).

(** ** Node's buffers *)

(** [buffer[i]]: a byte, or [undefined] outside the buffer. *)
Definition byteAt (buffer : Buffer) (i : Z) : option Z := byte.unsigned <$> js_index buffer i.

(** [buffer.slice(a, b)] of non-negative offsets *)
Definition slice (buffer : list byte) (a b : nat) : list byte := take (b - a) (drop a buffer).

(** The [n] bytes at [offset] as an unsigned number; out of bounds, Node throws. *)
Definition readUIntLE (n : nat) (buffer : Buffer) (offset : nat) : result Z :=
  if decide (offset + n <= List.length buffer)%nat
  then Ok (le_combine (slice buffer offset (offset + n)))
  else Throw (LibErr "ERR_OUT_OF_RANGE"%string).

Definition readUInt32LE : Buffer -> nat -> result Z := readUIntLE 4.
Definition readInt32LE (buffer : Buffer) (offset : nat) : result Z :=
  signed 32 <$> readUInt32LE buffer offset.
Definition nodeReadBigUInt64LE : Buffer -> nat -> result Z := readUIntLE 8.

(** ** The copies of mockPythUtils.ts *)
Definition quoteChar : string := String (Ascii.ascii_of_nat 34) EmptyString.

Definition ERR_BUFFER_OUT_OF_BOUNDS : JsError :=
  JsErr "Attempt to access memory outside buffer bounds"%string.
Definition ERR_OUT_OF_RANGE (str range : string) (received : Z) : JsError :=
  JsErr ("The value of "%string +:+ quoteChar +:+ str +:+ " is out of range. It must be "%string +:+ range
         +:+ ". Received "%string +:+ pretty received).

(** [boundsError] of an integer *)
Definition boundsError (value length : Z) : JsError :=
  if (length <? 0)%Z then ERR_BUFFER_OUT_OF_BOUNDS
  else ERR_OUT_OF_RANGE "offset"%string (">= 0 and <= "%string +:+ pretty length) value.

(** An operand of the sums below: [undefined] makes the sum [NaN], which
    [BigInt] refuses. *)
Definition operand (o : option Z) : result Z :=
  match o with Some b => Ok b | None => Throw (LibErr "RangeError"%string) end.

(** [readBigInt64LE] *)
Definition readBigInt64LE (buffer : Buffer) (offset : Z) : result Z :=
  match byteAt buffer offset, byteAt buffer (offset + 7) with
  | Some first, Some last =>
      b4 ← operand (byteAt buffer (offset + 4));
      b5 ← operand (byteAt buffer (offset + 5));
      b6 ← operand (byteAt buffer (offset + 6));
      let val := b4 + b5 * 2 ^ 8 + b6 * 2 ^ 16 + shl32 last 24 in
      b1 ← operand (byteAt buffer (offset + 1));
      b2 ← operand (byteAt buffer (offset + 2));
      b3 ← operand (byteAt buffer (offset + 3));
      Ok (Z.shiftl val 32 + (first + b1 * 2 ^ 8 + b2 * 2 ^ 16 + b3 * 2 ^ 24))
  | _, _ => Throw (boundsError offset (Z.of_nat (length buffer) - 8))
  end.

(** [readBigUInt64LE] *)
Definition readBigUInt64LE (buffer : Buffer) (offset : Z) : result Z :=
  match byteAt buffer offset, byteAt buffer (offset + 7) with
  | Some first, Some last =>
      b1 ← operand (byteAt buffer (offset + 1));
      b2 ← operand (byteAt buffer (offset + 2));
      b3 ← operand (byteAt buffer (offset + 3));
      let lo := first + b1 * 2 ^ 8 + b2 * 2 ^ 16 + b3 * 2 ^ 24 in
      b4 ← operand (byteAt buffer (offset + 4));
      b5 ← operand (byteAt buffer (offset + 5));
      b6 ← operand (byteAt buffer (offset + 6));
      let hi := b4 + b5 * 2 ^ 8 + b6 * 2 ^ 16 + last * 2 ^ 24 in
      Ok (lo + Z.shiftl hi 32)
  | _, _ => Throw (boundsError offset (Z.of_nat (length buffer) - 8))
  end.

(** ** Little-endian words *)
Lemma le_cons b l : le_combine (b :: l) = byte.unsigned b + 256 * le_combine l.
Proof.
  change (le_combine (b :: l)) with (Z.lor (byte.unsigned b) (Z.shiftl (le_combine l) 8)).
  rewrite Z.shiftl_mul_pow2 by lia. change (2 ^ 8) with 256.
  rewrite <- Z.add_lor_land, Z.mul_comm.
  replace (Z.land (byte.unsigned b) (256 * le_combine l)) with 0; [lia |].
  symmetry. apply Z.bits_inj'. intros i Hi. rewrite Z.land_spec, Z.bits_0.
  change 256 with (2 ^ 8). rewrite Z.mul_comm, Z.mul_pow2_bits by lia.
  destruct (decide (i < 8)).
  - rewrite (Z.testbit_neg_r _ (i - 8)) by lia. apply andb_false_r.
  - rewrite Z.testbit_eqb by lia. pose proof (byte.unsigned_range b).
    rewrite Z.div_small; [done |]. split; [lia |].
    apply Z.lt_le_trans with (2 ^ 8); [lia | apply Z.pow_le_mono_r; lia].
Qed.

Lemma signed_id w z : 0 < w -> - 2 ^ (w - 1) <= z < 2 ^ (w - 1) -> signed w (z mod 2 ^ w) = z.
Proof.
  intros Hw Hz. unfold signed. rewrite Zplus_mod_idemp_l.
  assert (2 ^ w = 2 * 2 ^ (w - 1)) by (rewrite <- Z.pow_succ_r by lia; f_equal; lia).
  rewrite Z.mod_small; lia.
Qed.

Lemma le_combine_lt l n : length l = n -> 0 <= le_combine l < 2 ^ (8 * Z.of_nat n).
Proof.
  intros <-. pose proof (le_combine_bound l) as H.
  by replace (8 * Z.of_nat (length l)) with (8 * Z.of_nat (length l)) by lia.
Qed.

(** ** Slices *)
Lemma slice_length buffer a b :
  length (slice buffer a b) = Nat.min (b - a) (length buffer - a).
Proof. unfold slice. by rewrite length_take, length_drop. Qed.

Lemma slice_app_l l1 l2 a b : (b <= length l1)%nat -> slice (l1 ++ l2) a b = slice l1 a b.
Proof.
  intros H. unfold slice. destruct (decide (a <= length l1)%nat).
  - rewrite drop_app_le by done. by rewrite take_app_le by (rewrite length_drop; lia).
  - replace (b - a)%nat with 0%nat by lia. done.
Qed.

Lemma slice_app_r l1 l2 a b : (length l1 <= a)%nat ->
  slice (l1 ++ l2) a b = slice l2 (a - length l1) (b - length l1).
Proof.
  intros H. unfold slice. rewrite drop_app_ge by done. f_equal. lia.
Qed.

Lemma slice_full l n : length l = n -> slice l 0 n = l.
Proof. intros <-. unfold slice. cbn. rewrite Nat.sub_0_r. by rewrite take_ge. Qed.

Lemma byteAt_slice buffer a n i j :
  (a + n <= length buffer)%nat -> (i < n)%nat -> j = Z.of_nat i ->
  byteAt buffer (Z.of_nat a + j) = byte.unsigned <$> slice buffer a (a + n) !! i.
Proof.
  intros H Hi ->. unfold byteAt, js_index, slice.
  rewrite (proj2 (Z.leb_le _ _)) by lia.
  rewrite lookup_take_lt by lia. rewrite lookup_drop.
  by replace (Z.to_nat (Z.of_nat a + Z.of_nat i)) with (a + i)%nat by lia.
Qed.

(** ** The copies read words *)
Lemma eight (l : Buffer) : length l = 8%nat ->
  exists b0 b1 b2 b3 b4 b5 b6 b7, l = [b0; b1; b2; b3; b4; b5; b6; b7].
Proof.
  intros H. do 8 (destruct l as [| ? l]; [discriminate |]).
  destruct l; [by repeat eexists | discriminate].
Qed.

Ltac read_eight H :=
  let E := fresh "E" in
  match type of H with (?a + 8 <= length ?buffer)%nat =>
    destruct (eight (slice buffer a (a + 8))) as (b0 & b1 & b2 & b3 & b4 & b5 & b6 & b7 & E);
      [rewrite slice_length; lia |];
    pose proof (byteAt_slice buffer a 8 0 0 H ltac:(lia) eq_refl) as R0;
    pose proof (byteAt_slice buffer a 8 1 1 H ltac:(lia) eq_refl) as R1;
    pose proof (byteAt_slice buffer a 8 2 2 H ltac:(lia) eq_refl) as R2;
    pose proof (byteAt_slice buffer a 8 3 3 H ltac:(lia) eq_refl) as R3;
    pose proof (byteAt_slice buffer a 8 4 4 H ltac:(lia) eq_refl) as R4;
    pose proof (byteAt_slice buffer a 8 5 5 H ltac:(lia) eq_refl) as R5;
    pose proof (byteAt_slice buffer a 8 6 6 H ltac:(lia) eq_refl) as R6;
    pose proof (byteAt_slice buffer a 8 7 7 H ltac:(lia) eq_refl) as R7;
    rewrite E in R0, R1, R2, R3, R4, R5, R6, R7; cbn in R0, R1, R2, R3, R4, R5, R6, R7;
    rewrite Z.add_0_r in R0; rewrite ?E, ?R0, ?R1, ?R2, ?R3, ?R4, ?R5, ?R6, ?R7
  end.

Lemma readBigUInt64LE_word buffer a : (a + 8 <= length buffer)%nat ->
  readBigUInt64LE buffer (Z.of_nat a) = Ok (le_combine (slice buffer a (a + 8))).
Proof.
  intros H. unfold readBigUInt64LE. read_eight H. cbn [operand mbind result_bind].
  f_equal. rewrite !le_cons. change (le_combine []) with 0. rewrite Z.shiftl_mul_pow2 by lia. lia.
Qed.

Lemma readBigInt64LE_word buffer a : (a + 8 <= length buffer)%nat ->
  readBigInt64LE buffer (Z.of_nat a) = Ok (signed 64 (le_combine (slice buffer a (a + 8)))).
Proof.
  intros H. unfold readBigInt64LE. read_eight H. cbn [operand mbind result_bind].
  f_equal. rewrite !le_cons. change (le_combine []) with 0. unfold shl32, to_int32, signed.
  rewrite !Z.shiftl_mul_pow2 by lia.
  pose proof (byte.unsigned_range b0). pose proof (byte.unsigned_range b1).
  pose proof (byte.unsigned_range b2). pose proof (byte.unsigned_range b3).
  pose proof (byte.unsigned_range b4). pose proof (byte.unsigned_range b5).
  pose proof (byte.unsigned_range b6). pose proof (byte.unsigned_range b7).
  cbn [Z.sub] in *. change (64 - 1) with 63. Z.div_mod_to_equations. lia.
Qed.

Lemma read_past_end buffer a :
  (length buffer < a + 8)%nat ->
  readBigInt64LE buffer (Z.of_nat a) = Throw (boundsError (Z.of_nat a) (Z.of_nat (length buffer) - 8)) /\
  readBigUInt64LE buffer (Z.of_nat a) = Throw (boundsError (Z.of_nat a) (Z.of_nat (length buffer) - 8)).
Proof.
  intros H. unfold readBigInt64LE, readBigUInt64LE.
  assert (E : byteAt buffer (Z.of_nat a + 7) = None).
  { unfold byteAt, js_index. rewrite (proj2 (Z.leb_le _ _)) by lia.
    rewrite lookup_ge_None_2 by lia. done. }
  rewrite E. by destruct (byteAt buffer (Z.of_nat a)).
Qed.
