(* ===== verification/Pyth.v ===== *)
(** * The price feeds of the stress tools (src/stress/mockPythUtils.ts)

    The parsers of Pyth's price and product accounts and the three functions
    that use them, next to the layout the mock oracle program writes
    (src/programs/pyth/src/pc.rs).  The loops take fuel, the parsers start them
    with one more than the length of the buffer; the result is [None] when it
    runs out. [new PublicKey], [10 ** n] (ECMAScript leaves its rounding to the
    implementation) and the decoding of UTF-8 are arguments. *)
From Stdlib Require Import Strings.Byte.
From coqutil Require Import Byte Word.LittleEndianList.
From S2P Require Import Prelude BN Types Slots Bytes.

Class PythEnv := {
  pow10 : Z -> Number;
  utf8 : Buffer -> string
}.

Record PriceInfo := mkPriceInfo {
  pi_priceComponent : Z;
  pi_price : Number;
  pi_confidenceComponent : Z;
  pi_confidence : Number;
  pi_status : Z;
  pi_corporateAction : Z;
  pi_publishSlot : Z
}.

Record PriceComponent := mkPriceComponent {
  pc_publisher : PublicKey;
  pc_aggregate : PriceInfo;
  pc_latest : PriceInfo
}.

(** The fields [parsePriceData] reads before the components. *)
Record PriceHeader := mkPriceHeader {
  ph_magic : Z; ph_version : Z; ph_type : Z; ph_size : Z; ph_priceType : Z;
  ph_exponent : Z; ph_numComponentPrices : Z; ph_currentSlot : Z; ph_validSlot : Z;
  ph_twapComponent : Z; ph_twap : Number;
  ph_avolComponent : Z; ph_avol : Number;
  ph_drv0Component : Z; ph_drv0 : Number;
  ph_drv1Component : Z; ph_drv1 : Number;
  ph_drv2Component : Z; ph_drv2 : Number;
  ph_drv3Component : Z; ph_drv3 : Number;
  ph_drv4Component : Z; ph_drv4 : Number;
  ph_drv5Component : Z; ph_drv5 : Number;
  ph_productAccountKey : PublicKey;
  ph_nextPriceAccountKey : option PublicKey;
  ph_aggregatePriceUpdaterAccountKey : PublicKey;
  ph_aggregatePriceInfo : PriceInfo
}.

Record PriceFeed := mkPriceFeed {
  pd_header : PriceHeader;
  pd_priceComponents : list PriceComponent
}.

Record ProductData := mkProductData {
  pr_magic : Z; pr_version : Z; pr_type : Z; pr_size : Z;
  pr_priceAccountKey : PublicKey;
  pr_product : gmap string string
}.

Section Parse.
Context {W : Web3} {E : PythEnv}.

(** [PKorNull] *)
Definition empty32Buffer : Buffer := replicate 32 "000"%byte.
Definition PKorNull (data : Buffer) : result (option PublicKey) :=
  if decide (data = empty32Buffer) then Ok None else Some <$> newPublicKey data.

(** [Number(component) * 10 ** exponent] *)
Definition scaled (component exponent : Z) : Number :=
  num_mul (num_of_Z component) (pow10 exponent).

(** [parsePriceInfo] *)
Definition parsePriceInfo (data : Buffer) (exponent : Z) : result PriceInfo :=
  priceComponent ← nodeReadBigUInt64LE data 0;
  confidenceComponent ← nodeReadBigUInt64LE data 8;
  status ← readUInt32LE data 16;
  corporateAction ← readUInt32LE data 20;
  publishSlot ← nodeReadBigUInt64LE data 24;
  Ok (mkPriceInfo priceComponent (scaled priceComponent exponent)
        confidenceComponent (scaled confidenceComponent exponent)
        status corporateAction publishSlot).

(** One turn of the loop over the components: [None] ends it. *)
Definition componentAt (data : Buffer) (exponent : Z) (offset : nat)
    : result (option PriceComponent) :=
  publisher ← PKorNull (slice data offset (offset + 32));
  match publisher with
  | None => Ok None
  | Some publisher =>
      aggregate ← parsePriceInfo (slice data (offset + 32) (offset + 64)) exponent;
      latest ← parsePriceInfo (slice data (offset + 64) (offset + 96)) exponent;
      Ok (Some (mkPriceComponent publisher aggregate latest))
  end.

Fixpoint parseComponents (fuel : nat) (data : Buffer) (exponent : Z) (offset : nat)
    (priceComponents : list PriceComponent) : option (result (list PriceComponent)) :=
  match fuel with
  | O => None
  | Datatypes.S fuel' =>
      if decide (offset < length data)%nat then
        match componentAt data exponent offset with
        | Throw e => Some (Throw e)
        | Ok None => Some (Ok priceComponents)
        | Ok (Some c) =>
            parseComponents fuel' data exponent (offset + 96) (priceComponents ++ [c])
        end
      else Some (Ok priceComponents)
  end.

(** [parsePriceData] up to its loop *)
Definition parsePriceHeader (data : Buffer) : result PriceHeader :=
  magic ← readUInt32LE data 0;
  version ← readUInt32LE data 4;
  type ← readUInt32LE data 8;
  size ← readUInt32LE data 12;
  priceType ← readUInt32LE data 16;
  exponent ← readInt32LE data 20;
  numComponentPrices ← readUInt32LE data 24;
  currentSlot ← readBigUInt64LE data 32;
  validSlot ← readBigUInt64LE data 40;
  twapComponent ← readBigInt64LE data 48;
  avolComponent ← readBigUInt64LE data 56;
  drv0Component ← readBigInt64LE data 64;
  drv1Component ← readBigInt64LE data 72;
  drv2Component ← readBigInt64LE data 80;
  drv3Component ← readBigInt64LE data 88;
  drv4Component ← readBigInt64LE data 96;
  drv5Component ← readBigInt64LE data 104;
  productAccountKey ← newPublicKey (slice data 112 144);
  nextPriceAccountKey ← PKorNull (slice data 144 176);
  aggregatePriceUpdaterAccountKey ← newPublicKey (slice data 176 208);
  aggregatePriceInfo ← parsePriceInfo (slice data 208 240) exponent;
  Ok (mkPriceHeader magic version type size priceType exponent numComponentPrices
        currentSlot validSlot twapComponent (scaled twapComponent exponent)
        avolComponent (scaled avolComponent exponent)
        drv0Component (scaled drv0Component exponent) drv1Component (scaled drv1Component exponent)
        drv2Component (scaled drv2Component exponent) drv3Component (scaled drv3Component exponent)
        drv4Component (scaled drv4Component exponent) drv5Component (scaled drv5Component exponent)
        productAccountKey nextPriceAccountKey aggregatePriceUpdaterAccountKey
        aggregatePriceInfo).

(** [parsePriceData] *)
Definition parsePriceData (data : Buffer) : option (result PriceFeed) :=
  match parsePriceHeader data with
  | Throw e => Some (Throw e)
  | Ok header =>
      match parseComponents (Datatypes.S (length data)) data (ph_exponent header) 240 [] with
      | None => None
      | Some priceComponents => Some (cs ← priceComponents; Ok (mkPriceFeed header cs))
      end
  end.

(** The loop of [_parseProductData]. A key whose value length is past the end
    gets the empty string, and [idx] becomes [NaN], which ends the loop;
    assigning a string to [__proto__] does nothing. *)
Definition setProduct (key value : string) (product : gmap string string) : gmap string string :=
  if decide (key = "__proto__"%string) then product else <[key := value]> product.

Fixpoint parseProduct (fuel : nat) (data : Buffer) (idx : nat) (product : gmap string string)
    : option (gmap string string) :=
  match fuel with
  | O => None
  | Datatypes.S fuel' =>
      match byteAt data (Z.of_nat idx) with
      | None => Some product
      | Some keyLength =>
          let idx := (idx + 1)%nat in
          if keyLength =? 0 then parseProduct fuel' data idx product
          else
            let k := Z.to_nat keyLength in
            let key := utf8 (slice data idx (idx + k)) in
            let idx := (idx + k)%nat in
            match byteAt data (Z.of_nat idx) with
            | None => Some (setProduct key (utf8 []) product)
            | Some valueLength =>
                let idx := (idx + 1)%nat in
                let v := Z.to_nat valueLength in
                let value := utf8 (slice data idx (idx + v)) in
                parseProduct fuel' data (idx + v) (setProduct key value product)
            end
      end
  end.

(** [_parseProductData] *)
Definition parseProductHeader (data : Buffer)
    : result (gmap string string -> ProductData) :=
  magic ← readUInt32LE data 0;
  version ← readUInt32LE data 4;
  type ← readUInt32LE data 8;
  size ← readUInt32LE data 12;
  priceAccountKey ← newPublicKey (slice data 16 48);
  Ok (mkProductData magic version type size priceAccountKey).

Definition _parseProductData (data : Buffer) : option (result ProductData) :=
  match parseProductHeader data with
  | Throw e => Some (Throw e)
  | Ok build =>
      match parseProduct (Datatypes.S (length data)) data 48 ∅ with
      | None => None
      | Some product => Some (Ok (build product))
      end
  end.
End Parse.

(** ** The feeds *)

(** A call of the mock oracle program: the method, its arguments, its price
    account, and the size of the account created before it. *)
Inductive OracleRequest :=
  | OracleInitialize (price expo conf : Z) (account : PublicKey) (space : Z)
  | OracleSetPrice (price : Z) (account : PublicKey).

Section Feeds.
Context {W : Web3} {E : PythEnv} {B : BNLib}.

(** [createPriceFeed]; [feed] is the new key pair. The default of [confidence]
    is a double as well. *)
Definition createPriceFeed (feed : PublicKey) (initPrice : Number) (confidence : option Z)
    (expo : Z) : result OracleRequest :=
  conf ← match confidence with
         | Some c => Ok c
         | None => bn_ofNumber (num_mul (num_div initPrice (num_of_Z 10)) (pow10 (- expo)))
         end;
  price ← bn_ofNumber (num_mul initPrice (pow10 (- expo)));
  Ok (OracleInitialize price expo conf feed 3312).

(** [getFeedData]: [info] is the account at the feed's address, [null] when
    there is none *)
Definition getFeedData (info : option Buffer) : option (result PriceFeed) :=
  match info with
  | None => Some (Throw TypeError)
  | Some data => parsePriceData data
  end.

(** [setFeedPrice] *)
Definition setFeedPrice (info : option Buffer) (newPrice : Number) (priceFeed : PublicKey)
    : option (result OracleRequest) :=
  match getFeedData info with
  | None => None
  | Some r => Some (
      data ← r;
      price ← bn_ofNumber (num_mul newPrice (pow10 (- ph_exponent (pd_header data))));
      Ok (OracleSetPrice price priceFeed))
  end.
End Feeds.

(** ** The layout of pc.rs

    [#[repr(C)]] structures, little-endian; the two enumerations take four
    bytes. *)
Record PcPriceInfo := mkPcPriceInfo {
  pci_price : Z; pci_conf : Z; pci_status : Z; pci_corp_act : Z; pci_pub_slot : Z
}.
Record PcPriceComp := mkPcPriceComp {
  pcc_publisher : Buffer; pcc_agg : PcPriceInfo; pcc_latest : PcPriceInfo
}.
Record PcPrice := mkPcPrice {
  pcp_magic : Z; pcp_ver : Z; pcp_atype : Z; pcp_size : Z; pcp_ptype : Z; pcp_expo : Z;
  pcp_num : Z; pcp_unused : Z; pcp_curr_slot : Z; pcp_valid_slot : Z; pcp_twap : Z;
  pcp_avol : Z; pcp_drv0 : Z; pcp_drv1 : Z; pcp_drv2 : Z; pcp_drv3 : Z; pcp_drv4 : Z;
  pcp_drv5 : Z; pcp_prod : Buffer; pcp_next : Buffer; pcp_agg_pub : Buffer;
  pcp_agg : PcPriceInfo; pcp_comp : list PcPriceComp
}.

Definition encodeInfo (i : PcPriceInfo) : Buffer :=
  concat [le_split 8 (pci_price i); le_split 8 (pci_conf i); le_split 4 (pci_status i);
          le_split 4 (pci_corp_act i); le_split 8 (pci_pub_slot i)].
Definition encodeComp (c : PcPriceComp) : Buffer :=
  concat [pcc_publisher c; encodeInfo (pcc_agg c); encodeInfo (pcc_latest c)].
Definition encodePrice (a : PcPrice) : Buffer :=
  concat [le_split 4 (pcp_magic a); le_split 4 (pcp_ver a); le_split 4 (pcp_atype a);
          le_split 4 (pcp_size a); le_split 4 (pcp_ptype a); le_split 4 (pcp_expo a);
          le_split 4 (pcp_num a); le_split 4 (pcp_unused a); le_split 8 (pcp_curr_slot a);
          le_split 8 (pcp_valid_slot a); le_split 8 (pcp_twap a); le_split 8 (pcp_avol a);
          le_split 8 (pcp_drv0 a); le_split 8 (pcp_drv1 a); le_split 8 (pcp_drv2 a);
          le_split 8 (pcp_drv3 a); le_split 8 (pcp_drv4 a); le_split 8 (pcp_drv5 a);
          pcp_prod a; pcp_next a; pcp_agg_pub a; encodeInfo (pcp_agg a);
          concat (encodeComp <$> pcp_comp a)].

(** [set_price] of lib.rs: the average is checked against overflow. *)
Definition in_i64 (z : Z) : bool := (- 2 ^ 63 <=? z) && (z <? 2 ^ 63).
Definition set_price (a : PcPrice) (price : Z) : option PcPrice :=
  let sum := pcp_twap a + price in
  if in_i64 sum then
    let agg := pcp_agg a in
    Some (mkPcPrice (pcp_magic a) (pcp_ver a) (pcp_atype a) (pcp_size a) (pcp_ptype a)
      (pcp_expo a) (pcp_num a) (pcp_unused a) (pcp_curr_slot a) (pcp_valid_slot a)
      (sum `quot` 2) (pcp_avol a) (pcp_drv0 a) (pcp_drv1 a) (pcp_drv2 a) (pcp_drv3 a)
      (pcp_drv4 a) (pcp_drv5 a) (pcp_prod a) (pcp_next a) (pcp_agg_pub a)
      (mkPcPriceInfo price (pci_conf agg) (pci_status agg) (pci_corp_act agg) (pci_pub_slot agg))
      (pcp_comp a))
  else None.

(** [initialize] of lib.rs: a price account in use from here on; the confidence is dropped. *)
Definition initialize_price (a : PcPrice) (price expo : Z) : PcPrice :=
  let agg := pcp_agg a in
  mkPcPrice (pcp_magic a) (pcp_ver a) (pcp_atype a) (pcp_size a) 1 expo (pcp_num a) (pcp_unused a)
    (pcp_curr_slot a) (pcp_valid_slot a) price (pcp_avol a) (pcp_drv0 a) (pcp_drv1 a) (pcp_drv2 a)
    (pcp_drv3 a) (pcp_drv4 a) (pcp_drv5 a) (pcp_prod a) (pcp_next a) (pcp_agg_pub a)
    (mkPcPriceInfo price 0 (pci_status agg) (pci_corp_act agg) (pci_pub_slot agg)) (pcp_comp a).
