(* ===== verification/PythSpec.v ===== *)
(** * Properties of the price feed parsers (src/stress/mockPythUtils.ts)

    Reading what the mock oracle's structures lay out gives their fields back,
    the parsers end on every buffer, and what they do with short ones. *)
From Stdlib Require Import Strings.Byte.
From coqutil Require Import Byte Word.LittleEndianList.
From S2P Require Import Prelude BN Types Slots Bytes Pyth.

(** ** Chunks *)
Lemma slice_chunk (chunks : list (list byte)) i c off n :
  chunks !! i = Some c -> length (concat (take i chunks)) = off -> n = (off + length c)%nat ->
  slice (concat chunks) off n = c.
Proof.
  intros Hi <- ->. rewrite <- (take_drop_middle chunks i c Hi) at 1.
  rewrite concat_app. rewrite slice_app_r by lia. rewrite Nat.sub_diag. cbn [concat].
  rewrite slice_app_l by lia. apply slice_full. lia.
Qed.

Lemma concat_length_chunk (chunks : list (list byte)) i c :
  chunks !! i = Some c -> (length (concat (take i chunks)) + length c <= length (concat chunks))%nat.
Proof.
  intros Hi. rewrite <- (take_drop_middle chunks i c Hi) at 2.
  rewrite concat_app, length_app. cbn [concat]. rewrite length_app. lia.
Qed.

Section Chunk.
Context (chunks : list (list byte)) (i off : nat).
Hypothesis Hoff : length (concat (take i chunks)) = off.

Lemma chunk_fits k c : chunks !! i = Some c -> length c = k -> (off + k <= length (concat chunks))%nat.
Proof. intros Hi <-. pose proof (concat_length_chunk _ _ _ Hi). lia. Qed.

Lemma read_chunk k z : chunks !! i = Some (le_split k z) ->
  readUIntLE k (concat chunks) off = Ok (z mod 2 ^ (Z.of_nat k * 8)).
Proof.
  intros Hi. unfold readUIntLE.
  rewrite decide_True by (eapply chunk_fits; [done | apply length_le_split]).
  rewrite (slice_chunk _ i (le_split k z)); [| done | done | by rewrite length_le_split].
  by rewrite le_combine_split.
Qed.

Lemma readU64_chunk z o : o = Z.of_nat off -> chunks !! i = Some (le_split 8 z) ->
  readBigUInt64LE (concat chunks) o = Ok (z mod 2 ^ 64).
Proof.
  intros -> Hi. rewrite readBigUInt64LE_word by (eapply chunk_fits; [done | apply length_le_split]).
  rewrite (slice_chunk _ i (le_split 8 z)); [| done | done | by rewrite length_le_split].
  by rewrite le_combine_split.
Qed.

Lemma readI64_chunk z o : o = Z.of_nat off -> chunks !! i = Some (le_split 8 z) ->
  - 2 ^ 63 <= z < 2 ^ 63 -> readBigInt64LE (concat chunks) o = Ok z.
Proof.
  intros -> Hi Hz. rewrite readBigInt64LE_word by (eapply chunk_fits; [done | apply length_le_split]).
  rewrite (slice_chunk _ i (le_split 8 z)); [| done | done | by rewrite length_le_split].
  rewrite le_combine_split. f_equal. by apply (signed_id 64).
Qed.
End Chunk.

Definition u32 (z : Z) : Prop := 0 <= z < 2 ^ 32.
Definition u64 (z : Z) : Prop := 0 <= z < 2 ^ 64.
Definition i64 (z : Z) : Prop := - 2 ^ 63 <= z < 2 ^ 63.
Definition key32 (b : Buffer) : Prop := length b = 32%nat.

(** The field ranges of the structures. *)
Definition infoWf (i : PcPriceInfo) : Prop :=
  i64 (pci_price i) /\ u64 (pci_conf i) /\ u32 (pci_status i) /\ u32 (pci_corp_act i) /\
  u64 (pci_pub_slot i).
Definition compWf (c : PcPriceComp) : Prop :=
  key32 (pcc_publisher c) /\ infoWf (pcc_agg c) /\ infoWf (pcc_latest c).
Definition priceWf (a : PcPrice) : Prop :=
  Forall u32 [pcp_magic a; pcp_ver a; pcp_atype a; pcp_size a; pcp_ptype a; pcp_num a] /\
  - 2 ^ 31 <= pcp_expo a < 2 ^ 31 /\
  Forall u64 [pcp_curr_slot a; pcp_valid_slot a; pcp_avol a] /\
  Forall i64 [pcp_twap a; pcp_drv0 a; pcp_drv1 a; pcp_drv2 a; pcp_drv3 a; pcp_drv4 a; pcp_drv5 a] /\
  Forall key32 [pcp_prod a; pcp_next a; pcp_agg_pub a] /\
  infoWf (pcp_agg a) /\ Forall compWf (pcp_comp a).

Lemma encodeInfo_length i : length (encodeInfo i) = 32%nat.
Proof. unfold encodeInfo. cbn [concat]. rewrite !length_app, !length_le_split. done. Qed.

Lemma encodeComp_length c : key32 (pcc_publisher c) -> length (encodeComp c) = 96%nat.
Proof.
  intros H. unfold encodeComp. cbn [concat]. rewrite !length_app, !encodeInfo_length, H. done.
Qed.

(** What the parsers read of a structure: the price of an information block is
    read as an unsigned word. *)
Section Reads.
Context {W : Web3} {E : PythEnv} {L : Web3Laws W}.

Definition keyOf (b : Buffer) : PublicKey :=
  match newPublicKey b with Ok k => k | Throw _ => EmptyString end.

Lemma newPublicKey_key b : (length b <= 32)%nat -> newPublicKey b = Ok (keyOf b).
Proof. intros H. unfold keyOf. destruct (newPublicKey_32 b H) as [k ->]. done. Qed.

Definition infoOf (exponent : Z) (i : PcPriceInfo) : PriceInfo :=
  let price := pci_price i mod 2 ^ 64 in
  mkPriceInfo price (scaled price exponent) (pci_conf i) (scaled (pci_conf i) exponent)
    (pci_status i) (pci_corp_act i) (pci_pub_slot i).
Definition compOf (exponent : Z) (c : PcPriceComp) : PriceComponent :=
  mkPriceComponent (keyOf (pcc_publisher c)) (infoOf exponent (pcc_agg c))
    (infoOf exponent (pcc_latest c)).

(** The information and the components as they are. *)
Definition exactInfo (exponent : Z) (i : PcPriceInfo) : PriceInfo :=
  mkPriceInfo (pci_price i) (scaled (pci_price i) exponent) (pci_conf i) (scaled (pci_conf i) exponent)
    (pci_status i) (pci_corp_act i) (pci_pub_slot i).
Definition exactComp (exponent : Z) (c : PcPriceComp) : PriceComponent :=
  mkPriceComponent (keyOf (pcc_publisher c)) (exactInfo exponent (pcc_agg c))
    (exactInfo exponent (pcc_latest c)).

Lemma infoOf_exact exponent i : infoWf i -> 0 <= pci_price i -> infoOf exponent i = exactInfo exponent i.
Proof.
  intros [Hp _] Hn. unfold infoOf, exactInfo. unfold i64 in Hp. by rewrite Z.mod_small by lia.
Qed.

(** The components before the first one with an empty publisher. *)
Fixpoint published (cs : list PcPriceComp) : list PcPriceComp :=
  match cs with
  | [] => []
  | c :: cs' => if decide (pcc_publisher c = empty32Buffer) then [] else c :: published cs'
  end.

(** A component nothing is lost of. *)
Definition plainComp (c : PcPriceComp) : Prop :=
  pcc_publisher c <> empty32Buffer /\ 0 <= pci_price (pcc_agg c) /\ 0 <= pci_price (pcc_latest c).

Lemma published_plain exponent cs : Forall compWf cs -> Forall plainComp cs ->
  compOf exponent <$> published cs = exactComp exponent <$> cs.
Proof.
  induction cs as [| c cs IH]; [done |].
  intros [(Hk & Ha & Hl) Hwf]%Forall_cons [(Hp & Hpa & Hpl) Hpp]%Forall_cons.
  cbn [published fmap list_fmap]. rewrite decide_False by done. cbn [fmap list_fmap]. f_equal; [| by apply IH].
  unfold compOf, exactComp. by rewrite !infoOf_exact.
Qed.

Lemma parsePriceInfo_encode i exponent : infoWf i ->
  parsePriceInfo (encodeInfo i) exponent = Ok (infoOf exponent i).
Proof.
  intros (Hp & Hc & Hs & Ha & Hl). unfold parsePriceInfo, nodeReadBigUInt64LE, readUInt32LE, encodeInfo.
  rewrite (read_chunk _ 0 0 eq_refl 8 (pci_price i)) by done. cbn [mbind result_bind].
  rewrite (read_chunk _ 1 8) with (z := pci_conf i); [| done | done].
  cbn [mbind result_bind].
  rewrite (read_chunk _ 2 16) with (z := pci_status i); [| done | done]. cbn [mbind result_bind].
  rewrite (read_chunk _ 3 20) with (z := pci_corp_act i); [| done | done]. cbn [mbind result_bind].
  rewrite (read_chunk _ 4 24) with (z := pci_pub_slot i); [| done | done]. cbn [mbind result_bind].
  unfold u64, u32 in *. by rewrite !(Z.mod_small (pci_conf i)), (Z.mod_small (pci_status i)),
    (Z.mod_small (pci_corp_act i)), (Z.mod_small (pci_pub_slot i)).
Qed.

(** The header of a structure. *)
Definition headerOf (a : PcPrice) : PriceHeader :=
  let e := pcp_expo a in
  mkPriceHeader (pcp_magic a) (pcp_ver a) (pcp_atype a) (pcp_size a) (pcp_ptype a) e (pcp_num a)
    (pcp_curr_slot a) (pcp_valid_slot a) (pcp_twap a) (scaled (pcp_twap a) e)
    (pcp_avol a) (scaled (pcp_avol a) e) (pcp_drv0 a) (scaled (pcp_drv0 a) e)
    (pcp_drv1 a) (scaled (pcp_drv1 a) e) (pcp_drv2 a) (scaled (pcp_drv2 a) e)
    (pcp_drv3 a) (scaled (pcp_drv3 a) e) (pcp_drv4 a) (scaled (pcp_drv4 a) e)
    (pcp_drv5 a) (scaled (pcp_drv5 a) e) (keyOf (pcp_prod a))
    (if decide (pcp_next a = empty32Buffer) then None else Some (keyOf (pcp_next a)))
    (keyOf (pcp_agg_pub a)) (infoOf e (pcp_agg a)).

Lemma PKorNull_key b : (length b <= 32)%nat ->
  PKorNull b = Ok (if decide (b = empty32Buffer) then None else Some (keyOf b)).
Proof.
  intros H. unfold PKorNull. rewrite (newPublicKey_key b H). by repeat case_decide.
Qed.

#[local] Ltac chunk_len :=
  cbn [take concat]; rewrite ?length_app, ?length_le_split, ?encodeInfo_length;
  unfold key32 in *; cbn [length]; lia.
#[local] Ltac rd32 i off :=
  match goal with |- context [readUIntLE 4 (concat ?cs) _] =>
    rewrite (read_chunk cs i off ltac:(chunk_len) 4 _ eq_refl) end;
  cbn [mbind result_bind fmap result_fmap].
#[local] Ltac rd64 i off :=
  match goal with |- context [readBigUInt64LE (concat ?cs) ?o] =>
    rewrite (readU64_chunk cs i off ltac:(chunk_len) _ o eq_refl eq_refl) end;
  cbn [mbind result_bind].
#[local] Ltac rdi64 i off :=
  match goal with |- context [readBigInt64LE (concat ?cs) ?o] =>
    rewrite (readI64_chunk cs i off ltac:(chunk_len) _ o eq_refl eq_refl) by done end;
  cbn [mbind result_bind].
#[local] Ltac rdslice i :=
  match goal with |- context [slice (concat ?cs) ?a ?b] =>
    rewrite (slice_chunk cs i _ a b eq_refl) by chunk_len end.

Lemma parsePriceHeader_encode a : priceWf a -> parsePriceHeader (encodePrice a) = Ok (headerOf a).
Proof.
  intros (H32 & He & H64 & Hi64 & Hk & Hinfo & _). rewrite !Forall_cons in *.
  destruct H32 as (?&?&?&?&?&?&_), H64 as (?&?&?&_), Hi64 as (?&?&?&?&?&?&?&_), Hk as (?&?&?&_).
  unfold parsePriceHeader, readUInt32LE, readInt32LE, readUInt32LE, encodePrice.
  rd32 0%nat 0%nat. rd32 1%nat 4%nat. rd32 2%nat 8%nat. rd32 3%nat 12%nat. rd32 4%nat 16%nat.
  rd32 5%nat 20%nat. rewrite (signed_id 32) by (cbn; lia).
  rd32 6%nat 24%nat. rd64 8%nat 32%nat. rd64 9%nat 40%nat. rdi64 10%nat 48%nat. rd64 11%nat 56%nat.
  rdi64 12%nat 64%nat. rdi64 13%nat 72%nat. rdi64 14%nat 80%nat. rdi64 15%nat 88%nat.
  rdi64 16%nat 96%nat. rdi64 17%nat 104%nat.
  rdslice 18%nat. rdslice 19%nat. rdslice 20%nat. rdslice 21%nat.
  rewrite !newPublicKey_key, PKorNull_key by (unfold key32 in *; lia). cbn [mbind result_bind].
  rewrite (parsePriceInfo_encode _ _ Hinfo). cbn [mbind result_bind].
  change (Z.of_nat 4 * 8) with 32. unfold u32, u64 in *. unfold headerOf.
  by rewrite !(Z.mod_small _ (2 ^ 32)), !(Z.mod_small _ (2 ^ 64)) by done.
Qed.

(** ** The loop over the components *)
Lemma componentAt_encode pre c post exponent off : compWf c -> length pre = off ->
  componentAt (pre ++ encodeComp c ++ post) exponent off =
  Ok (if decide (pcc_publisher c = empty32Buffer) then None else Some (compOf exponent c)).
Proof.
  intros (Hk & Ha & Hl) <-. unfold componentAt.
  assert (S : forall x y, (x <= y <= 96)%nat ->
    slice (pre ++ encodeComp c ++ post) (length pre + x) (length pre + y) = slice (encodeComp c) x y).
  { intros x y Hxy. rewrite slice_app_r by lia.
    replace (length pre + x - length pre)%nat with x by lia.
    replace (length pre + y - length pre)%nat with y by lia.
    apply slice_app_l. rewrite encodeComp_length by done. lia. }
  replace (slice _ (length pre) (length pre + 32)) with (slice (encodeComp c) 0 32)
    by (rewrite <- S by lia; by rewrite Nat.add_0_r).
  rewrite !S by lia. unfold encodeComp. rdslice 0%nat. rdslice 1%nat. rdslice 2%nat.
  rewrite PKorNull_key by (unfold key32 in *; lia). cbn [mbind result_bind].
  repeat case_decide; try done. by rewrite !parsePriceInfo_encode.
Qed.

Lemma parseComponents_encode cs pre exponent fuel off acc :
  Forall compWf cs -> length pre = off -> (length cs < fuel)%nat ->
  parseComponents fuel (pre ++ concat (encodeComp <$> cs)) exponent off acc =
  Some (Ok (acc ++ (compOf exponent <$> published cs))).
Proof.
  revert pre fuel off acc. induction cs as [| c cs IH]; intros pre fuel off acc Hwf Hoff Hf.
  - destruct fuel; [cbn in Hf; lia |]. cbn [fmap list_fmap concat parseComponents].
    rewrite app_nil_r, decide_False by lia. by rewrite app_nil_r.
  - apply Forall_cons in Hwf as [Hc Hwf]. destruct fuel; [cbn in Hf; lia |].
    cbn [fmap list_fmap concat parseComponents]. pose proof (encodeComp_length c (proj1 Hc)) as Hlen.
    rewrite decide_True by (rewrite !length_app, Hlen; lia).
    change (list_fmap _ _ encodeComp cs) with (encodeComp <$> cs).
    rewrite componentAt_encode by done. cbn [published]. case_decide; [by rewrite app_nil_r |].
    rewrite (assoc_L (++)). cbn in Hf. rewrite IH; [| done | rewrite length_app; lia | lia].
    by rewrite <- (assoc_L (++)).
Qed.
End Reads.

(** ** Termination *)
Section Ends.
Context {W : Web3} {E : PythEnv}.

(** Fuel above the distance to the end is enough, and changes nothing. *)
Lemma parseComponents_total data exponent fuel off acc :
  (length data - off < fuel)%nat ->
  exists r, forall fuel', (length data - off < fuel')%nat ->
    parseComponents fuel' data exponent off acc = Some r.
Proof.
  revert off acc. induction fuel as [| fuel IH]; intros off acc Hf; [lia |].
  destruct (decide (off < length data)%nat) as [Hlt | Hge].
  - destruct (componentAt data exponent off) as [[c |] | e] eqn:Ec.
    + destruct (IH (off + 96)%nat (acc ++ [c])) as [r Hr]; [lia |]. exists r.
      intros [| fuel'] Hf'; [lia |]. cbn [parseComponents].
      rewrite decide_True by done. rewrite Ec. apply Hr. lia.
    + exists (Ok acc). intros [| fuel'] Hf'; [lia |]. cbn [parseComponents].
      rewrite decide_True by done. by rewrite Ec.
    + exists (Throw e). intros [| fuel'] Hf'; [lia |]. cbn [parseComponents].
      rewrite decide_True by done. by rewrite Ec.
  - exists (Ok acc). intros [| fuel'] Hf'; [lia |]. cbn [parseComponents].
    by rewrite decide_False.
Qed.

Lemma parseProduct_total data fuel idx product :
  (length data - idx < fuel)%nat ->
  exists r, forall fuel', (length data - idx < fuel')%nat ->
    parseProduct fuel' data idx product = Some r.
Proof.
  revert idx product. induction fuel as [| fuel IH]; intros idx product Hf; [lia |].
  destruct (byteAt data (Z.of_nat idx)) as [k |] eqn:Ek; cycle 1.
  { exists product. intros [| fuel'] Hf'; [lia |]. cbn [parseProduct]. by rewrite Ek. }
  assert (idx < length data)%nat.
  { unfold byteAt, js_index in Ek. rewrite (proj2 (Z.leb_le _ _)) in Ek by lia.
    rewrite Nat2Z.id in Ek. destruct (data !! idx) eqn:El; [| discriminate].
    by apply lookup_lt_Some in El. }
  destruct (Z.eqb_spec k 0) as [-> | Hk].
  - destruct (IH (idx + 1)%nat product) as [r Hr]; [lia |]. exists r.
    intros [| fuel'] Hf'; [lia |]. cbn [parseProduct]. rewrite Ek. apply Hr. lia.
  - set (key := utf8 (slice data (idx + 1) (idx + 1 + Z.to_nat k))).
    destruct (byteAt data (Z.of_nat (idx + 1 + Z.to_nat k))) as [v |] eqn:Ev.
    + destruct (IH (idx + 1 + Z.to_nat k + 1 + Z.to_nat v)%nat
        (setProduct key (utf8 (slice data (idx + 1 + Z.to_nat k + 1)
           (idx + 1 + Z.to_nat k + 1 + Z.to_nat v))) product)) as [r Hr]; [lia |].
      exists r. intros [| fuel'] Hf'; [lia |]. cbn [parseProduct]. rewrite Ek.
      rewrite (proj2 (Z.eqb_neq _ _)) by done. rewrite Ev. apply Hr. lia.
    + eexists. intros [| fuel'] Hf'; [lia |]. cbn [parseProduct]. rewrite Ek.
      rewrite (proj2 (Z.eqb_neq _ _)) by done. by rewrite Ev.
Qed.

(** Each component takes its 96 bytes of the buffer. *)
Lemma readUIntLE_fits n data off r : readUIntLE n data off = Ok r -> (off + n <= length data)%nat.
Proof. unfold readUIntLE. by case_decide. Qed.

Lemma parsePriceInfo_fits data exponent i : parsePriceInfo data exponent = Ok i ->
  (32 <= length data)%nat.
Proof.
  unfold parsePriceInfo. intros H. do 5 inv_bind H.
  match goal with H : nodeReadBigUInt64LE data 24 = _ |- _ => apply readUIntLE_fits in H; lia end.
Qed.

Lemma componentAt_fits data exponent off c : componentAt data exponent off = Ok (Some c) ->
  (off + 96 <= length data)%nat.
Proof.
  unfold componentAt. intros H. inv_bind H. destruct v as [p |]; [| discriminate].
  do 2 inv_bind H.
  match goal with H : parsePriceInfo (slice data (off + 64) _) _ = _ |- _ =>
    apply parsePriceInfo_fits in H; rewrite slice_length in H; lia end.
Qed.

Lemma parseComponents_fits data exponent fuel off acc cs :
  parseComponents fuel data exponent off acc = Some (Ok cs) ->
  (length cs <= length acc + (length data - off) / 96)%nat.
Proof.
  revert off acc. induction fuel as [| fuel IH]; intros off acc H; [discriminate |].
  cbn [parseComponents] in H. case_decide; [| injection H as ->; lia].
  destruct (componentAt data exponent off) as [[c |] | e] eqn:Ec; [| injection H as ->; lia | done].
  apply IH in H. apply componentAt_fits in Ec. rewrite length_app in H. change (length [c]) with 1%nat in H.
  replace (length data - off)%nat with (1 * 96 + (length data - (off + 96)))%nat by lia.
  rewrite Nat.div_add_l by lia. lia.
Qed.
End Ends.

Lemma parsePriceData_encode {W : Web3} {E : PythEnv} {L : Web3Laws W} a : priceWf a ->
  parsePriceData (encodePrice a) =
  Some (Ok (mkPriceFeed (headerOf a) (compOf (pcp_expo a) <$> published (pcp_comp a)))).
Proof.
  intros Hwf. unfold parsePriceData. rewrite (parsePriceHeader_encode a Hwf).
  destruct Hwf as (_ & _ & _ & _ & Hk & _ & Hc). rewrite !Forall_cons in Hk.
  destruct Hk as (Hk1 & Hk2 & Hk3 & _).
  set (pre := concat (take 22 [le_split 4 (pcp_magic a); le_split 4 (pcp_ver a);
    le_split 4 (pcp_atype a); le_split 4 (pcp_size a); le_split 4 (pcp_ptype a);
    le_split 4 (pcp_expo a); le_split 4 (pcp_num a); le_split 4 (pcp_unused a);
    le_split 8 (pcp_curr_slot a); le_split 8 (pcp_valid_slot a); le_split 8 (pcp_twap a);
    le_split 8 (pcp_avol a); le_split 8 (pcp_drv0 a); le_split 8 (pcp_drv1 a);
    le_split 8 (pcp_drv2 a); le_split 8 (pcp_drv3 a); le_split 8 (pcp_drv4 a);
    le_split 8 (pcp_drv5 a); pcp_prod a; pcp_next a; pcp_agg_pub a; encodeInfo (pcp_agg a)])).
  assert (Eq : encodePrice a = (pre ++ concat (encodeComp <$> pcp_comp a))).
  { unfold encodePrice, pre. cbn [concat take]. rewrite <- !(assoc_L (++)). by rewrite !app_nil_r. }
  assert (Hpre : length pre = 240%nat).
  { unfold pre. cbn [concat take]. rewrite !length_app, !length_le_split, encodeInfo_length.
    unfold key32 in *. cbn [length]. lia. }
  rewrite Eq. rewrite (parseComponents_encode (pcp_comp a) pre (pcp_expo a)); [done | done | done |].
  rewrite length_app. enough (length (pcp_comp a) <= length (concat (encodeComp <$> pcp_comp a)))%nat
    by lia.
  clear -Hc. induction Hc as [| c cs Hc _ IH]; [done |].
  cbn [fmap list_fmap concat]. rewrite length_app, (encodeComp_length c (proj1 Hc)).
  change (list_fmap _ _ encodeComp cs) with (encodeComp <$> cs). cbn [length]. lia.
Qed.

(** ** Properties *)

(** The hand-written word readers: at an offset with eight bytes left,
    [readBigInt64LE] gives the two's-complement number of those bytes and
    [readBigUInt64LE] the unsigned one; elsewhere both throw the bounds error. *)
Theorem word_readers buffer (a : nat) :
  let word := le_combine (slice buffer a (a + 8)) in
  readBigInt64LE buffer (Z.of_nat a) =
    (if decide (a + 8 <= length buffer)%nat then Ok (signed 64 word)
     else Throw (boundsError (Z.of_nat a) (Z.of_nat (length buffer) - 8))) /\
  readBigUInt64LE buffer (Z.of_nat a) =
    (if decide (a + 8 <= length buffer)%nat then Ok word
     else Throw (boundsError (Z.of_nat a) (Z.of_nat (length buffer) - 8))).
Proof.
  intros word. case_decide.
  - by rewrite readBigInt64LE_word, readBigUInt64LE_word.
  - apply read_past_end. lia.
Qed.

(** C31: A round trip with two losses: [parsePriceData] on the bytes of a price account as
    pc.rs lays it out gives its fields, scaled by its exponent, but the price of every
    information block modulo 2^64 (a negative one 2^64 too high) and only the components
    before the first without a publisher. An aggregate price that is not negative comes
    back exactly, and so do the components when each has a publisher and prices that
    are not negative. *)
Theorem price_account_roundtrip {W : Web3} {E : PythEnv} {L : Web3Laws W} a : priceWf a ->
  exists data, parsePriceData (encodePrice a) = Some (Ok data) /\
    pd_header data = headerOf a /\
    pd_priceComponents data = (compOf (pcp_expo a) <$> published (pcp_comp a)) /\
    ph_twapComponent (pd_header data) = pcp_twap a /\
    pi_priceComponent (ph_aggregatePriceInfo (pd_header data)) = pci_price (pcp_agg a) mod 2 ^ 64 /\
    (0 <= pci_price (pcp_agg a) ->
       ph_aggregatePriceInfo (pd_header data) = exactInfo (pcp_expo a) (pcp_agg a)) /\
    (Forall plainComp (pcp_comp a) ->
       pd_priceComponents data = exactComp (pcp_expo a) <$> pcp_comp a).
Proof.
  intros Hwf. eexists. split; [by apply parsePriceData_encode |].
  destruct Hwf as (_ & _ & _ & _ & _ & Ha & Hc). cbn [pd_header pd_priceComponents].
  split_and!; [done | done | done | done | |].
  - intros Hn. by apply infoOf_exact.
  - intros Hp. by apply published_plain.
Qed.

(** C38: Both parsers end on every buffer: whatever the bytes, the fuel they are
    given is enough, any larger fuel gives the same result, and a successful
    [parsePriceData] took 96 bytes after the 240 of the header for each of its
    components. *)
Theorem pyth_parsers_terminate {W : Web3} {E : PythEnv} (data : Buffer) :
  (exists r, parsePriceData data = Some r /\
     forall d, r = Ok d -> (length (pd_priceComponents d) <= (length data - 240) / 96)%nat) /\
  (exists r, _parseProductData data = Some r) /\
  (forall exponent fuel, (length data < fuel)%nat ->
     parseComponents fuel data exponent 240 [] =
     parseComponents (Datatypes.S (length data)) data exponent 240 []) /\
  (forall fuel, (length data < fuel)%nat ->
     parseProduct fuel data 48 ∅ = parseProduct (Datatypes.S (length data)) data 48 ∅).
Proof.
  split_and!.
  - unfold parsePriceData. destruct (parsePriceHeader data) as [h | e].
    + destruct (parseComponents_total data (ph_exponent h) (Datatypes.S (length data)) 240 [])
        as [r Hr]; [lia |]. rewrite (Hr (Datatypes.S (length data))) by lia. eexists. split; [done |].
      intros d Hd. apply bind_Ok_inv in Hd as (cs & -> & [= <-]). cbn.
      by apply (parseComponents_fits data (ph_exponent h) (Datatypes.S (length data)) 240 []), Hr; lia.
    + by eexists.
  - unfold _parseProductData. destruct (parseProductHeader data); [| by eexists].
    destruct (parseProduct_total data (Datatypes.S (length data)) 48 ∅) as [r Hr]; [lia |].
    rewrite Hr by lia. by eexists.
  - intros exponent fuel Hf.
    destruct (parseComponents_total data exponent fuel 240 []) as [r Hr]; [lia |].
    by rewrite !Hr by lia.
  - intros fuel Hf. destruct (parseProduct_total data fuel 48 ∅) as [r Hr]; [lia |].
    by rewrite !Hr by lia.
Qed.

(** A buffer shorter than the header throws, and never gives a partial
    result. *)
Theorem short_price_buffer_throws {W : Web3} {E : PythEnv} (data : Buffer) : (length data < 240)%nat ->
  exists e, parsePriceData data = Some (Throw e) /\ getFeedData (Some data) = Some (Throw e).
Proof.
  intros Hlen. unfold getFeedData, parsePriceData.
  destruct (parsePriceHeader data) as [h | e] eqn:Eh; [| by eexists].
  exfalso. unfold parsePriceHeader in Eh. do 21 inv_bind Eh.
  match goal with H : parsePriceInfo _ _ = Ok _ |- _ =>
    apply parsePriceInfo_fits in H; rewrite slice_length in H; lia end.
Qed.

(** A price the mock oracle was set to: the parser reads it back when it is
    not negative, and reads a negative one 2^64 too high, while the average it
    updates is read with its sign. *)
Theorem set_price_read_back {W : Web3} {E : PythEnv} {L : Web3Laws W} a price a' :
  priceWf a -> i64 price -> set_price a price = Some a' ->
  exists data, getFeedData (Some (encodePrice a')) = Some (Ok data) /\
    pi_priceComponent (ph_aggregatePriceInfo (pd_header data)) =
      (if price <? 0 then price + 2 ^ 64 else price) /\
    ph_twapComponent (pd_header data) = (pcp_twap a + price) `quot` 2.
Proof.
  intros (W1 & W2 & W3 & W4 & W5 & W6 & W7) Hp Hs. unfold set_price in Hs.
  destruct (in_i64 _) eqn:Ei; [| discriminate]. injection Hs as <-.
  unfold in_i64 in Ei. apply andb_true_iff in Ei as [E1 E2].
  apply Z.leb_le in E1. apply Z.ltb_lt in E2.
  eexists. split.
  - apply parsePriceData_encode. split; [done |]. split; [done |]. split; [done |].
    cbn. rewrite !Forall_cons in *. split_and!; try tauto.
    + unfold i64. Z.to_euclidean_division_equations. lia.
    + destruct W6 as (_ & W6). split; [done | exact W6].
  - cbn. split; [| done]. unfold i64 in Hp. destruct (Z.ltb_spec price 0).
    + rewrite <- (Z.mod_small (price + 2 ^ 64) (2 ^ 64)) by lia.
      rewrite Z.add_mod, Z.mod_same, Z.add_0_r, Z.mod_mod by lia. done.
    + apply Z.mod_small. lia.
Qed.

(** A feed the mock oracle was asked to make: it is read with the price as its average, the
    exponent given, and no confidence, whatever confidence was asked for. *)
Theorem initialize_read_back {W : Web3} {E : PythEnv} {L : Web3Laws W} a price expo :
  priceWf a -> i64 price -> - 2 ^ 31 <= expo < 2 ^ 31 ->
  exists data, getFeedData (Some (encodePrice (initialize_price a price expo))) = Some (Ok data) /\
    ph_exponent (pd_header data) = expo /\ ph_twapComponent (pd_header data) = price /\
    pi_confidenceComponent (ph_aggregatePriceInfo (pd_header data)) = 0.
Proof.
  intros (W1 & W2 & W3 & W4 & W5 & W6 & W7) Hp He.
  eexists. split.
  - apply parsePriceData_encode.
    destruct W6 as (_ & _ & W6 & W8 & W9).
    split; [| split; [done | split; [done |]]]; cbn; rewrite !Forall_cons in *;
      unfold infoWf, u32, u64, i64 in *; cbn; split_and!; try tauto; lia.
  - cbn. done.
Qed.
