(* ===== verification/Token.v ===== *)
(** * Token accounts (token/index.ts, accounts/pollingTokenAccountSubscriber.ts)

    [parseTokenAccount], and the polling subscriber of one token account, a
    client of the bulk account loader without the map of accounts of the other
    polling subscribers.  The layout and [u64] of the spl-token package and the
    listeners of the emitter are arguments; a [subscribe] call is split at its
    [await] as in Polling.v. *)
From Stdlib Require Import Strings.Byte.
From S2P Require Import Prelude BN Types JsMap Slots Bytes Loader LoaderSpec Polling PollingSpec.

(** What [AccountLayout.decode] gives. *)
Record RawTokenAccount := mkRawTokenAccount {
  rt_mint : Buffer;
  rt_owner : Buffer;
  rt_amount : Buffer;
  rt_delegateOption : Z;
  rt_delegate : Buffer;
  rt_state : Z;
  rt_isNativeOption : Z;
  rt_isNative : Buffer;
  rt_delegatedAmount : Buffer;
  rt_closeAuthorityOption : Z;
  rt_closeAuthority : Buffer
}.

(** [AccountInfo] of spl-token. *)
Record SplAccount := mkSplAccount {
  sa_mint : PublicKey;
  sa_owner : PublicKey;
  sa_amount : Z;
  sa_delegate : option PublicKey;
  sa_delegatedAmount : Z;
  sa_isInitialized : bool;
  sa_isFrozen : bool;
  sa_isNative : bool;
  sa_rentExemptReserve : option Z;
  sa_closeAuthority : option PublicKey
}.

(** The package, and what the listeners of the subscribers' events do. *)
Class TokenEnv := {
  AccountLayout_decode : option Buffer -> result RawTokenAccount;
  u64_fromBuffer : Buffer -> result Z;
  token_emit : nat -> string -> option JsError;
  token_emit_error : nat -> JsError -> option JsError
}.

(** Documented behaviour: [decode] refuses [undefined], and [fromBuffer] gives a
    number of 64 bits. *)
Class TokenLaws (E : TokenEnv) : Prop := {
  decode_undefined : exists e, AccountLayout_decode None = Throw e;
  u64_range : forall b z, u64_fromBuffer b = Ok z -> 0 <= z < 2 ^ 64
}.

(** The closures [addToAccountLoader] registers. *)
Inductive TokenCallback :=
  | TokenUpdate (subscriber : nat)
  | TokenError (subscriber : nat).

Record TokenSubscriber := mkTokenSubscriber {
  ts_isSubscribed : bool;
  ts_publicKey : PubKey;
  ts_callbackId : option string;
  ts_errorCallbackId : option string;
  ts_tokenAccount : option SplAccount
}.

Section Token.
Context {W : Web3} {E : TokenEnv}.

(** [parseTokenAccount] *)
Definition parseTokenAccount (data : option Buffer) : result SplAccount :=
  raw ← AccountLayout_decode data;
  mint ← newPublicKey (rt_mint raw);
  owner ← newPublicKey (rt_owner raw);
  amount ← u64_fromBuffer (rt_amount raw);
  '(delegate, delegatedAmount) ←
    (if rt_delegateOption raw =? 0 then Ok (None, 0)
     else
       delegate ← newPublicKey (rt_delegate raw);
       delegatedAmount ← u64_fromBuffer (rt_delegatedAmount raw);
       Ok (Some delegate, delegatedAmount));
  let isInitialized := negb (rt_state raw =? 0) in
  let isFrozen := rt_state raw =? 2 in
  '(rentExemptReserve, isNative) ←
    (if rt_isNativeOption raw =? 1 then
       reserve ← u64_fromBuffer (rt_isNative raw); Ok (Some reserve, true)
     else Ok (None, false));
  closeAuthority ←
    (if rt_closeAuthorityOption raw =? 0 then Ok None
     else Some <$> newPublicKey (rt_closeAuthority raw));
  Ok (mkSplAccount mint owner amount delegate delegatedAmount isInitialized isFrozen
        isNative rentExemptReserve closeAuthority).

(** The closures, run by the loader. *)
#[export] Instance TokenCallbacks : Callbacks TokenCallback := {|
  cb_run := fun c buffer =>
    match c with
    | TokenUpdate me =>
        match parseTokenAccount buffer with
        | Throw e => Some e
        | Ok _ =>
            match token_emit me "tokenAccountUpdate" with
            | Some e => Some e
            | None => token_emit me "update"
            end
        end
    | TokenError _ => None
    end;
  ecb_run := fun c e =>
    match c with
    | TokenUpdate _ => None
    | TokenError me => token_emit_error me e
    end
|}.

#[local] Abbreviation Loader := (BulkAccountLoader TokenCallback).
Implicit Types (t : TokenSubscriber) (ld : Loader).

(** The constructor. *)
Definition newTokenSubscriber (publicKey : PubKey) : TokenSubscriber :=
  mkTokenSubscriber false publicKey None None None.

Definition set_tokenAccount t a : TokenSubscriber :=
  mkTokenSubscriber (ts_isSubscribed t) (ts_publicKey t) (ts_callbackId t) (ts_errorCallbackId t) a.

(** [if (this.callbackId)]: undefined and the empty string are falsy. *)
Definition truthyString (o : option string) : bool :=
  match o with Some (String _ _) => true | _ => false end.

(** [addToAccountLoader]; [id] and [errorId] are the fresh uuids *)
Definition tokenAddToAccountLoader (me : nat) (id errorId : string) (timer : nat) t ld
    : TokenSubscriber * Loader :=
  if truthyString (ts_callbackId t) then (t, ld)
  else
    let '(ld1, callbackId) := addAccount (ts_publicKey t) (TokenUpdate me) id timer ld in
    let '(ld2, errorCallbackId) := addErrorCallbacks (TokenError me) errorId ld1 in
    (mkTokenSubscriber (ts_isSubscribed t) (ts_publicKey t) (Some callbackId)
       (Some errorCallbackId) (ts_tokenAccount t), ld2).

(** [this.tokenAccount = tokenAccount] of the closure, for the calls logged. *)
Definition tokenObserve (me : nat) (evs : list (Event TokenCallback))
    (a : option SplAccount) : option SplAccount :=
  foldl (fun a ev =>
    match ev with
    | Notify _ (TokenUpdate m) buffer =>
        if Nat.eqb m me
        then match parseTokenAccount buffer with Ok a' => Some a' | Throw _ => a end
        else a
    | _ => a
    end) a evs.

(** [fetch] once the loader has gone from [ld] to [ld']: the buffer is
    undefined when the account was not found. *)
Definition tokenFetchDone (me : nat) ld ld' t : TokenSubscriber * result unit :=
  let t1 := set_tokenAccount t
              (tokenObserve me (drop (length (l_log ld)) (l_log ld')) (ts_tokenAccount t)) in
  match parseTokenAccount (getAccountData (ts_publicKey t1) ld') with
  | Throw e => (t1, Throw e)
  | Ok a => (set_tokenAccount t1 (Some a), Ok tt)
  end.

(** [subscribe]; [load] is what happens to the loader while the call awaits. *)
Definition tokenSubscribe (me : nat) (id errorId : string) (timer : nat) (load : Loader -> Loader)
    t ld : TokenSubscriber * Loader * result bool :=
  if ts_isSubscribed t then (t, ld, Ok true)
  else
    let '(t1, ld1) := tokenAddToAccountLoader me id errorId timer t ld in
    let ld' := load ld1 in
    match tokenFetchDone me ld1 ld' t1 with
    | (t2, Throw e) => (t2, ld', Throw e)
    | (t2, Ok _) =>
        match token_emit me "update" with
        | Some e => (t2, ld', Throw e)
        | None =>
            (mkTokenSubscriber true (ts_publicKey t2) (ts_callbackId t2) (ts_errorCallbackId t2)
               (ts_tokenAccount t2), ld', Ok true)
        end
    end.

(** [unsubscribe] *)
Definition tokenUnsubscribe t ld : TokenSubscriber * Loader :=
  if ts_isSubscribed t then
    let ld1 := match ts_callbackId t with
               | Some id => removeAccount (ts_publicKey t) id ld
               | None => if Nat.eqb (length (l_accountsToLoad ld)) 0 then stopPolling ld else ld
               end in
    let ld2 := match ts_errorCallbackId t with
               | Some id => removeErrorCallbacks id ld1
               | None => ld1
               end in
    (mkTokenSubscriber false (ts_publicKey t) None None (ts_tokenAccount t), ld2)
  else (t, ld).

(** [getTokenAccount], after [assertIsSubscribed] *)
Definition assertTokenSubscribed t : result unit :=
  if ts_isSubscribed t then Ok tt else Throw NOT_SUBSCRIBED.
Definition getTokenAccount t : result (option SplAccount) :=
  _ ← assertTokenSubscribed t; Ok (ts_tokenAccount t).

(** ** Facts *)

(** The account is registered once [addToAccountLoader] returns, and nothing
    else changes hands. *)
Lemma tokenAdd_registered me id errorId timer t ld k i :
  loader_inv ld -> truthyString (ts_callbackId t) = false ->
  let r := tokenAddToAccountLoader me id errorId timer t ld in
  loader_inv r.2 /\ ts_callbackId r.1 = Some id /\ ts_errorCallbackId r.1 = Some errorId /\
  ts_isSubscribed r.1 = ts_isSubscribed t /\ ts_publicKey r.1 = ts_publicKey t /\
  (registered r.2 k i <-> (k = ts_publicKey t /\ i = id) \/ registered ld k i).
Proof.
  intros Hi Hc. unfold tokenAddToAccountLoader. rewrite Hc. cbn zeta.
  pose proof (addAccount_inv (ts_publicKey t) (TokenUpdate me) id timer ld Hi) as Hi1.
  pose proof (registered_addAccount ld (ts_publicKey t) (TokenUpdate me) id timer k i Hi) as Hr.
  assert (Hid : (addAccount (ts_publicKey t) (TokenUpdate me) id timer ld).2 = id) by done.
  destruct (addAccount _ _ _ _ _) as [ld1 id1]. cbn in Hi1, Hr, Hid |- *. subst id1.
  split_and!; try done. by destruct Hi1.
Qed.

(** The reserve and the close authority follow their flags. *)
Lemma native_and_closed raw (rr : option Z) (native : bool) (ca : option PublicKey) :
  (if rt_isNativeOption raw =? 1 then
     reserve ← u64_fromBuffer (rt_isNative raw); Ok (Some reserve, true)
   else Ok (None, false)) = Ok (rr, native) ->
  (if rt_closeAuthorityOption raw =? 0 then Ok None
   else Some <$> newPublicKey (rt_closeAuthority raw)) = Ok ca ->
  (native = true <-> rt_isNativeOption raw = 1) /\ (native = true <-> is_Some rr) /\
  (ca = None <-> rt_closeAuthorityOption raw = 0).
Proof.
  intros Hn Hc.
  destruct (Z.eqb_spec (rt_isNativeOption raw) 1) as [En | En];
    [inv_bind Hn |]; injection Hn as <- <-;
    (split; [done | split; [by split; [| intros [? ?]] |] ]);
    destruct (Z.eqb_spec (rt_closeAuthorityOption raw) 0) as [Ec | Ec];
    solve [by injection Hc as <- | by destruct (newPublicKey _); [injection Hc as <- |] ].
Qed.

(** ** Properties *)

(** What [parseTokenAccount] returns is well formed and reads the flags of
    the layout as meant: a delegate, a reserve and a close authority are there
    exactly when their flags say so, nothing is delegated without a delegate, the
    amounts have 64 bits, and an account is initialised unless its state is 0 and
    frozen when it is 2. *)
Theorem token_account_well_formed (L : TokenLaws E) data a :
  parseTokenAccount data = Ok a ->
  exists raw, AccountLayout_decode data = Ok raw /\
    0 <= sa_amount a < 2 ^ 64 /\ 0 <= sa_delegatedAmount a < 2 ^ 64 /\
    (sa_delegate a = None <-> rt_delegateOption raw = 0) /\
    (sa_delegate a = None -> sa_delegatedAmount a = 0) /\
    (sa_isNative a = true <-> rt_isNativeOption raw = 1) /\
    (sa_isNative a = true <-> is_Some (sa_rentExemptReserve a)) /\
    (sa_closeAuthority a = None <-> rt_closeAuthorityOption raw = 0) /\
    (sa_isInitialized a = true <-> rt_state raw <> 0) /\
    (sa_isFrozen a = true <-> rt_state raw = 2).
Proof.
  intros H. unfold parseTokenAccount in H.
  apply bind_Ok_inv in H as (raw & Hraw & H). exists raw. split; [done |].
  do 3 inv_bind H.
  apply bind_Ok_inv in H as ([d da] & Hd & H). apply bind_Ok_inv in H as ([rr native] & Hn & H).
  apply bind_Ok_inv in H as (ca & Hc & H). injection H as <-. cbn.
  split; [eapply u64_range; eassumption |].
  destruct (native_and_closed raw rr native ca Hn Hc) as (N1 & N2 & N3).
  assert (0 <= da < 2 ^ 64 /\ (d = None <-> rt_delegateOption raw = 0) /\ (d = None -> da = 0))
    as (D1 & D2 & D3).
  { destruct (Z.eqb_spec (rt_delegateOption raw) 0) as [Ed | Ed].
    - injection Hd as <- <-. by split_and!.
    - do 2 inv_bind Hd. injection Hd as <- <-. split; [eapply u64_range; eassumption | done]. }
  split; [exact D1 |]. split; [exact D2 |]. do 4 (split; [assumption |]).
  split; [by rewrite negb_true_iff, Z.eqb_neq | apply Z.eqb_eq].
Qed.

(** A [subscribe] call registers the account's callback. If it returns, the
    getter gives the parsed account and [unsubscribe] takes back exactly that
    registration. If it throws, as it does for an account that does not exist,
    [unsubscribe] does nothing and the callback stays registered; calling
    [subscribe] again does not register a second one. *)
Theorem token_subscribe_outcomes (L : TokenLaws E) me id errorId timer load t ld :
  loader_inv ld -> ts_isSubscribed t = false -> truthyString (ts_callbackId t) = false ->
  truthyString (Some id) = true -> ~ registered ld (ts_publicKey t) id ->
  (forall l, same_accounts l (load l)) ->
  let '(t', ld', r) := tokenSubscribe me id errorId timer load t ld in
  registered ld' (ts_publicKey t) id /\
  (getAccountData (ts_publicKey t) ld' = None -> exists e, r = Throw e) /\
  match r with
  | Ok _ =>
      (exists a, parseTokenAccount (getAccountData (ts_publicKey t) ld') = Ok a /\
         getTokenAccount t' = Ok (Some a)) /\
      forall k i, registered (tokenUnsubscribe t' ld').2 k i <-> registered ld k i
  | Throw _ =>
      getTokenAccount t' = Throw NOT_SUBSCRIBED /\ tokenUnsubscribe t' ld' = (t', ld') /\
      forall id' errorId', tokenAddToAccountLoader me id' errorId' timer t' ld' = (t', ld')
  end.
Proof.
  intros Hi Hs Hc Hid Hfresh Hload. unfold tokenSubscribe. rewrite Hs.
  pose proof (fun k i => tokenAdd_registered me id errorId timer t ld k i Hi Hc) as H. cbn zeta in H.
  destruct (tokenAddToAccountLoader me id errorId timer t ld) as [t1 ld1]. cbn in H.
  destruct (H "" "")%string as (Hi1 & Hcb & Hecb & Hs1 & Hpk & _).
  pose proof (same_accounts_inv _ _ (Hload ld1) Hi1) as Hi2.
  assert (Hreg : forall k i, registered (load ld1) k i <->
    (k = ts_publicKey t /\ i = id) \/ registered ld k i).
  { intros k i. destruct (H k i) as (_ & _ & _ & _ & _ & <-).
    destruct (Hload ld1) as (Ha & Hh & _). by apply registered_same. }
  assert (Hthrow : forall a e, let t' := set_tokenAccount t1 a in
    registered (load ld1) (ts_publicKey t) id /\
    (getAccountData (ts_publicKey t) (load ld1) = None -> exists e', Throw e = @Throw bool e') /\
    getTokenAccount t' = Throw NOT_SUBSCRIBED /\ tokenUnsubscribe t' (load ld1) = (t', load ld1) /\
    forall id' errorId', tokenAddToAccountLoader me id' errorId' timer t' (load ld1) = (t', load ld1)).
  { intros a e t'. split_and!; [apply Hreg; tauto | by eexists | | |].
    - unfold getTokenAccount, assertTokenSubscribed. cbn. by rewrite Hs1, Hs.
    - unfold tokenUnsubscribe. cbn. by rewrite Hs1, Hs.
    - intros id' errorId'. unfold tokenAddToAccountLoader. cbn. by rewrite Hcb, Hid. }
  unfold tokenFetchDone. set (obs := tokenObserve _ _ _). cbn [set_tokenAccount ts_publicKey].
  rewrite Hpk. destruct (parseTokenAccount (getAccountData _ _)) as [a | e] eqn:Ep; [| apply Hthrow].
  destruct (token_emit me "update") as [e |]; [apply (Hthrow (Some a)) |].
  split_and!; [apply Hreg; tauto | | exists a; split; [done |]; by cbn |].
  - intros Hnone. rewrite Hnone in Ep. destruct decode_undefined as [e He].
    unfold parseTokenAccount in Ep. by rewrite He in Ep.
  - intros k i. unfold tokenUnsubscribe. cbn. rewrite Hcb, Hecb.
    change (registered (removeErrorCallbacks errorId ?l) k i) with (registered l k i).
    rewrite Hpk, registered_removeAccount by done. rewrite Hreg.
    split; [tauto |]. intros Hr. split; [| by right]. intros [-> ->]. done.
Qed.
End Token.
