(* ===== verification/Session.v ===== *)
(** * Sessions: the client, its account subscriber and their making
    (clearingHouse.ts, clearingHouseUser.ts, factory/)

    [ClearingHouse] and [ClearingHouseUser] delegate to an account subscriber
    chosen by a factory.  [AccountSource] is what they use of it,
    [AccountSourceLaws] what it promises; the four subscribers are its instances,
    and the client's theorems are proved against the interface. *)
From S2P Require Import Prelude BN Types Slots WebSocket Polling WsClearingHouse WsUser.
From S2P Require Import WsListeners WsFields Idl Client Admin ClientSpec.

#[local] Open Scope string_scope.

(** ** What a client uses of its subscriber *)
Class AccountSource (S Account : Type) := {
  src_isSubscribed : S -> bool;
  src_getter : string -> S -> result (option Account)
}.

(** Before a subscription every getter refuses; after one, the getters of the
    accounts [required] give what the subscriber has. *)
Class AccountSourceLaws (S Account : Type) {I : AccountSource S Account}
    (required : list string) := {
  src_valid : S -> Prop;
  src_refuses : forall s name, src_valid s -> src_isSubscribed s = false ->
    name ∈ required -> src_getter name s = Throw NOT_SUBSCRIBED;
  src_serves : forall s name, src_valid s -> src_isSubscribed s = true -> name ∈ required ->
    exists d, src_getter name s = Ok d
}.

Section Sources.
Context {Account : Type} {P : Program Account} {V : AccountViews Account}.

#[export] Instance polling_ch_source : AccountSource (ChPoller Account) Account := {|
  src_isSubscribed := fun c => pl_isSubscribed (cp_poller c);
  src_getter := fun name c => getField name (cp_poller c)
|}.
#[export] Instance polling_user_source : AccountSource (Poller Account) Account := {|
  src_isSubscribed := pl_isSubscribed;
  src_getter := getField
|}.
#[export] Instance ws_ch_source : AccountSource (WsClearingHouse Account) Account := {|
  src_isSubscribed := wc_isSubscribed;
  src_getter := fun name c =>
    if bool_decide (name = "state") then wsGetStateAccount c
    else if bool_decide (name = "markets") then wsGetMarketsAccount c
    else Throw TypeError
|}.
#[export] Instance ws_user_source : AccountSource (WsUser Account) Account := {|
  src_isSubscribed := wu_isSubscribed;
  src_getter := fun name u =>
    if bool_decide (name = "user") then wuGetUserAccount u
    else if bool_decide (name = "userPositions") then wuGetUserPositionsAccount u
    else Throw TypeError
|}.

Lemma getField_subscribed (p : Poller Account) name :
  (pl_isSubscribed p = false -> getField name p = Throw NOT_SUBSCRIBED) /\
  (pl_isSubscribed p = true -> exists d, getField name p = Ok d).
Proof.
  unfold getField, assertIsSubscribed. split; intros ->; [done | by eexists].
Qed.

#[export] Instance polling_ch_laws : AccountSourceLaws (ChPoller Account) Account ["state"; "markets"].
Proof.
  refine {| src_valid := fun _ => True |}; intros s name _ Hs _; by apply getField_subscribed.
Defined.
#[export] Instance polling_user_laws :
  AccountSourceLaws (Poller Account) Account ["user"; "userPositions"].
Proof.
  refine {| src_valid := fun _ => True |}; intros s name _ Hs _; by apply getField_subscribed.
Defined.

Lemma ws_field_served (c : WsClearingHouse Account) f : present c -> wc_isSubscribed c = true ->
  f ∈ ["stateAccountSubscriber"; "marketsAccountSubscriber"] -> exists d, fieldData f c = Ok d.
Proof.
  intros Hp E Hf. pose proof (prs_phase _ Hp E) as Hph.
  assert (Hn : f ∈ needed c).
  { unfold needed. rewrite Hph, E.
    repeat (apply elem_of_cons in Hf as [-> | Hf]; [by apply (bool_decide_unpack _) |]).
    by apply not_elem_of_nil in Hf. }
  destruct (prs_fields _ Hp f Hn) as [a Ha].
  destruct (lookup_lt_is_Some_2 (wc_objects c) a (prs_valid _ Hp f a Ha)) as [o Ho].
  unfold fieldData, fieldObject. rewrite Ha. cbn. rewrite Ho. cbn. by eexists.
Qed.

#[export] Instance ws_ch_laws : AccountSourceLaws (WsClearingHouse Account) Account ["state"; "markets"].
Proof.
  refine {| src_valid := present |}; intros s name Hv Hs Hn; cbn in Hs |- *;
    unfold wsGetStateAccount, wsGetMarketsAccount, assertSubscribed; rewrite Hs;
    repeat (apply elem_of_cons in Hn as [-> | Hn]); try (by apply not_elem_of_nil in Hn);
    first [done | by apply ws_field_served; [| | left]
      | apply ws_field_served; [done | done | right; by left]].
Defined.
End Sources.

(** ** The websocket user subscriber keeps its fields *)
Section WsUserPresent.
Context {Account : Type} {P : Program Account} {V : AccountViews Account}.
#[local] Abbreviation User := (WsUser Account).
Implicit Types (u : User).

(** A field is set to an object of the heap. *)
Definition has_object u (field : option nat) : Prop :=
  exists a, field = Some a /\ (a < length (wu_objects u))%nat.

Record wu_present u : Prop := {
  wup_user : wu_isSubscribed u = true -> has_object u (wu_userDataAccountSubscriber u);
  wup_positions : wu_isSubscribed u = true -> has_object u (wu_userPositionsAccountSubscriber u);
  wup_calls : forall a, AwaitPositions a ∈ wu_calls u ->
    has_object u (wu_userDataAccountSubscriber u) /\
    has_object u (wu_userPositionsAccountSubscriber u);
  wup_waiting : forall a, AwaitUser a ∈ wu_calls u -> has_object u (wu_userDataAccountSubscriber u)
}.

(** Same fields and flag, at least as many objects, no other waiting calls. *)
Lemma wu_present_weaken u u' : wu_present u ->
  (length (wu_objects u) <= length (wu_objects u'))%nat ->
  wu_userDataAccountSubscriber u' = wu_userDataAccountSubscriber u ->
  wu_userPositionsAccountSubscriber u' = wu_userPositionsAccountSubscriber u ->
  (wu_isSubscribed u' = true -> wu_isSubscribed u = true) -> wu_calls u' ⊆ wu_calls u ->
  wu_present u'.
Proof.
  intros [A B C D] Hl E1 E2 E3 E4.
  assert (G : forall f, has_object u f -> has_object u' f).
  { intros f (a & Ha & Hlt). exists a. split; [done | lia]. }
  split; rewrite ?E1, ?E2; [auto | auto | |].
  - intros a Ha. destruct (C a (E4 _ Ha)). auto.
  - intros a Ha. eauto.
Qed.

Lemma removeListener_same field u :
  length (wu_objects (removeListener field u)) = length (wu_objects u) /\
  wu_userDataAccountSubscriber (removeListener field u) = wu_userDataAccountSubscriber u /\
  wu_userPositionsAccountSubscriber (removeListener field u) = wu_userPositionsAccountSubscriber u /\
  wu_isSubscribed (removeListener field u) = wu_isSubscribed u /\
  wu_calls (removeListener field u) = wu_calls u.
Proof.
  unfold removeListener. destruct (userObject field u) as [[a o] |]; [| done].
  cbn. by rewrite length_insert.
Qed.

Lemma wuFetched_present me a r l u u' : wu_present u -> wuFetched me a r l u = Some u' -> wu_present u'.
Proof.
  intros Hp Hf. unfold wuFetched in Hf. apply bind_Some in Hf as (o & Ho & Hf).
  apply bind_Some in Hf as ([o' res] & _ & Hf).
  assert (W : forall cs, cs ⊆ wu_calls u ->
    wu_present (set_calls (set_objects u (<[a:=o']> (wu_objects u))) cs)).
  { intros cs Hcs. by apply (wu_present_weaken u); [| cbn; by rewrite length_insert | ..]. }
  assert (Hfil : forall x, filter (fun c => c <> x) (wu_calls u) ⊆ wu_calls u).
  { intros x y Hy. by apply list_elem_of_filter in Hy as [_ ?]. }
  case_decide as Hu; [| case_decide as Hq; [| done]].
  - destruct res as [[] | e]; injection Hf as <-; [| by apply W].
    specialize (W _ (Hfil (AwaitUser a))). set (u2 := set_calls _ _) in *.
    destruct (wup_waiting _ Hp a Hu) as (n & Hn & Hlt).
    unfold wuSubscribePositions.
    destruct (a ← wu_userDataAccountSubscriber u2; o ← wu_objects u2 !! a; objData o) as [d |];
      [| done].
    assert (Hl : length (wu_objects u2) = length (wu_objects u)) by (cbn; by rewrite length_insert).
    assert (G1 : has_object (mkWsUser (wu_objects u2 ++ [objSubscribe "userPositionsData"
        (newObject "userPositions" (ua_positions (as_user d)))])%list
      (wu_userDataAccountSubscriber u2) (Some (length (wu_objects u2))) (wu_isSubscribed u2)
      (wu_calls u2 ++ [AwaitPositions (length (wu_objects u2))])%list (wu_teardowns u2))
      (wu_userDataAccountSubscriber u2)).
    { exists n. split; [exact Hn |]. cbn. rewrite length_app, length_insert. cbn. lia. }
    split; cbn [wu_isSubscribed wu_userDataAccountSubscriber wu_userPositionsAccountSubscriber wu_calls];
      intros; repeat split; try exact G1; eexists; (split; [reflexivity |]);
      cbn; rewrite length_app; cbn; lia.
  - destruct (wup_calls _ Hp a Hq) as [H1 H2].
    destruct res as [[] | e]; injection Hf as <-; [| by apply W].
    specialize (W _ (Hfil (AwaitPositions a))). unfold wuSubscribeEnd.
    destruct (emit_run me "update"); [done |]. set (u2 := set_calls _ _) in *.
    assert (G : forall f, has_object u f -> has_object (set_userSubscribed u2 true) f).
    { intros f (x & Hx & Hlt). exists x. split; [done |]. cbn. by rewrite length_insert. }
    destruct W as [_ _ C D]. split; cbn; auto.
Qed.

Lemma wuStep_present me pk u act u' : wu_present u -> wuStep me pk u act = Some u' -> wu_present u'.
Proof.
  intros Hp Hs. destruct act as [| a r l | a l r | | a r | |]; cbn [wuStep] in Hs.
  - injection Hs as <-. unfold wuSubscribeStart. destruct (wu_isSubscribed u) eqn:E; [done |].
    destruct Hp as [_ _ C D].
    split; cbn [wu_isSubscribed wu_userDataAccountSubscriber wu_userPositionsAccountSubscriber wu_calls];
      try congruence.
    + intros x Hx. apply elem_of_app in Hx as [Hx | Hx%list_elem_of_singleton]; [| done].
      destruct (C x Hx) as [_ (y & Hy & Hlt)]. split.
      * eexists. split; [reflexivity |]. cbn. rewrite length_app. cbn. lia.
      * exists y. split; [done |]. cbn. rewrite length_app. lia.
    + intros x _. eexists. split; [reflexivity |]. cbn. rewrite length_app. cbn. lia.
  - by eapply wuFetched_present.
  - apply bind_Some in Hs as (o & _ & Hs). apply bind_Some in Hs as (o' & _ & Hs). injection Hs as <-.
    by apply (wu_present_weaken u); [| cbn; by rewrite length_insert | ..].
  - injection Hs as <-. unfold wuFetch. destruct (userObject _ u) as [[x o] |]; [| done].
    match goal with |- context [userObject ?f ?v] => destruct (userObject f v) as [[y o2] |] end; cbn;
      by apply (wu_present_weaken u); [| cbn; by rewrite ?length_insert | ..].
  - apply bind_Some in Hs as (o & _ & Hs). apply bind_Some in Hs as (o' & _ & Hs). injection Hs as <-.
    by apply (wu_present_weaken u); [| cbn; by rewrite length_insert | ..].
  - injection Hs as <-. unfold wuUnsubscribe. destruct (wu_isSubscribed u) eqn:E; [| done].
    destruct (removeListener_same (wu_userDataAccountSubscriber u) u) as (L1 & A1 & B1 & C1 & D1).
    set (u1 := removeListener (wu_userDataAccountSubscriber u) u) in *.
    destruct (removeListener_same (wu_userPositionsAccountSubscriber u1) u1) as (L2 & A2 & B2 & C2 & D2).
    set (u2 := removeListener (wu_userPositionsAccountSubscriber u1) u1) in *.
    apply (wu_present_weaken u); cbn; [done | lia | congruence | congruence | congruence |].
    by rewrite D2, D1.
  - unfold wuUnsubscribed in Hs. destruct (wu_teardowns u); [done |]. injection Hs as <-.
    by apply (wu_present_weaken u).
Qed.

Lemma wuRun_present me pk acts u u' : wu_present u -> wuRun me pk acts u = Some u' -> wu_present u'.
Proof.
  revert u. induction acts as [| act acts IH]; intros u Hp; cbn; [by intros [= <-] |].
  destruct (wuStep me pk u act) as [u1 |] eqn:E; cbn; [| done]. eauto using wuStep_present.
Qed.

Lemma newWsUser_present : wu_present (newWsUser (Account := Account)).
Proof. split; try done; by intros a ?%not_elem_of_nil. Qed.

#[export] Instance ws_user_laws : AccountSourceLaws User Account ["user"; "userPositions"].
Proof.
  refine {| src_valid := wu_present |}; intros s name Hv Hs Hn; cbn in Hs |- *;
    unfold wuGetUserAccount, wuGetUserPositionsAccount, wuGet; rewrite Hs;
    repeat (apply elem_of_cons in Hn as [-> | Hn]); try (by apply not_elem_of_nil in Hn); try done.
  - destruct (wup_user _ Hv Hs) as (a & Ha & Hlt).
    destruct (lookup_lt_is_Some_2 _ _ Hlt) as [o Ho].
    unfold userObject. rewrite Ha. cbn. rewrite Ho. by eexists.
  - destruct (wup_positions _ Hv Hs) as (a & Ha & Hlt).
    destruct (lookup_lt_is_Some_2 _ _ Hlt) as [o Ho].
    unfold userObject. rewrite Ha. cbn. rewrite Ho. by eexists.
Defined.
End WsUserPresent.
