(* ===== verification/ClientSession.v ===== *)
(** * The client on top of its subscriber (clearingHouse.ts, clearingHouseUser.ts,
    factory/)

    What the factories build, the subscription flag of [ClearingHouse] and
    [ClearingHouseUser], and the client's methods reading the accounts of a
    subscriber, all against the interface of Session.v. *)
From S2P Require Import Prelude BN Types Slots WebSocket Polling WsClearingHouse WsUser.
From S2P Require Import WsFields Idl Client Admin ClientSpec Session.

#[local] Open Scope string_scope.

(** ** Factories *)
Inductive ConfigType := websocket | polling | custom.

Inductive TxSender :=
  | DefaultTxSender (wallet : PublicKey)   (** of a provider of that wallet *)
  | GivenTxSender (name : string).

(** The configuration objects; a missing [opts] takes the provider's defaults
    when the configuration is made. *)
Record ClearingHouseConfig := mkChConfig {
  cc_type : ConfigType;
  cc_wallet : PublicKey;
  cc_programID : PublicKey;
  cc_opts : string;
  cc_txSender : option TxSender
}.

Definition getWebSocketClearingHouseConfig (defaultOptions : string) (wallet programID : PublicKey)
    (opts : option string) (txSender : option TxSender) : ClearingHouseConfig :=
  mkChConfig websocket wallet programID (default defaultOptions opts) txSender.
Definition getPollingClearingHouseConfig (defaultOptions : string) (wallet programID : PublicKey)
    (opts : option string) (txSender : option TxSender) : ClearingHouseConfig :=
  mkChConfig polling wallet programID (default defaultOptions opts) txSender.

(** The two subscribers a factory can choose. *)
Inductive ChSubscriber (Account : Type) :=
  | WebSocketCh (c : WsClearingHouse Account)
  | PollingCh (c : ChPoller Account).
Arguments WebSocketCh {Account}.
Arguments PollingCh {Account}.
Inductive UserSubscriber (Account : Type) :=
  | WebSocketUser (u : WsUser Account)
  | PollingUser (u : Poller Account).
Arguments WebSocketUser {Account}.
Arguments PollingUser {Account}.

(** A [ClearingHouse] (or [Admin]) object and a [ClearingHouseUser] object with
    their subscriber and the flag [_isSubscribed]. *)
Record ChSession (S : Type) := mkChSession {
  ses_client : Client;
  ses_subscriber : S;
  ses_flag : bool;
  ses_txSender : TxSender;
  ses_opts : string
}.
Arguments mkChSession {S}.
Arguments ses_client {S}.
Arguments ses_subscriber {S}.
Arguments ses_flag {S}.
Arguments ses_txSender {S}.
Arguments ses_opts {S}.

Record UserSession (S : Type) := mkUserSession {
  us_authority : PublicKey;
  us_subscriber : S;
  us_flag : bool;
  us_userAccountPublicKey : option PublicKey
}.
Arguments mkUserSession {S}.
Arguments us_authority {S}.
Arguments us_subscriber {S}.
Arguments us_flag {S}.
Arguments us_userAccountPublicKey {S}.

(** The constructor *)
Definition newUserSession {S} (authority : PublicKey) (accountSubscriber : S) : UserSession S :=
  mkUserSession authority accountSubscriber false None.

Section Factories.
Context {Account : Type} {P : Program Account} {V : AccountViews Account}.

(** The subscriber of a configuration's type; the constructors of the clients
    read the emitter of an undefined one. *)
Definition chSubscriberOf (type : ConfigType) : result (ChSubscriber Account) :=
  match type with
  | websocket => Ok (WebSocketCh newWsCh)
  | polling => Ok (PollingCh newChPoller)
  | custom => Throw TypeError
  end.
Definition userSubscriberOf (type : ConfigType) : result (UserSubscriber Account) :=
  match type with
  | websocket => Ok (WebSocketUser newWsUser)
  | polling => Ok (PollingUser newPoller)
  | custom => Throw TypeError
  end.

(** [getClearingHouse], [getAdmin]; [ClearingHouse.from] *)
Definition getClearingHouse (config : ClearingHouseConfig) : result (ChSession (ChSubscriber Account)) :=
  accountSubscriber ← chSubscriberOf (cc_type config);
  let txSender := default (DefaultTxSender (cc_wallet config)) (cc_txSender config) in
  Ok (mkChSession (newClient (cc_programID config) (cc_wallet config)) accountSubscriber false
        txSender (cc_opts config)).
Definition clearingHouseFrom (defaultOptions : string) (wallet programID : PublicKey)
    (opts : option string) : result (ChSession (ChSubscriber Account)) :=
  getClearingHouse (getWebSocketClearingHouseConfig defaultOptions wallet programID opts None).

(** [getClearingHouseUser]; [ClearingHouseUser.from] throws a string for a client
    that polls. *)
Definition getClearingHouseUser (type : ConfigType) (authority : PublicKey)
    : result (UserSession (UserSubscriber Account)) :=
  accountSubscriber ← userSubscriberOf type;
  Ok (newUserSession authority accountSubscriber).
Definition clearingHouseUserFrom (clearingHouse : ChSession (ChSubscriber Account))
    (authority : PublicKey) : result (UserSession (UserSubscriber Account)) :=
  match ses_subscriber clearingHouse with
  | WebSocketCh _ => getClearingHouseUser websocket authority
  | PollingCh _ => Throw (JsErr "This method only works for clearing houses with a websocket account listener. Try using the getClearingHouseUser factory method to initialize a ClearingHouseUser instead")
  end.

#[export] Instance ch_source : AccountSource (ChSubscriber Account) Account := {|
  src_isSubscribed := fun s =>
    match s with
    | WebSocketCh c => src_isSubscribed (Account := Account) c
    | PollingCh c => src_isSubscribed (Account := Account) c
    end;
  src_getter := fun name s =>
    match s with WebSocketCh c => src_getter name c | PollingCh c => src_getter name c end
|}.
#[export] Instance ch_laws : AccountSourceLaws (ChSubscriber Account) Account ["state"; "markets"].
Proof.
  refine {| src_valid := fun s =>
    match s with
    | WebSocketCh c => src_valid (AccountSourceLaws := ws_ch_laws) c
    | PollingCh c => src_valid (AccountSourceLaws := polling_ch_laws) c
    end |}; intros [c | c] name; cbn [src_isSubscribed src_getter ch_source].
  - apply (src_refuses (AccountSourceLaws := ws_ch_laws)).
  - apply (src_refuses (AccountSourceLaws := polling_ch_laws)).
  - apply (src_serves (AccountSourceLaws := ws_ch_laws)).
  - apply (src_serves (AccountSourceLaws := polling_ch_laws)).
Defined.
#[export] Instance user_source : AccountSource (UserSubscriber Account) Account := {|
  src_isSubscribed := fun s =>
    match s with
    | WebSocketUser u => src_isSubscribed (Account := Account) u
    | PollingUser u => src_isSubscribed (Account := Account) u
    end;
  src_getter := fun name s =>
    match s with WebSocketUser u => src_getter name u | PollingUser u => src_getter name u end
|}.
#[export] Instance user_laws :
  AccountSourceLaws (UserSubscriber Account) Account ["user"; "userPositions"].
Proof.
  refine {| src_valid := fun s =>
    match s with
    | WebSocketUser u => src_valid (AccountSourceLaws := ws_user_laws) u
    | PollingUser u => src_valid (AccountSourceLaws := polling_user_laws) u
    end |}; intros [c | c] name; cbn [src_isSubscribed src_getter user_source].
  - apply (src_refuses (AccountSourceLaws := ws_user_laws)).
  - apply (src_refuses (AccountSourceLaws := polling_user_laws)).
  - apply (src_serves (AccountSourceLaws := ws_user_laws)).
  - apply (src_serves (AccountSourceLaws := polling_user_laws)).
Defined.
End Factories.

(** ** The histories

    The getters of a [ClearingHouse] for the optional accounts, each its subscriber's. *)
Section Histories.
Context {Account : Type} {P : Program Account} {V : AccountViews Account}.
Implicit Types (x : ChSession (ChSubscriber Account)).

Definition sessionGetFundingPaymentHistoryAccount x : result (option Account) :=
  match ses_subscriber x with
  | WebSocketCh c => wsGetFundingPaymentHistoryAccount c
  | PollingCh c => getFundingPaymentHistoryAccount c
  end.
Definition sessionGetFundingRateHistoryAccount x : result (option Account) :=
  match ses_subscriber x with
  | WebSocketCh c => wsGetFundingRateHistoryAccount c
  | PollingCh c => getFundingRateHistoryAccount c
  end.
Definition sessionGetTradeHistoryAccount x : result (option Account) :=
  match ses_subscriber x with
  | WebSocketCh c => wsGetTradeHistoryAccount c
  | PollingCh c => getTradeHistoryAccount c
  end.
Definition sessionGetLiquidationHistoryAccount x : result (option Account) :=
  match ses_subscriber x with
  | WebSocketCh c => wsGetLiquidationHistoryAccount c
  | PollingCh c => getLiquidationHistoryAccount c
  end.
Definition sessionGetDepositHistoryAccount x : result (option Account) :=
  match ses_subscriber x with
  | WebSocketCh c => wsGetDepositHistoryAccount c
  | PollingCh c => getDepositHistoryAccount c
  end.
Definition sessionGetCurveHistoryAccount x : result (option Account) :=
  match ses_subscriber x with
  | WebSocketCh c => wsGetCurveHistoryAccount c
  | PollingCh c => getCurveHistoryAccount c
  end.
End Histories.

(** ** The subscription flag *)

(** What happens to a session: its subscriber moves on its own, and calls of
    [subscribe] and [unsubscribe] return. *)
Inductive SessionAction (S : Type) :=
  | Moves (s' : S)
  | SubscribeReturns (r : result bool)
  | UnsubscribeReturns (r : result unit).
Arguments Moves {S}.
Arguments SubscribeReturns {S}.
Arguments UnsubscribeReturns {S}.

Section Sessions.
Context {Account S : Type} {I : AccountSource S Account}.
Implicit Types (x : ChSession S).

(** The getter [isSubscribed] *)
Definition sessionIsSubscribed x : bool := ses_flag x && src_isSubscribed (ses_subscriber x).

Definition set_flag x b : ChSession S :=
  mkChSession (ses_client x) (ses_subscriber x) b (ses_txSender x) (ses_opts x).

(** The ends of [subscribe] and [unsubscribe]: the flag is assigned, and
    [subscribe] reads it back through the getter. *)
Definition sessionSubscribed (r : result bool) x : ChSession S * result bool :=
  match r with
  | Throw e => (x, Throw e)
  | Ok b => (set_flag x b, Ok (sessionIsSubscribed (set_flag x b)))
  end.
Definition sessionUnsubscribed (r : result unit) x : ChSession S * result unit :=
  match r with Throw e => (x, Throw e) | Ok _ => (set_flag x false, Ok tt) end.

Definition sessionStep x (a : SessionAction S) : ChSession S :=
  match a with
  | Moves s' => mkChSession (ses_client x) s' (ses_flag x) (ses_txSender x) (ses_opts x)
  | SubscribeReturns r => (sessionSubscribed r x).1
  | UnsubscribeReturns r => (sessionUnsubscribed r x).1
  end.

(** [getStateAccount], [getMarketsAccount]: delegated *)
Definition sessionGetStateAccount x : result (option Account) := src_getter "state" (ses_subscriber x).
Definition sessionGetMarketsAccount x : result (option Account) :=
  src_getter "markets" (ses_subscriber x).

(** [subscribeToAll]: the accounts it asks for *)
Definition subscribeToAllNames : list string :=
  ["curveHistoryAccount"; "depositHistoryAccount"; "fundingPaymentHistoryAccount";
   "fundingRateHistoryAccount"; "liquidationHistoryAccount"; "tradeHistoryAccount"].

(** The environment of a client's methods that reads this subscriber. *)
Context {V : AccountViews Account}.
Variable as_markets : Account -> MarketsAccount.
Definition sourceChain (chain : Chain) (s : S) : Chain :=
  mkChain (findProgramAddress chain) (getAssociatedTokenAddress chain) (fetchUser chain)
    (fetchUserPositions chain)
    (d ← src_getter "state" s; a ← deref d; Ok (as_state a))
    (d ← src_getter "markets" s; a ← deref d; Ok (as_markets a))
    (TOKEN_PROGRAM_ID chain) (SYSVAR_RENT_PUBKEY chain) (SystemProgram_programId chain).
End Sessions.

(** ** The user's object

    The subscription of a [ClearingHouseUser] and what it delegates to its subscriber. *)
Inductive UserSessionAction (S : Type) :=
  | UserMoves (s' : S)
  | UserSubscribeReturns (house own : result bool)
  | UserUnsubscribeReturns (r : result unit).
Arguments UserMoves {S}.
Arguments UserSubscribeReturns {S}.
Arguments UserUnsubscribeReturns {S}.

Section UserOperations.
Context {Account S : Type} {I : AccountSource S Account}.
Implicit Types (x : UserSession S).

(** The getter and the setter [isSubscribed] *)
Definition userIsSubscribed x : bool := us_flag x && src_isSubscribed (us_subscriber x).
Definition set_user_flag x b : UserSession S :=
  mkUserSession (us_authority x) (us_subscriber x) b (us_userAccountPublicKey x).

(** [subscribe] awaits the client's own subscription first, whose answer it
    drops; [own] is what the user's subscriber answers. *)
Definition userSubscribed (house own : result bool) x : UserSession S * result bool :=
  match house, own with
  | Throw e, _ | Ok _, Throw e => (x, Throw e)
  | Ok _, Ok b => (set_user_flag x b, Ok (userIsSubscribed (set_user_flag x b)))
  end.
Definition userUnsubscribed (r : result unit) x : UserSession S * result unit :=
  match r with Throw e => (x, Throw e) | Ok _ => (set_user_flag x false, Ok tt) end.

Definition userGetUserAccount x : result (option Account) := src_getter "user" (us_subscriber x).
Definition userGetUserPositionsAccount x : result (option Account) :=
  src_getter "userPositions" (us_subscriber x).

Definition userStep x (a : UserSessionAction S) : UserSession S :=
  match a with
  | UserMoves s' => mkUserSession (us_authority x) s' (us_flag x) (us_userAccountPublicKey x)
  | UserSubscribeReturns house own => (userSubscribed house own x).1
  | UserUnsubscribeReturns r => (userUnsubscribed r x).1
  end.
End UserOperations.

(** [getUserAccountPublicKey], [exists] of a [ClearingHouseUser]; [programId] is
    the client's program, [found] whether an account is found *)
Section UserSession.
Context {S : Type}.
Definition sessionUserAccountPublicKey (chain : Chain) (programId : PublicKey) (x : UserSession S)
    : UserSession S * PublicKey :=
  match us_userAccountPublicKey x with
  | Some k => (x, k)
  | None =>
      let k := getUserAccountPublicKeyAt chain programId (us_authority x) in
      (mkUserSession (us_authority x) (us_subscriber x) (us_flag x) (Some k), k)
  end.
Definition userExists (chain : Chain) (programId : PublicKey) (found : PublicKey -> result bool)
    (x : UserSession S) : UserSession S * result bool :=
  let '(x', k) := sessionUserAccountPublicKey chain programId x in (x', found k).
End UserSession.

(** ** Methods that throw *)
Definition throws {A} (m : Method A) : Prop := forall c, exists e, (m c).2 = Throw e.

Lemma throws_lift {A} e : throws (lift (Throw (A := A) e)).
Proof. intros c. by eexists. Qed.
Lemma throws_bind_l {A C} (m : Method A) (f : A -> Method C) : throws m -> throws (m ≫= f).
Proof.
  intros Hm c. destruct (Hm c) as [e He]. unfold mbind, Method_bind.
  destruct (m c) as [c' r]. cbn in He. subst r. by eexists.
Qed.
Lemma throws_bind_r {A C} (m : Method A) (f : A -> Method C) :
  (forall a, throws (f a)) -> throws (m ≫= f).
Proof.
  intros Hf c. unfold mbind, Method_bind. destruct (m c) as [c' [a | e]]; [apply Hf | by eexists].
Qed.

(** Follow the binds to a read that throws, [E] giving what is read. *)
Ltac throwing E1 E2 :=
  repeat first
    [ rewrite E1; apply throws_bind_l, throws_lift
    | rewrite E2; apply throws_bind_l, throws_lift
    | apply throws_bind_l; solve [autounfold with client; throwing E1 E2]
    | apply throws_bind_r; intros ?
    | match goal with |- throws (let '(_, _) := ?x in _) => destruct x end ].

(** ** Properties *)
Section SessionProperties.
Context {Account S : Type} {I : AccountSource S Account}
  {L : AccountSourceLaws S Account ["state"; "markets"] } {V : AccountViews Account}.
Context {B : BNLib} (as_markets : Account -> MarketsAccount).

(** Against any subscriber that keeps the interface, a client that says it is
    subscribed can read the state and the markets, whatever its subscriber and the
    calls of [subscribe] and [unsubscribe] did before; a [subscribe] that returns
    true left it so, and after [unsubscribe] it says it is not. *)
Theorem session_serves_when_subscribed acts (x0 : ChSession S) :
  src_valid (ses_subscriber x0) ->
  Forall (fun a => match a with Moves s' => src_valid s' | _ => True end) acts ->
  let x := foldl sessionStep x0 acts in
  (sessionIsSubscribed x = true ->
     (exists d, sessionGetStateAccount x = Ok d) /\ (exists d, sessionGetMarketsAccount x = Ok d)) /\
  (forall r, (sessionSubscribed r x).2 = Ok true ->
     sessionIsSubscribed (sessionSubscribed r x).1 = true) /\
  (forall x', sessionUnsubscribed (Ok tt) x = (x', Ok tt) -> sessionIsSubscribed x' = false).
Proof.
  intros Hv Ha x.
  assert (Hx : src_valid (ses_subscriber x)).
  { unfold x. clear x. revert x0 Hv. induction Ha as [| a acts Ha _ IH]; intros x0 Hv; [done |].
    cbn. apply IH. destruct a as [s' | [b |] | [u |]]; cbn; done. }
  split_and!.
  - intros E. apply andb_true_iff in E as [_ E].
    split; apply src_serves; try done; [by left | right; by left].
  - intros [b | e]; cbn; [| done]. by intros [= ->].
  - by intros x' [= <-].
Qed.

(** The transaction of [deleteUser] for the user's account [user]. *)
Definition deletion (chain : Chain) (c : Client) (user : UserAccount) : Transaction :=
  wrapInTx {|
    ix_name := "deleteUser";
    ix_args := [];
    ix_accounts :=
      [("user", default (getUserAccountPublicKeyAt chain (cl_programId c) (cl_wallet c))
                  (cl_userAccountPublicKey c));
       ("userPositions", ua_positions user);
       ("authority", cl_wallet c)]%string;
    ix_remainingAccounts := [] |}.

(** C36: What a client can send while its subscriber is not subscribed: every method but
    [deleteUser] throws before it builds a transaction, whatever else it reads and has
    cached; [deleteUser], which reads no subscribed account, fetches the user's account
    itself and sends the deletion exactly when the fetch succeeds. *)
Theorem unsubscribed_client_only_deletes chain (s : S) call c :
  src_valid s -> src_isSubscribed s = false ->
  let r := (perform (sourceChain as_markets chain s) call c).2 in
  match call with
  | CDeleteUser =>
      r = (user ← fetchUser chain (default (getUserAccountPublicKeyAt chain (cl_programId c) (cl_wallet c))
                                     (cl_userAccountPublicKey c));
           Ok [deletion chain c user])
  | _ => exists e, r = Throw e
  end.
Proof.
  intros Hv Hs. cbn zeta.
  pose proof (src_refuses s "state" Hv Hs ltac:(by left)) as E1.
  pose proof (src_refuses s "markets" Hv Hs ltac:(right; by left)) as E2.
  assert (S1 : subscribedState (sourceChain as_markets chain s) = Throw NOT_SUBSCRIBED)
    by (cbn; by rewrite E1).
  assert (S2 : subscribedMarkets (sourceChain as_markets chain s) = Throw NOT_SUBSCRIBED)
    by (cbn; by rewrite E2).
  destruct call;
    try (revert c; generalize dependent (sourceChain as_markets chain s); intros ch S1 S2;
         match goal with |- forall c, exists e, (?m c).2 = _ => change (throws m) end;
         cbn [perform]; autounfold with client; throwing S1 S2).
  cbn [perform]. unfold deletion, deleteUser, getUserAccountPublicKey, mbind, Method_bind, lift, gets, mret, Method_ret.
  destruct (cl_userAccountPublicKey c) as [k |]; cbn; by destruct (fetchUser chain _).
Qed.
End SessionProperties.

Section UserProperties.
Context {Account S : Type} {I : AccountSource S Account}
  {L : AccountSourceLaws S Account ["user"; "userPositions"] }.

(** Likewise a user's object that says it is subscribed serves the user and the positions,
    and one whose subscriber is not subscribed serves neither, whatever its flag. *)
Theorem user_serves_when_subscribed acts (x0 : UserSession S) :
  src_valid (us_subscriber x0) ->
  Forall (fun a => match a with UserMoves s' => src_valid s' | _ => True end) acts ->
  let x := foldl userStep x0 acts in
  (userIsSubscribed x = true ->
     (exists d, userGetUserAccount x = Ok d) /\ (exists d, userGetUserPositionsAccount x = Ok d)) /\
  (src_isSubscribed (us_subscriber x) = false ->
     userIsSubscribed x = false /\ userGetUserAccount x = Throw NOT_SUBSCRIBED /\
     userGetUserPositionsAccount x = Throw NOT_SUBSCRIBED) /\
  (forall house own, (userSubscribed house own x).2 = Ok true ->
     userIsSubscribed (userSubscribed house own x).1 = true) /\
  (forall x', userUnsubscribed (Ok tt) x = (x', Ok tt) -> userIsSubscribed x' = false).
Proof.
  intros Hv Ha x.
  assert (Hx : src_valid (us_subscriber x)).
  { unfold x. clear x. revert x0 Hv. induction Ha as [| a acts Ha _ IH]; intros x0 Hv; [done |].
    cbn. apply IH. destruct a as [s' | [h |] [b |] | [u |]]; cbn; done. }
  split_and!.
  - intros E. apply andb_true_iff in E as [_ E].
    split; apply src_serves; try done; [by left | right; by left].
  - intros E. unfold userIsSubscribed. rewrite E, andb_false_r.
    split_and!; [done | apply src_refuses; try done; by left | apply src_refuses; try done; right; by left].
  - intros [h |] [b |]; cbn; try done. by intros [= ->].
  - by intros x' [= <-].
Qed.
End UserProperties.

Section FactoryProperties.
Context {Account : Type} {P : Program Account} {V : AccountViews Account}.

(** What the factories build: for the two known types a client of the wallet
    and program given, with the sender given or the default one, not subscribed,
    and with a subscriber that keeps the interface, then and after any run of the
    websocket one; for another type they throw. [ClearingHouseUser.from] takes a
    client with a websocket subscriber only. *)
Theorem factories_build_sessions (config : ClearingHouseConfig) (authority : PublicKey) :
  match getClearingHouse (Account := Account) config with
  | Ok x =>
      cc_type config <> custom /\ sessionIsSubscribed x = false /\ src_valid (ses_subscriber x) /\
      sessionGetStateAccount x = Throw NOT_SUBSCRIBED /\
      cl_wallet (ses_client x) = cc_wallet config /\ cl_programId (ses_client x) = cc_programID config /\
      ses_txSender x = default (DefaultTxSender (cc_wallet config)) (cc_txSender config) /\
      (forall me spk acts c, wchRun me spk acts newWsCh = Some c ->
         src_valid (AccountSourceLaws := ch_laws) (WebSocketCh c)) /\
      match clearingHouseUserFrom x authority with
      | Ok u => cc_type config = websocket /\ src_valid (us_subscriber u) /\
          src_isSubscribed (Account := Account) (us_subscriber u) = false
      | Throw _ => cc_type config = polling
      end
  | Throw e => cc_type config = custom /\ e = TypeError
  end.
Proof.
  destruct config as [[] w p o t]; cbn; split_and!; try done.
  all: first [apply new_present | apply newWsUser_present
    | intros me spk acts c Hrun; by apply (run_present me spk acts newWsCh c new_present)].
Qed.
End FactoryProperties.
