(* ===== verification/AccountTypes.v ===== *)
(** * The accounts' types (types.ts, idl/clearing_house.json)

    The types the SDK declares for the program's accounts, the layouts of the IDL by which
    anchor anchor_decodes them, and whether what is decoded has the type declared. *)
From S2P Require Import Prelude BN Types.

#[local] Open Scope string_scope.

(** ** Types, layouts and values

    TypeScript types; an object's carries the name it is declared by.  A type such as
    [{ long?: any; short?: any }] is that of an enum's variants. *)
Inductive TsType :=
  | TsBN | TsPublicKey | TsBoolean | TsNumber
  | TsEnum (variants : list string)
  | TsArray (t : TsType)
  | TsObject (name : string) (fields : list (string * TsType)).

(** Types of the IDL; a variant by the name anchor gives it in camel case. *)
Inductive Layout :=
  | LU8 | LU64 | LU128 | LI64 | LI128 | LBool | LPublicKey
  | LEnum (variants : list string)
  | LArray (l : Layout) (n : nat)
  | LStruct (fields : list (string * Layout)).

(** Decoded values. *)
Inductive JsVal :=
  | VBN (z : Z) | VKey (k : PublicKey) | VBool (b : bool) | VNumber (z : Z)
  | VEnum (variant : string)
  | VArray (vs : list JsVal)
  | VObject (fields : list (string * JsVal)).

(** The field of an object. *)
Definition field {A} (name : string) (fields : list (string * A)) : option A :=
  snd ∘ snd <$> list_find (fun f => f.1 = name) fields.

(** What anchor anchor_decodes: a number for a [u8], BNs of the width for the wider integers,
    an object of the struct's fields in their order. *)
Fixpoint anchor_decodes (l : Layout) (v : JsVal) : Prop :=
  match l, v with
  | LU8, VNumber z => 0 <= z < 2 ^ 8
  | LU64, VBN z => 0 <= z < 2 ^ 64
  | LU128, VBN z => 0 <= z < 2 ^ 128
  | LI64, VBN z => - 2 ^ 63 <= z < 2 ^ 63
  | LI128, VBN z => - 2 ^ 127 <= z < 2 ^ 127
  | LBool, VBool _ | LPublicKey, VKey _ => True
  | LEnum names, VEnum c => c ∈ names
  | LArray l n, VArray vs => length vs = n /\ Forall (anchor_decodes l) vs
  | LStruct ls, VObject vs =>
      (fix fields (ls : list (string * Layout)) (vs : list (string * JsVal)) : Prop :=
         match ls, vs with
         | [], [] => True
         | (n, l) :: ls, (n', v) :: vs => n' = n /\ anchor_decodes l v /\ fields ls vs
         | _, _ => False
         end) ls vs
  | _, _ => False
  end.

(** The values of a type, but for fields [(object, field)] that are [absent]. *)
Fixpoint has_type (absent : list (string * string)) (t : TsType) (v : JsVal) : Prop :=
  match t, v with
  | TsBN, VBN _ | TsPublicKey, VKey _ | TsBoolean, VBool _ | TsNumber, VNumber _ => True
  | TsEnum names, VEnum c => c ∈ names
  | TsArray t, VArray vs => Forall (has_type absent t) vs
  | TsObject o ts, VObject vs =>
      (fix fields (ts : list (string * TsType)) : Prop :=
         match ts with
         | [] => True
         | (n, t) :: ts =>
             ((o, n) ∈ absent \/ match field n vs with Some v => has_type absent t v | None => False end) /\
             fields ts
         end) ts
  | _, _ => False
  end.

(** The comparison of a type with a layout. *)
Fixpoint agrees (absent : list (string * string)) (t : TsType) (l : Layout) : bool :=
  match t, l with
  | TsBN, (LU64 | LU128 | LI64 | LI128) | TsPublicKey, LPublicKey | TsBoolean, LBool | TsNumber, LU8 => true
  | TsEnum names, LEnum variants => bool_decide (Forall (fun c => c ∈ names) variants)
  | TsArray t, LArray l _ => agrees absent t l
  | TsObject o ts, LStruct ls =>
      (fix fields (ts : list (string * TsType)) : bool :=
         match ts with
         | [] => true
         | (n, t) :: ts =>
             (bool_decide ((o, n) ∈ absent) || match field n ls with Some l => agrees absent t l | None => false end)
             && fields ts
         end) ts
  | _, _ => false
  end.

(** ** types.ts *)
Definition DepositRecord_ts : TsType := TsObject "DepositRecord" [
  ("ts", TsBN); ("recordId", TsBN); ("userAuthority", TsPublicKey); ("user", TsPublicKey);
  ("direction", TsEnum ["deposit"; "withdraw"]); ("collateralBefore", TsBN);
  ("cumulativeDepositsBefore", TsBN); ("amount", TsBN)].

Definition ExtendedCurveRecord_ts : TsType := TsObject "ExtendedCurveRecord" [
  ("ts", TsBN); ("recordId", TsBN); ("marketIndex", TsBN); ("pegMultiplierBefore", TsBN);
  ("baseAssetReserveBefore", TsBN); ("quoteAssetReserveBefore", TsBN); ("sqrtKBefore", TsBN);
  ("pegMultiplierAfter", TsBN); ("baseAssetReserveAfter", TsBN);
  ("quoteAssetReserveAfter", TsBN); ("sqrtKAfter", TsBN); ("baseAssetAmountLong", TsBN);
  ("baseAssetAmountShort", TsBN); ("baseAssetAmount", TsBN); ("openInterest", TsBN);
  ("oraclePrice", TsBN); ("tradeId", TsBN)].

Definition TradeRecord_ts : TsType := TsObject "TradeRecord" [
  ("ts", TsBN); ("recordId", TsBN); ("userAuthority", TsPublicKey); ("user", TsPublicKey);
  ("direction", TsEnum ["long"; "short"]); ("baseAssetAmount", TsBN);
  ("quoteAssetAmount", TsBN); ("markPriceBefore", TsBN); ("markPriceAfter", TsBN);
  ("fee", TsBN); ("referrerReward", TsBN); ("refereeDiscount", TsBN); ("tokenDiscount", TsBN);
  ("marketIndex", TsBN); ("liquidation", TsBoolean); ("oraclePrice", TsBN)].

Definition FundingRateRecord_ts : TsType := TsObject "FundingRateRecord" [
  ("ts", TsBN); ("recordId", TsBN); ("marketIndex", TsBN); ("fundingRate", TsBN);
  ("cumulativeFundingRateLong", TsBN); ("cumulativeFundingRateShort", TsBN);
  ("oraclePriceTwap", TsBN); ("markPriceTwap", TsBN)].

Definition FundingPaymentRecord_ts : TsType := TsObject "FundingPaymentRecord" [
  ("ts", TsBN); ("recordId", TsBN); ("userAuthority", TsPublicKey); ("user", TsPublicKey);
  ("marketIndex", TsBN); ("fundingPayment", TsBN); ("baseAssetAmount", TsBN);
  ("userLastCumulativeFunding", TsBN); ("userLastFundingRateTs", TsBN);
  ("ammCumulativeFundingLong", TsBN); ("ammCumulativeFundingShort", TsBN)].

Definition LiquidationRecord_ts : TsType := TsObject "LiquidationRecord" [
  ("ts", TsBN); ("recordId", TsBN); ("userAuthority", TsPublicKey); ("user", TsPublicKey);
  ("partial", TsBoolean); ("baseAssetValue", TsBN); ("baseAssetValueClosed", TsBN);
  ("liquidationFee", TsBN); ("feeToLiquidator", TsBN); ("feeToInsuranceFund", TsBN);
  ("liquidator", TsPublicKey); ("totalCollateral", TsBN); ("collateral", TsBN);
  ("unrealizedPnl", TsBN); ("marginRatio", TsBN)].

Definition TradeHistoryAccount_ts : TsType := TsObject "TradeHistoryAccount" [
  ("head", TsBN); ("tradeRecords", TsArray TradeRecord_ts)].

Definition DepositHistoryAccount_ts : TsType := TsObject "DepositHistoryAccount" [
  ("head", TsBN); ("depositRecords", TsArray DepositRecord_ts)].

Definition ExtendedCurveHistoryAccount_ts : TsType := TsObject "ExtendedCurveHistoryAccount" [
  ("head", TsBN); ("curveRecords", TsArray ExtendedCurveRecord_ts)].

Definition FundingRateHistoryAccount_ts : TsType := TsObject "FundingRateHistoryAccount" [
  ("head", TsBN); ("fundingRateRecords", TsArray FundingRateRecord_ts)].

Definition FundingPaymentHistoryAccount_ts : TsType := TsObject "FundingPaymentHistoryAccount" [
  ("head", TsBN); ("fundingPaymentRecords", TsArray FundingPaymentRecord_ts)].

Definition LiquidationHistoryAccount_ts : TsType := TsObject "LiquidationHistoryAccount" [
  ("head", TsBN); ("liquidationRecords", TsArray LiquidationRecord_ts)].

Definition FeeStructure_ts : TsType := TsObject "FeeStructure" [
  ("feeNumerator", TsBN); ("feeDenominator", TsBN);
  ("discountTokenTiers", TsObject "FeeStructure.discountTokenTiers" [("firstTier", TsObject "FeeStructure.discountTokenTiers.firstTier" [("minimumBalance", TsBN); ("discountNumerator", TsBN); ("discountDenominator", TsBN)]); ("secondTier", TsObject "FeeStructure.discountTokenTiers.secondTier" [("minimumBalance", TsBN); ("discountNumerator", TsBN); ("discountDenominator", TsBN)]); ("thirdTier", TsObject "FeeStructure.discountTokenTiers.thirdTier" [("minimumBalance", TsBN); ("discountNumerator", TsBN); ("discountDenominator", TsBN)]); ("fourthTier", TsObject "FeeStructure.discountTokenTiers.fourthTier" [("minimumBalance", TsBN); ("discountNumerator", TsBN); ("discountDenominator", TsBN)])]);
  ("referralDiscount", TsObject "FeeStructure.referralDiscount" [("referrerRewardNumerator", TsBN); ("referrerRewardDenominator", TsBN); ("refereeDiscountNumerator", TsBN); ("refereeDiscountDenominator", TsBN)])].

Definition OracleGuardRails_ts : TsType := TsObject "OracleGuardRails" [

  ("priceDivergence", TsObject "OracleGuardRails.priceDivergence" [("markOracleDivergenceNumerator", TsBN); ("markOracleDivergenceDenominator", TsBN)]);
  ("validity", TsObject "OracleGuardRails.validity" [("slotsBeforeStale", TsBN); ("confidenceIntervalMaxSize", TsBN); ("tooVolatileRatio", TsBN)]);
  ("useForLiquidations", TsBoolean)].

Definition StateAccount_ts : TsType := TsObject "StateAccount" [
  ("admin", TsPublicKey); ("fundingPaused", TsBoolean); ("exchangePaused", TsBoolean);
  ("adminControlsPrices", TsBoolean); ("collateralMint", TsPublicKey);
  ("collateralVault", TsPublicKey); ("collateralVaultAuthority", TsPublicKey);
  ("collateralVaultNonce", TsNumber); ("insuranceVault", TsPublicKey);
  ("insuranceVaultAuthority", TsPublicKey); ("insuranceVaultNonce", TsNumber);
  ("marginRatioInitial", TsBN); ("marginRatioMaintenance", TsBN); ("marginRatioPartial", TsBN);
  ("markets", TsPublicKey); ("curveHistory", TsPublicKey); ("depositHistory", TsPublicKey);
  ("fundingRateHistory", TsPublicKey); ("fundingPaymentHistory", TsPublicKey);
  ("tradeHistory", TsPublicKey); ("liquidationHistory", TsPublicKey);
  ("partialLiquidationClosePercentageNumerator", TsBN);
  ("partialLiquidationClosePercentageDenominator", TsBN);
  ("partialLiquidationPenaltyPercentageNumerator", TsBN);
  ("partialLiquidationPenaltyPercentageDenominator", TsBN);
  ("fullLiquidationPenaltyPercentageNumerator", TsBN);
  ("fullLiquidationPenaltyPercentageDenominator", TsBN);
  ("partialLiquidationLiquidatorShareDenominator", TsBN);
  ("fullLiquidationLiquidatorShareDenominator", TsBN); ("feeStructure", FeeStructure_ts);
  ("totalFee", TsBN); ("totalFeeWithdrawn", TsBN); ("whitelistMint", TsPublicKey);
  ("discountMint", TsPublicKey); ("oracleGuardRails", OracleGuardRails_ts);
  ("maxDeposit", TsBN); ("extendedCurveHistory", TsPublicKey)].

Definition AMM_ts : TsType := TsObject "AMM" [
  ("baseAssetReserve", TsBN); ("sqrtK", TsBN); ("cumulativeFundingRate", TsBN);
  ("lastFundingRate", TsBN); ("lastFundingRateTs", TsBN); ("lastMarkPriceTwap", TsBN);
  ("lastMarkPriceTwapTs", TsBN); ("lastOraclePriceTwap", TsBN);
  ("lastOraclePriceTwapTs", TsBN); ("oracle", TsPublicKey);
  ("oracleSource", TsEnum ["pyth"; "switchboard"]); ("fundingPeriod", TsBN);
  ("quoteAssetReserve", TsBN); ("pegMultiplier", TsBN); ("cumulativeFundingRateLong", TsBN);
  ("cumulativeFundingRateShort", TsBN); ("cumulativeRepegRebateLong", TsBN);
  ("cumulativeRepegRebateShort", TsBN); ("totalFeeMinusDistributions", TsBN);
  ("totalFeeWithdrawn", TsBN); ("totalFee", TsBN); ("minimumTradeSize", TsBN);
  ("lastOraclePrice", TsBN)].

Definition Market_ts : TsType := TsObject "Market" [
  ("amm", AMM_ts); ("baseAssetAmount", TsBN); ("baseAssetAmountLong", TsBN);
  ("baseAssetAmountShort", TsBN); ("initialized", TsBoolean); ("openInterest", TsBN)].

Definition MarketsAccount_ts : TsType := TsObject "MarketsAccount" [
  ("accountIndex", TsBN); ("markets", TsArray Market_ts)].

Definition UserPosition_ts : TsType := TsObject "UserPosition" [
  ("baseAssetAmount", TsBN); ("lastCumulativeFundingRate", TsBN); ("marketIndex", TsBN);
  ("quoteAssetAmount", TsBN)].

Definition UserPositionsAccount_ts : TsType := TsObject "UserPositionsAccount" [
  ("positions", TsArray UserPosition_ts); ("user", TsPublicKey)].

Definition UserAccount_ts : TsType := TsObject "UserAccount" [
  ("authority", TsPublicKey); ("collateral", TsBN); ("cumulativeDeposits", TsBN);
  ("positions", TsPublicKey); ("totalFeePaid", TsBN)].

(** ** The IDL's accounts and types *)
Definition TradeRecord_layout : Layout := LStruct [
  ("ts", LI64); ("recordId", LU128); ("userAuthority", LPublicKey); ("user", LPublicKey);
  ("direction", LEnum ["long"; "short"]); ("baseAssetAmount", LU128);
  ("quoteAssetAmount", LU128); ("markPriceBefore", LU128); ("markPriceAfter", LU128);
  ("fee", LU128); ("referrerReward", LU128); ("refereeDiscount", LU128);
  ("tokenDiscount", LU128); ("liquidation", LBool); ("marketIndex", LU64);
  ("oraclePrice", LI128)].

Definition TradeHistory_layout : Layout := LStruct [
  ("head", LU64); ("tradeRecords", LArray TradeRecord_layout 1024)].

Definition DepositRecord_layout : Layout := LStruct [
  ("ts", LI64); ("recordId", LU128); ("userAuthority", LPublicKey); ("user", LPublicKey);
  ("direction", LEnum ["deposit"; "withdraw"]); ("collateralBefore", LU128);
  ("cumulativeDepositsBefore", LI128); ("amount", LU64)].

Definition DepositHistory_layout : Layout := LStruct [
  ("head", LU64); ("depositRecords", LArray DepositRecord_layout 1024)].

Definition ExtendedCurveRecord_layout : Layout := LStruct [
  ("ts", LI64); ("recordId", LU128); ("marketIndex", LU64); ("pegMultiplierBefore", LU128);
  ("baseAssetReserveBefore", LU128); ("quoteAssetReserveBefore", LU128);
  ("sqrtKBefore", LU128); ("pegMultiplierAfter", LU128); ("baseAssetReserveAfter", LU128);
  ("quoteAssetReserveAfter", LU128); ("sqrtKAfter", LU128); ("baseAssetAmountLong", LU128);
  ("baseAssetAmountShort", LU128); ("baseAssetAmount", LI128); ("openInterest", LU128);
  ("totalFee", LU128); ("totalFeeMinusDistributions", LU128); ("adjustmentCost", LI128);
  ("oraclePrice", LI128); ("tradeRecord", LU128); ("padding", LArray LU128 5)].

Definition ExtendedCurveHistory_layout : Layout := LStruct [
  ("head", LU64); ("curveRecords", LArray ExtendedCurveRecord_layout 1024)].

Definition FundingRateRecord_layout : Layout := LStruct [
  ("ts", LI64); ("recordId", LU128); ("marketIndex", LU64); ("fundingRate", LI128);
  ("cumulativeFundingRateLong", LI128); ("cumulativeFundingRateShort", LI128);
  ("oraclePriceTwap", LI128); ("markPriceTwap", LU128)].

Definition FundingRateHistory_layout : Layout := LStruct [
  ("head", LU64); ("fundingRateRecords", LArray FundingRateRecord_layout 1024)].

Definition FundingPaymentRecord_layout : Layout := LStruct [
  ("ts", LI64); ("recordId", LU128); ("userAuthority", LPublicKey); ("user", LPublicKey);
  ("marketIndex", LU64); ("fundingPayment", LI128); ("baseAssetAmount", LI128);
  ("userLastCumulativeFunding", LI128); ("userLastFundingRateTs", LI64);
  ("ammCumulativeFundingLong", LI128); ("ammCumulativeFundingShort", LI128)].

Definition FundingPaymentHistory_layout : Layout := LStruct [
  ("head", LU64); ("fundingPaymentRecords", LArray FundingPaymentRecord_layout 1024)].

Definition LiquidationRecord_layout : Layout := LStruct [
  ("ts", LI64); ("recordId", LU128); ("userAuthority", LPublicKey); ("user", LPublicKey);
  ("partial", LBool); ("baseAssetValue", LU128); ("baseAssetValueClosed", LU128);
  ("liquidationFee", LU128); ("feeToLiquidator", LU64); ("feeToInsuranceFund", LU64);
  ("liquidator", LPublicKey); ("totalCollateral", LU128); ("collateral", LU128);
  ("unrealizedPnl", LI128); ("marginRatio", LU128)].

Definition LiquidationHistory_layout : Layout := LStruct [
  ("head", LU64); ("liquidationRecords", LArray LiquidationRecord_layout 1024)].

Definition DiscountTokenTier_layout : Layout := LStruct [
  ("minimumBalance", LU64); ("discountNumerator", LU128); ("discountDenominator", LU128)].

Definition DiscountTokenTiers_layout : Layout := LStruct [
  ("firstTier", DiscountTokenTier_layout); ("secondTier", DiscountTokenTier_layout);
  ("thirdTier", DiscountTokenTier_layout); ("fourthTier", DiscountTokenTier_layout)].

Definition ReferralDiscount_layout : Layout := LStruct [
  ("referrerRewardNumerator", LU128); ("referrerRewardDenominator", LU128);
  ("refereeDiscountNumerator", LU128); ("refereeDiscountDenominator", LU128)].

Definition FeeStructure_layout : Layout := LStruct [
  ("feeNumerator", LU128); ("feeDenominator", LU128);
  ("discountTokenTiers", DiscountTokenTiers_layout);
  ("referralDiscount", ReferralDiscount_layout)].

Definition PriceDivergenceGuardRails_layout : Layout := LStruct [
  ("markOracleDivergenceNumerator", LU128); ("markOracleDivergenceDenominator", LU128)].

Definition ValidityGuardRails_layout : Layout := LStruct [
  ("slotsBeforeStale", LI64); ("confidenceIntervalMaxSize", LU128); ("tooVolatileRatio", LI128)].

Definition OracleGuardRails_layout : Layout := LStruct [
  ("priceDivergence", PriceDivergenceGuardRails_layout);
  ("validity", ValidityGuardRails_layout); ("useForLiquidations", LBool)].

Definition State_layout : Layout := LStruct [
  ("admin", LPublicKey); ("exchangePaused", LBool); ("fundingPaused", LBool);
  ("adminControlsPrices", LBool); ("collateralMint", LPublicKey);
  ("collateralVault", LPublicKey); ("collateralVaultAuthority", LPublicKey);
  ("collateralVaultNonce", LU8); ("depositHistory", LPublicKey); ("tradeHistory", LPublicKey);
  ("fundingPaymentHistory", LPublicKey); ("fundingRateHistory", LPublicKey);
  ("liquidationHistory", LPublicKey); ("curveHistory", LPublicKey);
  ("insuranceVault", LPublicKey); ("insuranceVaultAuthority", LPublicKey);
  ("insuranceVaultNonce", LU8); ("markets", LPublicKey); ("marginRatioInitial", LU128);
  ("marginRatioMaintenance", LU128); ("marginRatioPartial", LU128);
  ("partialLiquidationClosePercentageNumerator", LU128);
  ("partialLiquidationClosePercentageDenominator", LU128);
  ("partialLiquidationPenaltyPercentageNumerator", LU128);
  ("partialLiquidationPenaltyPercentageDenominator", LU128);
  ("fullLiquidationPenaltyPercentageNumerator", LU128);
  ("fullLiquidationPenaltyPercentageDenominator", LU128);
  ("partialLiquidationLiquidatorShareDenominator", LU64);
  ("fullLiquidationLiquidatorShareDenominator", LU64); ("feeStructure", FeeStructure_layout);
  ("whitelistMint", LPublicKey); ("discountMint", LPublicKey);
  ("oracleGuardRails", OracleGuardRails_layout); ("maxDeposit", LU128);
  ("extendedCurveHistory", LPublicKey); ("padding0", LU128); ("padding1", LU128);
  ("padding2", LU128); ("padding3", LU128); ("padding4", LU128); ("padding5", LU128)].

Definition AMM_layout : Layout := LStruct [
  ("oracle", LPublicKey); ("oracleSource", LEnum ["pyth"; "switchboard"]);
  ("baseAssetReserve", LU128); ("quoteAssetReserve", LU128);
  ("cumulativeRepegRebateLong", LU128); ("cumulativeRepegRebateShort", LU128);
  ("cumulativeFundingRateLong", LI128); ("cumulativeFundingRateShort", LI128);
  ("lastFundingRate", LI128); ("lastFundingRateTs", LI64); ("fundingPeriod", LI64);
  ("lastOraclePriceTwap", LI128); ("lastMarkPriceTwap", LU128); ("lastMarkPriceTwapTs", LI64);
  ("sqrtK", LU128); ("pegMultiplier", LU128); ("totalFee", LU128);
  ("totalFeeMinusDistributions", LU128); ("totalFeeWithdrawn", LU128);
  ("minimumTradeSize", LU128); ("lastOraclePriceTwapTs", LI64); ("lastOraclePrice", LI128);
  ("padding1", LU64); ("padding2", LU128); ("padding3", LU128); ("padding4", LU128)].

Definition Market_layout : Layout := LStruct [
  ("initialized", LBool); ("baseAssetAmountLong", LI128); ("baseAssetAmountShort", LI128);
  ("baseAssetAmount", LI128); ("openInterest", LU128); ("amm", AMM_layout);
  ("padding0", LU128); ("padding1", LU128); ("padding2", LU128); ("padding3", LU128);
  ("padding4", LU128)].

Definition Markets_layout : Layout := LStruct [
  ("markets", LArray Market_layout 64)].

Definition MarketPosition_layout : Layout := LStruct [
  ("marketIndex", LU64); ("baseAssetAmount", LI128); ("quoteAssetAmount", LU128);
  ("lastCumulativeFundingRate", LI128); ("lastCumulativeRepegRebate", LU128);
  ("lastFundingRateTs", LI64); ("stopLossPrice", LU128); ("stopLossAmount", LU128);
  ("stopProfitPrice", LU128); ("stopProfitAmount", LU128); ("transferTo", LPublicKey);
  ("padding0", LU128); ("padding1", LU128)].

Definition UserPositions_layout : Layout := LStruct [
  ("user", LPublicKey); ("positions", LArray MarketPosition_layout 5)].

Definition User_layout : Layout := LStruct [
  ("authority", LPublicKey); ("collateral", LU128); ("cumulativeDeposits", LI128);
  ("totalFeePaid", LU128); ("totalTokenDiscount", LU128); ("totalReferralReward", LU128);
  ("totalRefereeDiscount", LU128); ("positions", LPublicKey); ("padding0", LU128);
  ("padding1", LU128); ("padding2", LU128); ("padding3", LU128)].

(** What the SDK reads each account as. *)
Definition account_types : list (string * TsType * Layout) := [
  ("state", StateAccount_ts, State_layout);
  ("markets", MarketsAccount_ts, Markets_layout);
  ("user", UserAccount_ts, User_layout);
  ("userPositions", UserPositionsAccount_ts, UserPositions_layout);
  ("tradeHistory", TradeHistoryAccount_ts, TradeHistory_layout);
  ("depositHistory", DepositHistoryAccount_ts, DepositHistory_layout);
  ("fundingRateHistory", FundingRateHistoryAccount_ts, FundingRateHistory_layout);
  ("fundingPaymentHistory", FundingPaymentHistoryAccount_ts, FundingPaymentHistory_layout);
  ("liquidationHistory", LiquidationHistoryAccount_ts, LiquidationHistory_layout);
  ("extendedCurveHistory", ExtendedCurveHistoryAccount_ts, ExtendedCurveHistory_layout)].

(** Fields that types.ts declares and no account has, with the layout of what should. *)
Definition missing_fields : list (string * string * Layout) := [
  ("StateAccount", "totalFee", State_layout);
  ("StateAccount", "totalFeeWithdrawn", State_layout);
  ("MarketsAccount", "accountIndex", Markets_layout);
  ("AMM", "cumulativeFundingRate", AMM_layout);
  ("ExtendedCurveRecord", "tradeId", ExtendedCurveRecord_layout)].
Definition missing : list (string * string) := fst <$> missing_fields.

(** ** The comparison is right *)
Fixpoint TsType_nested_ind (P : TsType -> Prop)
    (Hb : P TsBN) (Hk : P TsPublicKey) (Hbool : P TsBoolean) (Hn : P TsNumber)
    (He : forall names, P (TsEnum names)) (Ha : forall t, P t -> P (TsArray t))
    (Ho : forall o ts, Forall (fun f => P f.2) ts -> P (TsObject o ts)) (t : TsType) : P t :=
  match t with
  | TsBN => Hb | TsPublicKey => Hk | TsBoolean => Hbool | TsNumber => Hn
  | TsEnum names => He names
  | TsArray t => Ha t (TsType_nested_ind P Hb Hk Hbool Hn He Ha Ho t)
  | TsObject o ts => Ho o ts
      ((fix all (ts : list (string * TsType)) : Forall (fun f => P f.2) ts :=
          match ts with
          | [] => List.Forall_nil _
          | f :: ts => List.Forall_cons _ _ _ (TsType_nested_ind P Hb Hk Hbool Hn He Ha Ho f.2) (all ts)
          end) ts)
  end.

Lemma field_cons {A} n m (a : A) fs : field n ((m, a) :: fs) = if decide (m = n) then Some a else field n fs.
Proof.
  unfold field. cbn. case_decide; [done |]. by destruct (list_find _ fs) as [[] |].
Qed.

(** A struct's fields are decoded one by one. *)
Lemma decodes_field ls vs n l :
  anchor_decodes (LStruct ls) (VObject vs) -> field n ls = Some l -> exists v, field n vs = Some v /\ anchor_decodes l v.
Proof.
  cbn. revert vs. induction ls as [| [m k] ls IH]; intros [| [m' v] vs]; try done.
  intros (-> & Hv & Hvs). rewrite !field_cons. case_decide; [| by apply IH].
  intros [= ->]. by exists v.
Qed.
Lemma decodes_no_field ls vs n :
  anchor_decodes (LStruct ls) (VObject vs) -> field n ls = None -> field n vs = None.
Proof.
  cbn. revert vs. induction ls as [| [m k] ls IH]; intros [| [m' v] vs]; try done.
  intros (-> & Hv & Hvs). rewrite !field_cons. case_decide; [done | by apply IH].
Qed.

Lemma agrees_has_type absent t : forall l v, agrees absent t l = true -> anchor_decodes l v -> has_type absent t v.
Proof.
  induction t as [| | | | names | t IH | o ts IH] using TsType_nested_ind; intros l v Ha Hd;
    destruct l; try done; destruct v; try done.
  - cbn in *. apply bool_decide_eq_true in Ha. rewrite Forall_forall in Ha. by apply Ha.
  - cbn in *. destruct Hd as [_ Hd]. eapply Forall_impl; [exact Hd |]. intros v Hv. by eapply IH.
  - revert IH Ha. cbn [agrees has_type]. induction ts as [| [n t] ts IHts]; [done |].
    intros [Ht Hts]%Forall_cons [Hn Ha]%andb_true_iff. split; [| by apply IHts].
    apply orb_true_iff in Hn as [Hn | Hn]; [left; by apply bool_decide_eq_true in Hn | right].
    destruct (field n fields) as [l |] eqn:Hl; [| done].
    destruct (decodes_field _ _ _ _ Hd Hl) as (v & -> & Hv). by eapply Ht.
Qed.

(** ** Properties *)

(** C32: Types: whatever account the program's IDL anchor_decodes, its value has the type that
    types.ts declares for it, but for five declared fields ([totalFee] and
    [totalFeeWithdrawn] of the state, [accountIndex] of the markets,
    [cumulativeFundingRate] of an AMM, [tradeId] of a curve record), which no decoded
    value has. *)
Theorem accounts_have_their_types :
  (forall name t l v, (name, t, l) ∈ account_types -> anchor_decodes l v -> has_type missing t v) /\
  (forall o f l v, (o, f, l) ∈ missing_fields -> anchor_decodes l v ->
     exists fields, v = VObject fields /\ field f fields = None).
Proof.
  split.
  - intros name t l v Hin. apply agrees_has_type.
    assert (Forall (fun e => agrees missing e.1.2 e.2 = true) account_types) as Hall
      by (repeat constructor; vm_compute; reflexivity).
    rewrite Forall_forall in Hall. exact (Hall _ Hin).
  - intros o f l v Hin Hd.
    assert (Forall (fun e => match e.2 with LStruct ls => field e.1.2 ls = None | _ => False end) missing_fields) as Hall
      by (repeat constructor; vm_compute; reflexivity).
    rewrite Forall_forall in Hall. specialize (Hall _ Hin). cbn in Hall.
    destruct l as [| | | | | | | | | ls]; try done. destruct v as [| | | | | | vs]; try done.
    exists vs. split; [done |]. by eapply decodes_no_field.
Qed.
