(* ===== verification/Faucet.v ===== *)
(** * The mock USDC faucet (mockUSDCFaucet.ts, idl/mock_usdc_faucet.json)

    The client of the devnet faucet, and the clearing house client's
    [initializeUserAccountForDevnet], which puts the faucet's instructions and
    its own in one transaction.  A method runs in the state of the faucet object
    (it caches one address) and may throw.  What the spl-token and anchor
    libraries, the network and new key pairs give comes from the environment. *)
From S2P Require Import Prelude BN Types Idl Client.

#[local] Open Scope string_scope.

(** [MockUSDCFaucetState] of the IDL *)
Record FaucetState := mkFaucetState {
  fs_admin : PublicKey; fs_mint : PublicKey; fs_mintAuthority : PublicKey
}.

Record Faucet := mkFaucet {
  fa_programId : PublicKey;
  fa_wallet : PublicKey;
  fa_statePublicKey : option PublicKey
}.

(** The environment: [fe_stateExists] tells whether [getParsedAccountInfo] finds
    an account, [fe_getAccountInfo] is [Token.getAccountInfo] for a mint. *)
Record FaucetEnv (Info : Type) := mkFaucetEnv {
  fe_chain : Chain;
  fe_stateExists : PublicKey -> result bool;
  fe_fetchState : PublicKey -> result FaucetState;
  fe_mintRent : result Z;
  fe_mintSpan : Z;
  fe_getAccountInfo : PublicKey -> PublicKey -> result Info
}.
Arguments fe_chain {Info}.
Arguments fe_stateExists {Info}.
Arguments fe_fetchState {Info}.
Arguments fe_mintRent {Info}.
Arguments fe_mintSpan {Info}.
Arguments fe_getAccountInfo {Info}.

(** The instructions of the faucet's transactions: those of the system and token
    programs, and the calls of the faucet and of the clearing house. *)
Inductive FaucetIx :=
  | SystemCreateAccount (from newAccount : PublicKey) (lamports space : Z) (programId : PublicKey)
  | InitMint (mint : PublicKey) (decimals : Z) (authority : PublicKey)
  | CreateAssociatedAccount (mint associated owner payer : PublicKey)
  | FaucetCall (ix : Instruction)
  | ClearingHouseCall (ix : Instruction).

Record FaucetTx := mkFaucetTx { ft_instructions : list FaucetIx; ft_signers : list PublicKey }.

(** ** Methods *)
Definition FMethod (A : Type) : Type := Faucet -> Faucet * result A.

#[export] Instance FMethod_ret : MRet FMethod := fun A a f => (f, Ok a).
#[export] Instance FMethod_bind : MBind FMethod := fun A B k m f =>
  match m f with
  | (f', Ok a) => k a f'
  | (f', Throw e) => (f', Throw e)
  end.
Definition flift {A} (r : result A) : FMethod A := fun f => (f, r).
Definition fgets {A} (g : Faucet -> A) : FMethod A := fun f => (f, Ok (g f)).

Section Faucet.
Context {Info : Type}.
Variable env : FaucetEnv Info.
#[local] Abbreviation chain := (fe_chain env).

(** [getMockUSDCFaucetStatePublicKeyAndNonce], [getMockUSDCFaucetStatePublicKey] *)
Definition getMockUSDCFaucetStatePublicKeyAndNonce : FMethod (PublicKey * Z) :=
  programId ← fgets fa_programId; mret (findProgramAddress chain ["mock_usdc_faucet"] programId).
Definition getMockUSDCFaucetStatePublicKey : FMethod PublicKey := fun f =>
  match fa_statePublicKey f with
  | Some k => (f, Ok k)
  | None =>
      let k := (findProgramAddress chain ["mock_usdc_faucet"] (fa_programId f)).1 in
      (mkFaucet (fa_programId f) (fa_wallet f) (Some k), Ok k)
  end.

(** [initialize]: the transaction sent; [fakeUSDCMint] is the new key pair *)
Definition faucetInitialize (fakeUSDCMint : PublicKey) : FMethod FaucetTx :=
  stateKey ← getMockUSDCFaucetStatePublicKey;
  exists_ ← flift (fe_stateExists env stateKey);
  if (exists_ : bool) then flift (Throw (JsErr "Faucet already initialized"))
  else
    lamports ← flift (fe_mintRent env);
    wallet ← fgets fa_wallet;
    programId ← fgets fa_programId;
    let mintAuthority := (findProgramAddress chain [fakeUSDCMint] programId).1 in
    '(statePublicKey, stateNonce) ← getMockUSDCFaucetStatePublicKeyAndNonce;
    mret (mkFaucetTx
      [SystemCreateAccount wallet fakeUSDCMint lamports (fe_mintSpan env) (TOKEN_PROGRAM_ID chain);
       InitMint fakeUSDCMint 6 mintAuthority;
       FaucetCall {| ix_name := "initialize";
                     ix_args := [ANumber stateNonce];
                     ix_accounts :=
                       [("mockUsdcFaucetState", statePublicKey);
                        ("admin", wallet);
                        ("mintAccount", fakeUSDCMint);
                        ("rent", SYSVAR_RENT_PUBKEY chain);
                        ("systemProgram", SystemProgram_programId chain)];
                     ix_remainingAccounts := [] |}]
      [fakeUSDCMint]).

(** [fetchState] *)
Definition fetchState : FMethod FaucetState :=
  k ← getMockUSDCFaucetStatePublicKey; flift (fe_fetchState env k).

(** The request of [mintToUser]. *)
Definition mintIx (amount : Z) (state : FaucetState) (userTokenAccount : PublicKey)
    : FMethod Instruction :=
  k ← getMockUSDCFaucetStatePublicKey;
  mret {| ix_name := "mintToUser";
          ix_args := [ABN amount];
          ix_accounts :=
            [("mockUsdcFaucetState", k);
             ("mintAccount", fs_mint state);
             ("userTokenAccount", userTokenAccount);
             ("mintAuthority", fs_mintAuthority state);
             ("tokenProgram", TOKEN_PROGRAM_ID chain)];
          ix_remainingAccounts := [] |}.

(** [mintToUser]: the transaction sent *)
Definition mintToUser (userTokenAccount : PublicKey) (amount : Z) : FMethod FaucetTx :=
  state ← fetchState;
  ix ← mintIx amount state userTokenAccount;
  mret (mkFaucetTx [FaucetCall ix] []).

(** [getAssosciatedMockUSDMintAddress] *)
Definition getAssosciatedMockUSDMintAddress (userPubKey : PublicKey) : FMethod PublicKey :=
  state ← fetchState; mret (getAssociatedTokenAddress chain (fs_mint state) userPubKey).

(** [createAssociatedTokenAccountAndMintToInstructions],
    [createAssociatedTokenAccountAndMintTo] *)
Definition createAssociatedTokenAccountAndMintToInstructions (userPublicKey : PublicKey) (amount : Z)
    : FMethod (PublicKey * FaucetIx * FaucetIx) :=
  state ← fetchState;
  associateTokenPublicKey ← getAssosciatedMockUSDMintAddress userPublicKey;
  wallet ← fgets fa_wallet;
  let createAssociatedAccountIx :=
    CreateAssociatedAccount (fs_mint state) associateTokenPublicKey userPublicKey wallet in
  mintToIx ← mintIx amount state associateTokenPublicKey;
  mret (associateTokenPublicKey, createAssociatedAccountIx, FaucetCall mintToIx).
Definition createAssociatedTokenAccountAndMintTo (userPublicKey : PublicKey) (amount : Z)
    : FMethod (PublicKey * FaucetTx) :=
  '(associatedTokenPublicKey, createAssociatedAccountIx, mintToTx) ←
    createAssociatedTokenAccountAndMintToInstructions userPublicKey amount;
  mret (associatedTokenPublicKey, mkFaucetTx [createAssociatedAccountIx; mintToTx] []).

(** [getTokenAccountInfo] *)
Definition getTokenAccountInfo (userPubKey : PublicKey) : FMethod Info :=
  assosciatedKey ← getAssosciatedMockUSDMintAddress userPubKey;
  state ← fetchState;
  flift (fe_getAccountInfo env (fs_mint state) assosciatedKey).

(** [subscribeToTokenAccount]: its result, and the account whose changes it
    listens to when it does. [callback] is what the caller's callback does; the
    identifier of the listener is dropped, so nothing removes it. *)
Definition subscribeToTokenAccount (callback : Info -> option JsError) (userPubKey : PublicKey)
    : FMethod (bool * option PublicKey) := fun f =>
  match (tokenAccountKey ← getAssosciatedMockUSDMintAddress userPubKey;
         info ← getTokenAccountInfo userPubKey;
         match callback info with
         | Some e => flift (Throw e)
         | None => mret tokenAccountKey
         end) f with
  | (f', Ok key) => (f', Ok (true, Some key))
  | (f', Throw _) => (f', Ok (false, None))
  end.

(** [initializeUserAccountForDevnet] of clearingHouse.ts: the transaction sent;
    [userPositions] is the new key pair *)
Definition initializeUserAccountForDevnet {B : BNLib} (userPositions : PublicKey) (amount : Z)
    (f : Faucet) (c : Client) : Faucet * Client * result (FaucetTx * PublicKey) :=
  match createAssociatedTokenAccountAndMintToInstructions (cl_wallet c) amount f with
  | (f', Throw e) => (f', c, Throw e)
  | (f', Ok (associateTokenPublicKey, createAssociatedAccountIx, mintToIx)) =>
      let '(c', r) :=
        (('(userPositionsAccount, userAccountPublicKey, initializeUserAccountIx) ←
            getInitializeUserInstructions chain userPositions;
          depositCollateralIx ← getDepositCollateralInstruction chain amount
            associateTokenPublicKey (Some userPositionsAccount);
          mret (mkFaucetTx [createAssociatedAccountIx; mintToIx;
                            ClearingHouseCall initializeUserAccountIx;
                            ClearingHouseCall depositCollateralIx] [userPositionsAccount],
                userAccountPublicKey)) : Method _) c in
      (f', c', r)
  end.
End Faucet.

(** ** The faucet's interface *)
Definition faucetIDL : list IdlInstruction := [
  mkIdlInstruction "initialize"
    [rw "mockUsdcFaucetState"; signer "admin"; ro "mintAccount"; ro "rent"; ro "systemProgram"]
    [("mockUsdcFaucetNonce", TU8)];
  mkIdlInstruction "mintToUser"
    [ro "mockUsdcFaucetState"; rw "mintAccount"; rw "userTokenAccount"; ro "mintAuthority";
     ro "tokenProgram"]
    [("amount", TU64)]].

Definition faucetInstruction (name : string) : option IdlInstruction :=
  snd <$> list_find (fun i => idl_name i = name) faucetIDL.
Definition faucetConforms (ix : Instruction) : bool :=
  match faucetInstruction (ix_name ix) with
  | None => false
  | Some i =>
      argsFit (ix_args ix) (idl_args i) &&
      forallb (fun a => bool_decide (ida_name a ∈ (fst <$> ix_accounts ix))) (idl_accounts i) &&
      bool_decide (NoDup (fst <$> ix_accounts ix))
  end.

(** The keys whose signature an instruction needs: new accounts, payers, and what
    the interfaces mark. *)
Definition faucetIxSigners (i : FaucetIx) : list PublicKey :=
  match i with
  | SystemCreateAccount from new _ _ _ => [from; new]
  | InitMint _ _ _ => []
  | CreateAssociatedAccount _ _ _ payer => [payer]
  | FaucetCall ix =>
      match faucetInstruction (ix_name ix) with
      | None => []
      | Some i => omap (fun a => if ida_isSigner a then accountOf ix (ida_name a) else None)
                    (idl_accounts i)
      end
  | ClearingHouseCall ix => signerKeys ix
  end.
