(* ===== verification/FaucetSpec.v ===== *)
(** * What the faucet's methods guarantee

    Theorems about Faucet.v: the addresses, the requests, and the transaction
    that sets up a devnet user in one go. *)
From S2P Require Import Prelude BN Types Idl Client Admin ClientSpec Faucet.

#[local] Open Scope string_scope.

(** The cached address is the derived one. *)
Definition faucetAddress {Info} (env : FaucetEnv Info) (f : Faucet) : PublicKey :=
  (findProgramAddress (fe_chain env) ["mock_usdc_faucet"] (fa_programId f)).1.
Definition faucet_coherent {Info} (env : FaucetEnv Info) (f : Faucet) : Prop :=
  forall k, fa_statePublicKey f = Some k -> k = faucetAddress env f.

(** The faucet once the address is cached. *)
Definition cached {Info} (env : FaucetEnv Info) (f : Faucet) : Faucet :=
  mkFaucet (fa_programId f) (fa_wallet f) (Some (faucetAddress env f)).

Section FaucetFacts.
Context {Info : Type} (env : FaucetEnv Info).
#[local] Abbreviation chain := (fe_chain env).

Lemma statePublicKey_run f : faucet_coherent env f ->
  getMockUSDCFaucetStatePublicKey env f = (cached env f, Ok (faucetAddress env f)).
Proof.
  intros Hf. unfold getMockUSDCFaucetStatePublicKey, cached.
  destruct (fa_statePublicKey f) as [k |] eqn:E; [| done].
  rewrite <- (Hf k E). destruct f; cbn in *. by rewrite E.
Qed.

Lemma cached_coherent f : faucet_coherent env (cached env f).
Proof. by intros k [= <-]. Qed.

Lemma cached_cached f : cached env (cached env f) = cached env f.
Proof. done. Qed.

Lemma cached_address f : faucetAddress env (cached env f) = faucetAddress env f.
Proof. done. Qed.

Lemma nonce_run f : getMockUSDCFaucetStatePublicKeyAndNonce env f =
  (f, Ok (findProgramAddress chain ["mock_usdc_faucet"] (fa_programId f))).
Proof. done. Qed.

Lemma fetchState_run f : faucet_coherent env f ->
  fetchState env f = (cached env f, fe_fetchState env (faucetAddress env f)).
Proof.
  intros Hf. unfold fetchState, mbind, FMethod_bind. by rewrite statePublicKey_run.
Qed.

Lemma associated_run f user : faucet_coherent env f ->
  getAssosciatedMockUSDMintAddress env user f =
  (cached env f, state ← fe_fetchState env (faucetAddress env f);
                 Ok (getAssociatedTokenAddress chain (fs_mint state) user)).
Proof.
  intros Hf. unfold getAssosciatedMockUSDMintAddress, mbind, FMethod_bind.
  rewrite fetchState_run by done. by destruct (fe_fetchState env _).
Qed.

(** The request to mint. *)
Definition mintRequest (f : Faucet) (amount : Z) (state : FaucetState) (account : PublicKey)
    : Instruction :=
  {| ix_name := "mintToUser";
     ix_args := [ABN amount];
     ix_accounts :=
       [("mockUsdcFaucetState", faucetAddress env f);
        ("mintAccount", fs_mint state);
        ("userTokenAccount", account);
        ("mintAuthority", fs_mintAuthority state);
        ("tokenProgram", TOKEN_PROGRAM_ID chain)];
     ix_remainingAccounts := [] |}.

Lemma instructions_run f user amount : faucet_coherent env f ->
  createAssociatedTokenAccountAndMintToInstructions env user amount f =
  (cached env f,
   state ← fe_fetchState env (faucetAddress env f);
   let k := getAssociatedTokenAddress chain (fs_mint state) user in
   Ok (k, CreateAssociatedAccount (fs_mint state) k user (fa_wallet f),
       FaucetCall (mintRequest f amount state k))).
Proof.
  intros Hf. unfold createAssociatedTokenAccountAndMintToInstructions, mbind, FMethod_bind.
  rewrite fetchState_run by done. destruct (fe_fetchState env (faucetAddress env f)) as [state |] eqn:Es;
    [| done].
  rewrite associated_run by apply cached_coherent. rewrite cached_address, Es.
  by cbn.
Qed.

Lemma mintRequest_conforms f amount state k : faucetConforms (mintRequest f amount state k) = true.
Proof. by vm_compute. Qed.

(** Minting: the request fits the faucet's program, mints to the account it
    was given, and [createAssociatedTokenAccountAndMintTo] creates the account it
    mints to, the user's associated account for the faucet's mint; a second call
    finds the cached address and does the same. *)
Theorem mint_goes_to_associated_account f user amount : faucet_coherent env f ->
  match fe_fetchState env (faucetAddress env f) with
  | Ok state =>
      exists k ix, k = getAssociatedTokenAddress chain (fs_mint state) user /\
        createAssociatedTokenAccountAndMintTo env user amount f =
          (cached env f, Ok (k, mkFaucetTx [CreateAssociatedAccount (fs_mint state) k user (fa_wallet f);
                                            FaucetCall ix] [])) /\
        createAssociatedTokenAccountAndMintTo env user amount (cached env f) =
          createAssociatedTokenAccountAndMintTo env user amount f /\
        mintToUser env k amount f = (cached env f, Ok (mkFaucetTx [FaucetCall ix] [])) /\
        faucetConforms ix = true /\ accountOf ix "userTokenAccount" = Some k /\
        accountOf ix "mintAccount" = Some (fs_mint state) /\ ix_args ix = [ABN amount]
  | Throw e => createAssociatedTokenAccountAndMintTo env user amount f = (cached env f, Throw e) /\
      forall k, mintToUser env k amount f = (cached env f, Throw e)
  end.
Proof.
  intros Hf. unfold createAssociatedTokenAccountAndMintTo, mintToUser.
  assert (R : forall f', faucet_coherent env f' ->
    (createAssociatedTokenAccountAndMintToInstructions env user amount ≫= (fun '(k, i1, i2) =>
       mret (k, mkFaucetTx [i1; i2] []))) f' = _) by
    (intros f' Hf'; unfold mbind, FMethod_bind; rewrite instructions_run by done; reflexivity).
  rewrite !R by (done || apply cached_coherent). rewrite cached_address.
  destruct (fe_fetchState env (faucetAddress env f)) as [state | e] eqn:Es; cbn.
  - eexists _, (mintRequest f amount state _). split; [reflexivity |]. split; [done |]. split; [done |].
    unfold mbind, FMethod_bind. rewrite fetchState_run, Es by done.
    unfold mintIx, mbind, FMethod_bind. rewrite statePublicKey_run by apply cached_coherent.
    split; [done |]. split; [apply mintRequest_conforms |]. by vm_compute.
  - split; [done |]. intros k. unfold mbind, FMethod_bind. by rewrite fetchState_run, Es by done.
Qed.

(** [initialize] refuses a faucet whose state exists; otherwise its
    transaction creates the mint before the faucet is given it, with the derived
    authority, and is signed for by the wallet and the new mint. *)
Theorem faucet_initialize_outcomes f mint : faucet_coherent env f ->
  match fe_stateExists env (faucetAddress env f), fe_mintRent env with
  | Ok true, _ =>
      faucetInitialize env mint f = (cached env f, Throw (JsErr "Faucet already initialized"))
  | Ok false, Ok lamports =>
      exists ix, faucetInitialize env mint f =
        (cached env f, Ok (mkFaucetTx
          [SystemCreateAccount (fa_wallet f) mint lamports (fe_mintSpan env) (TOKEN_PROGRAM_ID chain);
           InitMint mint 6 (findProgramAddress chain [mint] (fa_programId f)).1;
           FaucetCall ix] [mint])) /\
        faucetConforms ix = true /\ accountOf ix "mintAccount" = Some mint /\
        accountOf ix "mockUsdcFaucetState" = Some (faucetAddress env f) /\
        faucetIxSigners (FaucetCall ix) = [fa_wallet f]
  | Throw e, _ | Ok false, Throw e => faucetInitialize env mint f = (cached env f, Throw e)
  end.
Proof.
  intros Hf. unfold faucetInitialize, mbind, FMethod_bind. rewrite statePublicKey_run by done. cbn.
  destruct (fe_stateExists env _) as [[] |]; [done | | done].
  destruct (fe_mintRent env) as [lamports |]; [| done]. cbn [fgets fa_wallet cached flift].
  rewrite nonce_run. unfold faucetAddress. cbn [fa_programId cached].
  destruct (findProgramAddress chain ["mock_usdc_faucet"] (fa_programId f)) as [sk nonce].
  eexists. split; [reflexivity |]. split_and!; vm_compute; reflexivity.
Qed.

(** [subscribeToTokenAccount] never throws: it listens to the user's
    associated account exactly when the account could be read and the callback
    accepted it, and otherwise gives false and listens to nothing. *)
Theorem token_subscription_outcomes callback f user : faucet_coherent env f ->
  subscribeToTokenAccount env callback user f =
  (cached env f,
   Ok match (state ← fe_fetchState env (faucetAddress env f);
             let k := getAssociatedTokenAddress chain (fs_mint state) user in
             info ← fe_getAccountInfo env (fs_mint state) k;
             match callback info with Some e => Throw e | None => Ok k end) with
      | Ok k => (true, Some k)
      | Throw _ => (false, None)
      end).
Proof.
  intros Hf. unfold subscribeToTokenAccount, getTokenAccountInfo, mbind, FMethod_bind.
  rewrite associated_run by done.
  destruct (fe_fetchState env (faucetAddress env f)) as [state |] eqn:Es; cbn -[faucetAddress cached]; [| done].
  rewrite associated_run by apply cached_coherent. rewrite cached_address, Es. cbn -[faucetAddress cached].
  rewrite fetchState_run by apply cached_coherent. rewrite !cached_address, Es. cbn -[faucetAddress cached].
  destruct (fe_getAccountInfo env _ _); cbn -[faucetAddress cached]; [| done]. by destruct (callback _).
Qed.

(** C37: The devnet set-up: one transaction creates the user's associated token
    account, mints to it, initialises the user and deposits from that account, the
    same amount, into the positions account it has just created. Every request
    fits its program. It can be signed by the client's wallet and the new key pair
    exactly when the faucet was built with that same wallet, which pays for the
    token account. *)
Theorem devnet_set_up {B : BNLib} p w positions amount f c f' c' tx user :
  faucet_coherent env f -> coherent (findProgramAddress chain) p w None c ->
  initializeUserAccountForDevnet env positions amount f c = (f', c', Ok (tx, user)) ->
  exists state mintIx initIx depositIx,
    fe_fetchState env (faucetAddress env f) = Ok state /\
    let k := getAssociatedTokenAddress chain (fs_mint state) w in
    tx = mkFaucetTx [CreateAssociatedAccount (fs_mint state) k w (fa_wallet f); FaucetCall mintIx;
                     ClearingHouseCall initIx; ClearingHouseCall depositIx] [positions] /\
    accountOf mintIx "userTokenAccount" = Some k /\
    accountOf depositIx "userCollateralAccount" = Some k /\
    ix_args mintIx = [ABN amount] /\ ix_args depositIx = [ABN amount] /\
    accountOf initIx "userPositions" = Some positions /\
    accountOf depositIx "userPositions" = Some positions /\
    accountOf initIx "user" = Some user /\ accountOf depositIx "user" = Some user /\
    faucetConforms mintIx = true /\ conforms initIx = true /\ conforms depositIx = true /\
    ((forall i k', i ∈ ft_instructions tx -> k' ∈ faucetIxSigners i -> k' ∈ w :: ft_signers tx) <->
     fa_wallet f ∈ [w; positions]).
Proof.
  intros Hf Hc Hrun. unfold initializeUserAccountForDevnet in Hrun.
  rewrite (coh_wallet _ _ _ _ _ Hc) in Hrun. rewrite (instructions_run f w amount Hf) in Hrun.
  destruct (fe_fetchState env (faucetAddress env f)) as [state |] eqn:Es; [| done].
  cbn -[mintRequest] in Hrun. set (k := getAssociatedTokenAddress chain (fs_mint state) w) in *.
  match type of Hrun with (let '(_, _) := ?m c in _) = _ =>
    destruct (m c) as [c1 r] eqn:Em; injection Hrun as <- <- ->;
    assert (Hs : spec chain p w None m (fun x => exists initIx depositIx,
      x = (mkFaucetTx [CreateAssociatedAccount (fs_mint state) k w (fa_wallet f);
             FaucetCall (mintRequest f amount state k);
             ClearingHouseCall initIx; ClearingHouseCall depositIx] [positions], x.2) /\
      accountOf depositIx "userCollateralAccount" = Some k /\ ix_args depositIx = [ABN amount] /\
      accountOf initIx "userPositions" = Some positions /\
      accountOf depositIx "userPositions" = Some positions /\
      accountOf initIx "user" = Some x.2 /\ accountOf depositIx "user" = Some x.2 /\
      conforms initIx = true /\ conforms depositIx = true /\
      signerKeys initIx = [positions; w] /\ signerKeys depositIx = [w]))
  end.
  { autounfold with client. walk.
    match goal with H : findProgramAddress _ ["user"; w] p = (?a, _) |- _ =>
      assert (userAddress chain p w = a) as -> by (unfold userAddress; by rewrite H) end.
    do 2 eexists. split; [reflexivity |]. split_and!; vm_compute; reflexivity. }
  destruct (spec_outcome _ _ _ _ _ _ _ _ _ Hs Hc Em) as
    (initIx & depositIx & E & H1 & H2 & H3 & H4 & H5 & H6 & H7 & H8 & H9 & H10).
  injection E as ->. exists state, (mintRequest f amount state k), initIx, depositIx.
  split; [done |]. cbv zeta. fold k. split_and!; try done; try apply mintRequest_conforms.
  cbn [ft_instructions ft_signers]. split.
  - intros H. by apply (H (CreateAssociatedAccount (fs_mint state) k w (fa_wallet f))); left.
  - intros Hw i k' Hi. repeat (apply elem_of_cons in Hi as [-> | Hi]); try by apply not_elem_of_nil in Hi.
    + cbn. by intros ->%list_elem_of_singleton.
    + vm_compute. by intros ?%not_elem_of_nil.
    + cbn [faucetIxSigners]. rewrite H9. set_solver.
    + cbn [faucetIxSigners]. rewrite H10. set_solver.
Qed.
End FaucetFacts.
