(* ===== verification/FaucetProgram.v ===== *)
(** * The mock faucet's program (programs/mock_usdc_faucet)

    Its two instructions, and the SDK's requests run by them: the faucet the SDK sets up is
    accepted, and what it asks to be minted is signed for by the mint's authority.  The
    token program's mint is a request here; the derivation of addresses is an argument. *)
From S2P Require Import Prelude BN Types Idl Client Faucet FaucetSpec.

#[local] Open Scope string_scope.

Inductive FaucetErrorCode := InvalidMintAccountAuthority | Unauthorized.
Inductive FaucetFault := FaucetError (e : FaucetErrorCode) | FaucetPanic.

Record MockUSDCFaucetState := mkMockUSDCFaucetState {
  mf_admin : PublicKey;
  mf_mint : PublicKey;
  mf_mint_authority : PublicKey;
  mf_mint_authority_nonce : Z
}.

(** A call of the token program's [mint_to]: its accounts, the seeds that sign for an address of
    the faucet, and the amount. *)
Record MintTo := mkMintTo {
  mt_mint : PublicKey;
  mt_to : PublicKey;
  mt_authority : PublicKey;
  mt_seeds : PublicKey * Z;
  mt_amount : Z
}.

(** [initialize]; [mint_authority] is that of the mint account. *)
Definition faucet_initialize (find_program_address : PublicKey -> PublicKey * Z) (admin mint : PublicKey)
    (mint_authority : option PublicKey) : FaucetFault + MockUSDCFaucetState :=
  let '(authority, nonce) := find_program_address mint in
  match mint_authority with
  | None => inl FaucetPanic
  | Some a =>
      if decide (a = authority) then inr (mkMockUSDCFaucetState admin mint authority nonce)
      else inl (FaucetError InvalidMintAccountAuthority)
  end.

(** [mint_to_user]: nobody has to sign; [token_mint_to] tells whether the token program's call
    succeeds. *)
Definition mint_to_user (token_mint_to : MintTo -> bool) (state : MockUSDCFaucetState)
    (mint_account user_token_account mint_authority : PublicKey) (amount : Z) : FaucetFault + MintTo :=
  let call := mkMintTo mint_account user_token_account mint_authority
                (mf_mint state, mf_mint_authority_nonce state) amount in
  if token_mint_to call then inr call else inl FaucetPanic.

(** The SDK's requests, run by the program. *)
Definition run_mint (token_mint_to : MintTo -> bool) (state : MockUSDCFaucetState) (ix : Instruction)
    : option (FaucetFault + MintTo) :=
  mint ← accountOf ix "mintAccount";
  to ← accountOf ix "userTokenAccount";
  authority ← accountOf ix "mintAuthority";
  match ix_args ix with
  | [ABN amount] => Some (mint_to_user token_mint_to state mint to authority amount)
  | _ => None
  end.

(** The state as the SDK decodes it. *)
Definition faucet_view (s : MockUSDCFaucetState) : FaucetState :=
  mkFaucetState (mf_admin s) (mf_mint s) (mf_mint_authority s).

Section Agreement.
Context {Info : Type} (env : FaucetEnv Info).
Variable create_program_address : PublicKey * Z -> PublicKey.
#[local] Abbreviation chain := (fe_chain env).

(** The token program mints for a call signed by the mint's authority. *)
Definition mints_for (authority_of : PublicKey -> option PublicKey) (c : MintTo) : bool :=
  bool_decide (authority_of (mt_mint c) = Some (mt_authority c)) &&
  bool_decide (create_program_address (mt_seeds c) = mt_authority c).

(** The SDK and the faucet's program agree: the transaction of [initialize] gives the new mint the
    authority the program derives, so the program accepts it; and with the state it then
    holds every [mintToUser] of the SDK mints the amount to the account, whoever asks,
    since the program itself signs for the mint's authority. *)
Theorem faucet_agrees f f' mint tx account amount authority_of :
  faucet_coherent env f ->
  (forall k : PublicKey, create_program_address (k, (findProgramAddress chain [k] (fa_programId f)).2) =
             (findProgramAddress chain [k] (fa_programId f)).1) ->
  faucetInitialize env mint f = (f', Ok tx) ->
  (forall d a, InitMint mint d a ∈ ft_instructions tx -> authority_of mint = Some a) ->
  exists state, faucet_initialize (fun k => findProgramAddress chain [k] (fa_programId f)) (fa_wallet f) mint
      (authority_of mint) = inr state /\
    mf_admin state = fa_wallet f /\ mf_mint state = mint /\
    run_mint (mints_for authority_of) state (mintRequest env f amount (faucet_view state) account) =
      Some (inr (mkMintTo mint account (mf_mint_authority state) (mint, mf_mint_authority_nonce state) amount)).
Proof.
  intros Hf Hpda H Hm. pose proof (faucet_initialize_outcomes env f mint Hf) as Ho. rewrite H in Ho.
  destruct (fe_stateExists env _) as [[] |], (fe_mintRent env); try discriminate Ho.
  destruct Ho as (ix & Ho & _). injection Ho as -> ->.
  specialize (Hm 6 (findProgramAddress chain [mint] (fa_programId f)).1). cbn [ft_instructions] in Hm.
  specialize (Hm ltac:(right; left)). specialize (Hpda mint).
  unfold faucet_initialize. rewrite Hm. revert Hpda Hm H.
  destruct (findProgramAddress chain [mint] (fa_programId f)) as [pda nonce]. intros Hpda Hm H. cbn [fst snd] in *.
  rewrite decide_True by done.
  eexists. split; [done |]. split; [done |]. split; [done |].
  cbn [mf_mint mf_mint_authority mf_mint_authority_nonce faucet_view].
  change (run_mint ?m ?st (mintRequest env f amount ?v account)) with
    (Some (mint_to_user m st (fs_mint v) account (fs_mintAuthority v) amount)).
  unfold mint_to_user, mints_for. cbn -[bool_decide]. by rewrite (bool_decide_true _ Hm), (bool_decide_true _ Hpda).
Qed.
End Agreement.
