(* ===== verification/Config.v ===== *)
(** * The configuration of the SDK (config.ts, constants/markets.ts)

    The environments, the module's current configuration, and the table of the
    markets. *)
From S2P Require Import Prelude Types JsMap.

#[local] Open Scope string_scope.

(** ** config.ts *)

(** [DriftConfig]; a field of an empty object is undefined. *)
Record DriftConfig := mkDriftConfig {
  dc_ENV : option string;
  dc_PYTH_ORACLE_MAPPING_ADDRESS : option string;
  dc_CLEARING_HOUSE_PROGRAM_ID : option string;
  dc_USDC_MINT_ADDRESS : option string
}.

Definition configs : list (string * DriftConfig) := [
  ("devnet", mkDriftConfig (Some "devnet")
    (Some "BmA9Z6FjioHJPpjT39QazZyhDRUdZy2ezwx4GiDdE2u2")
    (Some "AsW7LnXB9UA1uec9wi9MctYTgTz7YH9snhxd16GsFaGX")
    (Some "8zGuJQqwhZafTah7Uc7Z4tXRnguqkn5KLFAP8oV6PHe2"));
  ("mainnet-beta", mkDriftConfig (Some "mainnet-beta")
    (Some "AHtgzX45WTKfkPG53L6WYhGEXwQkN1BVknET3sVsLL8J")
    (Some "dammHkt7jmytvbS3nHTxQNEcP59aE57nxwV21YdqEDN")
    (Some "EPjFWdd5AufqSSqeM2qN1xzybapC8G4wEGGkZwyTDt1v"))].

(** [currentConfig] when the module is loaded *)
Definition defaultConfig : DriftConfig := default (mkDriftConfig None None None None) (js_get "devnet" configs).

(** [{ ...config, ...overrideEnv }]: an own property of [overrideEnv] wins. *)
Definition spread (config : option DriftConfig) (overrideEnv : option DriftConfig) : DriftConfig :=
  let c := default (mkDriftConfig None None None None) config in
  let o := default (mkDriftConfig None None None None) overrideEnv in
  let pick (x y : option string) := match x with Some v => Some v | None => y end in
  mkDriftConfig (pick (dc_ENV o) (dc_ENV c))
    (pick (dc_PYTH_ORACLE_MAPPING_ADDRESS o) (dc_PYTH_ORACLE_MAPPING_ADDRESS c))
    (pick (dc_CLEARING_HOUSE_PROGRAM_ID o) (dc_CLEARING_HOUSE_PROGRAM_ID c))
    (pick (dc_USDC_MINT_ADDRESS o) (dc_USDC_MINT_ADDRESS c)).

(** [initialize]: the current configuration after the call, and its result.
    [configs[env]] of an unknown or undefined environment is undefined. *)
Definition sdkInitialize (env : option string) (overrideEnv : option DriftConfig)
    (currentConfig : DriftConfig) : DriftConfig * DriftConfig :=
  let at_env := (e ← env; js_get e configs) in
  if decide (env = Some "master")
  then (currentConfig, spread (js_get "devnet" configs) overrideEnv)
  else let c := spread at_env overrideEnv in (c, c).

(** ** constants/markets.ts *)
Record MarketConfig := mkMarketConfig {
  mc_symbol : string;
  mc_baseAssetSymbol : string;
  mc_marketIndex : Z;
  mc_devnetPythOracle : string;
  mc_mainnetPythOracle : string;
  mc_launchTs : Z
}.

Definition Markets : list MarketConfig :=
  [mkMarketConfig "SOL-PERP" "SOL" 0
     "J83w4HKfqxwcq3BEMMkPFSppX3gqekLyLJBexebFVkix"
     "H6ARHf6YXhGYeQfUzQNGk6rDNnLBQKrenN712K4AQJEG" 1635209696886;
   mkMarketConfig "BTC-PERP" "BTC" 1
     "HovQMDrbAgAYPCmHVSrezcSmkMtXSSUsLDFANExrZh2J"
     "GVXRSBjFk6e6J3NbVPXohDJetcTjaeeuykUpbQF8UoMU" 1637691088868;
   mkMarketConfig "ETH-PERP" "ETH" 2
     "EdVCmQ9FSPcVe5YySXDPCRmc8aDQLKJ9xvYBMZPie1Vw"
     "JBu1AL4obBcCMqKBBxhpWCNUt136ijcuMZLFvTP7iWdB" 1637691133472;
   mkMarketConfig "LUNA-PERP" "LUNA" 3
     "8PugCXTAHLM9kfLSQWe2njE5pzAgUdpPk3Nx5zSm7BD3"
     "5bmWuR1dgP4avtGYMNKLuxumZTVKGgoN2BCMXWDNL9nY" 1638821738525;
   mkMarketConfig "AVAX-PERP" "AVAX" 4
     "FVb5h1VmHPfVb1RfqZckchq18GxRv4iKt8T4eVTQAqdz"
     "Ax9ujW5B9oqcv59N8m6f1BpTBq2rGeGaBcpKjC5UYsXU" 1639092501080;
   mkMarketConfig "BNB-PERP" "BNB" 5
     "GwzBgrXb4PG59zjce24SF2b9JXbLEjJJTBkmytuEZj1b"
     "4CkQJBxhU8EZ2UjhigbtdaPbpTe6mqf811fipYBFbSYN" 1639523193012;
   mkMarketConfig "MATIC-PERP" "MATIC" 6
     "FBirwuDFuRAu4iSGc7RGxN5koHB7EJM1wbCmyPuQoGur"
     "7KVswB9vkCgeM3SHP7aGDijvdRAHK8P5wi9JXViCrtYh" 1641488603564;
   mkMarketConfig "ATOM-PERP" "ATOM" 7
     "7YAze8qFUMkBnyLVdKT4TFUUFui99EwS5gfRArMcrvFk"
     "CrCpTerNqtZvqLcKqz1k13oVeXV9WkMD2zA9hBKXrsbN" 1641920238195;
   mkMarketConfig "DOT-PERP" "DOT" 8
     "4dqq5VBpN4EwYb7wyywjjfknvMKu7m78j9mKZRXTj462"
     "EcV1X1gY2yb4KXxjVQtTHTbioum2gvmPnFk4zYAt7zne" 1642629253786;
   mkMarketConfig "ADA-PERP" "ADA" 9
     "8oGTURNmSQkrBS1AQ5NjB2p8qY34UVmMA9ojrw8vnHus"
     "3pyn4svBbxJ9Wnn3RVeafyLWfzie6yC5eTig2S62v9SC" 1643084413000;
   mkMarketConfig "ALGO-PERP" "ALGO" 10
     "c1A946dY5NHuVda77C8XXtXytyR3wK1SCP3eA9VRfC3"
     "HqFyq1wh1xKvL7KDqqT7NJeSPdAqsDqnmBisUC2XdXAX" 1643686767000;
   mkMarketConfig "FTT-PERP" "FTT" 11
     "6vivTRs5ZPeeXbjo7dfburfaYDWoXjBtdtuYgQRuGfu"
     "8JPJJkmDScpcNmBRKGZuPuG2GYAveQgP3t5gFuMymwvF" 1644382122000].
