(* ===== verification/Cli.v ===== *)
(** * The command line (src/cli/cli.ts)

    Each command of the administration tool: its action, run between the
    subscription and the unsubscription of the client.  A command runs in the
    state of the client, leaves a trace of what it did, and may throw.  The
    terminal, the network and the parsing of the arguments by bn.js and web3.js
    come from the environment. *)
From Stdlib Require Import SpecFloat.
From S2P Require Import Prelude BN Types JsMap Idl Client Admin Config.

#[local] Open Scope string_scope.

(** ** Traces *)
Inductive CliEvent :=
  | Subscribing | Subscribed_ | UserSubscribing | UserSubscribed
  | Prompt (question : string)
  | PromptChange (verb : string) (percentChange : Number)
                                    (** [You are <verb> k by <percentChange>%. ...] *)
  | Sent (tx : Transaction)
  | Canceling
  | Complained                      (** [logError] *)
  | Logged (e : JsError)            (** [log.error(e)] of the wrappers *)
  | UserUnsubscribing | UserUnsubscribed | Unsubscribing | Unsubscribed_.

(** What a command meets: the outcomes of the subscriptions and of sending a
    transaction, the answer to its question, the parsers of its arguments, and
    what [admin.initialize] needs. [encodeBool] is what the encoding of the
    request makes of a string in place of a boolean. *)
Record CliEnv := mkCliEnv {
  ce_chain : Chain;
  ce_subscribe : result unit;
  ce_unsubscribe : result unit;
  ce_userSubscribe : result unit;
  ce_userUnsubscribe : result unit;
  ce_send : Transaction -> result unit;
  ce_answer : string;
  ce_newBN : string -> result Z;
  ce_newKey : string -> result PublicKey;
  ce_encodeBool : string -> bool;
  ce_stateExists : PublicKey -> result bool;
  ce_initializeKeys : InitializeKeys
}.

(** ** Commands: state, trace and exceptions *)
Definition Cli (A : Type) : Type := Client -> Client * list CliEvent * result A.

#[export] Instance Cli_ret : MRet Cli := fun A a c => (c, [], Ok a).
#[export] Instance Cli_bind : MBind Cli := fun A B f m c =>
  match m c with
  | (c1, e1, Ok a) => let '(c2, e2, r) := f a c1 in (c2, (e1 ++ e2)%list, r)
  | (c1, e1, Throw e) => (c1, e1, Throw e)
  end.

Definition tell (ev : CliEvent) : Cli unit := fun c => (c, [ev], Ok tt).
Definition liftR {A} (r : result A) : Cli A := fun c => (c, [], r).
Definition ofMethod {A} (m : Method A) : Cli A := fun c => let '(c', r) := m c in (c', [], r).

(** [try { action } catch (e) { log.error(e) }] *)
Definition tryLog (action : Cli unit) : Cli unit := fun c =>
  match action c with
  | (c', evs, Throw e) => (c', (evs ++ [Logged e])%list, Ok tt)
  | r => r
  end.

Inductive Command :=
  | CInitialize (collateralMint adminControlsPrices : string)
  | CInitializeMarket (marketIndex priceOracle baseAssetReserve quoteAssetReserve periodicity
      pegMultiplier : string)
  | CUpdateDiscountMint (discountMint : string)
  | CIncreaseK (market numerator denominator : string) (force : bool)
  | CDecreaseK (market numerator denominator : string) (force : bool)
  | CRepeg (market peg : string)
  | CPauseExchange | CUnpauseExchange | CPauseFunding | CUnpauseFunding
  | CUpdateOracleTwap (market : string)
  | CResetOracleTwap (market : string)
  | CDeposit (amount : string).

Section Cli.
Context {B : BNLib}.
Variable env : CliEnv.
#[local] Abbreviation chain := (ce_chain env).

(** Awaiting a method of the client that sends its transaction. *)
Definition sendTx (m : Method Transaction) : Cli unit :=
  tx ← ofMethod m; _ ← tell (Sent tx); liftR (ce_send env tx).

(** [promptly.prompt] *)
Definition prompt (question : CliEvent) : Cli string :=
  _ ← tell question; mret (ce_answer env).

(** [marketIndexFromSymbol] *)
Definition findMarket (symbol : string) : option MarketConfig :=
  head (List.filter (fun m => bool_decide (mc_baseAssetSymbol m = symbol)) Markets).
Definition marketIndexFromSymbol (symbol : string) : Cli Z :=
  match findMarket symbol with
  | Some m => mret (mc_marketIndex m)
  | None =>
      _ ← tell Complained;
      liftR (Throw (JsErr ("Could not find market index for " +:+ symbol)))
  end.

(** [Math.abs((numerator.toNumber() / denominator.toNumber()) * 100 - 100)] *)
Definition percentChangeOf (n d : Z) : Number :=
  SFabs (SFsub prec53 emax1024 (num_mul (num_div (num_of_Z n) (num_of_Z d)) (num_of_Z 100))
           (num_of_Z 100)).
Definition percentChange (numerator denominator : Z) : result Number :=
  n ← bn_toNumber numerator; d ← bn_toNumber denominator; Ok (percentChangeOf n d).

(** [x > y] *)
Definition num_gt (x y : Number) : bool := SFltb y x.

(** [admin.getMarketsAccount().markets[market.toNumber()].amm] *)
Definition marketAmm (market : Z) : result AMM :=
  markets ← subscribedMarkets chain;
  i ← bn_toNumber market;
  m ← deref (js_index (ma_markets markets) i);
  Ok (mkt_amm m).

(** The end of [increase-k] and [decrease-k]. *)
Definition scaleK (market numerator denominator : Z) : Cli unit :=
  amm ← liftR (marketAmm market);
  newSqrtK ← liftR (bn_div (amm_sqrtK amm * numerator)%Z denominator);
  sendTx (updateK chain newSqrtK market).

(** [increase-k] *)
Definition increaseK (market numerator denominator : string) (force : bool) : Cli unit :=
  market ← marketIndexFromSymbol market;
  numerator ← liftR (ce_newBN env numerator);
  denominator ← liftR (ce_newBN env denominator);
  if (numerator <? denominator)%Z then tell Complained
  else
    change ← liftR (percentChange numerator denominator);
    if num_gt change (num_of_Z 10) && negb force then tell Complained
    else
      answer ← prompt (PromptChange "increasing" change);
      if negb (bool_decide (answer = "y")) then tell Canceling
      else scaleK market numerator denominator.

(** [decrease-k] *)
Definition decreaseK (market numerator denominator : string) (force : bool) : Cli unit :=
  market ← marketIndexFromSymbol market;
  numerator ← liftR (ce_newBN env numerator);
  denominator ← liftR (ce_newBN env denominator);
  if (denominator <? numerator)%Z then tell Complained
  else
    change ← liftR (percentChange numerator denominator);
    if num_gt change (num_of_Z 2) then tell Complained
    else
      answer ← prompt (PromptChange "decreasing" change);
      if negb (bool_decide (answer = "y")) && negb force then tell Canceling
      else scaleK market numerator denominator.

(** [repeg] *)
Definition repeg (market peg : string) : Cli unit :=
  market ← marketIndexFromSymbol market;
  peg ← liftR (ce_newBN env peg);
  _ ← liftR (marketAmm market);
  sendTx (repegAmmCurve chain peg market).

(** [pause-exchange], [unpause-exchange], [pause-funding], [unpause-funding] *)
Definition confirmed (question : string) (m : Method Transaction) : Cli unit :=
  answer ← prompt (Prompt question);
  if negb (bool_decide (answer = "y")) then tell Canceling else sendTx m.

(** [initialize], [initialize-market], [update-discount-mint] *)
Definition cliInitialize (collateralMint adminControlsPrices : string) : Cli unit :=
  collateralMintPublicKey ← liftR (ce_newKey env collateralMint);
  '(initializeTx, initializeHistoryTx) ←
    ofMethod (initialize chain (ce_stateExists env) (ce_initializeKeys env)
                collateralMintPublicKey (ce_encodeBool env adminControlsPrices));
  _ ← tell (Sent initializeTx);
  _ ← liftR (ce_send env initializeTx);
  _ ← tell (Sent initializeHistoryTx);
  liftR (ce_send env initializeHistoryTx).
Definition cliInitializeMarket (marketIndex priceOracle baseAssetReserve quoteAssetReserve
    periodicity pegMultiplier : string) : Cli unit :=
  marketIndex ← liftR (ce_newBN env marketIndex);
  priceOracle ← liftR (ce_newKey env priceOracle);
  baseAssetReserve ← liftR (ce_newBN env baseAssetReserve);
  quoteAssetReserve ← liftR (ce_newBN env quoteAssetReserve);
  periodicity ← liftR (ce_newBN env periodicity);
  pegMultiplier ← liftR (ce_newBN env pegMultiplier);
  sendTx (initializeMarket chain marketIndex priceOracle baseAssetReserve quoteAssetReserve
            periodicity (Some pegMultiplier)).
Definition cliUpdateDiscountMint (discountMint : string) : Cli unit :=
  discountMint ← liftR (ce_newKey env discountMint);
  sendTx (updateDiscountMint chain discountMint).

(** [update-oracle-twap], [reset-oracle-twap] *)
Definition oracleTwap (m : Z -> Method Transaction) (market : string) : Cli unit :=
  market ← marketIndexFromSymbol market; sendTx (m market).

(** [deposit] *)
Definition deposit (amount : string) : Cli unit :=
  amount ← liftR (ce_newBN env amount);
  state ← liftR (subscribedState chain);
  authority ← ofMethod (gets cl_wallet);
  let associatedTokenPublicKey :=
    getAssociatedTokenAddress chain (st_collateralMint state) authority in
  sendTx (depositCollateral chain amount associatedTokenPublicKey None).

Definition actionOf (cmd : Command) : Cli unit :=
  match cmd with
  | CInitialize mint prices => cliInitialize mint prices
  | CInitializeMarket i o b q p m => cliInitializeMarket i o b q p m
  | CUpdateDiscountMint mint => cliUpdateDiscountMint mint
  | CIncreaseK m n d force => increaseK m n d force
  | CDecreaseK m n d force => decreaseK m n d force
  | CRepeg m p => repeg m p
  | CPauseExchange =>
      confirmed "Are you sure you want to 'pause' the exchange? y/n" (updateExchangePaused chain true)
  | CUnpauseExchange =>
      confirmed "Are you sure you want to 'unpause' the exchange? y/n"
        (updateExchangePaused chain false)
  | CPauseFunding =>
      confirmed "Are you sure you want to 'pause' funding? y/n" (updateFundingPaused chain true)
  | CUnpauseFunding =>
      confirmed "Are you sure you want to 'unpause' funding? y/n" (updateFundingPaused chain false)
  | CUpdateOracleTwap m => oracleTwap (updateAmmOracleTwap chain) m
  | CResetOracleTwap m => oracleTwap (resetAmmOracleTwap chain) m
  | CDeposit amount => deposit amount
  end.

(** [wrapActionInAdminSubscribeUnsubscribe] *)
Definition wrapAdmin (action : Cli unit) : Cli unit :=
  _ ← tell Subscribing;
  _ ← liftR (ce_subscribe env);
  _ ← tell Subscribed_;
  _ ← tryLog action;
  _ ← tell Unsubscribing;
  _ ← liftR (ce_unsubscribe env);
  tell Unsubscribed_.

(** [wrapActionInUserSubscribeUnsubscribe] *)
Definition wrapUser (action : Cli unit) : Cli unit :=
  _ ← tell Subscribing;
  _ ← liftR (ce_subscribe env);
  _ ← tell Subscribed_;
  _ ← tell UserSubscribing;
  _ ← liftR (ce_userSubscribe env);
  _ ← tell UserSubscribed;
  _ ← tryLog action;
  _ ← tell UserUnsubscribing;
  _ ← liftR (ce_userUnsubscribe env);
  _ ← tell UserUnsubscribed;
  _ ← tell Unsubscribing;
  _ ← liftR (ce_unsubscribe env);
  tell Unsubscribed_.

Definition runCommand (cmd : Command) : Cli unit :=
  match cmd with
  | CDeposit _ => wrapUser (actionOf cmd)
  | _ => wrapAdmin (actionOf cmd)
  end.
End Cli.

(** ** The configuration file *)

(** The file: its JSON object as an association list, in the order of the
    properties, or no file. *)
Definition ConfigFile := option (list (string * string)).

Definition ENOENT : JsError := LibErr "ENOENT".

(** [getConfig], [config init], [config set] *)
Definition getConfig (file : ConfigFile) : option (list (string * string)) := file.
Definition configInit (homedir : string) (file : ConfigFile) : ConfigFile :=
  Some [("env", "devnet"); ("url", "https://api.devnet.solana.com");
        ("keypair", homedir +:+ "/.config/solana/id.json")].
Definition configSet (key value : string) (file : ConfigFile) : ConfigFile * result unit :=
  if negb (bool_decide (key = "env")) && negb (bool_decide (key = "url")) &&
     negb (bool_decide (key = "keypair"))
  then (file, Ok tt)
  else
    match file with
    | None => (file, Throw ENOENT)
    | Some config => (Some (js_set key value config), Ok tt)
    end.

(** The options of a command. *)
Record CliOptions := mkCliOptions {
  co_env : option string; co_keypair : option string; co_url : option string
}.

Definition falsy (o : option string) : bool :=
  match o with None => true | Some s => bool_decide (s = EmptyString) end.

(** [if (!x) { x = config.key; }] *)
Definition orConfig (x : option string) (key : string) (file : ConfigFile) : result (option string) :=
  if falsy x then config ← deref (getConfig file); Ok (js_get key config) else Ok x.

(** [adminFromOptions] up to the objects it builds: the url of the connection,
    the path of the key pair and the address of the program. [newKey] is
    [new PublicKey]. *)
Definition adminFromOptions (newKey : option string -> result PublicKey) (options : CliOptions)
    (file : ConfigFile) (currentConfig : DriftConfig)
    : DriftConfig * result (option string * string * PublicKey) :=
  match orConfig (co_env options) "env" file with
  | Throw e => (currentConfig, Throw e)
  | Ok env =>
      let '(currentConfig, sdkConfig) := sdkInitialize env None currentConfig in
      (currentConfig,
       url ← orConfig (co_url options) "url" file;
       keypair ← orConfig (co_keypair options) "keypair" file;
       keypairPath ←
         (if falsy keypair then Throw (JsErr "Keypair is required!") else deref keypair);
       programId ← newKey (dc_CLEARING_HOUSE_PROGRAM_ID sdkConfig);
       Ok (url, keypairPath, programId))
  end.
