(* ===== verification/CliSpec.v ===== *)
(** * What the commands guarantee

    Theorems about Cli.v: every command ends its session, the requests it sends
    fit the program, the k of a market changes only within the guards, pausing
    asks first, and the configuration file. *)
From Stdlib Require Import SpecFloat.
From S2P Require Import Prelude BN Types JsMap Idl Client Admin ClientSpec Config Cli.

#[local] Open Scope string_scope.

(** ** Traces *)

(** A command sends [tx]. *)
Definition sends {A} (m : Cli A) (c : Client) (tx : Transaction) : Prop := Sent tx ∈ (m c).1.2.

Lemma sends_bind {A C} (m : Cli A) (f : A -> Cli C) c tx :
  sends (m ≫= f) c tx <->
  sends m c tx \/ exists c1 e1 a, m c = (c1, e1, Ok a) /\ sends (f a) c1 tx.
Proof.
  unfold sends, mbind, Cli_bind. destruct (m c) as [[c1 e1] [a | e]]; cbn.
  - destruct (f a c1) as [[c2 e2] r] eqn:Ef. cbn. rewrite elem_of_app. split.
    + intros [H | H]; [by left | right]. exists c1, e1, a. by rewrite Ef.
    + intros [H | (? & ? & ? & [= <- <- <-] & H)]; [by left | right]. by rewrite Ef in H.
  - split; [by left |]. by intros [H | (? & ? & ? & [=] & _)].
Qed.

(** A step that sends nothing. *)
Definition silent {A} (m : Cli A) : Prop := forall c tx, ~ sends m c tx.

Lemma silent_ret {A} (a : A) : silent (mret a).
Proof. intros c tx H. by apply not_elem_of_nil in H. Qed.
Lemma silent_liftR {A} (r : result A) : silent (liftR r).
Proof. intros c tx H. by apply not_elem_of_nil in H. Qed.
Lemma silent_ofMethod {A} (m : Method A) : silent (ofMethod m).
Proof.
  intros c tx H. unfold sends, ofMethod in H. destruct (m c). by apply not_elem_of_nil in H.
Qed.
Lemma silent_tell ev : (forall tx, ev <> Sent tx) -> silent (tell ev).
Proof. intros Hev c tx H. apply list_elem_of_singleton in H. by apply (Hev tx). Qed.
Lemma silent_bind {A C} (m : Cli A) (f : A -> Cli C) :
  silent m -> (forall a, silent (f a)) -> silent (m ≫= f).
Proof. intros Hm Hf c tx [H | (c1 & ? & a & _ & H)]%sends_bind; [by apply Hm in H | by apply Hf in H]. Qed.
Lemma silent_market symbol : silent (marketIndexFromSymbol symbol).
Proof.
  unfold marketIndexFromSymbol. destruct (findMarket symbol); [apply silent_ret |].
  apply silent_bind; [by apply silent_tell | intros; apply silent_liftR].
Qed.
Lemma silent_prompt env q : (forall tx, q <> Sent tx) -> silent (prompt env q).
Proof. intros Hq. apply silent_bind; [by apply silent_tell | intros; apply silent_ret]. Qed.

(** What is sent after a silent step. *)
Lemma sends_after {A C} (m : Cli A) (f : A -> Cli C) c tx : silent m -> sends (m ≫= f) c tx ->
  exists c1 e1 a, m c = (c1, e1, Ok a) /\ sends (f a) c1 tx.
Proof. intros Hm [H | H]%sends_bind; [by apply Hm in H | done]. Qed.

Lemma sends_tryLog m c tx : sends (tryLog m) c tx <-> sends m c tx.
Proof.
  unfold sends, tryLog. destruct (m c) as [[c' evs] [[] | e]]; [done |]. cbn.
  rewrite elem_of_app, list_elem_of_singleton. split; [by intros [] | by left].
Qed.

Lemma liftR_outcome {A} (r : result A) c c1 e1 a : liftR r c = (c1, e1, Ok a) ->
  c1 = c /\ e1 = [] /\ r = Ok a.
Proof. by intros [= <- <- ->]. Qed.

Lemma market_outcome symbol c c1 e1 i : marketIndexFromSymbol symbol c = (c1, e1, Ok i) ->
  c1 = c /\ e1 = [] /\ exists m, findMarket symbol = Some m /\ mc_marketIndex m = i.
Proof.
  unfold marketIndexFromSymbol. destruct (findMarket symbol) as [m |]; [| discriminate].
  intros [= <- <- <-]. split_and!; [done | done | by exists m].
Qed.

Lemma prompt_outcome env q c c1 e1 a : prompt env q c = (c1, e1, Ok a) ->
  c1 = c /\ a = ce_answer env.
Proof. by intros [= <- <- <-]. Qed.

(** Take apart [Hs : sends (m ≫= f) c tx] for a step that lifts a result, finds
    a market or asks. *)
Ltac after_lift Hs a Ha :=
  apply sends_after in Hs as (? & ? & a & Ha & Hs);
    [apply liftR_outcome in Ha as (-> & -> & Ha) | apply silent_liftR].
Ltac after_market Hs i m Hm :=
  apply sends_after in Hs as (? & ? & i & Hm & Hs);
    [apply market_outcome in Hm as (-> & -> & m & Hm & <-) | apply silent_market].
Ltac after_prompt Hs :=
  apply sends_after in Hs as (? & ? & ? & Ha & Hs);
    [apply prompt_outcome in Ha as [-> ->] | by apply silent_prompt].

Section Facts.
Context {B : BNLib} (env : CliEnv).

Lemma sends_tell_bind {A} ev (f : unit -> Cli A) c tx : (forall t, ev <> Sent t) ->
  sends (tell ev ≫= f) c tx <-> sends (f tt) c tx.
Proof.
  intros Hev. rewrite sends_bind. split.
  - intros [H | (? & ? & [] & [= <- <-] & H)]; [by apply silent_tell in H | done].
  - intros H. right. by eexists _, _, tt.
Qed.

Lemma sends_liftR_bind {A C} (r : result A) (f : A -> Cli C) c tx :
  sends (liftR r ≫= f) c tx <-> exists a, r = Ok a /\ sends (f a) c tx.
Proof.
  rewrite sends_bind. split.
  - intros [H | (? & ? & a & [= <- <- ->] & H)]; [by apply silent_liftR in H | by exists a].
  - intros (a & -> & H). right. by eexists _, _, a.
Qed.

(** What follows the action sends nothing. *)
Lemma silent_unsubscribe : silent (
  _ ← tell Unsubscribing; _ ← liftR (ce_unsubscribe env); tell Unsubscribed_).
Proof.
  apply silent_bind; [by apply silent_tell | intros _].
  apply silent_bind; [apply silent_liftR | intros _; by apply silent_tell].
Qed.

Lemma sends_then_silent {A} m (k : Cli A) c tx : silent k ->
  sends (_ ← tryLog m; k) c tx <-> sends m c tx.
Proof.
  intros Hk. rewrite sends_bind, sends_tryLog. split; [| by left].
  by intros [H | (? & ? & ? & _ & H%Hk)].
Qed.

Lemma sends_wrapAdmin action c tx :
  sends (wrapAdmin env action) c tx <-> ce_subscribe env = Ok tt /\ sends action c tx.
Proof.
  unfold wrapAdmin. rewrite sends_tell_bind, sends_liftR_bind by done. split.
  - intros ([] & Hs & H). rewrite sends_tell_bind, sends_then_silent in H
      by (done || apply silent_unsubscribe). done.
  - intros [Hs H]. exists tt. split; [done |].
    by rewrite sends_tell_bind, sends_then_silent by (done || apply silent_unsubscribe).
Qed.

Lemma sends_sendTx m c tx :
  sends (sendTx env m) c tx <-> exists c', m c = (c', Ok tx).
Proof.
  unfold sendTx. rewrite sends_bind. split.
  - intros [H | (c1 & e1 & t & Hm & H)]; [by apply silent_ofMethod in H |].
    apply sends_bind in H as [H | (? & ? & ? & _ & H)]; [| by apply silent_liftR in H].
    apply list_elem_of_singleton in H as [= ->]. unfold ofMethod in Hm.
    destruct (m c) as [c' r] eqn:Em. injection Hm as -> _ ->. by exists c1.
  - intros (c' & Hm). right. exists c', [], tx. split; [unfold ofMethod; by rewrite Hm |].
    apply sends_bind. left. by left.
Qed.

Lemma sends_tell ev c tx : sends (tell ev) c tx <-> ev = Sent tx.
Proof. unfold sends, tell. cbn. rewrite list_elem_of_singleton. by split. Qed.
End Facts.

Lemma method_bind_Ok {A C} (m : Method A) (f : A -> Method C) c c' b :
  (m ≫= f) c = (c', Ok b) -> exists c1 a, m c = (c1, Ok a) /\ f a c1 = (c', Ok b).
Proof.
  unfold mbind, Method_bind. destruct (m c) as [c1 [a |]]; [| discriminate].
  intros H. by exists c1, a.
Qed.

Lemma adminIx_Ok chain name args more c c' ix : adminIx chain name args more c = (c', Ok ix) ->
  ix_name ix = name /\ ix_args ix = args.
Proof.
  intros H. unfold adminIx in H. apply method_bind_Ok in H as (? & ? & _ & H).
  apply method_bind_Ok in H as (? & ? & _ & H). by injection H as _ <-.
Qed.

(** ** The requests fit the program *)
Section Requests.
Context {B : BNLib} (env : CliEnv) (p w : PublicKey).
#[local] Abbreviation coh := (coherent (findProgramAddress (ce_chain env)) p w None).

(** A step keeps the client's caches right, sends well-formed transactions only,
    and returns what [Q] says. *)
Definition cspec {A} (m : Cli A) (Q : A -> Prop) : Prop :=
  forall c, coh c ->
    coh (m c).1.1 /\ (forall tx, sends m c tx -> well_formed w tx) /\
    (forall a, (m c).2 = Ok a -> Q a).

Lemma cspec_bind {A C} (m : Cli A) (f : A -> Cli C) R Q :
  cspec m R -> (forall a, R a -> cspec (f a) Q) -> cspec (m ≫= f) Q.
Proof.
  intros Hm Hf c Hc. destruct (Hm c Hc) as (H1 & H2 & H3). unfold mbind, Cli_bind, sends in *.
  destruct (m c) as [[c1 e1] [a | e]]; cbn in *.
  - destruct (Hf a (H3 a eq_refl) c1 H1) as (H4 & H5 & H6). unfold sends in *.
    destruct (f a c1) as [[c2 e2] r]. cbn in *. split_and!; [done | | done].
    intros tx [H | H]%elem_of_app; auto.
  - by split_and!.
Qed.

Lemma cspec_mono {A} (m : Cli A) (Q R : A -> Prop) : cspec m Q -> (forall a, Q a -> R a) -> cspec m R.
Proof. intros Hm HQ c Hc. destruct (Hm c Hc) as (? & ? & ?). split_and!; auto. Qed.

Lemma cspec_ret {A} (a : A) (Q : A -> Prop) : Q a -> cspec (mret a) Q.
Proof.
  intros HQ c Hc. split_and!; [done | intros tx H; by apply silent_ret in H | by intros b [= <-]].
Qed.

Lemma cspec_liftR {A} (r : result A) : cspec (liftR r) (fun _ => True).
Proof. intros c Hc. split_and!; [done | intros tx H; by apply silent_liftR in H | done]. Qed.

Lemma cspec_tell ev : (forall tx, ev = Sent tx -> well_formed w tx) -> cspec (tell ev) (fun _ => True).
Proof. intros Hev c Hc. split_and!; [done | intros tx H%sends_tell; auto | done]. Qed.

Lemma cspec_ofMethod {A} (m : Method A) Q : spec (ce_chain env) p w None m Q -> cspec (ofMethod m) Q.
Proof.
  intros Hm c Hc. destruct (Hm c Hc) as [H1 H2]. unfold ofMethod, sends.
  destruct (m c) as [c' r]. split_and!; [done | | done]. intros tx H. by apply not_elem_of_nil in H.
Qed.

Lemma cspec_sendTx m : spec (ce_chain env) p w None m (well_formed w) ->
  cspec (sendTx env m) (fun _ => True).
Proof.
  intros Hm. eapply cspec_bind; [by apply cspec_ofMethod |]. intros tx Htx.
  eapply cspec_bind; [apply cspec_tell; by intros ? [= <-] | intros; apply cspec_liftR].
Qed.

Lemma spec_unit {A} (m : Method A) Q :
  spec (ce_chain env) p w None (m ≫= mret) Q -> spec (ce_chain env) p w None m Q.
Proof.
  intros H c Hc. specialize (H c Hc). unfold mbind, Method_bind, mret, Method_ret in H.
  by destruct (m c) as [? []].
Qed.

Lemma cspec_market symbol : cspec (marketIndexFromSymbol symbol) (fun _ => True).
Proof.
  unfold marketIndexFromSymbol. destruct (findMarket symbol); [by apply cspec_ret |].
  eapply cspec_bind; [by apply cspec_tell | intros; apply cspec_liftR].
Qed.

Lemma cspec_prompt q : (forall tx, q <> Sent tx) -> cspec (prompt env q) (fun _ => True).
Proof.
  intros Hq. eapply cspec_bind; [apply cspec_tell; by intros tx ?%Hq | intros; by apply cspec_ret].
Qed.

Lemma cspec_tryLog m : cspec m (fun _ => True) -> cspec (tryLog m) (fun _ => True).
Proof.
  intros Hm c Hc. destruct (Hm c Hc) as (H1 & H2 & _). split_and!; [| | done].
  - unfold tryLog. by destruct (m c) as [[? ?] []].
  - intros tx H. apply H2. by apply (sends_tryLog m).
Qed.

#[local] Ltac cstep :=
  match goal with
  | |- cspec (liftR _ ≫= _) _ => eapply cspec_bind; [apply cspec_liftR | intros ? _]
  | |- cspec (tell _ ≫= _) _ => eapply cspec_bind; [by apply cspec_tell | intros ? _]
  | |- cspec (marketIndexFromSymbol _ ≫= _) _ => eapply cspec_bind; [apply cspec_market | intros ? _]
  | |- cspec (prompt _ _ ≫= _) _ => eapply cspec_bind; [by apply cspec_prompt | intros ? _]
  | |- cspec (if ?b then _ else _) _ => destruct b
  | |- cspec (tell _) _ => by apply cspec_tell
  | |- cspec (liftR _) _ => apply cspec_liftR
  | |- cspec (sendTx _ _) _ => apply cspec_sendTx, spec_unit; autounfold with admin client; walk; well_formed
  end.

Lemma cspec_action cmd : cspec (actionOf env cmd) (fun _ => True).
Proof.
  destruct cmd; cbn [actionOf];
    unfold increaseK, decreaseK, scaleK, repeg, confirmed, cliInitializeMarket,
      cliUpdateDiscountMint, oracleTwap, deposit; repeat cstep.
  - unfold cliInitialize. cstep. eapply cspec_bind.
    + apply (cspec_ofMethod _ (fun t => well_formed w t.1 /\ well_formed w t.2)), spec_unit.
      destruct (ce_initializeKeys env). autounfold with admin. walk.
      split; well_formed.
    + intros [t1 t2] [H1 H2]. eapply cspec_bind; [apply cspec_tell; by intros ? [= <-] | intros _ _].
      cstep. eapply cspec_bind; [apply cspec_tell; by intros ? [= <-] | intros _ _]. cstep.
  - eapply cspec_bind; [apply cspec_ofMethod, spec_wallet | intros ? ->]. cbn zeta. cstep.
Qed.
End Requests.

(** ** Sessions *)
Definition logged {A} (r : result A) : list CliEvent :=
  match r with Throw e => [Logged e] | Ok _ => [] end.

(** The unsubscription's trace and outcome. *)
Definition closing (during after : CliEvent) (r : result unit) : list CliEvent :=
  match r with Ok _ => [during; after] | Throw _ => [during] end.

Section Properties.
Context {B : BNLib} (env : CliEnv).

Lemma wrapAdmin_trace action c :
  wrapAdmin env action c =
  match ce_subscribe env with
  | Throw e => (c, [Subscribing], Throw e)
  | Ok _ =>
      let '(c', evs, r) := action c in
      (c', ([Subscribing; Subscribed_] ++ evs ++ logged r ++
            closing Unsubscribing Unsubscribed_ (ce_unsubscribe env))%list, ce_unsubscribe env)
  end.
Proof.
  unfold wrapAdmin, tryLog, mbind, Cli_bind, tell, liftR.
  destruct (ce_subscribe env) as [[] |]; [| done]. destruct (action c) as [[c' evs] [[] |]]; cbn;
    destruct (ce_unsubscribe env) as [[] |]; cbn; rewrite <- ?(assoc_L (++)%list); done.
Qed.

Lemma wrapUser_trace action c :
  wrapUser env action c =
  match ce_subscribe env, ce_userSubscribe env with
  | Throw e, _ => (c, [Subscribing], Throw e)
  | Ok _, Throw e => (c, [Subscribing; Subscribed_; UserSubscribing], Throw e)
  | Ok _, Ok _ =>
      let '(c', evs, r) := action c in
      (c', ([Subscribing; Subscribed_; UserSubscribing; UserSubscribed] ++ evs ++ logged r ++
            closing UserUnsubscribing UserUnsubscribed (ce_userUnsubscribe env) ++
            match ce_userUnsubscribe env with
            | Ok _ => closing Unsubscribing Unsubscribed_ (ce_unsubscribe env)
            | Throw _ => []
            end)%list,
       match ce_userUnsubscribe env with Ok _ => ce_unsubscribe env | Throw e => Throw e end)
  end.
Proof.
  unfold wrapUser, tryLog, mbind, Cli_bind, tell, liftR.
  destruct (ce_subscribe env) as [[] |]; [| done].
  destruct (ce_userSubscribe env) as [[] |]; [| done].
  destruct (action c) as [[c' evs] [[] |]]; cbn;
    destruct (ce_userUnsubscribe env) as [[] |]; cbn;
    destruct (ce_unsubscribe env) as [[] |]; cbn; rewrite <- ?(assoc_L (++)%list); done.
Qed.

(** Every command that subscribes also unsubscribes, whatever its action does:
    the action's exception is logged and not thrown, the unsubscription comes
    after everything the action did, and the command's outcome is the
    unsubscription's. Only a failed subscription stops a command, and then it has
    done nothing else. *)
Theorem command_always_unsubscribes cmd c :
  let '(c', evs, r) := runCommand env cmd c in
  let '(c1, evs1, r1) := actionOf env cmd c in
  match ce_subscribe env with
  | Throw e => c' = c /\ evs = [Subscribing] /\ r = Throw e
  | Ok _ =>
      match cmd with
      | CDeposit _ =>
          match ce_userSubscribe env with
          | Throw e => c' = c /\ evs = [Subscribing; Subscribed_; UserSubscribing] /\ r = Throw e
          | Ok _ =>
              c' = c1 /\
              exists rest,
                evs = ([Subscribing; Subscribed_; UserSubscribing; UserSubscribed] ++ evs1 ++
                       logged r1 ++ UserUnsubscribing :: rest)%list /\
                (ce_userUnsubscribe env = Ok tt ->
                 rest = UserUnsubscribed :: closing Unsubscribing Unsubscribed_ (ce_unsubscribe env)
                 /\ r = ce_unsubscribe env)
          end
      | _ =>
          c' = c1 /\ r = ce_unsubscribe env /\
          evs = ([Subscribing; Subscribed_] ++ evs1 ++ logged r1 ++
                 closing Unsubscribing Unsubscribed_ (ce_unsubscribe env))%list
      end
  end.
Proof.
  unfold runCommand.
  destruct cmd; rewrite ?wrapAdmin_trace, ?wrapUser_trace;
    destruct (ce_subscribe env) as [[] |]; try by destruct (actionOf env _ c) as [[? ?] ?].
  destruct (ce_userSubscribe env) as [[] |]; [| by destruct (actionOf env _ c) as [[? ?] ?]].
  destruct (actionOf env _ c) as [[c1 evs1] r1]. split; [done |].
  destruct (ce_userUnsubscribe env) as [[] |]; cbn; by eexists.
Qed.

(** Every transaction a command sends is one the program and the runtime can
    accept as built, whatever the arguments and the accounts. *)
Theorem cli_requests_well_formed p w cmd c tx :
  coherent (findProgramAddress (ce_chain env)) p w None c ->
  sends (runCommand env cmd) c tx -> well_formed w tx.
Proof.
  intros Hc Hs. apply (cspec_action env p w cmd c Hc).
  destruct cmd; cbn [runCommand] in Hs; try by (apply sends_wrapAdmin in Hs as [_ Hs]).
  unfold sends in *. rewrite wrapUser_trace in Hs.
  destruct (ce_subscribe env) as [[] |]; [| cbn in Hs; set_solver].
  destruct (ce_userSubscribe env) as [[] |]; [| cbn in Hs; set_solver].
  destruct (actionOf env _ c) as [[c1 evs1] r1]. cbn [fst snd] in Hs |- *.
  rewrite !elem_of_app in Hs.
  destruct r1, (ce_userUnsubscribe env), (ce_unsubscribe env); cbn in Hs; set_solver.
Qed.

(** What a successful k command sent. *)
Definition scaledRequest (market num den : Z) (tx : Transaction) (newSqrtK : Z) : Prop :=
  exists amm, marketAmm env market = Ok amm /\ bn_div (amm_sqrtK amm * num) den = Ok newSqrtK /\
    exists ix, tx_instructions tx = [Call ix] /\ ix_name ix = "updateK" /\
      ix_args ix = [ABN newSqrtK; ABN market].

Lemma scaleK_sends market num den c tx : sends (scaleK env market num den) c tx ->
  exists newSqrtK, scaledRequest market num den tx newSqrtK.
Proof.
  intros Hs. unfold scaleK in Hs. after_lift Hs amm Ha. after_lift Hs k Hk.
  apply sends_sendTx in Hs as (c' & Hm). exists k, amm. split; [done |]. split; [done |].
  unfold updateK, curveIx in Hm.
  apply method_bind_Ok in Hm as (? & ? & _ & Hm). apply method_bind_Ok in Hm as (? & ? & _ & Hm).
  apply method_bind_Ok in Hm as (? & ix & Hix & Hm). injection Hm as _ <-.
  exists ix. split; [done |]. by apply adminIx_Ok in Hix.
Qed.

Lemma increaseK_sends m n d force c tx : sends (increaseK env m n d force) c tx ->
  exists mk num den change newSqrtK,
    findMarket m = Some mk /\ ce_newBN env n = Ok num /\ ce_newBN env d = Ok den /\
    percentChange num den = Ok change /\ scaledRequest (mc_marketIndex mk) num den tx newSqrtK /\
    den <= num /\ ce_answer env = "y" /\
    (force = true \/ num_gt change (num_of_Z 10) = false).
Proof.
  intros Hs. unfold increaseK in Hs. after_market Hs i mk Hm. after_lift Hs num Hn.
  after_lift Hs den Hd. destruct (Z.ltb_spec num den); [by apply silent_tell in Hs |].
  after_lift Hs change Hc. destruct (num_gt change (num_of_Z 10) && negb force) eqn:Eg;
    [by apply silent_tell in Hs |].
  after_prompt Hs. destruct (bool_decide_reflect (ce_answer env = "y")); [| by apply silent_tell in Hs].
  apply scaleK_sends in Hs as [k Hk]. exists mk, num, den, change, k.
  split_and!; try done. destruct force; [by left | right].
  by rewrite andb_true_r in Eg.
Qed.

Lemma decreaseK_sends m n d force c tx : sends (decreaseK env m n d force) c tx ->
  exists mk num den change newSqrtK,
    findMarket m = Some mk /\ ce_newBN env n = Ok num /\ ce_newBN env d = Ok den /\
    percentChange num den = Ok change /\ scaledRequest (mc_marketIndex mk) num den tx newSqrtK /\
    num <= den /\ num_gt change (num_of_Z 2) = false /\
    (force = true \/ ce_answer env = "y").
Proof.
  intros Hs. unfold decreaseK in Hs. after_market Hs i mk Hm. after_lift Hs num Hn.
  after_lift Hs den Hd. destruct (Z.ltb_spec den num); [by apply silent_tell in Hs |].
  after_lift Hs change Hc. destruct (num_gt change (num_of_Z 2)) eqn:Eg;
    [by apply silent_tell in Hs |].
  after_prompt Hs.
  destruct (bool_decide_reflect (ce_answer env = "y")), force; try by apply silent_tell in Hs.
  all: apply scaleK_sends in Hs as [k Hk]; exists mk, num, den, change, k;
    split_and!; try done; tauto.
Qed.

(** The k a command sends, between the old one and its direction. *)
Lemma scaled_bounds `{!BNLaws B} market num den tx k amm :
  scaledRequest market num den tx k -> marketAmm env market = Ok amm ->
  0 <= amm_sqrtK amm -> 0 < den ->
  k = (amm_sqrtK amm * num) `quot` den /\
  (den <= num -> amm_sqrtK amm <= k) /\ (0 <= num <= den -> 0 <= k <= amm_sqrtK amm).
Proof.
  intros (amm' & Ha & Hk & _) Ha' H0 Hd. rewrite Ha in Ha'. injection Ha' as ->.
  rewrite bn_div_nonzero in Hk by lia. injection Hk as <-. split; [done |].
  split; intros Hn; rewrite quot_div_pos by nia.
  - apply Z.div_le_lower_bound; nia.
  - split; [apply Z.div_pos; nia | apply Z.div_le_upper_bound; nia].
Qed.

(** C16: A k command changes k only within its guards. [increase-k] needs a
    numerator at least the denominator, a confirmation, and a change of at most
    ten percent unless forced; the new k is not below the old one. [decrease-k]
    needs a numerator at most the denominator and a change of at most two
    percent, and [--force] stands in for the confirmation; the new k is not above
    the old one. The request scales the market's k by the two arguments. *)
Theorem k_changes_within_guards (L : BNLaws B) cmd m n d force c tx :
  cmd = CIncreaseK m n d force \/ cmd = CDecreaseK m n d force ->
  sends (runCommand env cmd) c tx ->
  exists mk num den change newSqrtK,
    findMarket m = Some mk /\ ce_newBN env n = Ok num /\ ce_newBN env d = Ok den /\
    percentChange num den = Ok change /\ scaledRequest (mc_marketIndex mk) num den tx newSqrtK /\
    (cmd = CIncreaseK m n d force ->
       den <= num /\ ce_answer env = "y" /\
       (force = true \/ num_gt change (num_of_Z 10) = false)) /\
    (cmd = CDecreaseK m n d force ->
       num <= den /\ num_gt change (num_of_Z 2) = false /\
       (force = true \/ ce_answer env = "y")) /\
    forall amm, marketAmm env (mc_marketIndex mk) = Ok amm -> 0 <= amm_sqrtK amm -> 0 < den ->
      newSqrtK = (amm_sqrtK amm * num) `quot` den /\
      (den <= num -> amm_sqrtK amm <= newSqrtK) /\
      (0 <= num <= den -> 0 <= newSqrtK <= amm_sqrtK amm).
Proof.
  intros [-> | ->] Hs; cbn [runCommand actionOf] in Hs; apply sends_wrapAdmin in Hs as [_ Hs].
  - apply increaseK_sends in Hs as (mk & num & den & ch & k & H1 & H2 & H3 & H4 & H5 & H6).
    exists mk, num, den, ch, k. split_and!; try done.
    intros amm Ha H0 Hd. by eapply scaled_bounds.
  - apply decreaseK_sends in Hs as (mk & num & den & ch & k & H1 & H2 & H3 & H4 & H5 & H6).
    exists mk, num, den, ch, k. split_and!; try done.
    intros amm Ha H0 Hd. by eapply scaled_bounds.
Qed.

(** The method and argument of the four commands that pause or resume. *)
Definition pauseRequest (cmd : Command) : option (string * bool) :=
  match cmd with
  | CPauseExchange => Some ("updateExchangePaused", true)
  | CUnpauseExchange => Some ("updateExchangePaused", false)
  | CPauseFunding => Some ("updateFundingPaused", true)
  | CUnpauseFunding => Some ("updateFundingPaused", false)
  | _ => None
  end.

Lemma confirmed_sends q m c tx : sends (confirmed env q m) c tx <->
  ce_answer env = "y" /\ exists c', m c = (c', Ok tx).
Proof.
  unfold confirmed. split.
  - intros Hs. after_prompt Hs.
    destruct (bool_decide_reflect (ce_answer env = "y")); [| by apply silent_tell in Hs].
    by apply sends_sendTx in Hs.
  - intros [Ha Hm]. apply sends_bind. right. do 3 eexists. split; [reflexivity |].
    rewrite Ha. cbn. by apply sends_sendTx.
Qed.

Lemma stateTx_sent name args c : exists c' ix, stateTx (ce_chain env) name args c =
  (c', Ok (wrapInTx ix)) /\ ix_name ix = name /\ ix_args ix = args.
Proof.
  unfold stateTx, adminIx, getStatePublicKey, mbind, Method_bind, gets, mret, Method_ret.
  destruct (cl_statePublicKey c); cbn; by do 2 eexists.
Qed.

(** Pausing or resuming asks first, and the answer decides: with a
    subscription, the command sends its request exactly when the answer is y. *)
Theorem pausing_is_confirmed cmd name paused c :
  pauseRequest cmd = Some (name, paused) -> ce_subscribe env = Ok tt ->
  exists q, Prompt q ∈ (runCommand env cmd c).1.2 /\
  ((exists tx, sends (runCommand env cmd) c tx) <-> ce_answer env = "y") /\
  forall tx, sends (runCommand env cmd) c tx ->
    exists ix, tx = wrapInTx ix /\ ix_name ix = name /\ ix_args ix = [ABool paused].
Proof.
  intros Hp Hsub.
  assert (exists q, runCommand env cmd =
    wrapAdmin env (confirmed env q (stateTx (ce_chain env) name [ABool paused]))) as [q ->]
    by (destruct cmd; cbn in Hp; try done; injection Hp as <- <-; by eexists).
  destruct (stateTx_sent name [ABool paused] c) as (c' & ix & Hst & Hn & Ha).
  exists q. split_and!.
  - rewrite wrapAdmin_trace, Hsub.
    destruct (confirmed env q _ c) as [[c1 evs] r] eqn:Ec. cbn.
    assert (Prompt q ∈ evs); [| set_solver].
    unfold confirmed, prompt, mbind, Cli_bind, tell, mret, Cli_ret in Ec. cbn in Ec.
    destruct (negb _); [injection Ec as _ <- _; by left |].
    destruct (sendTx _ _ c) as [[? ?] ?]. injection Ec as _ <- _. by left.
  - setoid_rewrite sends_wrapAdmin. setoid_rewrite confirmed_sends. split.
    + by intros (tx & _ & Hy & _).
    + intros Hy. exists (wrapInTx ix). split_and!; [done | done |]. by exists c'.
  - intros tx Hs. apply sends_wrapAdmin in Hs as [_ Hs].
    apply confirmed_sends in Hs as (_ & c2 & Htx). rewrite Hst in Htx. injection Htx as _ <-.
    by exists ix.
Qed.

(** The percentage is computed in doubles: a ratio of exactly eleven tenths
    rounds to more than ten percent and is refused, one of ninety-eight hundredths
    stays at two percent and passes. *)
Theorem percent_boundaries :
  num_gt (percentChangeOf 11 10) (num_of_Z 10) = true /\
  num_gt (percentChangeOf 110 100) (num_of_Z 10) = true /\
  num_gt (percentChangeOf 98 100) (num_of_Z 2) = false /\
  num_gt (percentChangeOf 0 0) (num_of_Z 10) = false.
Proof. by vm_compute. Qed.
End Properties.

(** ** The configuration file and the table of markets *)

(** [config set] of one of the three keys is read back by [getConfig] and
    changes no other key; another key changes nothing; without a file it throws,
    while [config init] always leaves a file with the three keys. *)
Theorem config_set_get key value file :
  match file with
  | Some config =>
      if bool_decide (key ∈ ["env"; "url"; "keypair"]) then
        (configSet key value file).2 = Ok tt /\
        exists config', getConfig (configSet key value file).1 = Some config' /\
          js_get key config' = Some value /\
          forall k, k <> key -> js_get k config' = js_get k config
      else configSet key value file = (file, Ok tt)
  | None =>
      key ∈ ["env"; "url"; "keypair"] -> configSet key value file = (None, Throw ENOENT)
  end /\
  (forall homedir, exists config, getConfig (configInit homedir file) = Some config /\
     Forall (fun k => is_Some (js_get k config)) ["env"; "url"; "keypair"]).
Proof.
  split.
  - assert (Hk : (negb (bool_decide (key = "env")) && negb (bool_decide (key = "url")) &&
      negb (bool_decide (key = "keypair"))) = negb (bool_decide (key ∈ ["env"; "url"; "keypair"]))).
    { repeat case_bool_decide; set_solver. }
    unfold configSet. rewrite Hk. destruct file as [config |].
    + destruct (bool_decide (key ∈ _)); cbn; [| done]. split; [done |]. eexists. split; [done |].
      split; [apply js_get_set_eq | intros; by apply js_get_set_ne].
    + intros Hin. by rewrite bool_decide_true.
  - intros homedir. eexists. split; [done |]. by repeat constructor; eexists.
Qed.

(** The table of markets lists each market at its own index, and
    [marketIndexFromSymbol] finds exactly the symbols of the table, each at the
    index it has there; any other symbol is complained about and throws. *)
Theorem market_index_from_symbol symbol c :
  (forall i m, Markets !! i = Some m ->
     mc_marketIndex m = Z.of_nat i /\ findMarket (mc_baseAssetSymbol m) = Some m) /\
  match findMarket symbol with
  | Some m =>
      m ∈ Markets /\ mc_baseAssetSymbol m = symbol /\
      marketIndexFromSymbol symbol c = (c, [], Ok (mc_marketIndex m))
  | None =>
      symbol ∉ (mc_baseAssetSymbol <$> Markets) /\
      marketIndexFromSymbol symbol c =
        (c, [Complained], Throw (JsErr ("Could not find market index for " +:+ symbol)))
  end.
Proof.
  split.
  - intros i m Hm. assert (Hi : (i < 12)%nat) by (apply lookup_lt_Some in Hm; exact Hm).
    do 12 (destruct i as [| i]; [injection Hm as <-; split; vm_compute; reflexivity |]). lia.
  - unfold marketIndexFromSymbol. destruct (findMarket symbol) as [m |] eqn:Ef.
    + unfold findMarket in Ef. destruct (List.filter _ Markets) as [| m' ms] eqn:El; [done |].
      injection Ef as ->. assert (Hin : In m (m :: ms)) by by left.
      rewrite <- El, filter_In in Hin. destruct Hin as [Hin Hs].
      apply bool_decide_eq_true in Hs. split; [by apply list_elem_of_In | done].
    + split; [| done]. intros Hin. apply list_elem_of_fmap in Hin as (m & Hs & Hin).
      unfold findMarket in Ef. destruct (List.filter _ Markets) as [| m' ms] eqn:El; [| done].
      assert (In m []); [| done]. rewrite <- El, filter_In. split; [by apply list_elem_of_In |].
      by apply bool_decide_eq_true.
Qed.
