(* ===== verification/Stress.v ===== *)
(** * The stress test (src/stress/stress.ts, stressUtils.ts, mockAccounts.ts)

    The driver that sets up markets and users, draws or replays events, sends
    them, and writes and reads its timelines as CSV files.  The client's methods are
    those of Client.v and Admin.v; the network, new key pairs, the random draws, the
    file system, the CSV parser and the spl-token constants come from the environment.
    [console.log] is left out. *)
From stdpp Require Import pretty.
From S2P Require Import Prelude BN Types Idl Client Admin Amm.

#[local] Open Scope string_scope.

(** ** mockAccounts.ts *)

(** Instructions of the system and token programs. *)
Inductive SetupIx :=
  | SetupCreateAccount (fromPubkey newAccountPubkey : PublicKey) (lamports space : Z)
      (programId : PublicKey)
  | SetupInitMint (mint : PublicKey) (decimals : Z) (mintAuthority : PublicKey)
  | SetupInitAccount (mint account owner : PublicKey)
  | SetupMintTo (mint dest authority : PublicKey) (amount : Z).

(** The instructions and the signers of a transaction, the payer included. *)
Record SetupTx := mkSetupTx { su_instructions : list SetupIx; su_signers : list PublicKey }.

(** What the spl-token package and the provider give. *)
Record StressTokens := mkStressTokens {
  tk_wallet : PublicKey;
  tk_programId : PublicKey;
  tk_mintRent : result Z;
  tk_accountRent : result Z;
  tk_mintSpan : Z;
  tk_accountSpan : Z
}.

Section MockAccounts.
Context {B : BNLib}.
Variable tk : StressTokens.

(** [mockUSDCMint]: the transaction sent; [fakeUSDCMint] is the new key pair *)
Definition mockUSDCMint (fakeUSDCMint : PublicKey) : result SetupTx :=
  lamports ← tk_mintRent tk;
  Ok (mkSetupTx
    [SetupCreateAccount (tk_wallet tk) fakeUSDCMint lamports (tk_mintSpan tk) (tk_programId tk);
     SetupInitMint fakeUSDCMint 6 (tk_wallet tk)]
    [tk_wallet tk; fakeUSDCMint]).

(** [mockUserUSDCAccount]; [userUSDCAccount] is the new key pair *)
Definition mockUserUSDCAccount (fakeUSDCMint : PublicKey) (usdcMintAmount : Z)
    (owner : option PublicKey) (userUSDCAccount : PublicKey) : result SetupTx :=
  let owner := default (tk_wallet tk) owner in
  lamports ← tk_accountRent tk;
  amount ← bn_toNumber usdcMintAmount;
  Ok (mkSetupTx
    [SetupCreateAccount (tk_wallet tk) userUSDCAccount lamports (tk_accountSpan tk) (tk_programId tk);
     SetupInitAccount fakeUSDCMint userUSDCAccount owner;
     SetupMintTo fakeUSDCMint userUSDCAccount (tk_wallet tk) amount]
    [tk_wallet tk; userUSDCAccount]).

(** [mintToInsuranceFund] *)
Definition mintToInsuranceFund (chInsuranceAccount fakeUSDCMint : PublicKey) (amount : Z)
    : result SetupTx :=
  amount ← bn_toNumber amount;
  Ok (mkSetupTx [SetupMintTo fakeUSDCMint chInsuranceAccount (tk_wallet tk) amount] [tk_wallet tk]).
End MockAccounts.

(** ** stressUtils.ts: events *)

(** A value of a row, as JavaScript prints it with [toString]. *)
Inductive CsvValue := VNumber (z : Z) | VString (s : string) | VBool (b : bool).
Definition printed (v : CsvValue) : string :=
  match v with
  | VNumber z => pretty z
  | VString s => s
  | VBool b => if b then "true" else "false"
  end.

(** An object of a timeline: its own keys in order and their values. *)
Definition CsvRow := list (string * CsvValue).

(** A client of the driver: a plain [ClearingHouse], which has not the methods of
    [Admin], or an [Admin]. *)
Record DriverClient := mkDriverClient { dv_admin : bool; dv_client : Client }.

Section Events.
Context {B : BNLib}.
Variables (chain : Chain) (send : Transaction -> result unit).

(** The request an event stands for, if it stands for one; a method the client
    has not is a [TypeError]. *)
Definition eventRequest (admin : bool) (rand_e : string) (user_e userUSDCAccount : option PublicKey)
    (market_i rand_amt : Z) : option (Method Transaction) :=
  let onAdmin (m : Method Transaction) := if admin then m else lift (Throw TypeError) in
  if decide (rand_e = "noop") then None
  else if decide (rand_e = "deposit") then
    Some (account ← lift (deref userUSDCAccount); depositCollateral chain rand_amt account None)
  else if decide (rand_e = "withdraw") then
    Some (account ← lift (deref userUSDCAccount); withdrawCollateral chain rand_amt account)
  else if decide (rand_e = "buy") then Some (openPosition chain LONG rand_amt market_i None None None)
  else if decide (rand_e = "sell") then Some (openPosition chain SHORT rand_amt market_i None None None)
  else if decide (rand_e = "move") then Some (onAdmin (moveAmmToPrice chain market_i rand_amt))
  else if decide (rand_e = "repeg") then Some (onAdmin (repegAmmCurve chain 0 market_i))
  else if decide (rand_e = "close") then Some (closePosition chain market_i None None)
  else if decide (rand_e = "liquidate") then
    Some (user ← lift (deref user_e); liquidate chain user)
  else None.

(** [simEvent]: the client after it, the transactions that reached the network, and
    the object returned.  What the [try] block throws only clears [succeeded]. *)
Definition simEvent (clearingHouse : option DriverClient) (user_i : CsvValue)
    (user_e userUSDCAccount : option PublicKey) (market_i : Z) (rand_e : string) (rand_amt : Z)
    : option DriverClient * list Transaction * result CsvRow :=
  let event (succeeded : bool) : result CsvRow :=
    amt ← bn_toNumber rand_amt;
    market ← bn_toNumber market_i;
    Ok [("user_i", user_i); ("event", VString rand_e); ("amt", VNumber amt);
        ("market_i", VNumber market); ("succeeded", VBool succeeded)] in
  match clearingHouse with
  | None =>
      let request := eventRequest false rand_e user_e userUSDCAccount market_i rand_amt in
      (None, [], event (match request with None => true | Some _ => false end))
  | Some d =>
      match eventRequest (dv_admin d) rand_e user_e userUSDCAccount market_i rand_amt with
      | None => (Some d, [], event true)
      | Some m =>
          let '(c, r) := m (dv_client d) in
          let d := mkDriverClient (dv_admin d) c in
          match r with
          | Throw _ => (Some d, [], event false)
          | Ok tx => (Some d, [tx], event (match send tx with Ok _ => true | Throw _ => false end))
          end
      end
  end.
End Events.

(** ** stressUtils.ts: files *)

Definition newline : string := String (Ascii.ascii_of_nat 10) "".

(** [writeStressCSV]: the text of the file. *)
Definition csvText (keys : list string) (rows : list CsvRow) : string :=
  String.concat "," keys +:+ newline +:+ String.concat newline ((fun e => String.concat "," (printed ∘ snd <$> e)) <$> rows).

(** [writeFile] stands for the calls of fs; a failure of theirs is only logged. The
    result is the content written, if any. *)
Definition writeStressCSV (writeFile : string -> result unit) (timeline : list CsvRow)
    : result (option string) :=
  match timeline with
  | [] => Throw TypeError                       (* Object.keys(undefined) *)
  | first :: _ =>
      let csvContent := csvText (fst <$> first) timeline in
      Ok (match writeFile csvContent with Ok _ => Some csvContent | Throw _ => None end)
  end.

(** [readStressCSV]: [file] is the content at the path, if the path exists. *)
Definition readStressCSV (fromFile : string -> result (list (list (string * string))))
    (file : option string) : result (list (list (string * string))) :=
  match file with None => Ok [] | Some content => fromFile content end.

(** ** Setting up (stress.ts, stressUtils.ts) *)

(** What one user of the driver is. *)
Record StressUser := mkStressUser {
  sx_usdcAccount : PublicKey;
  sx_key : PublicKey;
  sx_client : DriverClient
}.

(** The outcomes of the network, per user or per transaction, and the new key pairs.
    [sv_sendSetup] is for the transactions of mockAccounts.ts. *)
Record StressEnv := mkStressEnv {
  sv_chain : Chain;
  sv_token : StressTokens;
  sv_programId : PublicKey;
  sv_owner : nat -> PublicKey;
  sv_usdcAccount : nat -> PublicKey;
  sv_positions : nat -> PublicKey;
  sv_airdrop : nat -> result unit;
  sv_subscribe : nat -> result unit;
  sv_userSubscribe : nat -> result unit;
  sv_send : Transaction -> result unit;
  sv_sendSetup : SetupTx -> result unit;
  sv_oraclePrice : PublicKey -> result Number;
  sv_newBN : string -> result Z;
  sv_fromFile : string -> result (list (list (string * string)));
  sv_file : string -> option string;
  sv_writeFile : string -> string -> result unit
}.

Section Driver.
Context {B : BNLib}.
Variable env : StressEnv.
#[local] Abbreviation chain := (sv_chain env).

(** One turn of the loop of [initUserAccounts]. *)
Definition initUserAccount (usdcMint : PublicKey) (usdcAmount : Z) (i : nat) : result StressUser :=
  let owner := sv_owner env i in
  _ ← sv_airdrop env i;
  setup ← mockUserUSDCAccount (sv_token env) usdcMint usdcAmount (Some owner) (sv_usdcAccount env i);
  _ ← sv_sendSetup env setup;
  _ ← sv_subscribe env i;
  let '(c, r) := initializeUserAccountAndDepositCollateral chain (sv_positions env i) usdcAmount
                   (sv_usdcAccount env i) (mkClient (sv_programId env) owner None None None) in
  '(tx, userAccountPublicKey) ← r;
  _ ← sv_send env tx;
  _ ← sv_userSubscribe env i;
  Ok {| sx_usdcAccount := sv_usdcAccount env i;
        sx_key := userAccountPublicKey;
        sx_client := mkDriverClient false c |}.

(** [initUserAccounts] *)
Definition initUserAccounts (NUM_USERS : nat) (usdcMint : PublicKey) (usdcAmount : Z)
    : result (list StressUser) :=
  reduceM (fun users i => u ← initUserAccount usdcMint usdcAmount i; Ok (users ++ [u])%list)
    (seq 0 NUM_USERS) [].

(** The markets of [stress_test], through the administrator's client: the client
    after, the transactions sent. *)
Definition setUpMarket (initial marketOffset : Z) (i : Z) (oracle : PublicKey) (peg : Z)
    : Method Transaction :=
  amtScale ← lift (bn_div peg PEG_PRECISION);
  base ← lift (bn_div initial amtScale);
  quote ← lift (bn_div initial amtScale);
  initializeMarket chain (i + marketOffset) oracle base quote 1 (Some peg).

Fixpoint setUpMarkets (initial marketOffset : Z) (i : Z) (oracles : list PublicKey) (pegs : list Z)
    : Method (list Transaction) :=
  match oracles with
  | [] => mret []
  | oracle :: rest =>
      peg ← lift (deref (hd_error pegs));
      tx ← setUpMarket initial marketOffset i oracle peg;
      _ ← lift (sv_send env tx);
      txs ← setUpMarkets initial marketOffset (i + 1) rest (tl pegs);
      mret (tx :: txs)
  end.

(** ** [getEventParams] *)
Record EventParams := mkEventParams {
  ep_user : CsvValue;
  ep_market : Z;
  ep_event : option string;
  ep_amt : Z
}.

(** The three random draws, already rounded down: the amount below 100, the user
    below the number of users, the kind of event below 6. *)
Record Draws := mkDraws { dr_amt : Z; dr_user : nat; dr_kind : nat }.

Definition event_kinds : list string := ["deposit"; "buy"; "sell"; "close"; "repeg"; "update_funding"].

(** A generated event.  For the trades of every other user the driver calls
    [calculateMarkPrice] of the client, which is not a method. *)
Definition randomEventParams (i : nat) (d : Draws) : result EventParams :=
  let rand_e := if decide (i = 0%nat) then Some "noop" else event_kinds !! dr_kind d in
  let market_i := 0 in
  if Nat.even (dr_user d) && bool_decide (rand_e = Some "buy" \/ rand_e = Some "sell") then
    markets ← subscribedMarkets chain;
    market ← deref (js_index (ma_markets markets) market_i);
    price ← sv_oraclePrice env (amm_oracle (mkt_amm market));
    _ ← bn_ofNumber (num_mul price (num_of_Z PEG_PRECISION));
    _ ← bn_div MARK_PRICE_PRECISION PEG_PRECISION;
    Throw TypeError
  else Ok (mkEventParams (VNumber (Z.of_nat (dr_user d))) market_i rand_e (dr_amt d)).

(** A replayed event: the values of the row by position.  The market is the string
    of the file to which the offset is appended; an absent value is 0 as a [BN]. *)
Definition replayedEventParams (marketOffset : Z) (row : list (string * string)) : result EventParams :=
  let values := snd <$> row in
  market_i ← match values !! 3%nat with
             | Some s => sv_newBN env (s +:+ pretty marketOffset)
             | None => Ok 0
             end;
  _ ← assert (marketOffset <=? market_i)%Z None;
  rand_amt ← match values !! 2%nat with Some s => sv_newBN env s | None => Ok 0 end;
  Ok (mkEventParams (VString (default "undefined" (values !! 0%nat))) market_i (values !! 1%nat) rand_amt).

(** ** The run *)

(** [xs[i]] with an index that may be the string of a file. *)
Definition at_user {A} (l : list A) (user_i : CsvValue) : option A :=
  k ← list_find (fun k => pretty (Z.of_nat k) = printed user_i) (seq 0 (length l));
  l !! k.2.

(** The events of a run: how many, and the parameters of each. *)
Definition eventParams (inputEventFile : string) (timeline : list (list (string * string)))
    (marketOffset : Z) (draws : nat -> Draws) (i : nat) : result EventParams :=
  if decide (inputEventFile = "") then randomEventParams i (draws i)
  else row ← deref (timeline !! i); replayedEventParams marketOffset row.

Record Run := mkRun {
  rn_users : list StressUser;
  rn_admin : DriverClient;
  rn_sent : list Transaction;
  rn_events : list CsvRow
}.

(** One turn of the event loop, up to [user_act_info_e.summary('last')]:
    [ClearingHouseUser] has no such method, so the rest of the turn is never reached. *)
Definition runEvent (params : nat -> result EventParams) (i : nat) (run : Run) : Run * result unit :=
  match params i with
  | Throw e => (run, Throw e)
  | Ok p =>
      let user := at_user (rn_users run) (ep_user p) in
      let event := default "undefined" (ep_event p) in
      let moves := bool_decide (event = "move") in
      let clearingHouse_e := if moves then Some (rn_admin run) else sx_client <$> user in
      let '(client, sent, r) :=
        simEvent chain (sv_send env) clearingHouse_e (ep_user p) (sx_key <$> user)
          (sx_usdcAccount <$> user) (ep_market p) event (ep_amt p) in
      let admin := if moves then default (rn_admin run) client else rn_admin run in
      match r with
      | Throw e => (mkRun (rn_users run) admin (rn_sent run ++ sent)%list (rn_events run), Throw e)
      | Ok event_i =>
          (mkRun (rn_users run) admin (rn_sent run ++ sent)%list (rn_events run ++ [event_i])%list,
           markets ← subscribedMarkets chain;
           i ← bn_toNumber (ep_market p);
           market ← deref (js_index (ma_markets markets) i);
           _ ← sv_oraclePrice env (amm_oracle (mkt_amm market));
           u ← deref user;
           _ ← fetchUser chain (sx_key u);
           Throw TypeError)
      end
  end.

Fixpoint runEvents (params : nat -> result EventParams) (n i : nat) (run : Run) : Run * result unit :=
  match n with
  | O => (run, Ok tt)
  | S n =>
      let '(run, r) := runEvent params i run in
      match r with Throw e => (run, Throw e) | Ok _ => runEvents params n (S i) run end
  end.

(** [stress_test]: [oracles] are the feeds made by [mockOracle]. The two timelines
    are written at the end; the state timeline has a row per finished turn. *)
Definition stress_test (oracles : result (list PublicKey)) (usdcMint : PublicKey) (NUM_USERS NUM_EVENTS : nat)
    (user_capital sqrtk : Number) (inputEventFile : string) (pegs : list Z) (marketOffset : Z)
    (outputFolder outputName : string) (draws : nat -> Draws) (admin : Client)
    : option Run * result (list (option string)) :=
  match (usdcAmount ← bn_ofNumber user_capital;
         oracles ← oracles;
         pairAmt ← bn_ofNumber sqrtk;
         Ok (usdcAmount, oracles, (pairAmt * MARK_PRICE_PRECISION)%Z)) with
  | Throw e => (None, Throw e)
  | Ok (usdcAmount, oracles, initial) =>
      let '(admin, r) := setUpMarkets initial marketOffset 0 oracles pegs admin in
      match (txs ← r; users ← initUserAccounts NUM_USERS usdcMint usdcAmount;
             timeline ← (if decide (inputEventFile = "") then Ok []
                         else readStressCSV (sv_fromFile env) (sv_file env inputEventFile));
             _ ← readStressCSV (sv_fromFile env) (sv_file env "../vAMM/solusd.csv");
             Ok (txs, users, timeline)) with
      | Throw e => (None, Throw e)
      | Ok (txs, users, timeline) =>
          let n := if decide (inputEventFile = "") then NUM_EVENTS else length timeline in
          let '(run, r) :=
            runEvents (eventParams inputEventFile timeline marketOffset draws) n 0
              (mkRun users (mkDriverClient true admin) txs []) in
          (Some run,
           _ ← r;
           events ← writeStressCSV
             (sv_writeFile env (outputFolder +:+ "/" +:+ outputName +:+ "_stress_event_timeline.csv"))
             (rn_events run);
           states ← writeStressCSV
             (sv_writeFile env (outputFolder +:+ "/" +:+ outputName +:+ "_stress_state_timeline.csv")) [];
           Ok [events; states])
      end
  end.
End Driver.
