(* ===== verification/StressSpec.v ===== *)
(** * What the stress test can and cannot do

    The events the driver simulates, the files it writes and reads back, and why a
    run never reaches its end. *)
From stdpp Require Import pretty.
From S2P Require Import Prelude BN Types Idl Client Admin.
From S2P Require Import Stress.

#[local] Open Scope string_scope.

(** ** Decimal strings *)
Definition digit (c : Ascii.ascii) : option Z :=
  let n := Z.of_nat (Ascii.nat_of_ascii c) in
  if (48 <=? n)%Z && (n <=? 57)%Z then Some (n - 48)%Z else None.
Fixpoint decimal (acc : Z) (s : string) : option Z :=
  match s with
  | "" => Some acc
  | String c s => d ← digit c; decimal (10 * acc + d)%Z s
  end.

Lemma decimal_app acc s t : decimal acc (s +:+ t) = (a ← decimal acc s; decimal a t).
Proof.
  revert acc. induction s as [| c s IH]; intros acc; [done |].
  simpl. destruct (digit c); [apply IH | done].
Qed.

Lemma digit_pretty x : (x < 10)%N -> digit (pretty_N_char x) = Some (Z.of_N x).
Proof.
  intros H. assert (x = 0 \/ x = 1 \/ x = 2 \/ x = 3 \/ x = 4 \/ x = 5 \/ x = 6 \/ x = 7 \/ x = 8 \/ x = 9)%N
    as Hx by lia.
  destruct_or! Hx; subst; reflexivity.
Qed.

Lemma decimal_pretty_go x s : decimal 0 (pretty_N_go x s) = decimal (Z.of_N x) s.
Proof.
  revert s. induction (N.lt_wf_0 x) as [x _ IH]. intros s.
  destruct (N.eq_dec x 0%N) as [-> | Hx]; [by rewrite pretty_N_go_0 |].
  rewrite pretty_N_go_step by lia. rewrite IH by (apply N.div_lt; lia). cbn.
  rewrite digit_pretty by (apply N.mod_lt; lia). cbn. f_equal.
  rewrite N2Z.inj_div, N2Z.inj_mod. pose proof (Z.div_mod (Z.of_N x) 10). lia.
Qed.

(** Printing then reading a natural number. *)
Lemma decimal_pretty z : (0 <= z)%Z -> decimal 0 (pretty z) = Some z.
Proof.
  intros Hz. destruct z as [| p | p]; [reflexivity | | lia].
  change (pretty (Z.pos p)) with (pretty (N.pos p)). unfold pretty, pretty_N.
  rewrite decide_False by done. apply decimal_pretty_go.
Qed.

(** ** Lines and columns *)
#[local] Arguments Ascii.eqb : simpl never.

Fixpoint split_on (c : Ascii.ascii) (s : string) : list string :=
  match s with
  | "" => [""]
  | String d s =>
      if Ascii.eqb c d then "" :: split_on c s
      else match split_on c s with
           | [] => [String d ""]
           | x :: xs => String d x :: xs
           end
  end.
Fixpoint lacks (c : Ascii.ascii) (s : string) : bool :=
  match s with "" => true | String d s => negb (Ascii.eqb c d) && lacks c s end.

Lemma split_on_lacks c s : lacks c s = true -> split_on c s = [s].
Proof.
  induction s as [| d s IH]; [done |]. simpl. destruct (Ascii.eqb c d); [done |]. simpl. intros H.
  by rewrite IH.
Qed.

Lemma split_on_app c s t : lacks c s = true -> split_on c (s +:+ String c t) = s :: split_on c t.
Proof.
  induction s as [| d s IH]; simpl.
  - intros _. by rewrite Ascii.eqb_refl.
  - destruct (Ascii.eqb c d); [done |]. simpl. intros H. by rewrite IH.
Qed.

Lemma split_on_concat c l : l <> [] -> Forall (fun s => lacks c s = true) l ->
  split_on c (String.concat (String c "") l) = l.
Proof.
  intros Hne H. induction H as [| s l Hs Hl IH]; [done |]. destruct l as [| s' l].
  - by apply split_on_lacks.
  - change (String.concat (String c "") (s :: s' :: l))
      with (s +:+ String c (String.concat (String c "") (s' :: l))).
    rewrite split_on_app by done. by rewrite IH.
Qed.

(** ** The CSV parser

    A field without separators, quotes or blanks.  [CsvLaw] is what csvtojson
    documents for a file of such fields with a header row whose names have no dots (those
    it makes nested objects of); [NewBNLaw] is what bn.js does with a string of digits. *)
Definition comma : Ascii.ascii := Ascii.ascii_of_nat 44.
Definition lf : Ascii.ascii := Ascii.ascii_of_nat 10.
Definition plain (s : string) : bool :=
  negb (s =? "")%string && lacks comma s && lacks lf s && lacks (Ascii.ascii_of_nat 32) s &&
  lacks (Ascii.ascii_of_nat 34) s && lacks (Ascii.ascii_of_nat 13) s && lacks (Ascii.ascii_of_nat 9) s.
Definition undotted (s : string) : bool := lacks (Ascii.ascii_of_nat 46) s.

Definition keys_of (r : list (string * CsvValue)) : list string := r.*1.
Definition values_of (r : list (string * CsvValue)) : list string := printed <$> r.*2.
Definition row_read (r : list (string * CsvValue)) : list (string * string) := prod_map id printed <$> r.

Definition CsvLaw (fromFile : string -> result (list (list (string * string)))) : Prop :=
  forall keys (rows : list CsvRow), keys <> [] -> rows <> [] -> NoDup keys ->
  forallb plain keys = true -> forallb undotted keys = true ->
  Forall (fun r => keys_of r = keys /\ forallb plain (values_of r) = true) rows ->
  fromFile (csvText keys rows) = Ok (row_read <$> rows).

Definition NewBNLaw (newBN : string -> result Z) : Prop :=
  forall s z, s <> "" -> decimal 0 s = Some z -> newBN s = Ok z.

(** One parser with that behaviour. *)
Definition csv_reference (content : string) : result (list (list (string * string))) :=
  match split_on lf content with
  | [] => Ok []
  | header :: lines =>
      Ok ((fun line => zip (split_on comma header) (split_on comma line)) <$> lines)
  end.
Definition newBN_reference (s : string) : result Z :=
  match decimal 0 s with Some z => Ok z | None => Throw (LibErr "Invalid character") end.

Lemma plain_lacks s : plain s = true -> lacks comma s = true /\ lacks lf s = true.
Proof. unfold plain. rewrite !andb_true_iff. tauto. Qed.

Lemma lacks_app c s t : lacks c (s +:+ t) = lacks c s && lacks c t.
Proof. induction s as [| d s IH]; [done |]. simpl. by rewrite IH, andb_assoc. Qed.

Lemma lacks_concat c sep l : lacks c sep = true -> Forall (fun s => lacks c s = true) l ->
  lacks c (String.concat sep l) = true.
Proof.
  intros Hsep. induction 1 as [| s l Hs Hl IH]; [done |]. destruct l as [| s' l]; [done |].
  change (String.concat sep (s :: s' :: l)) with (s +:+ sep +:+ String.concat sep (s' :: l)).
  by rewrite !lacks_app, Hs, Hsep, IH.
Qed.

Lemma csv_fields l : l <> [] -> forallb plain l = true ->
  split_on comma (String.concat "," l) = l /\ lacks lf (String.concat "," l) = true.
Proof.
  intros Hne Hp. assert (Forall (fun s => plain s = true) l) as Hl
    by (apply Forall_forall; intros s Hs; rewrite forallb_forall in Hp; by apply Hp, list_elem_of_In).
  split.
  - apply (split_on_concat comma); [done |]. eapply Forall_impl; [exact Hl |]. by intros s [? _]%plain_lacks.
  - apply lacks_concat; [done |]. eapply Forall_impl; [exact Hl |]. by intros s [_ ?]%plain_lacks.
Qed.

Lemma zip_row r : zip (keys_of r) (values_of r) = row_read r.
Proof. induction r as [| [k v] r IH]; [done |]. cbn. f_equal. apply IH. Qed.

Lemma line_values r : (printed ∘ snd <$> r) = values_of r.
Proof. apply list_fmap_compose. Qed.

Lemma csv_reference_law : CsvLaw csv_reference.
Proof.
  intros keys rows Hk Hr _ Hpk _ Hrows. unfold csv_reference, csvText.
  destruct (csv_fields keys Hk Hpk) as [Hsk Hlk].
  assert (forall r, keys_of r = keys -> values_of r <> []) as Hv
    by (intros r <-; destruct r; [by intros ? |]; done).
  change (newline +:+ ?x) with (String lf x). rewrite split_on_app by done.
  change newline with (String lf ""). rewrite (split_on_concat lf).
  - cbv beta iota. f_equal. rewrite Hsk. rewrite <- list_fmap_compose. apply list_fmap_ext.
    intros i r Hi. destruct (Forall_lookup_1 _ _ _ _ Hrows Hi) as [Hkeys Hp]. simpl.
    rewrite line_values. destruct (csv_fields (values_of r) (Hv _ Hkeys) Hp) as [-> _].
    rewrite <- Hkeys. apply zip_row.
  - by destruct rows.
  - apply Forall_fmap. eapply Forall_impl; [exact Hrows |]. intros r [Hkeys Hp]. simpl.
    rewrite line_values. by apply csv_fields; [apply Hv |].
Qed.

Lemma newBN_reference_law : NewBNLaw newBN_reference.
Proof. intros s z _ H. unfold newBN_reference. by rewrite H. Qed.

(** ** Simulated events *)
Definition event_row (user_i : CsvValue) (kind : string) (amt market : Z) (ok : bool) : CsvRow :=
  [("user_i", user_i); ("event", VString kind); ("amt", VNumber amt); ("market_i", VNumber market);
   ("succeeded", VBool ok)].

(** The kinds of event [simEvent] knows, and those that need the administrator. *)
Definition known_kinds : list string :=
  ["deposit"; "withdraw"; "buy"; "sell"; "move"; "repeg"; "close"; "liquidate"].
Definition admin_kinds : list string := ["move"; "repeg"].

Section Sim.
Context {B : BNLib}.
Variables (chain : Chain) (send : Transaction -> result unit).

Lemma eventRequest_unknown admin kind u acct market amt :
  kind ∉ known_kinds -> eventRequest chain admin kind u acct market amt = None.
Proof.
  unfold known_kinds. rewrite !not_elem_of_cons. intros H. unfold eventRequest.
  repeat case_decide; try done; exfalso; intuition.
Qed.

Lemma eventRequest_admin kind u acct market amt :
  kind ∈ admin_kinds -> eventRequest chain false kind u acct market amt = Some (lift (Throw TypeError)).
Proof.
  unfold admin_kinds. rewrite !elem_of_cons. intros [-> | [-> | H]]; [done | done |].
  by apply not_elem_of_nil in H.
Qed.

(** The outcome of an event: what was sent, and whether it counts as a success. *)
Lemma simEvent_cases client user_i u acct market kind amt :
  exists client' sent ok,
  simEvent chain send client user_i u acct market kind amt =
    (client', sent,
     a ← bn_toNumber amt; m ← bn_toNumber market; Ok (event_row user_i kind a m ok)) /\
  match client with
  | None => sent = []
  | Some d =>
      match eventRequest chain (dv_admin d) kind u acct market amt with
      | None => sent = [] /\ ok = true
      | Some m =>
          match (m (dv_client d)).2 with
          | Throw _ => sent = [] /\ ok = false
          | Ok tx => sent = [tx] /\ (ok = true <-> send tx = Ok tt)
          end
      end
  end.
Proof.
  unfold simEvent. destruct client as [d |]; [| by eexists _, _, _].
  destruct (eventRequest _ _ _ _ _ _ _) as [m |]; [| by eexists _, _, _].
  destruct (m (dv_client d)) as [c [tx | e]] eqn:Hm; simpl; eexists _, _, _; (split; [reflexivity |]).
  - split; [done |]. destruct (send tx) as [[] |]; done.
  - done.
Qed.
End Sim.

(** One simulated event sends at most one transaction; it counts as a success
    exactly when the event stands for no request, or its transaction was built and
    accepted.  Events of an unknown kind, such as the ["update_funding"] the driver
    draws, send nothing and succeed; ["move"] and ["repeg"] on a user's client send
    nothing and fail. *)
Theorem simulated_events {B : BNLib} (chain : Chain) (send : Transaction -> result unit)
    (d : DriverClient) (user_i : CsvValue) (u acct : option PublicKey) (market : Z) (kind : string)
    (amt : Z) :
  exists client' sent ok,
  simEvent chain send (Some d) user_i u acct market kind amt =
    (client', sent, a ← bn_toNumber amt; m ← bn_toNumber market; Ok (event_row user_i kind a m ok)) /\
  (sent = [] \/ exists tx, sent = [tx]) /\
  (ok = true <-> eventRequest chain (dv_admin d) kind u acct market amt = None \/
                 exists tx, sent = [tx] /\ send tx = Ok tt) /\
  (kind ∉ known_kinds -> sent = [] /\ ok = true) /\
  (dv_admin d = false -> kind ∈ admin_kinds -> sent = [] /\ ok = false).
Proof.
  destruct (simEvent_cases chain send (Some d) user_i u acct market kind amt)
    as (client' & sent & ok & Hsim & Hout).
  exists client', sent, ok. split; [exact Hsim |].
  destruct (eventRequest _ _ _ _ _ _ _) as [m |] eqn:Hreq.
  2: { destruct Hout as [-> ->]. split_and!; try tauto. intros Ha Hk. rewrite Ha in Hreq.
       by rewrite eventRequest_admin in Hreq. }
  assert (kind ∉ known_kinds -> False) as Hk by (intros H; by rewrite eventRequest_unknown in Hreq).
  assert (dv_admin d = false -> kind ∈ admin_kinds -> m = lift (Throw TypeError)) as Ha.
  { intros Ha Hin. rewrite Ha, eventRequest_admin in Hreq by done. by injection Hreq. }
  destruct (m (dv_client d)) as [c [tx | e]] eqn:Hm; cbn in Hout; destruct Hout as [-> Hok].
  - split_and!; [eauto | | tauto |].
    + rewrite Hok. naive_solver.
    + intros H1 H2. by rewrite (Ha H1 H2) in Hm.
  - subst ok. split_and!; [eauto | naive_solver | tauto | eauto].
Qed.

(** ** Timelines written and read back *)
Lemma decimal_lacks c a s z : digit c = None -> decimal a s = Some z -> lacks c s = true.
Proof.
  intros Hc. revert a. induction s as [| d s IH]; intros a; [done |]. simpl.
  destruct (digit d) eqn:Hd; [| done]. intros H. destruct (Ascii.eqb_spec c d); [congruence |].
  simpl. by eapply IH.
Qed.

Lemma pretty_not_empty z : (0 <= z)%Z -> pretty z <> "".
Proof.
  intros Hz H. pose proof (decimal_pretty z Hz) as Hd. rewrite H in Hd. injection Hd as <-.
  discriminate H.
Qed.

Lemma pretty_plain z : (0 <= z)%Z -> plain (pretty z) = true.
Proof.
  intros Hz. unfold plain. rewrite !andb_true_iff, negb_true_iff, String.eqb_neq.
  split_and!; try (eapply decimal_lacks; [reflexivity | by apply decimal_pretty]).
  by apply pretty_not_empty.
Qed.

Lemma at_user_pretty {A} (l : list A) (u : nat) :
  at_user l (VString (pretty (Z.of_nat u))) = l !! u.
Proof.
  unfold at_user. destruct (list_find _ _) as [[i k] |] eqn:Hf.
  - apply list_find_Some in Hf as (Hi & Hk & _). apply lookup_seq in Hi as [-> _]. simpl.
    cbn in Hk. apply pretty_Z_inj in Hk. f_equal. lia.
  - symmetry. apply lookup_ge_None. apply list_find_None in Hf.
    destruct (Nat.le_gt_cases (length l) u) as [| Hu]; [done |]. exfalso.
    rewrite Forall_lookup in Hf. apply (Hf u u); [| done].
    by apply lookup_seq.
Qed.

(** What a timeline records of an event. *)
Record Simulated := mkSimulated {
  si_user : nat; si_kind : string; si_amt : Z; si_market : Z; si_ok : bool
}.
Definition simulated_row (e : Simulated) : CsvRow :=
  event_row (VNumber (Z.of_nat (si_user e))) (si_kind e) (si_amt e) (si_market e) (si_ok e).
Definition recordable (e : Simulated) : Prop :=
  plain (si_kind e) = true /\ (0 <= si_amt e)%Z /\ (0 <= si_market e)%Z.

Lemma simulated_values e : recordable e -> forallb plain (values_of (simulated_row e)) = true.
Proof.
  intros (Hk & Ha & Hm). cbn. rewrite !pretty_plain by lia. rewrite Hk.
  by destruct (si_ok e).
Qed.

Lemma read_timeline fromFile writeFile (events : list Simulated) content :
  CsvLaw fromFile -> Forall recordable events ->
  writeStressCSV writeFile (simulated_row <$> events) = Ok (Some content) ->
  readStressCSV fromFile (Some content) = Ok (row_read ∘ simulated_row <$> events).
Proof.
  intros Hcsv Hev Hw. destruct events as [| e events]; [discriminate Hw |].
  cbn [fmap list_fmap writeStressCSV] in Hw.
  change (simulated_row e :: (simulated_row <$> events)) with (simulated_row <$> (e :: events)) in Hw.
  destruct (writeFile _) in Hw; [| discriminate Hw]. injection Hw as <-.
  unfold readStressCSV. rewrite list_fmap_compose. apply Hcsv; [done | done | | done | done |].
  - refine (bool_decide_unpack _ _). vm_compute. exact I.
  - apply Forall_fmap. eapply Forall_impl; [exact Hev |]. intros x Hx. split; [done |].
    by apply simulated_values.
Qed.

(** C40: The timeline the driver writes, read back and replayed with no offset, gives
    the events again: same user, kind and amount, and the market's index with a 0
    appended, that is ten times the index, so that only market 0 is replayed on
    itself. *)
Theorem timeline_replayed (env : StressEnv) (writeFile : string -> result unit)
    (events : list Simulated) (content : string) :
  CsvLaw (sv_fromFile env) -> NewBNLaw (sv_newBN env) -> Forall recordable events ->
  writeStressCSV writeFile (simulated_row <$> events) = Ok (Some content) ->
  exists timeline, readStressCSV (sv_fromFile env) (Some content) = Ok timeline /\
  length timeline = length events /\
  forall i e, events !! i = Some e ->
  exists row user_i, timeline !! i = Some row /\
    replayedEventParams env 0 row =
      Ok (mkEventParams user_i (10 * si_market e) (Some (si_kind e)) (si_amt e)) /\
    forall (users : list StressUser), at_user users user_i = users !! si_user e.
Proof.
  intros Hcsv Hbn Hev Hw. eexists. split; [by eapply read_timeline |].
  split; [by rewrite length_fmap |]. intros i e Hi.
  destruct (Forall_lookup_1 _ _ _ _ Hev Hi) as (_ & Ha & Hm).
  eexists _, _. split; [by rewrite list_lookup_fmap, Hi |].
  split; [| intros users; apply at_user_pretty].
  unfold replayedEventParams. cbn -[Z.leb Z.mul].
  change (String.append ?s _) with (s +:+ "0"). rewrite (Hbn (_ +:+ "0") (10 * si_market e)%Z).
  - cbn -[Z.leb Z.mul]. rewrite (proj2 (Z.leb_le _ _)) by lia. cbn -[Z.mul].
    by rewrite (Hbn _ (si_amt e)) by (apply pretty_not_empty || apply decimal_pretty; done).
  - intros H. apply (pretty_not_empty _ Hm). by destruct (pretty (si_market e)).
  - rewrite decimal_app, decimal_pretty by done. change (Some (10 * si_market e + 0)%Z = Some (10 * si_market e)%Z).
    f_equal. lia.
Qed.

(** ** A run *)
Section Never.
Context {B : BNLib}.
Variable env : StressEnv.

(** No turn of the loop is finished: it throws before, or at, the call of [summary]. *)
Lemma runEvent_throws params i run :
  exists e, (runEvent env params i run).2 = Throw e /\
  (length (rn_events (runEvent env params i run).1) <= S (length (rn_events run)))%nat.
Proof.
  unfold runEvent. destruct (params i) as [p | e]; [| by exists e; split; [| cbn; lia]].
  destruct (simEvent _ _ _ _ _ _ _ _ _) as [[client sent] [row | e]]; cbn.
  2: { exists e. split; [done | lia]. }
  rewrite length_app, Nat.add_1_r.
  enough (exists e, (markets ← subscribedMarkets (sv_chain env);
     i ← bn_toNumber (ep_market p);
     market ← deref (js_index (ma_markets markets) i);
     _ ← sv_oraclePrice env (amm_oracle (mkt_amm market));
     u ← deref (at_user (rn_users run) (ep_user p));
     _ ← fetchUser (sv_chain env) (sx_key u);
     Throw TypeError : result unit) = Throw e) as [e ->] by eauto.
  repeat match goal with
  | |- context [?m ≫= _] => destruct m; cbn; [| by eexists]
  end.
  by eexists.
Qed.

Lemma runEvents_throws params n i run : n <> O ->
  exists e, (runEvents env params n i run).2 = Throw e /\
  (length (rn_events (runEvents env params n i run).1) <= S (length (rn_events run)))%nat.
Proof.
  intros Hn. destruct n as [| n]; [done |]. cbn.
  destruct (runEvent_throws params i run) as (e & He & Hl).
  destruct (runEvent env params i run) as [run' r]. cbn in He, Hl. subst r. eauto.
Qed.
End Never.

(** A run never ends well: whatever the arguments, the network, the files and the
    draws, [stress_test] rejects, after one recorded event at most, and no timeline
    is returned. *)
Theorem stress_never_completes {B : BNLib} (env : StressEnv) (oracles : result (list PublicKey))
    (usdcMint : PublicKey) (NUM_USERS NUM_EVENTS : nat) (user_capital sqrtk : Number)
    (inputEventFile : string) (pegs : list Z) (marketOffset : Z) (outputFolder outputName : string)
    (draws : nat -> Draws) (admin : Client) :
  let outcome := stress_test env oracles usdcMint NUM_USERS NUM_EVENTS user_capital sqrtk
    inputEventFile pegs marketOffset outputFolder outputName draws admin in
  (exists e, outcome.2 = Throw e) /\
  (default 0%nat (length ∘ rn_events <$> outcome.1) <= 1)%nat.
Proof.
  cbv zeta. unfold stress_test.
  destruct (_ ≫= _) as [[[usdcAmount oracles'] initial] | e]; [| by eauto using Nat.le_0_l].
  destruct (setUpMarkets _ _ _ _ _ _ _) as [admin' r].
  destruct (_ ≫= _) as [[[txs users] timeline] | e]; [| by eauto using Nat.le_0_l].
  set (n := if decide (inputEventFile = "") then NUM_EVENTS else length timeline).
  destruct (decide (n = O)) as [-> | Hn]; [cbn; split; [by eexists | lia] |].
  edestruct (runEvents_throws env
    (eventParams env inputEventFile timeline marketOffset draws) n 0
    (mkRun users (mkDriverClient true admin') txs []) Hn) as (e & He & Hl).
  destruct (runEvents _ _ _ _ _) as [run r']. cbn in He, Hl. subst r'. cbn. eauto.
Qed.
