(* ===== verification/Example.v ===== *)
(** * The trade example and the statistics (examples/makeTradeExample.ts, util/)

    The script of the documentation, which sets up a user on Devnet, shows a price and a
    slippage, and opens, reduces and closes a position; and the two functions on the
    RPC's statistics. *)
From S2P Require Import Prelude BN Types Amm Trade Idl Client Config.

#[local] Open Scope string_scope.

(** ** examples/makeTradeExample.ts *)

(** The outcomes of the network; the key pair of a new positions account. *)
Record ExampleEnv := mkExampleEnv {
  xe_chain : Chain;
  xe_balance : result Z;
  xe_subscribe : result unit;
  xe_userExists : result bool;
  xe_userSubscribe : result unit;
  xe_positions : PublicKey;
  xe_send : Transaction -> result unit
}.

(** A script: the client it uses and the transactions the network was given. *)
Definition Script (A : Type) : Type :=
  Client -> list Transaction -> Client * list Transaction * result A.

#[export] Instance Script_ret : MRet Script := fun A a c txs => (c, txs, Ok a).
#[export] Instance Script_bind : MBind Script := fun A B f m c txs =>
  match m c txs with
  | (c, txs, Ok a) => f a c txs
  | (c, txs, Throw e) => (c, txs, Throw e)
  end.

Definition ask {A} (r : result A) : Script A := fun c txs => (c, txs, r).

Section Example.
Context {B : BNLib}.
Variable env : ExampleEnv.
#[local] Abbreviation chain := (xe_chain env).

(** A method of the client that sends a transaction, awaited. *)
Definition submit (m : Method Transaction) : Script unit := fun c txs =>
  match m c with
  | (c, Ok tx) => (c, txs ++ [tx], xe_send env tx)%list
  | (c, Throw e) => (c, txs, Throw e)
  end.

(** [getTokenAddress] *)
Definition getTokenAddress (mintAddress userPubKey : PublicKey) : PublicKey :=
  getAssociatedTokenAddress chain mintAddress userPubKey.

(** The first transaction of a new user: the collateral account is derived from the token
    account, not from the mint. *)
Definition createUser (usdcTokenAddress wallet : PublicKey) : Method Transaction :=
  '(tx, _) ← initializeUserAccountAndDepositCollateral chain (xe_positions env)
               (10000 * QUOTE_PRECISION) (getTokenAddress usdcTokenAddress wallet);
  mret tx.

(** What is printed: the price, and the slippage, of which the code takes the first
    element, the percentage, and prints it in dollars. *)
Definition quotes (marketIndex : Z) : result (Number * Number) :=
  markets ← subscribedMarkets chain;
  market ← deref (js_index (ma_markets markets) marketIndex);
  currentMarketPrice ← calculateMarkPrice market;
  formattedPrice ← convertToNumber (Some currentMarketPrice) MARK_PRICE_PRECISION;
  s ← calculateTradeSlippage LONG (5000 * QUOTE_PRECISION) market quote;
  slippage ← convertToNumber (Some (pctAvgSlippage s)) MARK_PRICE_PRECISION;
  Ok (formattedPrice, slippage).

(** [main], from the construction of the client on; [config] is what [initialize]
    returned. *)
Definition main (config : DriftConfig) (wallet : PublicKey) : Script (Number * Number) :=
  _ ← ask (xe_balance env);
  mint ← ask (deref (dc_USDC_MINT_ADDRESS config));
  let usdcTokenAddress := getTokenAddress mint wallet in
  _ ← ask (xe_subscribe env);
  userAccountExists ← ask (xe_userExists env);
  _ ← (if (userAccountExists : bool) then mret tt else submit (createUser usdcTokenAddress wallet));
  _ ← ask (xe_userSubscribe env);
  solMarketInfo ← ask (deref (snd <$> list_find (fun market => mc_baseAssetSymbol market = "SOL") Markets));
  let marketIndex := mc_marketIndex solMarketInfo in
  printed ← ask (quotes marketIndex);
  _ ← submit (openPosition chain LONG (5000 * QUOTE_PRECISION) marketIndex None None None);
  _ ← submit (openPosition chain SHORT (2000 * QUOTE_PRECISION) marketIndex None None None);
  _ ← submit (closePosition chain marketIndex None None);
  mret printed.

(** The script as it is called, in the Devnet environment. *)
Definition makeTradeExample (wallet : PublicKey) : list Transaction * result (Number * Number) :=
  let config := (sdkInitialize (Some "devnet") None defaultConfig).2 in
  match dc_CLEARING_HOUSE_PROGRAM_ID config with
  | None => ([], Throw TypeError)
  | Some programId =>
      let '(_, txs, r) := main config wallet (mkClient programId wallet None None None) [] in (txs, r)
  end.
End Example.

(** ** util/tps.ts *)
Record SignatureInfo := mkSignatureInfo { sg_failed : bool; sg_blockTime : option Z }.

(** [estimateTps]: a missing time counts as 0 in the subtraction. *)
Definition estimateTps (getSignaturesForAddress : result (list SignatureInfo)) (failed : bool)
    : result Number :=
  signatures ← getSignaturesForAddress;
  let signatures := if failed then filter (fun s => sg_failed s = true) signatures else signatures in
  match head signatures, last signatures with
  | Some first, Some final =>
      Ok (num_div (num_of_Z (Z.of_nat (length signatures)))
            (num_of_Z (default 0%Z (sg_blockTime first) - default 0%Z (sg_blockTime final))))
  | _, _ => Ok (num_of_Z 0)
  end.

(** ** util/computeUnits.ts *)
Fixpoint strip_prefix (p s : string) : option string :=
  match p, s with
  | "", _ => Some s
  | String c p, String d s => if Ascii.eqb c d then strip_prefix p s else None
  | String _ _, "" => None
  end.

Definition is_digit (c : Ascii.ascii) : bool :=
  let n := Ascii.nat_of_ascii c in (48 <=? n)%nat && (n <=? 57)%nat.

(** At most [n] digits, and what follows. *)
Fixpoint take_digits (n : nat) (s : string) : string * string :=
  match n, s with
  | S n, String c s' =>
      if is_digit c then let '(d, r) := take_digits n s' in (String c d, r) else ("", s)
  | _, _ => ("", s)
  end.

(** The regular expression at the start of a message, then its first match.  What
    follows the digits is a space, so no shorter run of digits can match. *)
Definition match_here (programId s : string) : option string :=
  rest ← strip_prefix ("Program " +:+ programId +:+ " consumed ") s;
  let '(units, rest) := take_digits 6 rest in
  _ ← strip_prefix " of 200000 compute units" rest;
  Some units.
Fixpoint match_message (programId s : string) : option string :=
  match match_here programId s with
  | Some units => Some units
  | None => match s with "" => None | String _ s => match_message programId s end
  end.

(** An empty run of digits is not collected. *)
Definition units_of (programId message : string) : option string :=
  match match_message programId message with
  | Some units => if decide (units = "") then None else Some units
  | None => None
  end.

(** [findComputeUnitConsumption]: the units as the strings the code collects; a
    transaction that is not found has no messages to read. *)
Definition findComputeUnitConsumption (programId : PublicKey)
    (getTransaction : result (option (list string))) : result (list string) :=
  tx ← getTransaction;
  logMessages ← deref tx;
  Ok (omap (M:=list) (units_of programId) logMessages).

(** ** What the script does *)
Definition requested_limits (tx : Transaction) : list string :=
  omap (fun i => match i with Call ix => Some (ix_name ix) | CreateAccount _ _ => None end)
    (tx_instructions tx).

Lemma lift_ok {A} (r : result A) c c' a : lift r c = (c', Ok a) -> c' = c /\ r = Ok a.
Proof. unfold lift. intros H. injection H as -> ->. done. Qed.

Lemma method_bind_ok {A C} (m : Method A) (f : A -> Method C) c c' r :
  (m ≫= f) c = (c', Ok r) -> exists c1 a, m c = (c1, Ok a) /\ f a c1 = (c', Ok r).
Proof.
  unfold mbind, Method_bind. destruct (m c) as [c1 [a | e]] eqn:E; [eauto | discriminate].
Qed.

(** A transaction whose instructions are those named. *)
Definition sends_only {B : BNLib} (m : Method Transaction) (names : list string) : Prop :=
  forall c c' tx, m c = (c', Ok tx) -> requested_limits tx = names.

Ltac method_inv H :=
  repeat lazymatch type of H with
  | (_ ≫= _) _ = _ =>
      let c := fresh "c" in let a := fresh "a" in let E := fresh "E" in
      apply method_bind_ok in H as (c & a & E & H); cbv beta in H
  | match ?p with pair _ _ => _ end _ = _ => destruct p
  end.

Section Requests.
Context {B : BNLib}.
Variable ch : Chain.

Lemma openPosition_sends d q i l t r : sends_only (openPosition ch d q i l t r) ["openPosition"].
Proof.
  intros c c' tx H. unfold openPosition in H. method_inv H. injection H as _ <-.
  unfold getOpenPositionIx in E. method_inv E. by injection E as _ <-.
Qed.

Lemma closePosition_sends i t r : sends_only (closePosition ch i t r) ["closePosition"].
Proof.
  intros c c' tx H. unfold closePosition in H. method_inv H. injection H as _ <-.
  unfold getClosePositionIx in E. method_inv E. by injection E as _ <-.
Qed.
End Requests.

(** A script gives the network transactions with the instructions [es], in order: all of them
    when it returns, some of the first otherwise. *)
Definition gives {A} (s : Script A) (es : list (list string)) : Prop :=
  forall c txs, exists new, (s c txs).1.2 = (txs ++ new)%list /\
    requested_limits <$> new `prefix_of` es /\
    ((exists a, (s c txs).2 = Ok a) -> requested_limits <$> new = es).

Lemma gives_bind {A C} (s : Script A) (f : A -> Script C) es1 es2 :
  gives s es1 -> (forall a, gives (f a) es2) -> gives (s ≫= f) (es1 ++ es2).
Proof.
  intros Hs Hf c txs. unfold mbind, Script_bind. destruct (Hs c txs) as (new & Htxs & Hp & Hr).
  destruct (s c txs) as [[c1 txs1] [a | e]]; cbn in *.
  - rewrite Htxs, Hr in * by eauto. destruct (Hf a c1 (txs ++ new)%list) as (new2 & H2 & Hp2 & Hr2).
    exists (new ++ new2)%list. rewrite H2, <- (assoc_L (++)), fmap_app, Hr by eauto.
    split; [done |]. split; [by apply prefix_app |]. intros Ha. by rewrite Hr2.
  - exists new. split; [done |]. split; [by apply prefix_app_r |]. by intros [].
Qed.

Lemma gives_ask {A} (r : result A) : gives (ask r) [].
Proof. intros c txs. exists []. cbn. by rewrite app_nil_r. Qed.

(** An answer of the network that is known. *)
Lemma gives_answer {A C} (r : result A) (f : A -> Script C) es :
  (forall a, r = Ok a -> gives (f a) es) -> gives (ask r ≫= f) es.
Proof.
  intros H c txs. destruct r as [a | e]; [by apply (H a) |]. exists []. cbn. rewrite app_nil_r.
  split; [done |]. split; [apply prefix_nil | by intros []].
Qed.

Lemma gives_ret {A} (a : A) : gives (mret a) [].
Proof. intros c txs. exists []. cbn. by rewrite app_nil_r. Qed.

Lemma gives_submit {B : BNLib} env m names : sends_only m names -> gives (submit env m) [names].
Proof.
  intros Hm c txs. unfold submit. destruct (m c) as [c' [tx | e]] eqn:E; cbn.
  - exists [tx]. apply Hm in E. cbn. by rewrite E.
  - exists []. rewrite app_nil_r. split; [done |]. split; [apply prefix_nil |]. by intros [].
Qed.

Section Main.
Context {B : BNLib}.
Variable env : ExampleEnv.

Lemma createUser_sends mint wallet :
  sends_only (createUser env mint wallet) ["initializeUser"; "depositCollateral"].
Proof.
  intros c c' tx H. unfold createUser in H. method_inv H. injection H as _ <-.
  unfold initializeUserAccountAndDepositCollateral in E. method_inv E. injection E as _ <- _.
  unfold getInitializeUserInstructions in E0. method_inv E0. injection E0 as _ <- _ <-.
  unfold getDepositCollateralInstruction in E1. method_inv E1. by injection E1 as _ <-.
Qed.

Definition expected : list (list string) :=
  (match xe_userExists env with Ok false => [["initializeUser"; "depositCollateral"]] | _ => [] end ++
   [["openPosition"]; ["openPosition"]; ["closePosition"]])%list.

Lemma main_gives config wallet : gives (main env config wallet) expected.
Proof.
  unfold main, expected.
  apply (gives_bind _ _ []); [apply gives_ask | intros _].
  apply (gives_bind _ _ []); [apply gives_ask | intros mint].
  apply (gives_bind _ _ []); [apply gives_ask | intros _].
  apply gives_answer. intros b ->. apply gives_bind.
  - destruct b; [apply gives_ret | apply gives_submit, createUser_sends].
  - intros _. apply (gives_bind _ _ []); [apply gives_ask | intros _].
    apply (gives_bind _ _ []); [apply gives_ask | intros market].
    apply (gives_bind _ _ []); [apply gives_ask | intros printed].
    apply (gives_bind _ _ [_]); [apply gives_submit, openPosition_sends | intros _].
    apply (gives_bind _ _ [_]); [apply gives_submit, openPosition_sends | intros _].
    apply (gives_bind _ _ [_] []); [apply gives_submit, closePosition_sends | intros _].
    apply gives_ret.
Qed.

(** Whatever the network answers, the script gives it first the creation of the user, if
    there is none, then the three trades in order, and stops at the first failure. *)
Theorem example_requests (wallet : PublicKey) :
  let '(txs, r) := makeTradeExample env wallet in
  requested_limits <$> txs `prefix_of` expected /\ ((exists p, r = Ok p) -> requested_limits <$> txs = expected).
Proof.
  unfold makeTradeExample. change (dc_CLEARING_HOUSE_PROGRAM_ID _) with
    (Some "AsW7LnXB9UA1uec9wi9MctYTgTz7YH9snhxd16GsFaGX").
  set (config := (sdkInitialize _ _ _).2).
  destruct (main_gives config wallet
    (mkClient "AsW7LnXB9UA1uec9wi9MctYTgTz7YH9snhxd16GsFaGX" wallet None None None) [])
    as (new & Htxs & Hp & Hr).
  destruct (main _ _ _ _ _) as [[c txs] r]. cbn in *. by subst.
Qed.
End Main.

(** ** The statistics *)

(** One signature in the window, or several of one block, make the rate infinite. *)
Lemma tps_of_one s : estimateTps (Ok [s]) false = Ok (num_div (num_of_Z 1) (num_of_Z 0)).
Proof. cbn. by rewrite Z.sub_diag. Qed.

Example units_read :
  findComputeUnitConsumption "Prog" (Ok (Some
    ["Program log: hi"; "x Program Prog consumed 31337 of 200000 compute units";
     "Program Other consumed 5 of 200000 compute units";
     "Program Prog consumed 1234567 of 200000 compute units"])) = Ok ["31337"].
Proof. reflexivity. Qed.
