(* ===== verification/Witnesses.v ===== *)
(** * The theorems at work

    Each theorem that has hypotheses is applied here to concrete data on which
    they hold, with bn.js instantiated by [BN_reference]: a market of 10^16
    base and quote units at 50 dollars, a user of that market, a small RPC
    history, a coder that reads the length of a buffer, and a chain whose
    derived addresses spell out their seeds. *)
From Stdlib Require Import Strings.Byte.
From stdpp Require Import pretty.
From S2P Require Import Prelude BN Types Amm Position Trade Funding User Liquidation.
From S2P Require Import JsMap Slots Loader LoaderSpec LoadSystem WebSocket Polling PollingSpec.
From S2P Require Import Idl Client Admin ClientSpec.

#[local] Existing Instance BN_reference.
#[local] Existing Instance BN_reference_laws.

(** ** Sample data *)
Definition sample_amm : AMM := {|
  amm_baseAssetReserve := 10 ^ 16;
  amm_sqrtK := 10 ^ 16;
  amm_cumulativeFundingRate := 0;
  amm_lastFundingRate := 0;
  amm_lastFundingRateTs := 3600;
  amm_lastMarkPriceTwap := 49 * 10 ^ 10;
  amm_lastMarkPriceTwapTs := 3000;
  amm_lastOraclePriceTwap := 50 * 10 ^ 10;
  amm_lastOraclePriceTwapTs := 3000;
  amm_oracle := "oracle";
  amm_oracleSource := PYTH;
  amm_fundingPeriod := 3600;
  amm_quoteAssetReserve := 10 ^ 16;
  amm_pegMultiplier := 50000;
  amm_cumulativeFundingRateLong := 7 * 10 ^ 14;
  amm_cumulativeFundingRateShort := 6 * 10 ^ 14;
  amm_cumulativeRepegRebateLong := 0;
  amm_cumulativeRepegRebateShort := 0;
  amm_totalFeeMinusDistributions := 9 * 10 ^ 9;
  amm_totalFeeWithdrawn := 0;
  amm_totalFee := 10 ^ 10;
  amm_minimumTradeSize := 10 ^ 7;
  amm_lastOraclePrice := 50 * 10 ^ 10
|}.

Definition sample_market : Market := {|
  mkt_amm := sample_amm;
  mkt_baseAssetAmount := 10 ^ 13;
  mkt_baseAssetAmountLong := 3 * 10 ^ 13;
  mkt_baseAssetAmountShort := - (2 * 10 ^ 13);
  mkt_initialized := true;
  mkt_openInterest := 2
|}.

Definition sample_position : UserPosition := {|
  pos_baseAssetAmount := 10 ^ 13;
  pos_lastCumulativeFundingRate := 5 * 10 ^ 14;
  pos_marketIndex := mkBNObj (Some 1%positive) 0;
  pos_quoteAssetAmount := 45 * 10 ^ 6
|}.

Lemma sample_wf : amm_wf sample_amm.
Proof. by split. Qed.

Lemma sample_on_curve : amm_on_curve sample_amm.
Proof. by vm_compute. Qed.

(** ** The curve *)
Lemma swap_constant_product_witness :
  exists i o, calculateSwapOutput (10 ^ 16) (3 * 10 ^ 12) REMOVE (10 ^ 32) = Ok (i, o) /\
    i = 10 ^ 16 - 3 * 10 ^ 12 /\ i * o <= 10 ^ 32 < i * (o + 1).
Proof. apply (swap_constant_product (10 ^ 16) (3 * 10 ^ 12) (10 ^ 32) REMOVE); lia. Defined.

Lemma swap_path_independent_witness :
  calculateSwapOutput (10 ^ 16 + 10 ^ 13) (2 * 10 ^ 13) ADD (10 ^ 32) =
  calculateSwapOutput (10 ^ 16) (10 ^ 13 + 2 * 10 ^ 13) ADD (10 ^ 32).
Proof.
  apply (swap_path_independent (10 ^ 16) (10 ^ 13) (2 * 10 ^ 13) (10 ^ 32) ADD
    (10 ^ 16 + 10 ^ 13) (10 ^ 32 / (10 ^ 16 + 10 ^ 13))); [lia | lia | lia | done | by vm_compute].
Defined.

Lemma base_removal_outcomes_witness :
  calculateAmmReservesAfterSwap sample_amm base (2 * 10 ^ 16) REMOVE =
    Ok (quote_at sample_amm (- 10 ^ 16), - 10 ^ 16) /\
  quote_at sample_amm (- 10 ^ 16) <= 0.
Proof.
  destruct (base_removal_outcomes sample_amm (2 * 10 ^ 16) ltac:(by vm_compute)) as (H1 & H2 & _).
  split; [exact H1 | exact (H2 ltac:(by vm_compute))].
Defined.

Lemma price_impact_sign_witness :
  exists before after, calculateMarkPrice sample_market = Ok before /\
    calculatePrice (10 ^ 16 - 10 ^ 13) (10 ^ 32 / (10 ^ 16 - 10 ^ 13)) 50000 = Ok after /\
    before <= after.
Proof.
  apply (price_impact_sign sample_market LONG (10 ^ 13) (10 ^ 32 / (10 ^ 16 - 10 ^ 13))
    (10 ^ 16 - 10 ^ 13) sample_wf sample_on_curve); [lia | by vm_compute | by vm_compute].
Defined.

(** ** Positions *)
Lemma base_asset_value_refines_witness :
  calculateBaseAssetValue sample_market sample_position =
    Ok (value_of sample_amm (10 ^ 13)) /\ 0 <= value_of sample_amm (10 ^ 13).
Proof.
  destruct (base_asset_value_refines sample_market sample_position sample_wf sample_on_curve)
    as (_ & H1 & H2 & _).
  split; [apply H1; by vm_compute | apply H2; by vm_compute].
Defined.

Lemma open_close_no_profit_witness :
  exists q b, calculateAmmReservesAfterSwap sample_amm base (10 ^ 13)
    (getSwapDirection base SHORT) = Ok (q, b) /\
  calculatePositionPNL
    (with_amm sample_market (with_curve sample_amm b q (10 ^ 16) 50000))
    {| pos_baseAssetAmount := - 10 ^ 13; pos_lastCumulativeFundingRate := 0;
       pos_marketIndex := new_BN 0;
       pos_quoteAssetAmount := ((10 ^ 16 - q) * 50000) `quot` 10000000000 |} false = Ok (-1).
Proof.
  exists (10 ^ 32 / (10 ^ 16 + 10 ^ 13)), (10 ^ 16 + 10 ^ 13). split; [by vm_compute |].
  apply (open_close_no_profit sample_market SHORT (10 ^ 13) 0 (new_BN 0)
    (10 ^ 32 / (10 ^ 16 + 10 ^ 13)) (10 ^ 16 + 10 ^ 13) sample_wf sample_on_curve);
    [lia | done | by vm_compute].
Defined.

Lemma funding_pnl_sign_witness :
  exists f, calculatePositionFundingPNL sample_market sample_position = Ok f /\ f <= 0.
Proof.
  destruct (funding_pnl_sign sample_market sample_position (7 * 10 ^ 14) ltac:(by vm_compute))
    as (f & H1 & _ & H2 & _).
  exists f. split; [exact H1 | apply H2; by vm_compute].
Defined.

Lemma repeg_cost_spec_witness :
  calculateRepegCost sample_market 0 51000 =
    Ok (value_of (mkt_amm (with_peg sample_market 51000)) (10 ^ 13) - value_of sample_amm (10 ^ 13)).
Proof.
  destruct (repeg_cost_spec sample_market 0 51000 sample_wf sample_on_curve) as [H _];
    [by vm_compute | by vm_compute | by vm_compute | exact H].
Defined.

(** ** Trades *)
Lemma squareRootBN_correct_witness :
  exists r, squareRootBN (10 ^ 40 + 12345) 1 = Ok r /\
    (r = Z.sqrt (10 ^ 40 + 12345) \/
     (r = Z.sqrt (10 ^ 40 + 12345) + 1 /\ 10 ^ 40 + 12345 + 1 = r * r)).
Proof.
  destruct (squareRootBN_correct (10 ^ 40 + 12345)) as [H _]; [done | | exact H].
  by vm_compute.
Defined.

Lemma slippage_base_trade_witness :
  calculateTradeSlippage LONG (10 ^ 13) sample_market base =
    Ok (mkSlippage 10010010 20030040 500500500500 501001502002).
Proof.
  pose proof (slippage_base_trade sample_market LONG (10 ^ 13) 500000000000 sample_wf sample_on_curve
    ltac:(done) ltac:(by vm_compute) ltac:(by vm_compute) ltac:(done)) as H.
  cbv zeta in H. rewrite H. by vm_compute.
Defined.

Lemma target_trade_safe_witness :
  exists b' q' after, reaches_target sample_amm 500000000000 510000000000 quote
    (mkTargetTrade LONG 497524691 504975246095 510000000000) b' q' after.
Proof.
  destruct (target_trade_safe sample_market 510000000000 1000 500000000000 quote
    (mkTargetTrade LONG 497524691 504975246095 510000000000)
    ltac:(by vm_compute) ltac:(by vm_compute)) as (_ & _ & _ & _ & _ & [[H _] | H]); [| exact H].
  by vm_compute in H.
Defined.

(** ** Funding *)
Definition sample_prices : PriceData := mkPriceData (Some (num_of_Z 49)) (Some (num_of_Z 50)).

Lemma funding_estimates_capped_witness :
  exists e, calculateAllEstimatedFundingRate sample_market sample_prices 1 3600000 = Ok e /\
    Z.abs (fe_cappedAltEst e) <= Z.abs (fe_interpEst e).
Proof.
  destruct (funding_estimates_capped sample_market sample_prices 1 3600000 500000000000
    495000000000 499285714285) as [_ H].
  destruct (H eq_refl ltac:(by vm_compute) ltac:(by vm_compute) ltac:(by vm_compute) ltac:(lia))
    as (e & H1 & H2 & _).
  exists e. split; [exact H1 | exact H2].
Defined.

Lemma funding_no_price_rejects_witness :
  calculateAllEstimatedFundingRate sample_market (mkPriceData None None) 1 3600000 = Throw bn_error.
Proof.
  apply (funding_no_price_rejects sample_market (mkPriceData None None) 1 3600000 500000000000);
    [done | by vm_compute | done | done].
Defined.

Lemma oracle_twap_drift_witness :
  liveOracleTwap sample_market 3600 (50 * 10 ^ 10) = Ok (50 * 10 ^ 10).
Proof.
  destruct (oracle_twap_drift sample_market 3600 (50 * 10 ^ 10)) as (_ & H & _);
    [done | done | done | done | apply H; done].
Defined.

Lemma long_short_estimators_disagree_witness :
  calculateLongShortFundingRate sample_market sample_prices 1 3600000 = Ok (-834525512, -834525512).
Proof.
  apply (long_short_estimators_disagree sample_market sample_prices 1 3600000
    (mkFundingEstimates 491428571428 499285714285 0 (-834525512) (-834525512)));
    [by vm_compute | done | done].
Defined.

(** ** Users *)
Definition sample_user : ClearingHouseUser := {|
  chu_stateAccount := Throw TypeError;
  chu_marketsAccount := Ok (mkMarketsAccount 0 [sample_market]);
  chu_userAccount := Ok (mkUserAccount "authority" (10 ^ 5) (2 * 10 ^ 6) "positions" 0);
  chu_userPositionsAccount := Ok (mkUserPositionsAccount [sample_position] "user")
|}.

Lemma unrealized_pnl_identity_witness :
  getUnrealizedPNL sample_user false (Some (new_BN 0)) = Ok 0 /\
  getUnrealizedPNL sample_user false None = Ok (4950049 + 0).
Proof.
  destruct (unrealized_pnl_identity sample_user (mkUserPositionsAccount [sample_position] "user")
    false (new_BN 0) [4950049]) as [H1 H2]; [done | | split; [apply H2 | exact H1]].
  - by repeat constructor.
  - by repeat constructor.
Defined.

Lemma can_be_liquidated_iff_witness :
  exists b r, canBeLiquidated sample_user = Ok (b, r) /\
    (b = true <-> 0 < 49950049 /\ 10000 * 3050049 < 626 * 49950049).
Proof.
  apply (can_be_liquidated_iff sample_user 3050049 49950049); [by vm_compute | by vm_compute | done].
Defined.

(** ** Liquidation *)
Lemma liquidation_price_long_witness :
  exists d r, priceDelt 5000000 40000000 16 (10 ^ 13) = Ok d /\
    liqPriceFromMargin (50 * 10 ^ 10) d (10 ^ 13) = Ok r /\
    ((r = -1 /\ (16 - 1) * (10 ^ 13 * (50 * 10 ^ 10 + 1)) <= (5000000 * 16 - 40000000) * 10 ^ 17) \/
     (0 <= r <= 50 * 10 ^ 10 /\
      (16 - 1) * (10 ^ 13 * (50 * 10 ^ 10 - r)) <= (5000000 * 16 - 40000000) * 10 ^ 17
        < (16 - 1) * (10 ^ 13 * (50 * 10 ^ 10 - r + 1) + 10 ^ 13))).
Proof. apply (liquidation_price_long 5000000 40000000 16 (10 ^ 13) (50 * 10 ^ 10)); done. Defined.

Lemma close_amount_remainder_witness :
  closeBaseAmount sample_position (45 * 10 ^ 6) = Ok (- 10 ^ 13).
Proof.
  destruct (close_amount_remainder sample_position (10 ^ 6) ltac:(done)) as [H _]. exact H.
Defined.

Lemma max_position_size_cases_witness :
  exists s, maxPositionSizeFor 50000 20000 1000000 0 true (Ok 700000) = Ok s /\ 0 <= s /\
    (20000 <= 50000 -> (20000 * 1000000) / 10000 + s <= (50000 * 1000000) / 10000) /\
    (50000 < 20000 -> s = 0).
Proof.
  destruct (max_position_size_cases 50000 20000 1000000 700000
    ltac:(done) ltac:(done) ltac:(done) ltac:(done)) as [H _].
  exact H.
Defined.

(** ** The loader *)
Definition sample_Buffer_from (raw dataType : string) : Buffer :=
  repeat x00 (String.length raw).

(** A callback that never throws, and one whose error handler does. *)
Inductive SampleCallback := Silent | Throwing.

#[local] Instance sample_callbacks : Callbacks SampleCallback := {|
  cb_run := fun _ _ => None;
  ecb_run := fun cb e => match cb with Silent => None | Throwing => Some e end
|}.

Definition sample_loader : BulkAccountLoader SampleCallback :=
  (addAccount "markets" Silent "id1" 1%nat
    (addAccount "state" Silent "id0" 1%nat newLoader).1).1.

Definition sample_answer : RpcResult :=
  mkRpcResult 5 [Some ("abc", "base64"); None]%string.

Lemma sample_history : rtc loader_op newLoader sample_loader.
Proof. eapply rtc_l; [apply op_addAccount | apply rtc_once, op_addAccount]. Qed.

Lemma sample_heap : l_heap sample_loader =
  <[2%positive := mkAccountToLoad "markets" [("id1"%string, Silent)]]>
    {[1%positive := mkAccountToLoad "state" [("id0"%string, Silent)]]}.
Proof. by vm_compute. Qed.

Lemma chunks_partition_witness :
  concat (chunks (seq 0 250) 99) = seq 0 250 /\ length (chunks (seq 0 250) 99) = 3%nat.
Proof.
  destruct (chunks_partition (seq 0 250) 99 ltac:(lia)) as (H1 & _ & H2).
  split; [exact H1 | rewrite H2; by vm_compute].
Defined.

Lemma polling_iff_accounts_witness :
  l_intervalId sample_loader = None <-> l_accountsToLoad sample_loader = [].
Proof. apply (polling_iff_accounts sample_loader sample_history). Defined.

Lemma stored_slot_monotone_witness :
  let ld' := (loadChunk sample_Buffer_from [1%positive; 2%positive] (Ok (Some sample_answer))
                sample_loader).1 in
  slot_le (l_accountData sample_loader !! "state"%string) (l_accountData ld' !! "state"%string).
Proof.
  apply (stored_slot_monotone sample_loader). apply rtc_once, op_loadChunk.
Defined.

Lemma loadChunk_refines_absorb_witness :
  let ld' := (loadChunk sample_Buffer_from [1%positive; 2%positive] (Ok (Some sample_answer))
                sample_loader).1 in
  l_accountData ld' !! "state"%string = Some (mkAccountData 5 (Some [x00; x00; x00])) /\
  l_accountData ld' !! "markets"%string = Some (mkAccountData 5 None).
Proof.
  destruct (loadChunk_refines_absorb sample_Buffer_from [1%positive; 2%positive]
    [mkAccountToLoad "state" [("id0"%string, Silent)];
     mkAccountToLoad "markets" [("id1"%string, Silent)]] sample_answer sample_loader)
    as (_ & H & _); [done | done | by repeat constructor | |].
  - repeat constructor; set_solver.
  - split; [apply (H 0%nat _ eq_refl) | apply (H 1%nat _ eq_refl)].
Defined.

Lemma registry_is_a_set_witness :
  registered sample_loader "state" "id0" /\
  ~ registered (removeAccount "state" "id0" sample_loader) "state" "id0".
Proof.
  pose proof (addAccount_inv "state" Silent "id0" 1%nat _ newLoader_inv) as Hi1.
  pose proof (addAccount_inv "markets" Silent "id1" 1%nat _ Hi1) as Hi2.
  split.
  - unfold sample_loader.
    apply (registry_is_a_set _ "markets" Silent "id1" 1%nat "state" "id0" Hi1). right.
    apply (registry_is_a_set _ "state" Silent "id0" 1%nat "state" "id0" newLoader_inv). by left.
  - intros Hr.
    apply (registry_is_a_set sample_loader "state" Silent "id0" 1%nat "state" "id0" Hi2) in Hr.
    destruct Hr as [Hr _]. by apply Hr.
Defined.

Lemma removed_callback_silent_witness :
  exists evs, l_log (loadChunk sample_Buffer_from [1%positive] (Ok (Some sample_answer))
                      (removeAccount "state" "id0" sample_loader)).1 =
    l_log (removeAccount "state" "id0" sample_loader) ++ evs /\
    forall cb b, Notify "id0" cb b ∉ evs.
Proof.
  apply (removed_callback_silent "state" "id0" sample_loader).
  - by apply loader_history_inv, sample_history.
  - intros addr a Ha Hin. rewrite sample_heap in Ha.
    apply lookup_insert_Some in Ha as [[<- <-] | [_ Ha]].
    + cbn in Hin. apply list_elem_of_singleton in Hin. done.
    + by apply lookup_singleton_Some in Ha as [<- <-].
Defined.

Lemma confirmation_does_not_protect_witness :
  foldl absorb (Some (mkAccountData 5 (Some [x01]))) [(10, Some [x01]); (7, Some [x00])] =
  Some (mkAccountData 7 (Some [x00])).
Proof. apply (confirmation_does_not_protect 5 7 10 [x01] [x00]); done. Defined.

(** ** Concurrent loads *)
#[local] Instance quiet_callbacks : Callbacks unit := {|
  cb_run := fun _ _ => None;
  ecb_run := fun _ _ => None
|}.

(** The state a list of actions leads to. *)
Definition reached {C} {CB : Callbacks C} (acts : list (Action C)) : Sys C :=
  default initSys (run sample_Buffer_from acts initSys).

Definition add_and_load : list (Action unit) :=
  [AClient (CallAdd "state" tt "id0" 1); ALoad].

Lemma calm_promises_accounted_witness :
  0%nat ∈ s_resolved (reached add_and_load) \/
  l_loadPromise (s_loader (reached add_and_load)) = Some 0%nat.
Proof.
  destruct (calm_promises_accounted sample_Buffer_from add_and_load (reached add_and_load))
    as (H & _); [by vm_compute | by vm_compute |].
  apply H. vm_compute. lia.
Defined.

Lemma load_completes_witness :
  exists f fl, s_flights (reached add_and_load) !! f = Some fl /\
    forall rpcs, length rpcs = length (fl_pending fl) ->
      exists s', run sample_Buffer_from (((fun r => AAnswer f 0 r) <$> rpcs) ++ [ASettle f])
        (reached add_and_load) = Some s' /\
        0%nat ∈ s_resolved s' /\ l_loadPromise (s_loader s') = None.
Proof.
  apply (load_completes sample_Buffer_from add_and_load); [done | by vm_compute ..].
Defined.

Lemma replaced_promise_never_resolves_witness :
  exists s', run sample_Buffer_from
    [AClient (CallAdd "markets" tt "id1" 1); ALoad; AAnswer 0 0 (Ok (Some sample_answer)); ASettle 0;
     AAnswer 1 0 (Ok (Some sample_answer)); ASettle 1] (reached add_and_load) = Some s' /\
    ~ (0%nat ∈ s_resolved s').
Proof.
  eexists. split; [by vm_compute |].
  apply (replaced_promise_never_resolves sample_Buffer_from add_and_load (reached add_and_load) 0
    (CallAdd "markets" tt "id1" 1%nat) [AAnswer 0 0 (Ok (Some sample_answer)); ASettle 0;
     AAnswer 1 0 (Ok (Some sample_answer)); ASettle 1]);
    [by vm_compute | by vm_compute | by vm_compute | by intros [] | by vm_compute].
Defined.

Definition failing_load : list (Action SampleCallback) :=
  [AClient (CallAdd "state" Silent "id0" 1); AClient (CallAddError Throwing "e0"); ALoad;
   AAnswer 0 0 (Throw (LibErr "503"))].

Definition failing_end : Sys SampleCallback :=
  default initSys (run sample_Buffer_from [ASettle 0; ALoad; ALoad] (reached failing_load)).

Lemma throwing_error_callback_wedges_witness :
  l_loadPromise (s_loader failing_end) = Some 0%nat /\ ~ (0%nat ∈ s_resolved failing_end) /\
  length (s_flights failing_end) = length (s_flights (reached failing_load)).
Proof.
  apply (throwing_error_callback_wedges sample_Buffer_from failing_load (reached failing_load)
    0 (mkFlight [] (Failed (LibErr "503"))) (LibErr "503")
    (runErrorCallbacks (l_errorCallbacks (s_loader (reached failing_load))) (LibErr "503")
       (s_loader (reached failing_load))).1
    (LibErr "503") (default initSys (step sample_Buffer_from (reached failing_load) (ASettle 0)))
    [ALoad; ALoad] failing_end 0);
    first [by vm_compute | by repeat constructor].
Defined.

(** ** The websocket subscriber *)
#[local] Instance sample_coder : Coder nat nat := {|
  decode := fun b => Ok (length b);
  onChange_run := fun _ _ => None
|}.

Lemma sample_decodes : decodes (T := nat) (H := nat).
Proof. intros b. by exists (length b). Qed.

Definition ws_history : list (WsAction nat) :=
  [WSubscribe 7%nat; WFetched (Ok (5, Some [x00])) 1; WNotify 1 (9, Some [x00; x01]);
   WNotify 1 (8, Some [x01])].
Definition ws_reached : WsSys nat nat := default initWs (wsRun ws_history initWs).

Lemma view_is_decoded_buffer_witness : view_current ws_reached.
Proof.
  apply (view_is_decoded_buffer ws_history); [exact sample_decodes | by vm_compute].
Defined.

Lemma serial_subscriptions_do_not_leak_witness : sys_listeners (wsUnsubscribe ws_reached) = ∅.
Proof.
  apply (serial_subscriptions_do_not_leak ws_history); [| by vm_compute].
  vm_compute. by repeat split.
Defined.

Lemma overlapping_subscribe_leaks_witness :
  exists s' : WsSys nat nat,
    wsRun [WSubscribe 7%nat; WSubscribe 8%nat; WFetched (Ok (5, Some [x00])) 1;
           WFetched (Ok (6, None)) 2; WUnsubscribe] initWs = Some s' /\
    ws_listenerId (sys_ws s') = None /\ 1%nat ∈ sys_listeners s' /\
    forall r, exists s'', wsStep s' (WNotify 1 r) = Some s'' /\
      ws_accountData (sys_ws s'') = absorb (ws_accountData (sys_ws s')) r.
Proof.
  apply (overlapping_subscribe_leaks initWs 7%nat 8%nat (5, Some [x00]) (6, None) 1 2);
    [exact sample_decodes | done ..].
Defined.

(** ** The polling subscribers *)
#[local] Instance sample_program : Program nat := {|
  coder_decode := fun _ _ b =>
    match b with Some b => Ok (length b) | None => Throw (LibErr "decode") end;
  emit_run := fun _ _ => None;
  emit_error_run := fun _ e => Some e
|}.

Definition no_tier : DiscountTier := mkDiscountTier 0 0 1.

Definition sample_state : StateAccount := {|
  st_admin := "admin";
  st_fundingPaused := false;
  st_exchangePaused := false;
  st_adminControlsPrices := true;
  st_collateralMint := "usdc";
  st_collateralVault := "collateral";
  st_collateralVaultAuthority := "collateralAuthority";
  st_collateralVaultNonce := 255;
  st_insuranceVault := "insurance";
  st_insuranceVaultAuthority := "insuranceAuthority";
  st_insuranceVaultNonce := 255;
  st_marginRatioInitial := 2000;
  st_marginRatioMaintenance := 500;
  st_marginRatioPartial := 625;
  st_markets := "markets";
  st_curveHistory := "curve";
  st_depositHistory := "deposit";
  st_fundingRateHistory := "fundingRate";
  st_fundingPaymentHistory := "fundingPayment";
  st_tradeHistory := "trade";
  st_liquidationHistory := "liquidation";
  st_partialLiquidationClosePercentageNumerator := 25;
  st_partialLiquidationClosePercentageDenominator := 100;
  st_partialLiquidationPenaltyPercentageNumerator := 25;
  st_partialLiquidationPenaltyPercentageDenominator := 1000;
  st_fullLiquidationPenaltyPercentageNumerator := 1;
  st_fullLiquidationPenaltyPercentageDenominator := 1;
  st_partialLiquidationLiquidatorShareDenominator := 2;
  st_fullLiquidationLiquidatorShareDenominator := 20;
  st_feeStructure := mkFeeStructure 10 10000 no_tier no_tier no_tier no_tier 1 20 1 20;
  st_totalFee := 0;
  st_totalFeeWithdrawn := 0;
  st_whitelistMint := "none";
  st_discountMint := "none";
  st_oracleGuardRails := mkOracleGuardRails 1 10 1000 4 5 true;
  st_maxDeposit := 0;
  st_extendedCurveHistory := "extendedCurve"
|}.

Definition sample_uuid (i : nat) : string := pretty i.

(** While the subscription waits, a load starts, the answer for its three accounts arrives and
    the load ends. *)
Definition sample_loading : list (Action PollCallback) :=
  [ALoad; AAnswer 0 0 (Ok (Some (mkRpcResult 5 [Some ("abc", "base64"); Some ("abcd", "base64");
                                                Some ("ab", "base64")]%string))); ASettle 0].
Definition sample_load (ld : BulkAccountLoader PollCallback) : BulkAccountLoader PollCallback :=
  from_option s_loader ld (run sample_Buffer_from sample_loading (mkSys ld [] 0 ∅)).
Lemma sample_load_loads ld : loads sample_Buffer_from ld (sample_load ld).
Proof.
  unfold sample_load. destruct (run _ sample_loading _) as [s' |] eqn:E.
  - by exists sample_loading, (mkSys ld [] 0 ∅), s'; repeat constructor.
  - by exists [], (mkSys ld [] 0 ∅), (mkSys ld [] 0 ∅).
Qed.

Definition sample_subscription :=
  chSubscribe 0 (Some ["tradeHistoryAccount"]%string) "state" (Ok sample_state) sample_uuid 1
    sample_load newChPoller newLoader.

Lemma subscribe_unsubscribe_witness :
  let c' := sample_subscription.1.1 in
  let ld' := sample_subscription.1.2 in
  l_loadPromiseResolver ld' = Some 0%nat /\
  (forall k id, registered (chUnsubscribe c' ld').2 k id <->
     registered (newLoader (Callback := PollCallback)) k id) /\
  l_errorCallbacks ld' = [("3"%string, ErrorCallback 0)] /\
  l_errorCallbacks (chUnsubscribe c' ld').2 = [] /\
  exists account, decodeAccount "tradeHistory" (Some [x00; x00]) = Ok account /\
    pl_fields (cp_poller c') !! "tradeHistory"%string = Some account.
Proof.
  destruct (subscribe_unsubscribe sample_Buffer_from 0 (Some ["tradeHistoryAccount"]%string) "state"
    (Ok sample_state) sample_uuid 1 sample_load newChPoller newLoader sample_subscription.1.1
    sample_subscription.1.2) as (_ & (id & Hid & He) & _ & H1 & H2).
  - apply newLoader_inv.
  - apply sample_load_loads.
  - intros k j (addr & a & Hk & _). done.
  - done.
  - done.
  - by vm_compute.
  - apply (bool_decide_unpack _). by vm_compute.
  - cbn zeta. assert (Some id = Some "3"%string) as [= ->] by (rewrite <- Hid; vm_compute; reflexivity).
    destruct (chUnsubscribe _ _) as [c2 ld2]. destruct H2 as (H2 & H3 & _).
    split; [by vm_compute |]. split; [exact H2 |]. split; [exact He |]. split; [exact H3 |].
    apply (H1 ("trade"%string, mkAccountToPoll "tradeHistory" "trade" "tradeHistoryAccountUpdate"
      (Some "2"%string)) [x00; x00]); [| by vm_compute].
    apply (list_elem_of_lookup_2 _ 2). by vm_compute.
Defined.

Lemma accounts_polled_witness :
  (updateAccountsToPoll "state" (Ok sample_state) (newChPoller (Account := nat))).2 = Ok tt.
Proof.
  apply (accounts_polled "state" (Ok sample_state) newChPoller eq_refl).
  apply (bool_decide_unpack _). by vm_compute.
Defined.

Lemma optional_getter_outcomes_witness :
  getOptional "tradeHistoryAccount" "tradeHistory" (newChPoller (Account := nat)) =
    Throw NOT_SUBSCRIBED /\
  getOptional "tradeHistoryAccount" "tradeHistory"
    (chSubscribe 0 None "state" (Ok sample_state) sample_uuid 1 (fun ld => ld)
       (newChPoller (Account := nat)) newLoader).1.1 = Throw TypeError.
Proof.
  destruct (optional_getter_outcomes "tradeHistoryAccount" "tradeHistory" (newChPoller (Account := nat)))
    as (H1 & _ & H2).
  split; [by apply H1 |].
  apply (H2 0%nat "state"%string (Ok sample_state) sample_uuid 1%nat (fun ld => ld) newLoader _
    (chSubscribe 0 None "state" (Ok sample_state) sample_uuid 1 (fun ld => ld)
       (newChPoller (Account := nat)) newLoader).1.2); [done | by vm_compute].
Defined.

Lemma failed_subscribe_is_permanent_witness :
  exists c', chSubscribe 0 None "state" (Throw (LibErr "503")) sample_uuid 1 sample_load
      (newChPoller (Account := nat)) newLoader = (c', newLoader, Some (Throw (LibErr "503"))) /\
    chSubscribe 0 None "state" (Ok sample_state) sample_uuid 1 sample_load c' newLoader =
      (c', newLoader, None).
Proof.
  destruct (failed_subscribe_is_permanent 0 None "state" (LibErr "503") sample_uuid 1 sample_load
    (newChPoller (Account := nat)) newLoader eq_refl eq_refl eq_refl) as (c' & H1 & H2 & _).
  exists c'. split; [exact H1 | apply H2].
Defined.

Definition other_uuid (i : nat) : string := String.append "x" (sample_uuid i).
Definition first_uuid (i : nat) : string := String.append "w" (sample_uuid i).

Lemma overlapping_user_subscribe_leaks_witness :
  let r1 := userAddToAccountLoader 0 "user" "positions" first_uuid 1
              (newPoller (Account := nat)) newLoader in
  let r2 := userAddToAccountLoader 0 "user" "positions" other_uuid 1 r1.1 r1.2 in
  registered (pollUnsubscribe (set_subscribed r2.1 true) r2.2).2 "user" (first_uuid 0).
Proof.
  pose proof (overlapping_user_subscribe_leaks 0 "user" "positions" first_uuid other_uuid 1
    (newPoller (Account := nat)) newLoader newLoader_inv eq_refl ltac:(done)
    ltac:(intros i j; discriminate)) as H.
  cbn zeta.
  destruct (userAddToAccountLoader 0 "user" "positions" first_uuid 1 newPoller newLoader) as [p1 ld1].
  cbn [fst snd].
  destruct (userAddToAccountLoader 0 "user" "positions" other_uuid 1 p1 ld1) as [p2 ld2].
  cbn [fst snd]. destruct (pollUnsubscribe (set_subscribed p2 true) ld2) as [p3 ld3].
  apply H.
Defined.

(** ** Requests *)

(** Addresses that spell out what they are derived from, and a chain whose users
    keep their positions at [positions]. *)
Definition sample_find (seeds : list string) (programId : PublicKey) : PublicKey * Z :=
  (String.concat "/" (programId :: seeds), 254).

Definition chain_with (positions : PublicKey) : Chain := {|
  findProgramAddress := sample_find;
  getAssociatedTokenAddress := fun mint wallet => String.concat "/" [mint; wallet];
  fetchUser := fun k => Ok (mkUserAccount k 0 0 positions 0);
  fetchUserPositions := fun _ => Ok (mkUserPositionsAccount [sample_position] "user");
  subscribedState := Ok sample_state;
  subscribedMarkets := Ok (mkMarketsAccount 0 [sample_market]);
  TOKEN_PROGRAM_ID := "token program";
  SYSVAR_RENT_PUBKEY := "rent";
  SystemProgram_programId := "system program"
|}.

Definition sample_client : Client := newClient "program" "alice".

Definition call_of (call : ClientCall) : list Transaction :=
  match (perform (chain_with "positions") call sample_client).2 with Ok txs => txs | Throw _ => [] end.
Definition admin_of (call : AdminCall) : list Transaction :=
  match (administer (chain_with "positions") call sample_client).2 with
  | Ok txs => txs
  | Throw _ => []
  end.

Definition sample_open : ClientCall := COpenPosition LONG (10 ^ 6) 0 None (Some "token") (Some "bob").

Lemma client_requests_well_formed_witness :
  let deposit := CInitializeUserAccountAndDeposit "new positions" 5 "usdc" in
  length (call_of deposit ≫= tx_instructions) = 2%nat /\
  Forall (well_formed "alice") (call_of deposit).
Proof.
  split; [by vm_compute |].
  apply (client_requests_well_formed (chain_with "positions")
    (CInitializeUserAccountAndDeposit "new positions" 5 "usdc") sample_client
    (perform (chain_with "positions") (CInitializeUserAccountAndDeposit "new positions" 5 "usdc")
       sample_client).1 "program" "alice");
    [apply new_coherent | by vm_compute].
Defined.

Lemma admin_requests_well_formed_witness :
  (exists ix, requests (admin_of (AUpdateWhitelistMint None)) = [ix] /\ conforms ix = false) /\
  Forall (well_formed "alice") (admin_of (AUpdateK 5 0)).
Proof.
  split.
  - apply (admin_requests_well_formed (chain_with "positions") (AUpdateWhitelistMint None)
      sample_client (administer (chain_with "positions") (AUpdateWhitelistMint None) sample_client).1
      "program" "alice"); [apply new_coherent | by vm_compute].
  - apply (admin_requests_well_formed (chain_with "positions") (AUpdateK 5 0)
      sample_client (administer (chain_with "positions") (AUpdateK 5 0) sample_client).1
      "program" "alice"); [apply new_coherent | by vm_compute].
Defined.

Lemma client_arguments_by_name_witness :
  namedArgs <$> requests (call_of sample_open) =
  [[("direction", ADirection LONG); ("quoteAssetAmount", ABN (10 ^ 6)); ("marketIndex", ABN 0);
    ("limitPrice", ABN 0);
    ("optionalAccounts", AFlags [("discountToken", true); ("referrer", true)])]].
Proof.
  apply (client_arguments_by_name (chain_with "positions") sample_open sample_client
    (perform (chain_with "positions") sample_open sample_client).1 "program" "alice");
    [apply new_coherent | by vm_compute].
Defined.

Lemma admin_arguments_by_name_witness :
  namedArgs <$> requests (admin_of (AUpdateK 5 0)) = [[("sqrtK", ABN 5); ("marketIndex", ABN 0)]].
Proof.
  apply (admin_arguments_by_name (chain_with "positions") (AUpdateK 5 0) sample_client
    (administer (chain_with "positions") (AUpdateK 5 0) sample_client).1 "program" "alice");
    [apply new_coherent | by vm_compute | done].
Defined.

(** A session that caches Alice's addresses and then changes to Carol's wallet. *)
Definition wallet_change : list ClientEvent :=
  [ECall (chain_with "positions") sample_open; EUpdateWallet "carol"].

Lemma session_addresses_current_witness :
  let c := session wallet_change sample_client in
  cl_wallet c = "carol" /\
  exists txs, (perform (chain_with "positions") sample_open c).2 = Ok txs /\
    Forall (addressed sample_find "program" "carol") (requests txs).
Proof.
  split; [done |]. eexists. split; [by vm_compute |].
  apply (session_addresses_current sample_find "program" "alice" wallet_change
    (chain_with "positions") sample_open
    (perform (chain_with "positions") sample_open (session wallet_change sample_client)).1);
    [by repeat constructor | done | by vm_compute].
Defined.

(** Alice opens a position, deletes her user and creates it again with new
    positions; the client still names the old ones. *)
Definition caching_client : Client :=
  session [ECall (chain_with "old positions") sample_open] sample_client.
Definition recreate : list ClientEvent :=
  [ECall (chain_with "old positions") CDeleteUser;
   ECall (chain_with "old positions") (CInitializeUserAccount "new positions")].

Lemma cached_positions_survive_witness :
  ua_positions <$> (fetchUser (chain_with "new positions") "program/user/alice") =
    Ok "new positions" /\
  exists txs,
    (perform (chain_with "new positions") sample_open (session recreate caching_client)).2 = Ok txs /\
    Forall (fun ix => accountOf ix "userPositions" = Some "old positions") (requests txs).
Proof.
  split; [done |]. eexists. split; [by vm_compute |].
  apply (cached_positions_survive sample_find "program" "alice"
    (mkUserAccount "program/user/alice" 0 0 "old positions" 0) recreate (chain_with "new positions")
    sample_open caching_client
    (perform (chain_with "new positions") sample_open (session recreate caching_client)).1);
    [| by repeat constructor | | done | done | by vm_compute].
  - split; [done | done | | |]; vm_compute; congruence.
  - repeat (constructor; [by do 2 eexists |]). constructor.
Defined.

Definition sample_infos (k : PublicKey) : AccountInfo :=
  mkAccountInfo k "token program" (Some (mkTokenAccount "discount mint" "alice" 1 true))
    (Some (ChainPosition.mkUser k 0 0 0 0 0 0)).

Lemma optional_accounts_read_back_witness :
  programReads "token program" "discount mint" "program/user/alice" "alice" sample_infos
    <$> requests (call_of sample_open) =
  [inr (Some (mkTokenAccount "discount mint" "alice" 1 true),
        Some (ChainPosition.mkUser "bob" 0 0 0 0 0 0))].
Proof.
  assert (H := optional_accounts_read_back (chain_with "positions") sample_open sample_client
    (perform (chain_with "positions") sample_open sample_client).1 "program" "alice"
    (call_of sample_open) (Some "token") (Some "bob") "token program" "discount mint" sample_infos
    (fun _ => mkTokenAccount "discount mint" "alice" 1 true)
    (fun k => ChainPosition.mkUser k 0 0 0 0 0 0) (new_coherent _ _ _) eq_refl eq_refl
    (fun _ => eq_refl) (fun _ _ => eq_refl) (fun _ _ => eq_refl)).
  cbv zeta in H. apply Forall_inv in H. exact (f_equal (fun x => [x]) H).
Defined.

Lemma liquidate_gives_oracles_witness :
  exists u ups ms,
    fetchUser (chain_with "positions") "dave" = Ok u /\
    fetchUserPositions (chain_with "positions") (ua_positions u) = Ok ups /\
    subscribedMarkets (chain_with "positions") = Ok ms /\
    Forall2 (oracleOf (ma_markets ms))
      (filter (fun q => pos_baseAssetAmount q <> 0) (upa_positions ups))
      [mkAccountMeta "oracle" false false].
Proof.
  set (r := getLiquidateIx (chain_with "positions") "dave" sample_client).
  assert (Hr : exists ix, r = (r.1, Ok ix) /\
    ix_remainingAccounts ix = [mkAccountMeta "oracle" false false]).
  { eexists. split; by vm_compute. }
  destruct Hr as (ix & Hr & <-).
  exact (liquidate_gives_oracles (chain_with "positions") "dave" sample_client r.1 ix "program"
    "alice" (new_coherent _ _ _) Hr).
Defined.
