(* ===== verification/ToolWitnesses.v ===== *)
(** * The theorems at work, continued

    The theorems about the composed websocket subscribers, the token accounts,
    the price feeds, the faucet, the command line, the sessions and the bulk
    subscription, applied to concrete runs and inputs on which their hypotheses
    hold. *)
From Stdlib Require Import Strings.Byte.
From stdpp Require Import pretty.
From S2P Require Import Prelude BN Types JsMap Slots Loader LoaderSpec WebSocket Polling.
From S2P Require Import WsClearingHouse WsListeners WsFields WsClearingHouseSpec WsUser.
From S2P Require Import Bytes Pyth PythSpec Token Idl Client Admin ClientSpec Faucet FaucetSpec.
From S2P Require Import PollingSpec Bulk Config Cli CliSpec Session ClientSession Witnesses.

#[local] Existing Instance BN_reference.
#[local] Existing Instance BN_reference_laws.
#[local] Existing Instance sample_program.
#[local] Open Scope string_scope.

(** ** The websocket subscribers: every buffer of the state is [sample_state], and
    the user's positions are at [positions] *)
#[local] Instance sample_views : AccountViews nat := {|
  as_state := fun _ => sample_state;
  as_user := fun n => mkUserAccount "alice" 0 0 "positions" (Z.of_nat n)
|}.

Definition full (n : Z) : WsResponse := (n, Some [x00]).

Definition ch_history : list ChAction :=
  [CSubscribe (Some ["tradeHistoryAccount"]); CSubscribe None; CFetched 0 (Ok (full 5)) 1;
   CFetched 1 (Ok (full 5)) 2; CFetched 2 (Ok (full 6)) 3; CNotify 2 3 (full 7); CFetch].
Definition ch_reached : WsClearingHouse nat := default newWsCh (wchRun 0 "state" ch_history newWsCh).
Definition ch_end : list ChAction :=
  (ch_history ++ [CUnsubscribe; CContinue 0; CContinue 0; CContinue 0])%list.
Definition ch_ended : WsClearingHouse nat := default newWsCh (wchRun 0 "state" ch_end newWsCh).

(** The fetch of an included account fails: the two listeners there are stay. *)
Definition ch_failing : list ChAction :=
  [CSubscribe (Some ["tradeHistoryAccount"]); CFetched 0 (Ok (full 5)) 1; CFetched 1 (Ok (full 5)) 2;
   CFetched 2 (Throw (LibErr "timeout")) 3].
Definition ch_failed : WsClearingHouse nat := default newWsCh (wchRun 0 "state" ch_failing newWsCh).

Lemma ch_listeners_accounted_witness :
  length (wc_objects ch_ended) = 8%nat /\
  (forall a o, wc_objects ch_reached !! a = Some o -> sys_listeners (wo_sys o) <> ∅ ->
     exists f, f ∈ allowed ch_reached /\ wc_fields ch_reached !! f = Some a /\
       exists id, sys_listeners (wo_sys o) = {[id]} /\ ws_listenerId (sys_ws (wo_sys o)) = Some id) /\
  (forall a o, wc_objects ch_ended !! a = Some o -> sys_listeners (wo_sys o) = ∅) /\
  (exists o, wc_objects ch_failed !! 0%nat = Some o /\ sys_listeners (wo_sys o) = {[1%nat]}) /\
  (forall acts c, wchRun 0 "state" acts ch_failed = Some c -> keeps_listeners ch_failed c).
Proof.
  split; [by vm_compute |]. split; [| split; [| split]].
  - refine (proj1 (proj1 (ch_listeners_accounted 0 "state" ch_history ch_reached _ _) _));
      vm_compute; [by repeat split | reflexivity | tauto].
  - refine (proj2 (proj1 (ch_listeners_accounted 0 "state" ch_end ch_ended _ _) _) _ _);
      vm_compute; [by repeat split | reflexivity | tauto | reflexivity | reflexivity].
  - eexists. split; [vm_compute; reflexivity |]. by vm_compute.
  - intros acts c Hrun.
    refine (proj2 (proj2 (proj2 (ch_listeners_accounted 0 "state" ch_failing ch_failed _ _) _ acts c Hrun)));
      vm_compute; [by repeat split | reflexivity | exact Logic.I].
Defined.

Lemma ch_getters_witness :
  wc_isSubscribed ch_reached = true /\ (exists s, wsGetStateAccount ch_reached = Ok (Some s)) /\
  wsGetStateAccount ch_ended = Throw NOT_SUBSCRIBED.
Proof.
  assert (R : wchRun 0 "state" ch_history newWsCh = Some ch_reached) by (vm_compute; reflexivity).
  assert (R' : wchRun 0 "state" ch_end newWsCh = Some ch_ended) by (vm_compute; reflexivity).
  pose proof (ch_getters 0 "state" ch_history ch_reached R) as H.
  pose proof (ch_getters 0 "state" ch_end ch_ended R') as H'.
  assert (E : wc_isSubscribed ch_reached = true) by (vm_compute; reflexivity).
  assert (E' : wc_isSubscribed ch_ended = false) by (vm_compute; reflexivity).
  rewrite E in H. rewrite E' in H'.
  split; [exact E |]. split; [exact (proj1 H) | exact (proj1 H')].
Defined.

Lemma ch_failed_subscribe_is_permanent_witness :
  let acts := [CSubscribe None; CFetched 0 (Ok (5, None)) 1; CSubscribe None; CUnsubscribe; CFetch] in
  exists c, wchRun 0 "state" acts (newWsCh (Account := nat)) = Some c /\
    wc_isSubscribed c = false /\ rejected c.
Proof.
  cbv zeta. eexists. split; [vm_compute; reflexivity |].
  apply (ch_failed_subscribe_is_permanent 0 "state" None 1 [CSubscribe None; CUnsubscribe; CFetch]
    newWsCh _ (Ok (5, None))); by vm_compute.
Defined.

Lemma ch_subscribe_completes_witness :
  exists c1, wchRun 0 "state" [CSubscribe (Some ["tradeHistoryAccount"]); CFetched 0 (Ok (full 5)) 1;
    CFetched 1 (Ok (5, None)) 2] (newWsCh (Account := nat)) = Some c1 /\
    forall order rs, order ≡ₚ awaited c1 -> length rs = length order ->
      exists c', wchRun 0 "state" (answers order rs) c1 = Some c' /\ wc_isSubscribed c' = true /\
        wc_optionalExtraSubscriptions c' = ["tradeHistoryAccount"].
Proof.
  apply (ch_subscribe_completes 0 "state" (Some ["tradeHistoryAccount"]) newWsCh (full 5) (5, None) 1 2);
    try by vm_compute.
  - intros name b Hn. exists (length b). unfold accountNames in Hn.
    repeat (apply elem_of_cons in Hn as [-> | Hn]; [done |]). by apply not_elem_of_nil in Hn.
  - by eexists.
Defined.

Lemma sample_user_decodes name b : name ∈ ["user"; "userPositions"] ->
  exists d : nat, decodeAccount name (Some b) = Ok d.
Proof.
  intros Hn. exists (length b).
  repeat (apply elem_of_cons in Hn as [-> | Hn]; [done |]). by apply not_elem_of_nil in Hn.
Qed.

Lemma user_subscription_cycle_witness :
  exists u1 d1 d2 o2,
    wuRun 0 "alice" [USubscribe; UFetched 0 (Ok (full 5)) 1; UFetched 1 (Ok (full 6)) 2]
      (newWsUser (Account := nat)) = Some u1 /\
    decodeAccount "user" (Some [x00]) = Ok d1 /\ wuGetUserAccount u1 = Ok (Some d1) /\
    decodeAccount "userPositions" (Some [x00]) = Ok d2 /\ wuGetUserPositionsAccount u1 = Ok (Some d2) /\
    userObject (wu_userPositionsAccountSubscriber u1) u1 = Some (1%nat, o2) /\
    wo_publicKey o2 = ua_positions (as_user d1) /\
    exists u2, wuRun 0 "alice" [UUnsubscribe; UUnsubscribed] u1 = Some u2 /\
      wu_isSubscribed u2 = false /\ Forall (fun s => s = ∅) (listeners (wu_objects u2)).
Proof.
  apply (user_subscription_cycle 0 "alice" newWsUser (full 5) (full 6) [x00] [x00] 1 2);
    [exact sample_user_decodes | done ..].
Defined.

Lemma overlapping_ws_user_subscribe_leaks_witness :
  exists u', wuRun 0 "alice" [USubscribe; USubscribe; UFetched 0 (Ok (full 5)) 1;
      UFetched 1 (Ok (full 5)) 2; UFetched 2 (Ok (full 5)) 3; UUnsubscribe; UUnsubscribed]
      (newWsUser (Account := nat)) = Some u' /\
    wu_isSubscribed u' = false /\ wu_calls u' = [] /\
    listeners (wu_objects u') = [{[1%nat]}; ∅; ∅].
Proof.
  apply (overlapping_ws_user_subscribe_leaks 0 "alice" newWsUser (full 5) (full 5) (full 5)
    [x00] [x00] [x00] 1 2 3); [exact sample_user_decodes | done ..].
Defined.

(** ** Price feeds: keys print as their length, powers of ten are doubles *)
#[local] Instance sample_web3 : Web3 := {| newPublicKey := fun b => Ok (pretty (length b)) |}.
#[local] Instance sample_web3_laws : Web3Laws sample_web3.
Proof. split. intros b _. by eexists. Qed.
#[local] Instance sample_pyth : PythEnv := {|
  pow10 := fun e =>
    if (e <? 0)%Z then num_div (num_of_Z 1) (num_of_Z (10 ^ (- e))) else num_of_Z (10 ^ e);
  utf8 := fun b => pretty (length b)
|}.

Definition sample_key : Buffer := replicate 32 x01.
Definition sample_info (price : Z) : PcPriceInfo := mkPcPriceInfo price 1 1 0 7.
Definition sample_price : PcPrice :=
  mkPcPrice 1 2 3 3312 1 (-8) 2 0 10 9 (-500) 3 (-1) 0 1 2 3 4 sample_key empty32Buffer sample_key
    (sample_info (-500))
    [mkPcPriceComp sample_key (sample_info 4) (sample_info 5);
     mkPcPriceComp empty32Buffer (sample_info 0) (sample_info 0)].

Lemma sample_price_wf : priceWf sample_price.
Proof.
  unfold priceWf, sample_price, compWf, infoWf, key32, u32, u64, i64. cbn.
  repeat (apply Forall_cons; split) || split_and!; try apply Forall_nil; try done; try lia.
Qed.

Lemma price_account_roundtrip_witness :
  exists data, parsePriceData (encodePrice sample_price) = Some (Ok data) /\
    pd_header data = headerOf sample_price /\
    pd_priceComponents data = (compOf (-8) <$> published (pcp_comp sample_price)) /\
    ph_twapComponent (pd_header data) = -500 /\
    pi_priceComponent (ph_aggregatePriceInfo (pd_header data)) = (-500) mod 2 ^ 64.
Proof.
  destruct (price_account_roundtrip sample_price sample_price_wf) as (data & H1 & H2 & H3 & H4 & H5 & _).
  by exists data.
Defined.

Lemma short_price_buffer_throws_witness :
  exists e, parsePriceData [x00; x01] = Some (Throw e) /\ getFeedData (Some [x00; x01]) = Some (Throw e).
Proof. apply short_price_buffer_throws. cbn. lia. Defined.

Lemma set_price_read_back_witness :
  exists a' data, set_price sample_price (-700) = Some a' /\
    getFeedData (Some (encodePrice a')) = Some (Ok data) /\
    pi_priceComponent (ph_aggregatePriceInfo (pd_header data)) = -700 + 2 ^ 64 /\
    ph_twapComponent (pd_header data) = -600.
Proof.
  destruct (set_price sample_price (-700)) as [a' |] eqn:E; [| by vm_compute in E].
  destruct (set_price_read_back sample_price (-700) a' sample_price_wf ltac:(unfold i64; lia) E)
    as (data & H1 & H2 & H3).
  exists a', data. split_and!; [done | done | exact H2 | exact H3].
Defined.

(** ** Token accounts *)
#[local] Instance sample_tokens : TokenEnv := {|
  AccountLayout_decode := fun o =>
    match o with
    | None => Throw TypeError
    | Some b => Ok (mkRawTokenAccount b b b (Z.of_nat (length b)) b 1 1 b b 0 b)
    end;
  u64_fromBuffer := fun b => Ok (Z.of_nat (length b) mod 2 ^ 64);
  token_emit := fun _ _ => None;
  token_emit_error := fun _ _ => None
|}.
#[local] Instance sample_token_laws : TokenLaws sample_tokens.
Proof.
  split; [by eexists |]. intros b z [= <-]. apply Z.mod_pos_bound. lia.
Qed.

Lemma token_account_well_formed_witness :
  exists a, parseTokenAccount (Some [x00; x01]) = Ok a /\ 0 <= sa_amount a < 2 ^ 64 /\
    is_Some (sa_rentExemptReserve a).
Proof.
  destruct (parseTokenAccount (Some [x00; x01])) as [a |] eqn:E; [| by vm_compute in E].
  destruct (token_account_well_formed sample_token_laws _ a E)
    as (raw & _ & H1 & _ & _ & _ & _ & H4 & _).
  exists a. split; [done |]. split; [exact H1 |]. apply H4. vm_compute in E. by injection E as <-.
Defined.

(** An account that is not there: the callback stays registered. *)
Lemma token_subscribe_outcomes_witness :
  let t := newTokenSubscriber "usdc" in
  let '(t', ld', r) := tokenSubscribe 0 "id" "error id" 1 (fun l => l) t newLoader in
  registered ld' "usdc" "id" /\ (exists e, r = Throw e) /\ tokenUnsubscribe t' ld' = (t', ld').
Proof.
  cbv zeta.
  pose proof (token_subscribe_outcomes sample_token_laws 0 "id" "error id" 1 (fun l => l)
    (newTokenSubscriber "usdc") newLoader newLoader_inv eq_refl eq_refl eq_refl) as H.
  destruct (tokenSubscribe 0 "id" "error id" 1 (fun l => l) (newTokenSubscriber "usdc") newLoader)
    as [[t' ld'] r] eqn:E.
  destruct H as (H1 & H2 & H3).
  - by intros (addr & a & Hk & _).
  - done.
  - vm_compute in E. injection E as <- <- <-. split; [done |]. split; [by eexists |]. by apply H3.
Defined.

(** ** The faucet *)
Definition sample_faucet (payer : PublicKey) : Faucet := mkFaucet "faucet program" payer None.
Definition sample_faucet_env : FaucetEnv nat := {|
  fe_chain := chain_with "positions";
  fe_stateExists := fun _ => Ok false;
  fe_fetchState := fun _ => Ok (mkFaucetState "admin" "mint" "authority");
  fe_mintRent := Ok 1000;
  fe_mintSpan := 82;
  fe_getAccountInfo := fun _ _ => Ok 5%nat
|}.

Lemma new_faucet_coherent payer : faucet_coherent sample_faucet_env (sample_faucet payer).
Proof. by intros k [=]. Qed.

(** A faucet of another wallet: the set-up cannot be signed. *)
Lemma devnet_set_up_witness :
  exists tx user,
    (initializeUserAccountForDevnet sample_faucet_env "new positions" 7 (sample_faucet "bob")
       sample_client).2 = Ok (tx, user) /\
    ~ (forall i k', i ∈ ft_instructions tx -> k' ∈ faucetIxSigners i ->
         k' ∈ "alice" :: ft_signers tx).
Proof.
  destruct (initializeUserAccountForDevnet sample_faucet_env "new positions" 7 (sample_faucet "bob")
    sample_client) as [[f' c'] [[tx user] | e]] eqn:E; [| by vm_compute in E].
  exists tx, user. split; [done |].
  destruct (devnet_set_up sample_faucet_env "program" "alice" "new positions" 7 (sample_faucet "bob")
    sample_client f' c' tx user (new_faucet_coherent "bob") ltac:(apply new_coherent) E)
    as (state & mintIx & initIx & depositIx & _ & H). cbv zeta in H.
  destruct H as (_ & _ & _ & _ & _ & _ & _ & _ & _ & _ & _ & _ & H).
  rewrite H. by apply (bool_decide_unpack _).
Defined.

Lemma mint_goes_to_associated_account_witness :
  exists ix, (createAssociatedTokenAccountAndMintTo sample_faucet_env "alice" 7
    (sample_faucet "bob")).2 = Ok ("mint/alice",
      mkFaucetTx [CreateAssociatedAccount "mint" "mint/alice" "alice" "bob"; FaucetCall ix] []) /\
    accountOf ix "userTokenAccount" = Some "mint/alice".
Proof.
  pose proof (mint_goes_to_associated_account sample_faucet_env (sample_faucet "bob") "alice" 7
    (new_faucet_coherent "bob")) as H. cbn -[createAssociatedTokenAccountAndMintTo] in H.
  destruct H as (k & ix & -> & H1 & _ & _ & _ & H2 & _). exists ix. by rewrite H1.
Defined.

Lemma faucet_initialize_outcomes_witness :
  exists ix, (faucetInitialize sample_faucet_env "mint" (sample_faucet "bob")).2 =
    Ok (mkFaucetTx [SystemCreateAccount "bob" "mint" 1000 82 "token program";
                    InitMint "mint" 6 "faucet program/mint"; FaucetCall ix] ["mint"]) /\
    faucetConforms ix = true.
Proof.
  pose proof (faucet_initialize_outcomes sample_faucet_env (sample_faucet "bob") "mint"
    (new_faucet_coherent "bob")) as H. cbn -[faucetInitialize] in H.
  destruct H as (ix & H1 & H2 & _). exists ix. by rewrite H1.
Defined.

Lemma token_subscription_outcomes_witness :
  (subscribeToTokenAccount sample_faucet_env (fun _ => None) "alice" (sample_faucet "bob")).2 =
    Ok (true, Some "mint/alice").
Proof.
  by rewrite (token_subscription_outcomes sample_faucet_env (fun _ => None) (sample_faucet "bob")
    "alice" (new_faucet_coherent "bob")).
Defined.

(** ** The command line *)
Definition sample_cli (answer : string) : CliEnv := {|
  ce_chain := chain_with "positions";
  ce_subscribe := Ok tt;
  ce_unsubscribe := Ok tt;
  ce_userSubscribe := Ok tt;
  ce_userUnsubscribe := Ok tt;
  ce_send := fun _ => Ok tt;
  ce_answer := answer;
  ce_newBN := fun s => Ok (Z.of_nat (String.length s));
  ce_newKey := fun s => Ok s;
  ce_encodeBool := fun _ => true;
  ce_stateExists := fun _ => Ok false;
  ce_initializeKeys := mkInitializeKeys "k1" "k2" "k3" "k4" "k5" "k6" "k7"
|}.

Definition sent_by (env : CliEnv) (cmd : Command) : list Transaction :=
  omap (fun ev => match ev with Sent tx => Some tx | _ => None end)
    (runCommand env cmd sample_client).1.2.

Lemma cli_requests_well_formed_witness :
  exists tx, sends (runCommand (sample_cli "y") CPauseExchange) sample_client tx /\
    well_formed "alice" tx.
Proof.
  destruct (sent_by (sample_cli "y") CPauseExchange) as [| tx txs] eqn:E; [by vm_compute in E |].
  exists tx. assert (Hs : sends (runCommand (sample_cli "y") CPauseExchange) sample_client tx).
  { vm_compute in E. injection E as <- <-. vm_compute. repeat constructor. }
  split; [exact Hs |].
  apply (cli_requests_well_formed (sample_cli "y") "program" "alice" CPauseExchange sample_client tx
    ltac:(apply new_coherent) Hs).
Defined.

(** Doubling nothing: the numerator and the denominator are the lengths of the
    arguments, one hundred and nine over one hundred. *)
Definition ratio_cli : CliEnv := {|
  ce_chain := chain_with "positions";
  ce_subscribe := Ok tt;
  ce_unsubscribe := Ok tt;
  ce_userSubscribe := Ok tt;
  ce_userUnsubscribe := Ok tt;
  ce_send := fun _ => Ok tt;
  ce_answer := "y";
  ce_newBN := fun s => if bool_decide (s = "109") then Ok 109 else Ok 100;
  ce_newKey := fun s => Ok s;
  ce_encodeBool := fun _ => true;
  ce_stateExists := fun _ => Ok false;
  ce_initializeKeys := mkInitializeKeys "k1" "k2" "k3" "k4" "k5" "k6" "k7"
|}.

Lemma k_changes_within_guards_witness :
  exists tx newSqrtK, sends (runCommand ratio_cli (CIncreaseK "SOL" "109" "100" false)) sample_client tx /\
    scaledRequest ratio_cli 0 109 100 tx newSqrtK /\ 10 ^ 16 <= newSqrtK.
Proof.
  set (cmd := CIncreaseK "SOL" "109" "100" false).
  destruct (sent_by ratio_cli cmd) as [| tx txs] eqn:E; [by vm_compute in E |].
  assert (Hs : sends (runCommand ratio_cli cmd) sample_client tx).
  { vm_compute in E. injection E as <- <-. vm_compute. repeat constructor. }
  destruct (k_changes_within_guards ratio_cli _ cmd "SOL" "109" "100" false sample_client tx
    (or_introl eq_refl) Hs) as (mk & num & den & ch & k & H1 & H2 & H3 & _ & H5 & _ & _ & H6).
  vm_compute in H1. injection H1 as <-. vm_compute in H2, H3. injection H2 as <-. injection H3 as <-.
  exists tx, k. split; [exact Hs |]. split; [exact H5 |].
  destruct (H6 sample_amm) as (_ & H7 & _); [by vm_compute | by vm_compute | done |].
  by apply H7.
Defined.

Lemma pausing_is_confirmed_witness :
  (exists tx, sends (runCommand (sample_cli "y") CUnpauseFunding) sample_client tx) /\
  ~ (exists tx, sends (runCommand (sample_cli "n") CUnpauseFunding) sample_client tx).
Proof.
  destruct (pausing_is_confirmed (sample_cli "y") CUnpauseFunding _ _ sample_client eq_refl eq_refl)
    as (_ & _ & H & _).
  destruct (pausing_is_confirmed (sample_cli "n") CUnpauseFunding _ _ sample_client eq_refl eq_refl)
    as (_ & _ & H' & _).
  split; [by apply H | by rewrite H'].
Defined.

(** ** A client on its subscriber *)
Definition ws_session : ChSession (WsClearingHouse nat) :=
  mkChSession sample_client newWsCh false (DefaultTxSender "alice") "confirmed".
Definition ws_session_acts : list (SessionAction (WsClearingHouse nat)) :=
  [Moves ch_reached; SubscribeReturns (Ok true)].

Lemma session_serves_when_subscribed_witness :
  let x := foldl sessionStep ws_session ws_session_acts in
  sessionIsSubscribed x = true /\ exists d, sessionGetStateAccount x = Ok d.
Proof.
  assert (R : wchRun 0 "state" ch_history newWsCh = Some ch_reached) by (vm_compute; reflexivity).
  assert (Hv : Forall (fun a => match a with Moves s' => src_valid s' | _ => True end) ws_session_acts).
  { apply List.Forall_cons; [| apply List.Forall_cons; [exact Logic.I | apply List.Forall_nil] ].
    exact (run_present 0 "state" ch_history newWsCh ch_reached new_present R). }
  destruct (session_serves_when_subscribed (L := ws_ch_laws) ws_session_acts ws_session new_present Hv) as [H _].
  assert (E : sessionIsSubscribed (foldl sessionStep ws_session ws_session_acts) = true)
    by (vm_compute; reflexivity).
  split; [exact E | exact (proj1 (H E))].
Defined.

Definition no_markets (n : nat) : MarketsAccount := mkMarketsAccount 0 [].

Lemma unsubscribed_client_only_deletes_witness :
  (exists e, (perform (sourceChain no_markets (chain_with "positions") (newWsCh (Account := nat)))
    (CDepositCollateral 5 "usdc" None) sample_client).2 = Throw e) /\
  (exists user, (perform (sourceChain no_markets (chain_with "positions") (newWsCh (Account := nat)))
    CDeleteUser sample_client).2 = Ok [deletion (chain_with "positions") sample_client user]).
Proof.
  pose proof (fun call => unsubscribed_client_only_deletes (L := ws_ch_laws) no_markets (chain_with "positions")
    (newWsCh (Account := nat)) call sample_client new_present eq_refl) as H.
  split; [exact (H (CDepositCollateral 5 "usdc" None)) |].
  exists (mkUserAccount "program/user/alice" 0 0 "positions" 0).
  refine (eq_trans (H CDeleteUser) _). vm_compute. reflexivity.
Defined.

(** ** Many users at once: [bad] is the user whose account cannot be fetched *)
Definition bulk_users (bad : nat) : BulkEnv := {|
  be_publicKey := fun i => "user" +:+ pretty i;
  be_fetched := fun i =>
    if Nat.eqb i bad then Throw (LibErr "no account")
    else Ok (mkUserAccount "alice" 0 0 ("positions" +:+ pretty i) 0);
  be_uuid := fun i j => pretty i +:+ "/" +:+ pretty j;
  be_timer := 1;
  be_clearingHouse := fun _ => Ok true
|}.
Definition new_users : BulkState nat := mkBulkState [(newPoller, false); (newPoller, false)] newLoader.

(** The one answer for the four accounts, and a later load for the rest. *)
Definition bulk_answer (ld : BulkAccountLoader PollCallback) : BulkAccountLoader PollCallback :=
  (loadChunk sample_Buffer_from [1%positive; 2%positive; 3%positive; 4%positive]
     (Ok (Some (mkRpcResult 5 [Some ("abc", "base64"); Some ("abcd", "base64");
                               Some ("ab", "base64"); Some ("a", "base64")]))) ld).1.
Definition late_answer (i : nat) (ld : BulkAccountLoader PollCallback) : BulkAccountLoader PollCallback :=
  set_data ld (<["user" +:+ pretty i := mkAccountData 9 (Some [x00])]>
    (<["positions" +:+ pretty i := mkAccountData 9 (Some [x00])]> (l_accountData ld))).

Lemma new_users_new : all_new new_users.
Proof.
  intros u Hu. apply elem_of_cons in Hu as [-> | Hu]; [done |].
  apply elem_of_cons in Hu as [-> | Hu]; [done | by apply not_elem_of_nil in Hu].
Qed.

Lemma loaded_all (users : list (Poller nat * bool)) :
  forallb (fun u => match pl_fields u.1 !! "user", pl_fields u.1 !! "userPositions" with
                    | Some _, Some _ => true
                    | _, _ => false
                    end) users = true -> forall u, u ∈ users -> loaded u.1.
Proof.
  intros H u Hu. rewrite List.forallb_forall in H. specialize (H u (proj1 (list_elem_of_In _ _) Hu)).
  unfold loaded. destruct (pl_fields u.1 !! "user"), (pl_fields u.1 !! "userPositions"); try done.
Qed.

Lemma bulk_subscription_witness :
  let '(s', r) := bulkPollingUserSubscribe (E := bulk_users 9) [1%nat; 0%nat] [0%nat; 1%nat]
                    bulk_answer late_answer new_users in
  r = Ok tt /\
  bs_loader s' =
    bs_loader (bulkLoad bulk_answer (bulkAdd (E := bulk_users 9) [1%nat; 0%nat] new_users).1) /\
  exists p a, bs_users s' !! 1%nat = Some (p, true) /\ getUserPositionsAccount p = Ok (Some a).
Proof.
  assert (H : forall i, (i < length (bs_users new_users))%nat ->
    untroubled (E := bulk_users 9) late_answer i /\ distinct_accounts (E := bulk_users 9) i).
  { intros i Hi. change (i < 2)%nat in Hi. split.
    - assert (F : be_fetched (BulkEnv := bulk_users 9) i =
        Ok (mkUserAccount "alice" 0 0 ("positions" +:+ pretty i) 0)).
      { cbn. destruct (Nat.eqb_spec i 9); [lia | done]. }
      split; [by eexists | by eexists | done | | by intros l].
      unfold delivers. rewrite F. intros ld _. exists [x00], 1%nat, [x00], 1%nat.
      unfold getAccountData, late_answer. cbn [l_accountData set_data ua_positions be_publicKey bulk_users].
      rewrite lookup_insert_eq, lookup_insert_ne by done. by rewrite lookup_insert_eq.
    - unfold distinct_accounts. cbn. destruct (Nat.eqb_spec i 9); [lia | done]. }
  pose proof (bulk_subscription (E := bulk_users 9) [1%nat; 0%nat] [0%nat; 1%nat] bulk_answer late_answer
    new_users newLoader_inv new_users_new ltac:(constructor) ltac:(reflexivity) H
    ltac:(intros l; apply same_registry_accounts, loadChunk_registry) ltac:(intros k i j (addr & a & Hk & _); done)) as T.
  destruct (bulkPollingUserSubscribe _ _ _ _ _) as [s' r].
  destruct T as (T1 & T2 & _ & T4 & _). split; [exact T1 |]. split.
  - refine (T4 (loaded_all _ _)). vm_compute. reflexivity.
  - destruct (T2 1%nat ltac:(cbn; lia)) as (p & a & b & E1 & _ & _ & E2). by exists p, b.
Defined.

Lemma bulk_failed_fetch_witness :
  let '(s', r) := bulkPollingUserSubscribe (E := bulk_users 1) [0%nat; 1%nat] [] bulk_answer late_answer
                    new_users in
  (exists e, r = Throw e) /\ registered (bs_loader s') "user0" "0/0".
Proof.
  pose proof (bulk_failed_fetch (E := bulk_users 1) [0%nat; 1%nat] [] bulk_answer late_answer new_users
    newLoader_inv new_users_new ltac:(reflexivity)) as T.
  destruct (bulkPollingUserSubscribe _ _ _ _ _) as [s' r].
  destruct T as [(i & e & T1 & _) T2].
  - intros i Hi. change (i < 2)%nat in Hi. unfold distinct_accounts. cbn.
    by destruct (Nat.eqb_spec i 1).
  - exists 1%nat, (LibErr "no account"). split; [cbn; lia | done].
  - split; [by exists e |]. refine (proj1 (T2 0%nat _ _ _)); [cbn; lia | reflexivity].
Defined.
