(* ===== verification/ChainWitnesses.v ===== *)
(** * The theorems about the program at work

    The theorems that compare the SDK with the program, and those about the program's
    books, applied to concrete markets, users and histories; bn.js is
    [BN_reference]. *)
From stdpp Require Import pretty.
From S2P Require Import Prelude BN Types Checked History.
From S2P Require Import Amm Position Trade Funding User.
From S2P Require Import ChainAmm ChainOracle ChainPosition.
From S2P Require Import Idl.
From S2P Require Import ChainFunding ChainTrade ChainAgreement ChainMargin ChainBooks ChainExchange.
From S2P Require Import ChainRepeg ChainAdmin ChainMigration ChainProtocol ChainLedger ChainSafety ChainHistories ChainGuarantees.
From S2P Require Import Client AccountTypes Stress StressSpec.
From S2P Require Import Witnesses.

#[local] Existing Instance BN_reference.
#[local] Existing Instance BN_reference_laws.

(** ** Sample data

    A curve of 10^18 units a side at one dollar, and a user long 10^13 units. *)
Definition rounded_curve : AMM :=
  {| amm_baseAssetReserve := 10 ^ 18;
     amm_sqrtK := 10 ^ 18;
     amm_cumulativeFundingRate := 0;
     amm_lastFundingRate := 0;
     amm_lastFundingRateTs := 0;
     amm_lastMarkPriceTwap := 10 ^ 10;
     amm_lastMarkPriceTwapTs := 0;
     amm_lastOraclePriceTwap := 10 ^ 10;
     amm_lastOraclePriceTwapTs := 0;
     amm_oracle := "oracle";
     amm_oracleSource := PYTH;
     amm_fundingPeriod := 3600;
     amm_quoteAssetReserve := 10 ^ 18;
     amm_pegMultiplier := 1000;
     amm_cumulativeFundingRateLong := 0;
     amm_cumulativeFundingRateShort := 0;
     amm_cumulativeRepegRebateLong := 0;
     amm_cumulativeRepegRebateShort := 0;
     amm_totalFeeMinusDistributions := 0;
     amm_totalFeeWithdrawn := 0;
     amm_totalFee := 0;
     amm_minimumTradeSize := 10 ^ 7;
     amm_lastOraclePrice := 0 |}.
Definition market0 : Market := mkMarket rounded_curve 0 0 0 true 0.
Definition market_long : Market := mkMarket rounded_curve (10 ^ 13) (10 ^ 13) 0 true 1.
Definition unfunded_market : Market :=
  mkMarket (with_fees rounded_curve 0 0) (10 ^ 16) (10 ^ 16) 0 true 1.
Definition higher_oracle : Price := mkPrice (2 * 10 ^ 8) 1000 (2 * 10 ^ 8) 1000 (- 8) 5.
Definition usual_rails : OracleGuardRails := mkOracleGuardRails 1 10 1000 4 5 true.
Definition market_funded : Market := mkMarket
  {| amm_baseAssetReserve := 10 ^ 18;
     amm_sqrtK := 10 ^ 18;
     amm_cumulativeFundingRate := 0;
     amm_lastFundingRate := 0;
     amm_lastFundingRateTs := 0;
     amm_lastMarkPriceTwap := 10 ^ 10;
     amm_lastMarkPriceTwapTs := 0;
     amm_lastOraclePriceTwap := 10 ^ 10;
     amm_lastOraclePriceTwapTs := 0;
     amm_oracle := "oracle";
     amm_oracleSource := PYTH;
     amm_fundingPeriod := 3600;
     amm_quoteAssetReserve := 10 ^ 18;
     amm_pegMultiplier := 1000;
     amm_cumulativeFundingRateLong := 7 * 10 ^ 10;
     amm_cumulativeFundingRateShort := 6 * 10 ^ 10;
     amm_cumulativeRepegRebateLong := 0;
     amm_cumulativeRepegRebateShort := 0;
     amm_totalFeeMinusDistributions := 9 * 10 ^ 9;
     amm_totalFeeWithdrawn := 0;
     amm_totalFee := 10 ^ 10;
     amm_minimumTradeSize := 10 ^ 7;
     amm_lastOraclePrice := 10 ^ 10 |}
  (3 * 10 ^ 13) (3 * 10 ^ 13) 0 true 1.

Definition alice : User := mkUser "alice" (10 ^ 9) 0 0 0 0 0.
Definition long_position : MarketPosition := mkMarketPosition 0 (10 ^ 13) 900000 0 0.
Definition seen_position : UserPosition :=
  mkUserPosition (10 ^ 13) 0 (mkBNObj (Some 1%positive) 0) 900000.
Definition seen_by (m : Market) : ClearingHouseUser := {|
  chu_stateAccount := Ok sample_state;
  chu_marketsAccount := Ok (mkMarketsAccount 0 [m]);
  chu_userAccount := Ok (mkUserAccount "alice" (10 ^ 9) 0 "positions" 0);
  chu_userPositionsAccount := Ok (mkUserPositionsAccount [seen_position] "user")
|}.

Lemma sees_sample m : sees_user (seen_by m) alice [long_position] [m].
Proof.
  split; [by eexists.. | |].
  - eexists. split; [done |]. by repeat constructor.
  - repeat constructor; cbn; unfold MAX_SAFE_INTEGER; lia.
Defined.

Definition zero_payment : FundingPaymentRecord := mkFundingPaymentRecord 0 0 "" "" 0 0 0 0 0 0 0.
Definition payments : FundingPaymentHistory := mkHistory 0 (replicate 3 zero_payment).

(** ** The SDK and the program *)
Lemma trade_preview_exact_witness :
  exists a' b, swap_quote_asset rounded_curve 5000000 ADD 10 None = ROk (a', b) /\
    calculateAmmReservesAfterSwap rounded_curve quote 5000000 ADD
      = Ok (amm_quoteAssetReserve a', amm_baseAssetReserve a').
Proof.
  destruct (swap_quote_asset rounded_curve 5000000 ADD 10 None) as [[a' b] | e] eqn:E;
    [| by vm_compute in E].
  exists a', b. split; [done |].
  destruct (trade_preview_exact market0 5000000 0 10 LONG ADD None a' b 0) as [H _].
  exact (proj1 (H E)).
Defined.

Lemma closing_realises_estimate_witness :
  exists user' m' p' v n, close alice market_long long_position 10 = ROk (user', m', p', (v, n)) /\
    calculateBaseAssetValue market_long seen_position = Ok v /\ mp_baseAssetAmount p' = 0.
Proof.
  destruct (close alice market_long long_position 10) as [[[[user' m'] p'] [v n]] | e] eqn:E;
    [| by vm_compute in E].
  do 5 eexists. split; [reflexivity |].
  destruct (closing_realises_estimate alice user' market_long m' long_position p' seen_position 10 v n)
    as (H & _ & pnl & _ & _ & Hz & _).
  - split; reflexivity.
  - vm_compute. congruence.
  - vm_compute. congruence.
  - exact E.
  - split; [exact H | exact Hz].
Defined.

Lemma repeg_cost_agrees_witness :
  exists m' cost, adjust_peg_cost market_long 1001 = ROk (m', cost) /\ m' = with_peg market_long 1001.
Proof.
  destruct (adjust_peg_cost market_long 1001) as [[m' cost] | e] eqn:E; [| by vm_compute in E].
  do 2 eexists. split; [reflexivity |].
  exact (proj1 (repeg_cost_agrees market_long m' 0 1001 cost E)).
Defined.

Lemma funding_estimate_close_witness :
  exists user' ps' h',
    settle_funding_payment alice "user" [long_position] [market_funded] payments 20
      = ROk (user', ps', h') /\
    exists paid, usr_collateral user' = Z.max 0 (10 ^ 9 + paid) /\ Z.abs (paid - (99290 - 99990)) < 1.
Proof.
  destruct (settle_funding_payment alice "user" [long_position] [market_funded] payments 20)
    as [[[user' ps'] h'] | e] eqn:E; [| by vm_compute in E].
  do 3 eexists. split; [reflexivity |].
  assert (getUnrealizedPNL (seen_by market_funded) true None = Ok 99290) as R1
    by (vm_compute; reflexivity).
  assert (getUnrealizedPNL (seen_by market_funded) false None = Ok 99990) as R2
    by (vm_compute; reflexivity).
  assert (0 <= usr_collateral alice) as Hc by (cbn; lia).
  exact (proj1 (funding_estimate_close (seen_by market_funded) alice user' "user" [long_position] ps'
    [market_funded] payments h' 20 99290 99990 (sees_sample _) Hc R1 R2 E)).
Defined.

Lemma settled_sample : Forall (funding_settled [market_long]) [long_position].
Proof.
  constructor; [| constructor]. intros _ m Hm. unfold js_index in Hm. cbn in Hm. injection Hm as <-.
  reflexivity.
Defined.

Lemma margin_agrees_witness :
  exists mr, calculate_margin_ratio alice [long_position] [market_long] = ROk mr /\
    getTotalPositionValue (seen_by market_long) = Ok (mr_baseAssetValue mr).
Proof.
  destruct (calculate_margin_ratio alice [long_position] [market_long]) as [mr | e] eqn:E;
    [| by vm_compute in E].
  exists mr. split; [reflexivity |]. assert (0 <= usr_collateral alice) as Hc by (cbn; lia).
  exact (proj1 (margin_agrees (seen_by market_long) alice [long_position] [market_long] mr
    (sees_sample _) Hc settled_sample E)).
Defined.

Definition accounts_with (ps : list MarketPosition) (ms : list Market) : Accounts := {|
  ac_user_key := "user";
  ac_user := alice;
  ac_positions := ps;
  ac_markets := ms;
  ac_fundingPayments := payments;
  ac_fundingRates := mkHistory 0 (replicate 3 (mkFundingRateRecord 0 0 0 0 0 0 0 0));
  ac_trades := mkHistory 0
    (replicate 3 (mkTradeRecord 0 0 "" "" LONG 0 0 0 0 0 0 0 0 false 0 0));
  ac_deposits := mkHistory 0 (replicate 3 (mkDepositRecord 0 0 "" "" DEPOSIT 0 0 0))
|}.

Lemma liquidation_refused_witness :
  ChainTrade.liquidate_handler sample_state 20 5 [] (10 ^ 12) 0 alice (accounts_with [long_position] [market_long])
    = err SufficientCollateral.
Proof.
  destruct (calculate_margin_ratio alice [long_position] [market_long]) as [mr | e] eqn:E;
    [| by vm_compute in E].
  assert (0 <= usr_collateral alice <= highest U128) as Hc by (split; vm_compute; congruence).
  assert (exists r, canBeLiquidated (seen_by market_long) = Ok (false, r)) as [r R]
    by (eexists; vm_compute; reflexivity).
  exact (liquidation_refused (seen_by market_long) (accounts_with [long_position] [market_long])
    sample_state 20 5 (10 ^ 12) 0 r [] alice mr (sees_sample _) Hc settled_sample E eq_refl eq_refl R).
Defined.

Lemma fees_accounted_witness :
  exists f, calculate_fees (10 ^ 9) (st_feeStructure sample_state) None (Some alice) = ROk f /\
  exists fee, calculateFeeForQuoteAmount (seen_by market_long) (10 ^ 9) = Ok fee /\
    fe_user_fee f + fe_token_discount f + fe_referee_discount f = fee.
Proof.
  destruct (calculate_fees (10 ^ 9) (st_feeStructure sample_state) None (Some alice))
    as [f | e] eqn:E; [| by vm_compute in E].
  exists f. split; [reflexivity |].
  destruct (fees_accounted (seen_by market_long) sample_state (10 ^ 9) None (Some alice) f eq_refl E)
    as (fee & Hf & Hs & _).
  exists fee. split; [exact Hf | exact Hs].
Defined.

Lemma funding_within_pool_witness :
  exists m' long short,
    calculate_funding_rate_long_short market_funded (- 10 ^ 8) = ROk (m', (long, short)) /\
    9 * 10 ^ 9 - 2666666666 <= amm_totalFeeMinusDistributions (mkt_amm m').
Proof.
  destruct (calculate_funding_rate_long_short market_funded (- 10 ^ 8)) as [[m' [long short]] | e] eqn:E;
    [| by vm_compute in E].
  do 3 eexists. split; [reflexivity |].
  assert (calculateFundingPool market_funded = Ok 2666666666) as R by (vm_compute; reflexivity).
  exact (proj1 (funding_within_pool market_funded m' (- 10 ^ 8) long short _ R E)).
Defined.

Lemma withdraw_accounted_witness :
  exists c' ts,
    withdraw_collateral sample_state 20 (10 ^ 12) 0 5000000 (accounts_with [long_position] [market_long])
      = ROk (c', ts) /\ 0 <= paid_out ts <= 5000000.
Proof.
  destruct (withdraw_collateral sample_state 20 (10 ^ 12) 0 5000000
    (accounts_with [long_position] [market_long])) as [[c' ts] | e] eqn:E; [| by vm_compute in E].
  do 2 eexists. split; [reflexivity |].
  destruct (withdraw_accounted sample_state 20 (10 ^ 12) 0 5000000
    (accounts_with [long_position] [market_long]) c' ts)
    as (u & _ & _ & H & _); [lia | lia | lia | exact E | exact H].
Defined.

(** ** A round trip *)
Definition flat_position : MarketPosition := mkMarketPosition 0 0 0 0 0.

Lemma sample_curve_good : good (mkt_amm market0).
Proof. by split; vm_compute. Qed.

Lemma round_trip_no_profit_witness :
  exists m1 p1 b user' m2 p2 v n,
    increase LONG 5000000 market0 flat_position 10 = ROk (m1, p1, b) /\
    close alice m1 p1 20 = ROk (user', m2, p2, (v, n)) /\
    usr_collateral user' <= 10 ^ 9.
Proof.
  destruct (increase LONG 5000000 market0 flat_position 10) as [[[m1 p1] b] | e] eqn:E1;
    [| by vm_compute in E1].
  destruct (close alice m1 p1 20) as [[[[user' m2] p2] [v n]] | e] eqn:E2.
  - exists m1, p1, b, user', m2, p2, v, n. split; [reflexivity |]. split; [exact E2 |].
    assert (0 <= usr_collateral alice) as Hc by (cbn; lia).
    exact (proj1 (round_trip_no_profit alice user' market0 m1 m2 flat_position p1 p2 LONG 5000000 b
      10 20 v n sample_curve_good Hc eq_refl eq_refl E1 E2)).
  - vm_compute in E1. injection E1 as <- <- <-. by vm_compute in E2.
Defined.

(** ** The books *)
Definition sample_oracle : OracleAccount :=
  mkOracleAccount "oracle" (mkPrice (10 ^ 8) 1000 (10 ^ 8) 1000 (- 8) 5).

(** ** Histories *)
#[local] Instance number_record : Numbered Z := fun z => z.
Lemma history_keeps_the_last_witness :
  exists h, record_all (mkHistory 0 (replicate 3 0)) (replicate 5 (fun id => id)) = ROk h /\
    records h !! 0%nat = Some 4.
Proof.
  destruct (history_keeps_the_last 3 0 (replicate 5 (fun id => id))) as (h & Hh & _ & H);
    [lia | reflexivity | by repeat constructor | reflexivity |].
  exists h. split; [exact Hh |]. apply (H 3%nat (fun id => id)); [reflexivity | cbn; lia].
Defined.

Lemma curve_numbers_restart_witness :
  exists h, record_all_short 1023 (mkHistory 0 (replicate 1024 0)) (replicate 2000 (fun id => id)) = ROk h /\
    next_record_id h = ROk 978.
Proof.
  apply (curve_numbers_restart 0 (replicate 2000 (fun id => id))); [reflexivity |].
  apply Forall_replicate. reflexivity.
Defined.

(** ** Changes of the curve *)
Lemma repeg_guarded_witness :
  exists m' cost before after,
    controller_repeg market_funded higher_oracle 1001 5 usual_rails = ROk (m', cost) /\
    calculate_terminal_price market_funded = ROk before /\ calculate_terminal_price m' = ROk after /\
    (after < 2 * 10 ^ 10 -> before <= after).
Proof.
  destruct (controller_repeg market_funded higher_oracle 1001 5 usual_rails) as [[m' cost] | e] eqn:E;
    [| by vm_compute in E].
  assert (get_oracle_price (mkt_amm market_funded) higher_oracle 5
    = ROk (mkOraclePrice (2 * 10 ^ 10) (2 * 10 ^ 10) 100000 100000 0)) as Ho by (vm_compute; reflexivity).
  assert (amm_totalFeeMinusDistributions (mkt_amm market_funded) <= highest U128) as Hw
    by (vm_compute; congruence).
  assert (is_oracle_valid (mkt_amm market_funded) higher_oracle 5 usual_rails = ROk true) as Hv
    by (vm_compute; reflexivity).
  destruct (repeg_guarded market_funded m' higher_oracle 1001 5 cost usual_rails _ Hw Ho E)
    as (_ & _ & H).
  destruct (H Hv) as (before & after & mark & Hb & Ha & _ & Hlow & _).
  exists m', cost, before, after. split; [reflexivity |]. split; [exact Hb |]. split; [exact Ha |].
  intros Hlt. exact (proj1 (proj1 (Hlow Hlt))).
Defined.

Definition zero_curve : ExtendedCurveHistory :=
  mkHistory 0 (replicate 4 (mkExtendedCurveRecord 0 0 0 0 0 0 0 0 0 0 0 0 0 0 0 0 0 0 0 0)).

Lemma k_update_guarded_witness :
  exists ms' h', update_k sample_state sample_oracle 20 (11 * 10 ^ 17) 0 [market_long] zero_curve
      = ROk (ms', h') /\
    exists m', ms' = [m'] /\ amm_sqrtK (mkt_amm m') = 11 * 10 ^ 17.
Proof.
  destruct (update_k sample_state sample_oracle 20 (11 * 10 ^ 17) 0 [market_long] zero_curve)
    as [[ms' h'] | e] eqn:E; [| by vm_compute in E].
  do 2 eexists. split; [reflexivity |].
  destruct (k_update_guarded sample_state sample_oracle 20 (11 * 10 ^ 17) 0 [market_long] ms'
    zero_curve h' E) as (m & m' & cost & b & a & _ & Hms & _ & Hk & _).
  exists m'. split; [exact Hms | exact Hk].
Defined.

(** A k a ten-billionth higher: the smallest buy is given a negative amount of base. *)
Definition inverted : Market := mkMarket
  (with_curve rounded_curve (10 ^ 18) (10 ^ 18) (10 ^ 18 + 99000000) 1000) 0 0 0 true 0.
Lemma k_update_inverts_small_trades_witness :
  good (mkt_amm market0) /\
  (exists h', update_k sample_state sample_oracle 20 (10 ^ 18 + 99000000) 0 [market0] zero_curve
     = ROk ([inverted], h')) /\
  exists a acquired, swap_quote_asset (mkt_amm inverted) 1 (swap_direction_of LONG) 21 None = ROk (a, acquired) /\
    acquired < 0.
Proof.
  split; [by split; vm_compute |].
  destruct (update_k sample_state sample_oracle 20 (10 ^ 18 + 99000000) 0 [market0] zero_curve)
    as [[ms' h'] | e] eqn:E; [| by vm_compute in E].
  assert (ms' = [inverted]) as -> by (vm_compute in E; by injection E as <-).
  split; [by exists h' |].
  destruct (swap_quote_asset (mkt_amm inverted) 1 (swap_direction_of LONG) 21 None) as [[a acquired] | e] eqn:Es;
    [| by vm_compute in Es].
  exists a, acquired. split; [done |].
  destruct (k_update_inverts_small_trades sample_state sample_oracle 20 (10 ^ 18 + 99000000) 0 1 21
    [market0] [inverted] zero_curve h' market0 inverted None a acquired E eq_refl eq_refl Es)
    as (_ & _ & _ & H).
  apply H; vm_compute; congruence.
Defined.

(** Fees of zero, one user long, the oracle valid and above: raising the peg by a thousandth costs
    the market almost a dollar, and succeeds. *)
Lemma unpaid_repeg_accepted_witness :
  is_oracle_valid (mkt_amm unfunded_market) higher_oracle 5 usual_rails = ROk true /\
  amm_totalFeeMinusDistributions (mkt_amm unfunded_market) = 0 /\
  exists m', controller_repeg unfunded_market higher_oracle 1001 5 usual_rails = ROk (with_pool m' 0, 990099).
Proof.
  split; [by vm_compute |]. split; [reflexivity |].
  destruct (controller_repeg (with_pool unfunded_market (10 ^ 9)) higher_oracle 1001 5 usual_rails)
    as [[m' cost] | e] eqn:E; [| by vm_compute in E].
  assert (cost = 990099) as -> by (vm_compute in E; by injection E as _ <-).
  exists m'. assert (Hf : 0 <= 0 <= highest U128) by (split; vm_compute; congruence).
  assert (Hc : 0 <= 0 < 990099) by lia.
  exact (unpaid_repeg_accepted unfunded_market m' higher_oracle 1001 5 (10 ^ 9) 990099 usual_rails Hf Hc E).
Defined.

(** ** The stress test's timelines *)
Definition sample_events : list Simulated :=
  [mkSimulated 0 "noop" 12 0 true; mkSimulated 3 "buy" 99 0 false; mkSimulated 1 "sell" 7 2 true].

Definition sample_env : StressEnv := {|
  sv_chain := chain_with "positions";
  sv_token := mkStressTokens "wallet" "token program" (Ok 1461600) (Ok 2039280) 82 165;
  sv_programId := "program";
  sv_owner := fun i => "owner" +:+ pretty i;
  sv_usdcAccount := fun i => "usdc" +:+ pretty i;
  sv_positions := fun i => "positions" +:+ pretty i;
  sv_airdrop := fun _ => Ok tt;
  sv_subscribe := fun _ => Ok tt;
  sv_userSubscribe := fun _ => Ok tt;
  sv_send := fun _ => Ok tt;
  sv_sendSetup := fun _ => Ok tt;
  sv_oraclePrice := fun _ => Throw TypeError;
  sv_newBN := newBN_reference;
  sv_fromFile := csv_reference;
  sv_file := fun _ => None;
  sv_writeFile := fun _ _ => Ok tt
|}.

Lemma timeline_replayed_witness :
  exists content timeline,
    writeStressCSV (fun _ => Ok tt) (simulated_row <$> sample_events) = Ok (Some content) /\
    readStressCSV csv_reference (Some content) = Ok timeline /\
    exists row user_i, timeline !! 2%nat = Some row /\
      replayedEventParams sample_env 0 row = Ok (mkEventParams user_i 20 (Some "sell") 7).
Proof.
  destruct (writeStressCSV (fun _ => Ok tt) (simulated_row <$> sample_events)) as [[content |] | e] eqn:E;
    [| by vm_compute in E | by vm_compute in E].
  assert (Forall recordable sample_events) as Hr
    by (repeat constructor; vm_compute; (reflexivity || congruence)).
  destruct (timeline_replayed sample_env (fun _ => Ok tt) sample_events content csv_reference_law
    newBN_reference_law Hr E) as (timeline & Ht & _ & H).
  exists content, timeline. split; [reflexivity |]. split; [exact Ht |].
  destruct (H 2%nat (mkSimulated 1 "sell" 7 2 true) eq_refl) as (row & user_i & Hrow & Hp & _).
  exists row, user_i. split; [exact Hrow | exact Hp].
Defined.

(** ** Runs of the whole program *)

#[local] Instance good_decision a : Decision (good a).
Proof.
  refine (cast_if (decide (0 < amm_baseAssetReserve a /\
    amm_baseAssetReserve a * amm_quoteAssetReserve a <= invariant_k a /\
    invariant_k a < amm_baseAssetReserve a * (amm_quoteAssetReserve a + amm_minimumTradeSize a) /\
    amm_quoteAssetReserve a <= (amm_baseAssetReserve a + 1) * amm_minimumTradeSize a /\
    0 < amm_minimumTradeSize a /\ 0 < amm_pegMultiplier a <= 10000000000)));
    [abstract (constructor; tauto) | abstract (intros []; tauto)].
Defined.
#[local] Instance all_good_decision ms : Decision (all_good ms) := _.

Lemma set_up_careful :
  careful "token" Scenario.user_account Z.sqrt Scenario.new_exchange Scenario.set_up.
Proof.
  repeat (split; [split; [apply (bool_decide_unpack _); by vm_compute | by split; [by vm_compute |]] |]).
  exact Logic.I.
Qed.

Lemma set_up_old : Forall (fun t => typed_old t.2) Scenario.set_up.
Proof. repeat constructor. Qed.

Lemma values_fit_witness :
  starts Scenario.new_exchange /\
  (0 < head (pr_trades (Scenario.runs Scenario.set_up))) /\ typed (pr_trades (Scenario.runs Scenario.set_up)).
Proof.
  split; [exact scenario_starts |]. split; [vm_compute; reflexivity |].
  destruct (values_fit "token" Scenario.user_account Z.sqrt Scenario.new_exchange Scenario.set_up
    scenario_starts set_up_typed set_up_old) as (_ & _ & _ & _ & _ & Ht & _).
  exact Ht.
Defined.

Lemma fees_within_half_witness :
  exists m, js_index (pr_markets (Scenario.runs Scenario.spend_fees)) 0 = Some m /\
    amm_totalFee (mkt_amm m) = 1000000 /\
    0 <= amm_totalFeeWithdrawn (mkt_amm m) <= amm_totalFee (mkt_amm m) `quot` 2.
Proof.
  assert ((fun m => amm_totalFee (mkt_amm m)) <$> js_index (pr_markets (Scenario.runs Scenario.spend_fees)) 0
    = Some 1000000) as Hf by (vm_compute; reflexivity).
  destruct (js_index (pr_markets (Scenario.runs Scenario.spend_fees)) 0) as [m |] eqn:E; [| discriminate Hf].
  exists m. split; [reflexivity |]. split; [by injection Hf |].
  exact (fees_within_half "token" Scenario.user_account Z.sqrt Scenario.new_exchange Scenario.spend_fees 0 m
    scenario_starts spend_fees_typed E).
Defined.

Lemma books_are_kept_witness :
  exists m, js_index (pr_markets (Scenario.runs Scenario.set_up)) 0 = Some m /\
    mkt_openInterest m = 1 /\
    mkt_openInterest m = total 0 (ue_positions <$> pr_users (Scenario.runs Scenario.set_up)) open_count.
Proof.
  assert (mkt_openInterest <$> js_index (pr_markets (Scenario.runs Scenario.set_up)) 0 = Some 1) as Ho
    by (vm_compute; reflexivity).
  destruct (js_index (pr_markets (Scenario.runs Scenario.set_up)) 0) as [m |] eqn:E; [| discriminate Ho].
  exists m. split; [reflexivity |]. split; [by injection Ho |].
  pose proof (books_are_kept "token" Scenario.user_account Z.sqrt Scenario.new_exchange Scenario.set_up 0 m
    scenario_starts set_up_typed set_up_careful) as H. cbv zeta in H. exact (proj1 (proj2 (proj2 (proj2 (H E))))).
Defined.

(** Alice's trade, by Alice. *)
Definition funded_exchange : Protocol := Scenario.runs (take 4 Scenario.set_up).
#[local] Abbreviation her_trade := (OpenPosition "user alice" LONG (10 ^ 9) 0 0 false false).
#[local] Abbreviation traded := (
  exec "token" Scenario.user_account Z.sqrt (Scenario.signs "alice" 14 100) funded_exchange her_trade).

Lemma her_trade_typed : well_typed (Scenario.signs "alice" 14 100, her_trade).
Proof. split; [by vm_compute | repeat constructor; by vm_compute]. Qed.
Lemma authority_required_witness :
  exists p' ts, traded = ROk (p', ts) /\ length (pr_users p') = 1%nat /\
  forall e, e ∈ pr_users funded_exchange ->
    may_change (Scenario.signs "alice" 14 100) funded_exchange her_trade e \/
    exists e', e' ∈ pr_users p' /\ untouched e e'.
Proof.
  assert (match traded with ROk (p', _) => length (pr_users p') = 1%nat | RErr _ => False end) as Hl
    by (vm_compute; reflexivity).
  destruct traded as [[p' ts] | e] eqn:E; [| destruct Hl].
  exists p', ts. split; [reflexivity |]. split; [exact Hl |].
  refine (proj2 (authority_required "token" Scenario.user_account Z.sqrt (Scenario.signs "alice" 14 100)
    funded_exchange her_trade p' ts her_trade_typed E)).
Defined.

#[local] Abbreviation withdrawn := (
  exec "token" Scenario.user_account Z.sqrt (Scenario.signs "alice" 14 100) funded_exchange
    (WithdrawCollateral "user alice" 1000)).
Lemma transfers_authorised_witness :
  exists p' ts, withdrawn = ROk (p', ts) /\ ts = [CollateralVaultToUser 1000] /\
    Forall (may_order (Scenario.signs "alice" 14 100) funded_exchange (WithdrawCollateral "user alice" 1000)) ts.
Proof.
  assert (match withdrawn with ROk (_, ts) => ts = [CollateralVaultToUser 1000] | RErr _ => False end) as Hl
    by (vm_compute; reflexivity).
  destruct withdrawn as [[p' ts] | e] eqn:E; [| destruct Hl].
  exists p', ts. split; [reflexivity |]. split; [exact Hl |].
  exact (transfers_authorised _ _ _ _ _ _ p' ts E).
Defined.

Definition price_taker : Protocol :=
  run_protocol "token" Scenario.user_account Z.sqrt Scenario.new_exchange
    (take 2 Scenario.set_up ++ [(Scenario.signs "admin" 12 100, UpdateParameter DisableAdminControlsPrices)]).
Lemma price_control_given_up_witness :
  st_adminControlsPrices (pr_state price_taker) = false /\
  exists e, exec "token" Scenario.user_account Z.sqrt (Scenario.signs "admin" 15 100)
    (run_protocol "token" Scenario.user_account Z.sqrt price_taker (drop 2 Scenario.set_up))
    (MoveAmmPrice (2 * 10 ^ 18) (10 ^ 18) 0) = RErr e.
Proof.
  split; [by vm_compute |].
  apply (price_control_given_up "token" Scenario.user_account Z.sqrt price_taker (drop 2 Scenario.set_up)).
  by vm_compute.
Defined.

Lemma histories_reinitialised_witness :
  exists q', exec "token" Scenario.user_account Z.sqrt (Scenario.signs "admin" 15 100)
    (Scenario.runs Scenario.set_up) (InitializeHistory (mkHistoryKeys "1" "2" "3" "4" "5" "6")) = ROk (q', []) /\
    head (pr_trades q') = 0.
Proof.
  destruct (histories_reinitialised "token" Scenario.user_account Z.sqrt Scenario.new_exchange Scenario.set_up
    (Scenario.signs "admin" 15 100) (mkHistoryKeys "1" "2" "3" "4" "5" "6") scenario_starts) as (q' & H & [Hh _] & _).
  { by vm_compute. }
  exists q'. split; [exact H | exact Hh].
Defined.

(** Thirty-three updates of the curve: the next is number 33 again. *)
Definition old_update (id : Z) : CurveRecord :=
  mkCurveRecord 0 id 0 0 0 0 0 0 0 0 0 0 0 0 0 0 0 0.
Lemma migration_reuses_numbers_witness :
  exists h, update_curve_history (match record_all (mkHistory 0 (replicate 32 (old_update 0)))
      (replicate 33 old_update) with ROk old => old | RErr _ => mkHistory 0 [] end) "new"
      Scenario.new_state = ROk (update_state (SetExtendedCurveHistory "new") Scenario.new_state, h) /\
    next_record_id h = ROk 33.
Proof.
  destruct (record_all (mkHistory 0 (replicate 32 (old_update 0))) (replicate 33 old_update)) as [old | e] eqn:E;
    [| by vm_compute in E].
  destruct (migration_reuses_numbers (old_update 0) (replicate 33 old_update) old "new" Scenario.new_state)
    as (h & Hh & _ & Hn & _); [reflexivity | by apply Forall_replicate | by vm_compute | exact E |].
  exists h. split; [exact Hh | exact Hn].
Defined.

Lemma paused_refuses_witness :
  exists p' ts, exec "token" Scenario.user_account Z.sqrt (Scenario.signs "alice" 14 100)
      (Scenario.runs (take 4 Scenario.set_up ++ [(Scenario.signs "admin" 14 100, UpdateParameter (UpdateExchangePaused true))]))
      (DepositCollateral "user alice" 5) = ROk (p', ts) /\
    (st_exchangePaused (pr_state p') = true \/ "admin" = "alice").
Proof.
  destruct (exec "token" Scenario.user_account Z.sqrt (Scenario.signs "alice" 14 100)
      (Scenario.runs (take 4 Scenario.set_up ++ [(Scenario.signs "admin" 14 100, UpdateParameter (UpdateExchangePaused true))]))
      (DepositCollateral "user alice" 5)) as [[p' ts] | e] eqn:E; [| by vm_compute in E].
  exists p', ts. split; [reflexivity |].
  refine (proj2 (paused_refuses _ _ _ _ _ _ p' ts _ E)). by vm_compute.
Defined.

(** A decoded user account has the SDK's type. *)
Definition decoded_user : JsVal := VObject [
  ("authority", VKey "alice"); ("collateral", VBN 1000); ("cumulativeDeposits", VBN (-5));
  ("totalFeePaid", VBN 1); ("totalTokenDiscount", VBN 0); ("totalReferralReward", VBN 0);
  ("totalRefereeDiscount", VBN 0); ("positions", VKey "p"); ("padding0", VBN 0); ("padding1", VBN 0);
  ("padding2", VBN 0); ("padding3", VBN 0)]%string.
Lemma accounts_have_their_types_witness :
  anchor_decodes User_layout decoded_user /\ has_type missing UserAccount_ts decoded_user.
Proof.
  assert (anchor_decodes User_layout decoded_user) as H by (cbn; lia || (split_and!; lia || done)).
  split; [exact H |].
  apply (proj1 accounts_have_their_types "user"%string UserAccount_ts User_layout decoded_user); [| exact H].
  unfold account_types. do 2 right. left.
Defined.
